(* ===== verification/_CoqProject ===== *)
-Q . S2P
Prelude.v
RecvBuffer.v
Lock.v
WorkerThreadPool.v
PoolStart.v
System.v
Session.v
SessionThreads.v
SessionRaces.v
SessionProgress.v
SessionGroup.v
Endpoint.v
Server.v
EventLoop.v
DescriptorReuse.v
TestServer.v
Logger.v
RingBuffer.v
StressSession.v
PollThread.v
StressClient.v
Input.v
Renderer.v
Window.v
TestClient.v
Conversation.v
