(* ===== verification/Prelude.v ===== *)
(** * MyServerProject: the verification development

    The repository holds a TCP server library (src/lib-core), a stress client
    and a game front-end for Windows (src/exe-StressTest, src/exe-game), and
    a test server and client (tests/performance).  This development models them.

    ** How the program works

    [Server::Start] makes two epolls, a table of 5000 sessions, a pool of
    worker threads and a listening socket, and queues a [PollJob].  A worker
    takes jobs from the one queue, runs [Execute], and [Complete] if that
    returned true.  [PollJob] waits on the epoll and queues the job of each ready
    descriptor, then itself; [AcceptJob] takes clients into the session table and
    the epolls; each session has a [RecvJob], which drains its socket into a
    circular buffer and hands the bytes to the user's [OnRecv], and a [SendJob].
    [Server::Send] finds the session by its id and queues a packet on it, which
    the first sender writes out with [writev].  A logger stands beside all this.

    The stress client runs a [PollThread]: it connects hundreds of sessions, each of
    which keeps one PING packet going round, and serves them with [WSAPoll].  The
    game opens a window, whose procedure feeds a keyboard, and draws one texture a
    frame.  The test client sends a text and prints what comes back.

    ** The files

    - Prelude.v (this file): machine integers with their wrap-around, memory as a
      function of offsets ([segment], [store]), counting, the monad [M] of state
      with partiality, and the tactics [unwrap], [cmp_cases], [run], [len_lia].
    - RecvBuffer.v: Network/RecvBuffer.hpp.  [RecvBuffer.wf] is the invariant,
      [contents] the abstraction; [RecvBuffer.Queue] runs sequences of calls and
      refines them to a bounded queue.
    - Lock.v: include/core/Lock.hpp.  The class [LockObject] is what [LockGuard]
      takes, [Exclusive] what the other files rely on; [GuardedBlocks] shows that
      guarded blocks are atomic, which is why those files make one step of each.
    - WorkerThreadPool.v: WorkerThreadPool.{hpp,cpp} as a transition system of the
      workers, the callers of [AddJob] and the caller of [Stop], one step for each
      access to shared data; the [Execute] and [Complete] of a job return when the
      step says so, or not yet; [exec] runs a step, [step] states it as rules, and
      the invariants are proved by induction on [reachable].
    - PoolStart.v: the same pool's [Start] and [Stop] over the answers of [eventfd] and
      [pthread_create], failures included; [workers] is what a [Start] leaves running.
    - System.v: include/core/Types.hpp, the answers of the system calls and the
      log of the calls made.
    - Session.v: Network/Session.{hpp,cpp} and the session's jobs of
      ServerJob.{hpp,cpp}, over [World]: the session, the system and the address
      of its receive buffer.  [ServerView] is what a session uses of its server.
    - SessionThreads.v: one session under any number of threads.  A thread is a
      stack of [Frame]s, and [exec] makes the next access to shared data or call of
      the system.  [methods_are_schedules] ties this model to that of Session.v: its
      methods are schedules of the machine.
    - SessionRaces.v: what holds, and what can go wrong, over every schedule of
      SessionThreads.v; [access] states its accesses as rules.
    - SessionProgress.v: that every schedule of SessionThreads.v ends, by a
      lexicographic [measure] of the answers left and the accesses to come, and
      that only the system can make a thread wait ([waits]).
    - SessionGroup.v: Network/SessionGroup.{hpp,cpp}.  The table is generic in
      the session by the class [SessionSlot]; [client_step] is a client that keeps
      to the contract and [table_ok] the invariant that it then enjoys.
    - Endpoint.v: Network/Endpoint.{hpp,cpp}, byte by byte.
    - Server.v: Server.{hpp,cpp} with [PollJob], [SendPollJob] and [AcceptJob].
      The class [JobPool] is what the server uses of a pool; the pool of
      WorkerThreadPool.v is an instance.  [on_slot] runs a session's method on its
      slot of the table.
    - EventLoop.v: the server, its epoll, the queue and the workers in one
      transition system.  [Watch] is the interest list of the epoll, computed from
      the calls that the handlers of Server.v and Session.v log; [works] takes a
      job, runs one [Execute] or [Complete] or one turn of the accept loop
      ([handle]), and [step] adds one [Server::Send] of another thread; [Inv] is the
      invariant, [settles] what each session's method keeps to, [boots] the state
      [Start] leaves.
    - DescriptorReuse.v: the threads of one session, access by access, beside the
      accept job of its server, on one epoll: how a descriptor's number comes to be
      used again between the access that reads it and the call that uses it.
    - TestServer.v: tests/performance/test_server.cpp, on the event loop;
      [echoes] says what a session does with the messages of its client.
    - Logger.v: Logger.{hpp,cpp}.
    - RingBuffer.v: the stress client's RingBuffer.hpp, over the record of
      RecvBuffer.v; [stored] is what a write stores, split or not, and [as_stored]
      the calls of the queue that a sequence of calls amounts to.
    - StressSession.v: its Session.{hpp,cpp}, byte by byte, on a clock that is a
      stream; [pings_answered] says what a run of the receiving side must do.
    - PollThread.v: its PollThread.{hpp,cpp}.  The sessions lie in their table;
      [Event] is what happens to one client in a round.
    - StressClient.v: main.cpp and the thread it starts; [fits] says that the system's
      answers are possible in every round, [due] is the invariant of the closings.
    - Input.v: the game's Base/Input.{hpp,cpp}; [held], [pressed] and [released] say
      over the history of calls what the states mean.
    - Renderer.v: Base/Render/GDI, over the handles that GDI answers.
    - Window.v: Base/Window.{hpp,cpp}, Game/GameWindow.{hpp,cpp} and main.cpp, with the
      windows on a heap; [dispatched] is the invariant of the message loop.
    - TestClient.v: tests/performance/test_client.cpp.
    - Conversation.v: the test server and the test client together; [exchange] is one
      turn, in which each receives what the other sent.

    A member or method keeps its name; [Class_method] where two classes share one.
    Memory that C++ leaves uninitialised is an argument, called [raw].

    ** What is shown

    - Functional: the queue that the buffer implements (Write, Read, Peek, the
      sizes); what [RecvJob::Execute] and [Complete] do with the socket's bytes;
      what [DoSend] does when the packets are sent; [Start], [Stop], [Send],
      accepting and polling; the logger.
    - Invariants over every interleaving: no job is lost or run twice, wake-ups
      match sleepers, a stopped worker exits if its job returns and only then,
      guarded blocks are atomic.
    - The event loop, from [Start] on: a job is in one place at a time, so no two
      workers are in one session's receive job; and as long as only a session's own
      worker sends to it, nothing is forgotten: the poll, the listening socket and
      every open session are queued, at a worker or armed.
    - Threads on one session, interleaved at each access: the packets go out in the
      order queued, one thread at a time, the descriptor is closed once, and the
      values stay in their types and the buffer, and every run ends with each thread
      done or waiting for the system; but a packet can stay behind, a
      closed descriptor be written to or rearmed in the place of a new client's, and
      the end be reported twice or never.
    - The test server: what [main] starts stays up, and a session writes back every
      message its client sends, whole and in order.
    - The session table: ids round-trip, its capacity, and that a client within
      the contract always finds its own sessions.
    - Endpoints: version, port and address round-trip through both byte orders.
    - The stress client: its buffer, having a constructor that resets, answers every
      sequence of calls from its construction on as a queue that is handed what is
      really stored; PINGs cut anywhere are answered one for one;
      [DoRecv], [ConnectClients] and a round of [Loop] return whatever the system
      answers, and which sessions were made for which answers; which clients a round
      keeps, and how often it closes their sockets; a
      run of the whole program deletes every session it made.
    - The game: what the key states mean, what a frame does to every window, when the
      loop ends, what [Create] leaves.
    - The test client prints each echo once, its header arriving whole, and stays in
      its buffer while receiving; of a header that is cut off it prints a line that
      nobody sent; against the test server, over a network that cuts the streams anywhere but in
      the header of an echo, it prints its text once a turn, and every turn can be followed by another.
    - Faults, each a theorem about the code as it is: a pool that could start only some
      of its threads and is then stopped, a pool stopped while a job blocks, the split
      write, stale bytes in a reused slot, short writes, the late error paths, double delete,
      the index past the end, the unguarded test and the lost wake-up of the pool,
      [Start] without a listening socket, the uninitialised members; clients counted
      again at every poll; keys that are never released, the missing bitmap; the
      text printed without a terminator; the session that a full socket closes and
      that is never reported; the new client whose place in the epoll an old session
      takes.

    ** Bounds and fuel

    Loops on the answers of a system call ([recv], [writev], [accept]) run on as
    much fuel as there are answers left plus one: each turn but the last takes an
    answer, so the fuel never runs out, and a computation that asks for an answer
    beyond the list does not return ([None]), as a call that blocks.  The theorems
    give the answers and show that the computation returns.  [finish_AddJob] has 5
    steps because [AddJob] takes at most 4.  The packet loop of the stress client has
    one turn more than there are bytes, because a turn takes four of them at least;
    [poll_loop] has the six turns that its own counter allows; [receive] one for each
    byte of the message.

    ** Assumptions and what is left out

    The release build: [ASSERT] is empty (Lock.v treats both builds).  Outside
    PoolStart.v threads and eventfds are created successfully, and no signal handler
    interrupts the read of an eventfd.  The lock, eventfd and socket calls do what POSIX and Linux
    document; [inet_pton], [inet_ntop], [localtime_r] and the formats of [fmt] are
    parameters, and the clock is a list of readings.  A
    job is named by the session it belongs to.  Memory exhaustion is not modelled.
    The user's handlers are parameters; theorems that need them quiet say so.
    In EventLoop.v an [Execute], a [Complete], a turn of the accept loop and a [Send]
    are single steps, taken in any order.  Among the workers alone this hides
    nothing but the return from a [Complete] that has rearmed its descriptor: a session
    and its descriptor are touched by the one worker in its job, and by the accept job
    before that.  A [Send] of another thread can fall between two accesses
    of a job: that no session is forgotten, which depends on it, is stated of [works]
    (and of the test server, where no other thread sends), and DescriptorReuse.v shows
    what happens otherwise; the rest is stated of [step].  The races of threads on one
    session are those of SessionThreads.v, whose accesses are sequentially consistent
    and where the job of the send epoll, which nothing polls, is left out.  In
    EventLoop.v [epoll_ctl] fails only as it must ([ADD] of a descriptor
    that is there, [MOD] of one that is not), an armed descriptor may be ready at
    any time, [accept] gives descriptors that are not open, the server is not
    stopped, and sessions are not deleted, as no code of the library deletes any.

    Not modelled: the pixels that GDI draws, backtraces, the empty profiler and the
    container aliases, the unit tests, what the test server prints, and a network
    that loses a connection in the middle of an [exchange] or cuts the echo's header,
    which the client misreads (what it makes of a header cut off by the end of the
    connection is in TestClient.v).  The thread of the stress client shares only
    [mIsRunning] with [main], so its work is one block of [main]; what it reads of
    the flag is a list. *)

From stdpp Require Export prelude strings gmap.

#[global] Open Scope Z_scope.

(** ** Machine integers

    A C++ integer of width [w] is the [Z] it denotes; an operation that can
    leave the range goes through [wrap] (signed) or [uwrap] (unsigned). *)

Definition wrap (w z : Z) : Z := (z + 2 ^ (w - 1)) mod 2 ^ w - 2 ^ (w - 1).
Definition uwrap (w z : Z) : Z := z mod 2 ^ w.

Definition i32 (z : Z) : Z := wrap 32 z.
Definition i64 (z : Z) : Z := wrap 64 z.
Definition u8 (z : Z) : Z := uwrap 8 z.
Definition u16 (z : Z) : Z := uwrap 16 z.
Definition u64 (z : Z) : Z := uwrap 64 z.

Declare Scope cpp_scope.
Delimit Scope cpp_scope with cpp.

(** [int] arithmetic: [+] and [-] of the source on [Int32]. *)
Notation "a ⊕ b" := (i32 (a + b)) (at level 50, left associativity) : cpp_scope.
Notation "a ⊖ b" := (i32 (a - b)) (at level 50, left associativity) : cpp_scope.

Lemma wrap_small w z : 0 < w → - 2 ^ (w - 1) ≤ z < 2 ^ (w - 1) → wrap w z = z.
Proof.
  intros Hw Hz. unfold wrap.
  assert (2 ^ w = 2 * 2 ^ (w - 1)) as Hpow.
  { rewrite <- Z.pow_succ_r by lia. f_equal; lia. }
  rewrite Z.mod_small; lia.
Qed.

Lemma i32_small z : - 2147483648 ≤ z < 2147483648 → i32 z = z.
Proof. intros. apply wrap_small; lia. Qed.

Lemma i64_small z : - 2 ^ 63 ≤ z < 2 ^ 63 → i64 z = z.
Proof. intros. apply wrap_small; lia. Qed.

Lemma u64_small z : 0 ≤ z < 2 ^ 64 → u64 z = z.
Proof. intros. by apply Z.mod_small. Qed.

Lemma u16_small z : 0 ≤ z < 65536 → u16 z = z.
Proof. intros. by apply Z.mod_small. Qed.

Lemma wrap_range w z : 0 < w → - 2 ^ (w - 1) ≤ wrap w z < 2 ^ (w - 1).
Proof.
  intros Hw. unfold wrap.
  assert (2 ^ w = 2 * 2 ^ (w - 1)) as Hpow.
  { rewrite <- Z.pow_succ_r by lia. f_equal; lia. }
  assert (0 < 2 ^ (w - 1)) by (apply Z.pow_pos_nonneg; lia).
  pose proof (Z.mod_pos_bound (z + 2 ^ (w - 1)) (2 ^ w)). lia.
Qed.

(** Wrapping only looks at the value modulo [2 ^ w]. *)
Lemma wrap_add_mul w z k : wrap w (z + k * 2 ^ w) = wrap w z.
Proof.
  unfold wrap. replace (z + k * 2 ^ w + 2 ^ (w - 1)) with (z + 2 ^ (w - 1) + k * 2 ^ w) by lia.
  by rewrite Z_mod_plus_full.
Qed.

Lemma wrap_eq_mod w a b : 0 < w → wrap w a = wrap w b ↔ a `mod` 2 ^ w = b `mod` 2 ^ w.
Proof.
  intros Hw. assert (2 ^ w = 2 * 2 ^ (w - 1)) as Hpow.
  { rewrite <- Z.pow_succ_r by lia. f_equal; lia. }
  assert (0 < 2 ^ (w - 1)) by (apply Z.pow_pos_nonneg; lia).
  unfold wrap. split; intros Heq.
  - assert ((a + 2 ^ (w - 1)) `mod` 2 ^ w = (b + 2 ^ (w - 1)) `mod` 2 ^ w) as Hm by lia.
    replace a with (a + 2 ^ (w - 1) - 2 ^ (w - 1)) by lia.
    replace b with (b + 2 ^ (w - 1) - 2 ^ (w - 1)) by lia.
    rewrite (Zminus_mod (a + _)), (Zminus_mod (b + _)). by rewrite Hm.
  - rewrite (Zplus_mod a), (Zplus_mod b). by rewrite Heq.
Qed.

Lemma i32_idemp z : i32 (i32 z) = i32 z.
Proof. apply i32_small. exact (wrap_range 32 z eq_refl). Qed.

Lemma i32_add_l a b : i32 (i32 a + b) = i32 (a + b).
Proof.
  unfold i32. apply wrap_eq_mod; [done|]. rewrite Zplus_mod, (Zplus_mod a).
  do 2 f_equal. apply wrap_eq_mod; [done|]. apply i32_idemp.
Qed.

(** Drops every wrap whose argument [lia] can place in range, innermost
    first. *)
Ltac unwrap :=
  repeat match goal with
  | |- context [i32 ?x] => rewrite (i32_small x) by lia
  | |- context [i64 ?x] => rewrite (i64_small x) by lia
  | |- context [u64 ?x] => rewrite (u64_small x) by lia
  | |- context [u16 ?x] => rewrite (u16_small x) by lia
  end.

(** Splits every boolean comparison of integers the goal is stuck on. *)
Ltac cmp_cases :=
  repeat match goal with
  | |- context [if ?a <=? ?b then _ else _] => destruct (Z.leb_spec a b)
  | |- context [if ?a <? ?b then _ else _] => destruct (Z.ltb_spec a b)
  | |- context [if ?a =? ?b then _ else _] => destruct (Z.eqb_spec a b)
  end.

(** ** Lengths

    The database of the lengths of lists, and [lia] up to it. *)

Create Rewrite HintDb lens.
#[export] Hint Rewrite @length_app @length_fmap @length_take @length_drop @length_replicate @length_insert
  length_seqZ : lens.

Ltac len_lia := autorewrite with lens; cbn [length]; lia.

(** ** Linear memory

    A block of memory is the function from offsets to the values it holds
    (indeterminate bytes are the values of an arbitrary function). *)

Section Memory.
Context {A : Type}.
Implicit Types (m : Z → A) (l : list A).

(** The [n] cells from offset [o]. *)
Definition segment m (o n : Z) : list A := m <$> seqZ o n.

(** [m] with [l] stored from offset [o]. *)
Definition store m (o : Z) l : Z → A :=
  λ i, if o <=? i then default (m i) (l !! Z.to_nat (i - o)) else m i.

Lemma length_segment m o n : length (segment m o n) = Z.to_nat n.
Proof. unfold segment. by rewrite length_fmap, length_seqZ. Qed.

#[local] Hint Rewrite length_segment : lens.

Lemma segment_nil m o n : n ≤ 0 → segment m o n = [].
Proof. intros. unfold segment. by rewrite seqZ_nil. Qed.

Lemma segment_app m o a b :
  0 ≤ a → 0 ≤ b → segment m o (a + b) = segment m o a ++ segment m (o + a) b.
Proof. intros. unfold segment. by rewrite seqZ_app, fmap_app. Qed.

Lemma lookup_segment m o n i :
  (i < Z.to_nat n)%nat → segment m o n !! i = Some (m (o + Z.of_nat i)).
Proof.
  intros. unfold segment. rewrite list_lookup_fmap, lookup_seqZ_lt by lia. done.
Qed.

Lemma segment_ext m m' o n :
  (∀ i, o ≤ i < o + n → m i = m' i) → segment m o n = segment m' o n.
Proof.
  intros Hext. unfold segment. apply list_fmap_ext. intros i x Hx.
  apply lookup_seqZ in Hx as [-> ?]. apply Hext. lia.
Qed.

Lemma take_segment m o n k :
  0 ≤ k ≤ n → take (Z.to_nat k) (segment m o n) = segment m o k.
Proof.
  intros. replace n with (k + (n - k)) by lia. rewrite segment_app by lia.
  by rewrite take_app_length' by len_lia.
Qed.

Lemma drop_segment m o n k :
  0 ≤ k ≤ n → drop (Z.to_nat k) (segment m o n) = segment m (o + k) (n - k).
Proof.
  intros. replace n with (k + (n - k)) at 1 by lia. rewrite segment_app by lia.
  by rewrite drop_app_length' by len_lia.
Qed.

Lemma segment_store_disjoint m o l o' n :
  o' + n ≤ o ∨ o + Z.of_nat (length l) ≤ o' →
  segment (store m o l) o' n = segment m o' n.
Proof.
  intros Hd. apply segment_ext. intros i Hi. unfold store.
  destruct (Z.leb_spec o i); [|done].
  rewrite lookup_ge_None_2 by lia. done.
Qed.

Lemma segment_store m o l :
  segment (store m o l) o (Z.of_nat (length l)) = l.
Proof.
  apply list_eq. intros i.
  destruct (decide (i < length l)%nat) as [Hi|Hi].
  - rewrite lookup_segment by lia. unfold store.
    destruct (Z.leb_spec o (o + Z.of_nat i)); [|lia].
    replace (Z.to_nat (o + Z.of_nat i - o)) with i by lia.
    destruct (lookup_lt_is_Some_2 l i Hi) as [x ->]. done.
  - rewrite !lookup_ge_None_2; rewrite ?length_segment; [done|lia|lia].
Qed.

Lemma segment_store' m o l n :
  n = Z.of_nat (length l) → segment (store m o l) o n = l.
Proof. intros ->. apply segment_store. Qed.
End Memory.

#[export] Hint Rewrite @length_segment : lens.

(** ** Integers in memory

    The [n] bytes of an integer, least significant first. *)

Fixpoint to_bytes (n : nat) (z : Z) : list Z :=
  match n with
  | O => []
  | S n => u8 z :: to_bytes n (Z.shiftr z 8)
  end.

Fixpoint of_bytes (l : list Z) : Z :=
  match l with
  | [] => 0
  | b :: l => b + 256 * of_bytes l
  end.

Lemma length_to_bytes n z : length (to_bytes n z) = n.
Proof. revert z. induction n as [|n IH]; intros z; cbn; [done|by rewrite IH]. Qed.

Lemma of_to_bytes n z : of_bytes (to_bytes n z) = z `mod` 2 ^ (8 * Z.of_nat n).
Proof.
  revert z. induction n as [|n IH]; intros z; cbn [to_bytes of_bytes]; [by rewrite Z.mod_1_r|].
  rewrite IH, Z.shiftr_div_pow2 by lia. unfold u8, uwrap. change (2 ^ 8) with 256.
  replace (2 ^ (8 * Z.of_nat (S n))) with (256 * 2 ^ (8 * Z.of_nat n)).
  - rewrite Z.rem_mul_r by (try lia; apply Z.pow_nonzero; lia). lia.
  - replace (8 * Z.of_nat (S n)) with (8 + 8 * Z.of_nat n) by lia. by rewrite Z.pow_add_r by lia.
Qed.

Lemma wrap_mod w z : 0 < w → wrap w (z `mod` 2 ^ w) = wrap w z.
Proof. intros Hw. apply wrap_eq_mod; [done|]. apply Z.mod_mod. apply Z.pow_nonzero; lia. Qed.

#[export] Hint Rewrite length_to_bytes : lens.

(** ** Lists side by side *)

Lemma Forall2_impl_in {A B} (R R' : A → B → Prop) l k :
  Forall2 R l k → (∀ x y, x ∈ l → R x y → R' x y) → Forall2 R' l k.
Proof.
  induction 1 as [|x y l k Hxy _ IH]; intros Himp; constructor; [apply Himp; [by left|done]|].
  apply IH. intros x' y' Hin. apply Himp. by right.
Qed.

(** ** Counting *)

Section Count.
Context {A : Type}.
Implicit Types (f : A → bool) (l : list A).

Fixpoint countb f l : Z :=
  match l with
  | [] => 0
  | x :: l => (if f x then 1 else 0) + countb f l
  end.

Lemma countb_nonneg f l : 0 ≤ countb f l.
Proof. induction l as [|x l IH]; cbn; [lia|destruct (f x); lia]. Qed.

Lemma countb_app f l k : countb f (l ++ k) = countb f l + countb f k.
Proof. induction l as [|x l IH]; cbn; lia. Qed.

Lemma countb_insert f l i x y :
  l !! i = Some x →
  countb f (<[i := y]> l) =
    countb f l - (if f x then 1 else 0) + (if f y then 1 else 0).
Proof.
  revert i. induction l as [|z l IH]; intros [|i] Hi; simplify_eq/=; [lia|].
  rewrite (IH i Hi). lia.
Qed.

Lemma countb_lookup f l i x : l !! i = Some x → f x = true → 0 < countb f l.
Proof.
  revert i. induction l as [|z l IH]; intros [|i] Hi Hf; simplify_eq/=.
  - rewrite Hf. pose proof (countb_nonneg f l). lia.
  - pose proof (IH i Hi Hf). destruct (f z); lia.
Qed.
End Count.

(** ** State with partiality

    [M S A]: a computation on the state [S]; [None] is a computation that
    does not return (undefined behaviour, or a system call left unanswered). *)

Definition M (S A : Type) : Type := S → option (A * S).

#[export] Instance M_ret S : MRet (M S) := λ A a s, Some (a, s).
#[export] Instance M_bind S : MBind (M S) := λ A B f m s,
  match m s with Some (a, s') => f a s' | None => None end.

Section Monad.
Context {St : Type}.

Definition gets {A} (f : St → A) : M St A := λ s, Some (f s, s).
Definition modify (f : St → St) : M St unit := λ s, Some (tt, f s).
Definition undefined {A} : M St A := λ _, None.
Definition when (b : bool) (m : M St unit) : M St unit := if b then m else mret tt.

(** [do { body } while (true)]: the body returns [None] to go round again. *)
Fixpoint forever {A} (fuel : nat) (body : M St (option A)) : M St A :=
  match fuel with
  | O => undefined
  | S fuel => r ← body; match r with Some a => mret a | None => forever fuel body end
  end.

Lemma bind_eq {A B} (m : M St A) (f : A → M St B) s a s' :
  m s = Some (a, s') → (m ≫= f) s = f a s'.
Proof. intros H. unfold mbind, M_bind. by rewrite H. Qed.

Lemma bind_inv {A B} (m : M St A) (f : A → M St B) s b s'' :
  (m ≫= f) s = Some (b, s'') → ∃ a s', m s = Some (a, s') ∧ f a s' = Some (b, s'').
Proof. unfold mbind, M_bind. destruct (m s) as [[a s']|]; [|done]. by exists a, s'. Qed.

Lemma bind_same {A B} (m m' : M St A) (f : A → M St B) s s' :
  m s = m' s' → (m ≫= f) s = (m' ≫= f) s'.
Proof. intros H. unfold mbind, M_bind. by rewrite H. Qed.

Lemma gets_bind {A B} (g : St → A) (f : A → M St B) s : (gets g ≫= f) s = f (g s) s.
Proof. done. Qed.

Lemma modify_bind {B} (g : St → St) (f : unit → M St B) s : (modify g ≫= f) s = f tt (g s).
Proof. done. Qed.

Lemma forever_stop {A} fuel (body : M St (option A)) s a s' :
  body s = Some (Some a, s') → forever (S fuel) body s = Some (a, s').
Proof. intros H. simpl. by rewrite (bind_eq _ _ _ _ _ H). Qed.

Lemma forever_again {A} fuel (body : M St (option A)) s s' :
  body s = Some (None, s') → forever (S fuel) body s = forever fuel body s'.
Proof. intros H. simpl. by rewrite (bind_eq _ _ _ _ _ H). Qed.

(** A loop that ends goes round some times, and ends in a turn of its body. *)
Lemma forever_turns {A} fuel (body : M St (option A)) s a s' :
  forever fuel body s = Some (a, s') →
  ∃ s1, rtc (λ s t, body s = Some (None, t)) s s1 ∧ body s1 = Some (Some a, s').
Proof.
  revert s. induction fuel as [|fuel IH]; intros s; [done|]. cbn [forever].
  intros ([b|] & s1 & Hb & Hrest)%bind_inv.
  - injection Hrest as <- <-. by exists s.
  - destruct (IH s1 Hrest) as (s2 & Hs2 & Hlast). exists s2. split; [by eapply rtc_l|done].
Qed.
End Monad.

(** Runs the monadic code the goal is about as far as its state is known. *)
Ltac run := cbv [mbind M_bind mret M_ret gets modify when undefined]; cbn.
