(* ===== verification/RecvBuffer.v ===== *)
(** * The circular byte buffers

    [core::RecvBuffer] (lib-core, Network/RecvBuffer.hpp) and its textual twin
    [test::RingBuffer] (exe-StressTest, RingBuffer.hpp).  The element type is a
    parameter: [Byte] for the first, [char] for the second.  Pointers into
    [mBuffer] are offsets; a [memcpy] outside either object is [None]. *)

From S2P Require Import Prelude.

Open Scope cpp_scope.

Module RecvBuffer.

Definition BUFFER_SIZE : Z := 1024 * 1024.

Record RecvBuffer (A : Type) := mkRecvBuffer {
  mFront : Z;
  mRear : Z;
  mBuffer : Z → A
}.
Arguments mkRecvBuffer {A}.
Arguments mFront {A}.
Arguments mRear {A}.
Arguments mBuffer {A}.

Section Ring.
Context {A : Type}.
Implicit Types (b : RecvBuffer A) (l : list A).

(** [memcpy(mBuffer + d, src + s, n)]. *)
Definition memcpy_to (m : Z → A) (d : Z) (src : list A) (s n : Z) : option (Z → A) :=
  if (0 <=? n) && (0 <=? d) && (d + n <=? BUFFER_SIZE)
     && (0 <=? s) && (s + n <=? Z.of_nat (length src))
  then Some (store m d (take (Z.to_nat n) (drop (Z.to_nat s) src)))
  else None.

(** [memcpy(dst + d, mBuffer + s, n)]. *)
Definition memcpy_from (m : Z → A) (dst : list A) (d s n : Z) : option (list A) :=
  if (0 <=? n) && (0 <=? s) && (s + n <=? BUFFER_SIZE)
     && (0 <=? d) && (d + n <=? Z.of_nat (length dst))
  then Some (take (Z.to_nat d) dst ++ segment m s n ++ drop (Z.to_nat (d + n)) dst)
  else None.

(** [RecvBuffer() {}]: the constructor initialises nothing, so the object
    is the memory [raw] it is built on. *)
Definition construct (raw : RecvBuffer A) : RecvBuffer A := raw.

Definition Reset b : RecvBuffer A := mkRecvBuffer 0 0 (mBuffer b).

Definition GetBufferPtr b : Z := 0.
Definition GetFrontBufferPtr b : Z := mFront b.
Definition GetRearBufferPtr b : Z := mRear b.

Definition GetDirectWriteSize b : Z :=
  if mFront b <=? mRear b then BUFFER_SIZE ⊖ mRear b ⊖ 1
  else mFront b ⊖ mRear b ⊖ 1.

Definition GetDIrectReadSize b : Z :=
  if mFront b <=? mRear b then mRear b ⊖ mFront b else BUFFER_SIZE ⊖ mFront b.

Definition GetUsedSize b : Z :=
  if mFront b <=? mRear b then mRear b ⊖ mFront b
  else BUFFER_SIZE ⊖ mFront b ⊕ mRear b.

Definition GetRemainSize b : Z := BUFFER_SIZE ⊖ 1 ⊖ GetUsedSize b.

Definition MoveReadOffset b (moveSize : Z) : RecvBuffer A :=
  mkRecvBuffer ((mFront b ⊕ moveSize) `rem` BUFFER_SIZE) (mRear b) (mBuffer b).

Definition MoveWriteOffset b (moveSize : Z) : RecvBuffer A :=
  mkRecvBuffer (mFront b) ((mRear b ⊕ moveSize) `rem` BUFFER_SIZE) (mBuffer b).

Definition Write b (inputBuffer : list A) (size : Z) : option (bool * RecvBuffer A) :=
  let remainSize := GetRemainSize b in
  if remainSize <? size then Some (false, b)
  else
    let directWriteSize := GetDirectWriteSize b in
    buf ← (if size <=? directWriteSize
           then memcpy_to (mBuffer b) (mRear b) inputBuffer 0 size
           else
             buf ← memcpy_to (mBuffer b) (mRear b) inputBuffer 0 directWriteSize;
             memcpy_to buf 0 inputBuffer directWriteSize (size ⊖ directWriteSize));
    Some (true, mkRecvBuffer (mFront b) ((mRear b ⊕ size) `rem` BUFFER_SIZE) buf).

Definition Peek b (readBuffer : list A) (size : Z) : option (Z * list A) :=
  let usedSize := GetUsedSize b in
  let peekSize := if usedSize <=? size then usedSize else size in
  let directReadSize := GetDIrectReadSize b in
  out ← (if peekSize <=? directReadSize
         then memcpy_from (mBuffer b) readBuffer 0 (mFront b) peekSize
         else
           out ← memcpy_from (mBuffer b) readBuffer 0 (mFront b) directReadSize;
           memcpy_from (mBuffer b) out directReadSize 0 (peekSize ⊖ directReadSize));
  Some (peekSize, out).

Definition Read b (readBuffer : list A) (size : Z) : option (Z * list A * RecvBuffer A) :=
  '(peekSize, out) ← Peek b readBuffer size;
  Some (peekSize, out,
        mkRecvBuffer ((mFront b ⊕ peekSize) `rem` BUFFER_SIZE) (mRear b) (mBuffer b)).

(** [recv(fd, GetRearBufferPtr(), ...)] storing [data], then
    [MoveWriteOffset(data size)]: the way the sockets fill the buffer. *)
Definition recv_into b (data : list A) : RecvBuffer A :=
  MoveWriteOffset
    (mkRecvBuffer (mFront b) (mRear b) (store (mBuffer b) (GetRearBufferPtr b) data))
    (Z.of_nat (length data)).

(** ** Abstraction: the bytes waiting to be read *)

Definition wf b : Prop := 0 ≤ mFront b < BUFFER_SIZE ∧ 0 ≤ mRear b < BUFFER_SIZE.

Definition contents b : list A :=
  if mFront b <=? mRear b then segment (mBuffer b) (mFront b) (mRear b - mFront b)
  else segment (mBuffer b) (mFront b) (BUFFER_SIZE - mFront b) ++ segment (mBuffer b) 0 (mRear b).

Definition used b : Z := Z.of_nat (length (contents b)).
End Ring.

(** [lia] with the buffer size and the sizes unfolded and every wrap removed. *)
Ltac ring_unfold :=
  unfold wf, used, GetRemainSize, GetUsedSize, GetDirectWriteSize, GetDIrectReadSize,
    GetFrontBufferPtr, GetRearBufferPtr, BUFFER_SIZE in *; cbn [mFront mRear mBuffer] in *.
Ltac ring_lia := ring_unfold; cmp_cases; first [lia | unwrap; lia].

Section Facts.
Context {A : Type}.
Implicit Types (b : RecvBuffer A) (l : list A).

Lemma used_eq b : wf b → GetUsedSize b = used b.
Proof.
  intros Hwf. unfold used, contents. destruct (Z.leb_spec (mFront b) (mRear b)) as [H|H].
  - rewrite length_segment. ring_lia.
  - rewrite length_app, !length_segment. ring_lia.
Qed.

Lemma used_bounds b : wf b → 0 ≤ used b < BUFFER_SIZE.
Proof. intros Hwf. rewrite <- used_eq by done. ring_lia. Qed.

Lemma remain_eq b : wf b → GetRemainSize b = BUFFER_SIZE - 1 - used b.
Proof. intros Hwf. rewrite <- used_eq by done. ring_lia. Qed.

Lemma direct_write_le_remain b : wf b → 0 ≤ GetDirectWriteSize b ≤ GetRemainSize b.
Proof. intros Hwf. ring_lia. Qed.

Lemma direct_read_le_used b : wf b → 0 ≤ GetDIrectReadSize b ≤ GetUsedSize b.
Proof. intros Hwf. ring_lia. Qed.

Lemma advance_index x n :
  0 ≤ x < BUFFER_SIZE → 0 ≤ n ≤ BUFFER_SIZE →
  (x ⊕ n) `rem` BUFFER_SIZE = if x + n <? BUFFER_SIZE then x + n else x + n - BUFFER_SIZE.
Proof.
  intros Hx Hn. unfold BUFFER_SIZE in *. unwrap.
  rewrite Z.rem_mod_nonneg by lia. symmetry. cmp_cases.
  - apply Z.mod_unique with 0; lia.
  - apply Z.mod_unique with 1; lia.
Qed.

(** [store] followed by the new rear: what one direct copy of [l] at the
    rear does to the waiting bytes. *)
Lemma contents_append b l :
  wf b → Z.of_nat (length l) ≤ GetDirectWriteSize b →
  contents (mkRecvBuffer (mFront b) ((mRear b ⊕ Z.of_nat (length l)) `rem` BUFFER_SIZE)
              (store (mBuffer b) (mRear b) l)) = contents b ++ l.
Proof.
  intros Hwf Hl.
  assert (mRear b + Z.of_nat (length l) < BUFFER_SIZE) as Hrear by (revert Hl; ring_lia).
  rewrite advance_index by (revert Hl; ring_lia).
  rewrite (proj2 (Z.ltb_lt _ _) Hrear).
  unfold contents; cbn [mFront mRear mBuffer].
  destruct (Z.leb_spec (mFront b) (mRear b)) as [H|H].
  - destruct (Z.leb_spec (mFront b) (mRear b + Z.of_nat (length l))); [|lia].
    replace (mRear b + Z.of_nat (length l) - mFront b)
      with (mRear b - mFront b + Z.of_nat (length l)) by lia.
    rewrite segment_app by lia. f_equal; [apply segment_store_disjoint; lia|].
    replace (mFront b + (mRear b - mFront b)) with (mRear b) by lia. apply segment_store.
  - assert (mRear b + Z.of_nat (length l) < mFront b) by (revert Hl; ring_lia).
    destruct (Z.leb_spec (mFront b) (mRear b + Z.of_nat (length l))); [lia|].
    rewrite segment_app by (ring_unfold; lia). rewrite <- app_assoc. f_equal; [|f_equal].
    + apply segment_store_disjoint. ring_unfold; lia.
    + apply segment_store_disjoint. lia.
    + rewrite Z.add_0_l. apply segment_store.
Qed.

Lemma wf_append b n (m : Z → A) :
  wf b → 0 ≤ n ≤ GetRemainSize b →
  wf (mkRecvBuffer (mFront b) ((mRear b ⊕ n) `rem` BUFFER_SIZE) m).
Proof.
  intros Hwf Hn. split; [apply Hwf|]. cbn [mRear].
  assert (n ≤ BUFFER_SIZE) by (revert Hn; ring_lia).
  rewrite advance_index by (ring_unfold; lia).
  revert Hn. ring_lia.
Qed.

Lemma contents_advance b n :
  wf b → 0 ≤ n ≤ used b →
  wf (MoveReadOffset b n) ∧ contents (MoveReadOffset b n) = drop (Z.to_nat n) (contents b).
Proof.
  intros Hwf Hn. pose proof (used_bounds b Hwf) as Hub. rewrite <- used_eq in Hn, Hub by done.
  unfold MoveReadOffset, wf, contents; cbn [mFront mRear mBuffer].
  rewrite advance_index by (ring_unfold; lia).
  revert Hn. ring_unfold. destruct (Z.ltb_spec (mFront b + n) (1024 * 1024)).
  all: cmp_cases; unwrap; intros Hn; split; try lia.
  - rewrite drop_segment by lia. f_equal; lia.
  - rewrite drop_app_le by len_lia. rewrite drop_segment by lia.
    f_equal; [f_equal; lia].
  - rewrite drop_app_ge by len_lia. rewrite length_segment.
    replace (Z.to_nat n - Z.to_nat (1024 * 1024 - mFront b))%nat
      with (Z.to_nat (mFront b + n - 1024 * 1024)) by lia.
    rewrite drop_segment by lia. f_equal; lia.
Qed.

Lemma memcpy_to_ok (m : Z → A) d src s n :
  0 ≤ n → 0 ≤ d → d + n ≤ BUFFER_SIZE → 0 ≤ s → s + n ≤ Z.of_nat (length src) →
  memcpy_to m d src s n = Some (store m d (take (Z.to_nat n) (drop (Z.to_nat s) src))).
Proof.
  intros. unfold memcpy_to.
  repeat match goal with |- context [?a <=? ?b] => rewrite (proj2 (Z.leb_le a b)) by lia end.
  done.
Qed.

Lemma memcpy_from_ok (m : Z → A) dst d s n :
  0 ≤ n → 0 ≤ s → s + n ≤ BUFFER_SIZE → 0 ≤ d → d + n ≤ Z.of_nat (length dst) →
  memcpy_from m dst d s n =
    Some (take (Z.to_nat d) dst ++ segment m s n ++ drop (Z.to_nat (d + n)) dst).
Proof.
  intros. unfold memcpy_from.
  repeat match goal with |- context [?a <=? ?b] => rewrite (proj2 (Z.leb_le a b)) by lia end.
  done.
Qed.

(** The bytes [Write] really appends to the waiting ones. *)
Definition written b l (size : Z) : list A :=
  let direct := GetDirectWriteSize b in
  if size <=? direct then take (Z.to_nat size) l
  else take (Z.to_nat direct) l ++ mBuffer b (BUFFER_SIZE - 1)
       :: take (Z.to_nat (size - direct - 1)) (drop (Z.to_nat direct) l).

Lemma contents_wrapped b l size :
  let direct := GetDirectWriteSize b in
  wf b → direct < size ≤ GetRemainSize b → size ≤ Z.of_nat (length l) →
  contents (mkRecvBuffer (mFront b) ((mRear b ⊕ size) `rem` BUFFER_SIZE)
    (store (store (mBuffer b) (mRear b) (take (Z.to_nat direct) l)) 0
       (take (Z.to_nat (size - direct)) (drop (Z.to_nat direct) l))))
  = contents b ++ written b l size.
Proof.
  intros direct Hwf Hsize Hl. pose proof (direct_write_le_remain b Hwf) as Hd0. fold direct in Hd0.
  assert (mFront b ≤ mRear b ∧ direct = BUFFER_SIZE - 1 - mRear b) as [Hfr Hd]
    by (revert Hsize; unfold direct; ring_lia).
  assert (GetRemainSize b = BUFFER_SIZE - 1 - (mRear b - mFront b)) as Hrem by (clear Hd0 Hsize Hd; clear direct; ring_lia).
  unfold written. fold direct. rewrite (proj2 (Z.leb_gt _ _) (proj1 Hsize)).
  rewrite advance_index by (revert Hsize; ring_unfold; lia).
  unfold contents. cbn [mFront mRear mBuffer]. rewrite (proj2 (Z.leb_le _ _) Hfr).
  set (last := take (Z.to_nat (size - direct)) _).
  assert (Z.of_nat (length last) = size - direct) as Hlast
    by (unfold last; rewrite length_take, length_drop; ring_unfold; lia).
  rewrite (proj2 (Z.ltb_ge _ _)) by lia.
  rewrite (proj2 (Z.leb_gt (mFront b) _)) by lia.
  replace (BUFFER_SIZE - mFront b) with ((mRear b - mFront b) + (direct + 1)) by lia.
  rewrite segment_app, segment_app by (ring_unfold; lia).
  replace (mFront b + (mRear b - mFront b)) with (mRear b) by lia.
  rewrite !(segment_store_disjoint _ 0) by lia.
  rewrite segment_store_disjoint by lia.
  rewrite segment_store' by len_lia.
  rewrite segment_store_disjoint by len_lia.
  replace (mRear b + size - BUFFER_SIZE) with (size - direct - 1) by lia.
  rewrite <- !app_assoc. do 2 f_equal. replace (mRear b + direct) with (BUFFER_SIZE - 1) by lia.
  change (segment (mBuffer b) (BUFFER_SIZE - 1) 1) with [mBuffer b (BUFFER_SIZE - 1)].
  cbn [app]. f_equal.
  rewrite <- (take_segment _ 0 (size - direct) (size - direct - 1)) by lia.
  rewrite segment_store' by lia. unfold last. rewrite take_take. f_equal. lia.
Qed.

Lemma recv_into_spec b l :
  wf b → Z.of_nat (length l) ≤ GetDirectWriteSize b →
  wf (recv_into b l) ∧ contents (recv_into b l) = contents b ++ l.
Proof.
  intros Hwf Hl. pose proof (direct_write_le_remain b Hwf).
  split; [apply (wf_append b); [done|lia]|exact (contents_append b l Hwf Hl)].
Qed.

Lemma direct_write_eq b :
  wf b → GetDirectWriteSize b =
    if mFront b <=? mRear b then BUFFER_SIZE - mRear b - 1 else mFront b - mRear b - 1.
Proof. intros Hwf. ring_lia. Qed.

Lemma direct_after_recv b l :
  wf b → Z.of_nat (length l) ≤ GetDirectWriteSize b →
  GetDirectWriteSize (recv_into b l) = GetDirectWriteSize b - Z.of_nat (length l).
Proof.
  intros Hwf Hl. destruct (recv_into_spec b l Hwf Hl) as [Hwf' _].
  rewrite direct_write_eq in Hl |- * by done. rewrite direct_write_eq by done.
  unfold recv_into, MoveWriteOffset. cbn [mFront mRear].
  assert (mRear b + Z.of_nat (length l) < BUFFER_SIZE) as Hr
    by (destruct Hwf; revert Hl; cmp_cases; lia).
  rewrite advance_index by (ring_unfold; lia). rewrite (proj2 (Z.ltb_lt _ _) Hr).
  revert Hl. cmp_cases; lia.
Qed.

Lemma Reset_spec b : wf (Reset b) ∧ contents (Reset b) = [].
Proof. split; [by repeat split|done]. Qed.

(** The unread prefix a reader is handed by [GetFrontBufferPtr] and
    [GetDIrectReadSize] is a prefix of the waiting bytes. *)
Lemma direct_read_prefix b :
  wf b → segment (mBuffer b) (GetFrontBufferPtr b) (GetDIrectReadSize b)
         = take (Z.to_nat (GetDIrectReadSize b)) (contents b).
Proof.
  intros Hwf. unfold contents. ring_unfold. cmp_cases; unwrap.
  - by rewrite take_ge by len_lia.
  - by rewrite take_app_length' by len_lia.
Qed.

Lemma Peek_ok b out size :
  wf b → 0 ≤ size ≤ Z.of_nat (length out) →
  Peek b out size = Some (used b `min` size,
    take (Z.to_nat size) (contents b) ++ drop (Z.to_nat (used b `min` size)) out).
Proof.
  intros Hwf Hsize. unfold Peek. rewrite used_eq by done.
  pose proof (used_bounds b Hwf) as Hub. pose proof (direct_read_le_used b Hwf) as Hd.
  rewrite used_eq in Hd by done.
  replace (if used b <=? size then used b else size) with (used b `min` size) by (cmp_cases; lia).
  set (n := used b `min` size). assert (0 ≤ n ≤ used b ∧ n ≤ size) as [Hn Hns] by lia.
  replace (take (Z.to_nat size) (contents b)) with (take (Z.to_nat n) (contents b)).
  2:{ destruct (decide (used b ≤ size)); [|f_equal; lia].
      rewrite !take_ge; [done|unfold used in *; lia|unfold used in *; lia]. }
  assert (mFront b + GetDIrectReadSize b ≤ BUFFER_SIZE) by ring_lia.
  destruct (Z.leb_spec n (GetDIrectReadSize b)) as [Hle|Hgt].
  - rewrite memcpy_from_ok by (try apply Hwf; lia). cbn. do 2 f_equal.
    rewrite <- (take_segment _ _ (GetDIrectReadSize b)) by lia.
    pose proof (direct_read_prefix b Hwf) as Hp. unfold GetFrontBufferPtr in Hp.
    change (take (Z.to_nat 0) out) with (@nil A). cbn [app]. rewrite Z.add_0_l.
    f_equal. rewrite Hp, take_take. f_equal. lia.
  - set (d := GetDIrectReadSize b) in *.
    assert (contents b = segment (mBuffer b) (mFront b) d ++ segment (mBuffer b) 0 (mRear b)
            ∧ used b = d + mRear b) as [Hc Hu].
    { unfold contents. revert Hgt Hn. unfold d. rewrite <- used_eq by done.
      ring_unfold. cmp_cases; unwrap; intros; [lia|]. split; [done|lia]. }
    rewrite memcpy_from_ok by (try apply Hwf; lia). cbn.
    rewrite i32_small by (unfold BUFFER_SIZE in *; lia).
    assert (Z.of_nat (length (segment (mBuffer b) (mFront b) d)) = d) as Hlen
      by len_lia.
    rewrite memcpy_from_ok.
    2,3,4,5: destruct Hwf; lia.
    2: rewrite !length_app, length_drop; lia.
    cbn. do 2 f_equal. rewrite Hc.
    change (take (Z.to_nat 0) out) with (@nil A). cbn [app]. rewrite Z.add_0_l.
    rewrite take_app_length' by lia.
    rewrite (take_app_ge _ _ (Z.to_nat n)) by lia.
    rewrite <- app_assoc. f_equal. f_equal.
    + rewrite <- (take_segment _ 0 (mRear b)) by lia. f_equal. lia.
    + rewrite drop_app_ge by lia. rewrite drop_drop. f_equal. lia.
Qed.

Lemma Read_ok b out size :
  wf b → 0 ≤ size ≤ Z.of_nat (length out) →
  Read b out size = Some (used b `min` size,
    take (Z.to_nat size) (contents b) ++ drop (Z.to_nat (used b `min` size)) out,
    MoveReadOffset b (used b `min` size)).
Proof. intros Hwf Hsize. unfold Read. by rewrite Peek_ok. Qed.

Lemma Write_ok b l size :
  wf b → 0 ≤ size ≤ Z.of_nat (length l) → size ≤ GetRemainSize b →
  ∃ b', Write b l size = Some (true, b') ∧ wf b' ∧ contents b' = contents b ++ written b l size.
Proof.
  intros Hwf Hsize Hrem. pose proof (direct_write_le_remain b Hwf) as Hd.
  unfold Write, written. rewrite (proj2 (Z.ltb_ge _ _)) by lia.
  destruct (Z.leb_spec size (GetDirectWriteSize b)) as [Hle|Hgt].
  - assert (mRear b + size ≤ BUFFER_SIZE) by (revert Hle; ring_lia).
    rewrite memcpy_to_ok by (try apply Hwf; lia). eexists. split; [done|].
    split; [apply (wf_append b); [done|lia]|].
    pose proof (contents_append b (take (Z.to_nat size) l) Hwf) as Ha.
    rewrite length_take in Ha.
    replace (Z.of_nat (Z.to_nat size `min` length l)) with size in Ha by lia.
    by apply Ha.
  - assert (mRear b + GetDirectWriteSize b ≤ BUFFER_SIZE ∧ size - GetDirectWriteSize b ≤ BUFFER_SIZE)
      by (revert Hgt Hrem; ring_lia).
    rewrite memcpy_to_ok by (try apply Hwf; lia). cbn.
    rewrite (i32_small (size - GetDirectWriteSize b)) by (unfold BUFFER_SIZE in *; lia).
    rewrite memcpy_to_ok by lia. eexists. split; [done|].
    split; [apply (wf_append b); [done|lia]|].
    pose proof (contents_wrapped b l size Hwf) as Hc. cbn in Hc. unfold written in Hc.
    rewrite (proj2 (Z.leb_gt size _)) in Hc by lia. apply Hc; lia.
Qed.

(** A write that is not split is a receive of the same bytes. *)
Lemma Write_direct b l :
  wf b → Z.of_nat (length l) ≤ GetDirectWriteSize b →
  Write b l (Z.of_nat (length l)) = Some (true, recv_into b l).
Proof.
  intros Hwf Hl. pose proof (direct_write_le_remain b Hwf). unfold Write.
  rewrite (proj2 (Z.ltb_ge _ _)), (proj2 (Z.leb_le _ _)) by lia.
  assert (mRear b + Z.of_nat (length l) ≤ BUFFER_SIZE) by (revert Hl; ring_lia).
  rewrite memcpy_to_ok by (try apply Hwf; lia). cbn.
  change (drop (Z.to_nat 0) l) with l. by rewrite Nat2Z.id, firstn_all.
Qed.

Lemma written_direct b l size : size ≤ GetDirectWriteSize b → written b l size = take (Z.to_nat size) l.
Proof. intros H. unfold written. by rewrite (proj2 (Z.leb_le _ _) H). Qed.

End Facts.

(** ** The abstract bounded queue *)

Module Queue.
Section Queue.
Context {A : Type}.

Inductive op :=
  | OpWrite (data : list A)      (* Write(data, its size) *)
  | OpRead (out : list A)        (* Read(out, its size) *)
  | OpPeek (out : list A)        (* Peek(out, its size) *)
  | OpRecv (data : list A)       (* recv into the rear, MoveWriteOffset *)
  | OpReset.

Inductive reply := RWrite (ok : bool) | RRead (data : list A) | RNone.

Definition capacity : Z := BUFFER_SIZE - 1.

(** What a client means: a FIFO of at most [capacity] elements. *)
Definition step (o : op) (q : list A) : reply * list A :=
  match o with
  | OpWrite data =>
      if capacity <? Z.of_nat (length q + length data) then (RWrite false, q)
      else (RWrite true, q ++ data)
  | OpRead out => (RRead (take (length out) q), drop (length out) q)
  | OpPeek out => (RRead (take (length out) q), q)
  | OpRecv data => (RNone, q ++ data)
  | OpReset => (RNone, [])
  end.

Definition exec (o : op) (b : RecvBuffer A) : option (reply * RecvBuffer A) :=
  match o with
  | OpWrite data =>
      '(ok, b') ← Write b data (Z.of_nat (length data)); Some (RWrite ok, b')
  | OpRead out =>
      '(n, out', b') ← Read b out (Z.of_nat (length out));
      Some (RRead (take (Z.to_nat n) out'), b')
  | OpPeek out =>
      '(n, out') ← Peek b out (Z.of_nat (length out));
      Some (RRead (take (Z.to_nat n) out'), b)
  | OpRecv data => Some (RNone, recv_into b data)
  | OpReset => Some (RNone, Reset b)
  end.

(** The operation does not have to be split at the end of the array. *)
Definition unsplit (o : op) (b : RecvBuffer A) : Prop :=
  match o with
  | OpWrite data =>
      Z.of_nat (length data) ≤ GetDirectWriteSize b ∨ GetRemainSize b < Z.of_nat (length data)
  | OpRecv data => Z.of_nat (length data) ≤ GetDirectWriteSize b
  | _ => True
  end.

Fixpoint steps (os : list op) (q : list A) : list reply * list A :=
  match os with
  | [] => ([], q)
  | o :: os => let '(r, q) := step o q in let '(rs, q) := steps os q in (r :: rs, q)
  end.

Fixpoint execs (os : list op) (b : RecvBuffer A) : option (list reply * RecvBuffer A) :=
  match os with
  | [] => Some ([], b)
  | o :: os => '(r, b) ← exec o b; '(rs, b) ← execs os b; Some (r :: rs, b)
  end.

Fixpoint unsplits (os : list op) (b : RecvBuffer A) : Prop :=
  match os with
  | [] => True
  | o :: os => unsplit o b ∧ ∀ r b', exec o b = Some (r, b') → unsplits os b'
  end.

(** The elements a reader finds in front of its destination. *)
Lemma peeked_prefix (b : RecvBuffer A) (out : list A) :
  take (Z.to_nat (used b `min` Z.of_nat (length out)))
    (take (length out) (contents b) ++ drop (Z.to_nat (used b `min` Z.of_nat (length out))) out)
  = take (length out) (contents b).
Proof. unfold used. rewrite take_app_length' by len_lia. done. Qed.

Lemma exec_refines o b :
  wf b → unsplit o b →
  ∃ r b', exec o b = Some (r, b') ∧ wf b' ∧ step o (contents b) = (r, contents b').
Proof.
  intros Hwf Hu. destruct o as [data|out|out|data|]; cbn in *.
  - rewrite remain_eq in Hu by done. fold (used b) in *.
    pose proof (used_bounds b Hwf). unfold used, capacity in *.
    destruct (Z.ltb_spec (BUFFER_SIZE - 1) (Z.of_nat (length (contents b) + length data))) as [Hlt|Hge].
    + exists (RWrite false), b. split; [|done]. unfold Write.
      rewrite remain_eq by done. unfold used. rewrite (proj2 (Z.ltb_lt _ _)) by lia. done.
    + destruct (Write_ok b data (Z.of_nat (length data)) Hwf) as (b' & Hw & Hwf' & Hc);
        [lia|rewrite remain_eq by done; unfold used; lia|].
      rewrite Hw. exists (RWrite true), b'. split; [done|]. split; [done|].
      rewrite Hc, written_direct by lia. by rewrite Nat2Z.id, firstn_all.
  - rewrite Read_ok by lia || done. cbn.
    pose proof (used_bounds b Hwf). eexists _, _. split; [done|].
    destruct (contents_advance b (used b `min` Z.of_nat (length out)) Hwf) as [? Hc]; [lia|].
    split; [done|]. rewrite Hc, Nat2Z.id. rewrite peeked_prefix. f_equal. unfold used in *.
    destruct (decide (length (contents b) ≤ length out)%nat).
    + rewrite !drop_ge by lia. done.
    + f_equal. lia.
  - rewrite Peek_ok by lia || done. cbn. eexists _, _. split; [done|]. split; [done|].
    by rewrite Nat2Z.id, peeked_prefix.
  - destruct (recv_into_spec b data Hwf Hu) as [? Hc].
    exists RNone, (recv_into b data). by rewrite Hc.
  - destruct (Reset_spec b) as [? Hc]. exists RNone, (Reset b). by rewrite Hc.
Qed.

Lemma execs_refines os b :
  wf b → unsplits os b →
  ∃ rs b', execs os b = Some (rs, b') ∧ wf b' ∧ steps os (contents b) = (rs, contents b').
Proof.
  revert b. induction os as [|o os IH]; intros b Hwf Hu; [by exists [], b|].
  destruct Hu as [Ho Hos]. destruct (exec_refines o b Hwf Ho) as (r & b1 & He & Hwf1 & Hs).
  destruct (IH b1 Hwf1 (Hos _ _ He)) as (rs & b2 & He2 & Hwf2 & Hs2).
  exists (r :: rs), b2. cbn. rewrite He. cbn. by rewrite He2, Hs, Hs2.
Qed.
End Queue.
  Arguments op : clear implicits.
  Arguments reply : clear implicits.
End Queue.

(** A list shifted by one, its first cell filled with [x] and its last
    element lost, is the list again only when it is made of [x] alone. *)
Lemma shifted_constant {A : Type} (x : A) (l : list A) n :
  length l = n → x :: take (n - 1) l = l → l = replicate n x.
Proof.
  intros <-. revert x. induction l as [|y l IH]; intros x Heq; [done|].
  cbn [length replicate] in *. rewrite Nat.sub_succ, Nat.sub_0_r in Heq.
  injection Heq as -> Heq. f_equal. destruct l as [|z l]; [done|].
  cbn [length take] in Heq. injection Heq as -> Heq. apply IH.
  cbn [length]. rewrite Nat.sub_succ, Nat.sub_0_r. by rewrite Heq.
Qed.

(** ** Properties *)

Section Properties.
Context {A : Type}.
Implicit Types (b : RecvBuffer A) (l : list A).

(** C1: on a well-formed buffer, any sequence of [Write], [Read], [Peek],
    receive-and-[MoveWriteOffset] and [Reset] calls in which no write or
    receive is split at the end of the array is defined (no access out of bounds), returns
    exactly the replies of a FIFO queue bounded by [BUFFER_SIZE - 1], and
    leaves a well-formed buffer holding that queue. *)
Theorem execs_refine_queue (os : list (Queue.op A)) b :
  wf b → Queue.unsplits os b →
  ∃ rs b', Queue.execs os b = Some (rs, b') ∧ wf b' ∧
           Queue.steps os (contents b) = (rs, contents b').
Proof.
  apply Queue.execs_refines.
Qed.

(** [Write] on a well-formed buffer is always defined and keeps the
    buffer well-formed.  It refuses, changing nothing, exactly when [size]
    exceeds the remaining size; otherwise it appends [written b l size],
    which is the first [size] bytes of the input when they fit before the end
    of the array, and when they do not, puts the stale byte of the last cell
    after the first [GetDirectWriteSize] of them and loses the last one. *)
Theorem Write_spec b l size :
  wf b → 0 ≤ size ≤ Z.of_nat (length l) →
  ∃ ok b', Write b l size = Some (ok, b') ∧ wf b' ∧
    ok = (size <=? GetRemainSize b) ∧
    (ok = false → b' = b) ∧
    (ok = true → contents b' = contents b ++ written b l size).
Proof.
  intros Hwf Hsize. destruct (Z.leb_spec size (GetRemainSize b)) as [Hle|Hgt].
  - destruct (Write_ok b l size Hwf Hsize Hle) as (b' & Hw & Hwf' & Hc). by exists true, b'.
  - exists false, b. unfold Write. rewrite (proj2 (Z.ltb_lt _ _)) by lia. done.
Qed.

(** [Read] (and the [Peek] inside it) on a well-formed buffer, into a
    destination at least as long as [size], stays in bounds across the end of
    the array, returns the smaller of [size] and the number of waiting bytes,
    stores exactly the oldest of them in the destination and nothing beyond,
    and removes them. *)
Theorem Read_spec b out size :
  wf b → 0 ≤ size ≤ Z.of_nat (length out) →
  ∃ n out' b', Read b out size = Some (n, out', b') ∧
    Peek b out size = Some (n, out') ∧
    n = GetUsedSize b `min` size ∧
    out' = take (Z.to_nat n) (contents b) ++ drop (Z.to_nat n) out ∧
    wf b' ∧ contents b' = drop (Z.to_nat n) (contents b).
Proof.
  intros Hwf Hsize. rewrite used_eq by done. pose proof (used_bounds b Hwf).
  eexists _, _, _. split; [by apply Read_ok|]. split; [by apply Peek_ok|].
  split; [done|]. split.
  - f_equal. unfold used. destruct (decide (used b ≤ size)); [|f_equal; unfold used in *; lia].
    rewrite !take_ge; unfold used in *; lia || done.
  - apply contents_advance; [done|lia].
Qed.

(** The size queries agree with the waiting bytes and with each other:
    used and remaining sizes add up to [BUFFER_SIZE - 1], no query leaves the
    range of [Int32] or the array, and a direct write or read is possible
    whenever any is, except that [GetDirectWriteSize] is 0 with room left
    exactly when the rear is at the last cell and the front is neither at 0
    nor past the rear. *)
Theorem sizes_spec b :
  wf b →
  GetUsedSize b = Z.of_nat (length (contents b)) ∧
  GetUsedSize b + GetRemainSize b = BUFFER_SIZE - 1 ∧
  0 ≤ GetDirectWriteSize b ≤ GetRemainSize b ∧
  0 ≤ GetDIrectReadSize b ≤ GetUsedSize b ∧
  mRear b + GetDirectWriteSize b < BUFFER_SIZE ∧
  mFront b + GetDIrectReadSize b ≤ BUFFER_SIZE ∧
  (GetDIrectReadSize b = 0 ↔ GetUsedSize b = 0) ∧
  (GetDirectWriteSize b = 0 ∧ 0 < GetRemainSize b ↔
     mRear b = BUFFER_SIZE - 1 ∧ 0 < mFront b).
Proof.
  intros Hwf. split; [by rewrite used_eq|]. revert Hwf. clear.
  intros Hwf. ring_lia.
Qed.
End Properties.

(** C36: a split write is not a FIFO write: whenever the input is longer than
    [GetDirectWriteSize] and there is room for it, [Write] reports success, and
    reading everything back gives the bytes waiting before, the first
    [GetDirectWriteSize] bytes of the input, the stale byte of the last cell of
    the array, and the rest of the input without its last byte; that is the
    input back in one case only, in which all its bytes from the split on are
    equal to the stale one. *)
Theorem Write_split_corrupts {A : Type} (b : RecvBuffer A) (l out : list A) :
  let direct := Z.to_nat (GetDirectWriteSize b) in
  let stale := mBuffer b (BUFFER_SIZE - 1) in
  wf b → GetDirectWriteSize b < Z.of_nat (length l) ≤ GetRemainSize b →
  length out = (length (contents b) + length l)%nat →
  ∃ b' b'', Write b l (Z.of_nat (length l)) = Some (true, b') ∧
    Read b' out (Z.of_nat (length out)) = Some (Z.of_nat (length out),
      contents b ++ take direct l ++ stale :: take (length l - direct - 1) (drop direct l), b'') ∧
    contents b'' = [] ∧
    (contents b ++ take direct l ++ stale :: take (length l - direct - 1) (drop direct l)
       = contents b ++ l ↔
     drop direct l = replicate (length l - direct) stale).
Proof.
  intros direct stale Hwf Hl Hout. pose proof (direct_write_le_remain b Hwf) as Hd.
  destruct (Write_ok b l (Z.of_nat (length l)) Hwf) as (b' & Hw & Hwf' & Hc); [lia|lia|].
  set (got := contents b ++ take direct l ++ stale :: take (length l - direct - 1) (drop direct l)).
  assert (contents b' = got) as Hgot.
  { rewrite Hc. unfold written, got, direct, stale. rewrite (proj2 (Z.leb_gt _ _)) by lia.
    do 4 f_equal. lia. }
  assert (length got = length out) as Hlen
    by (unfold got, direct; rewrite !length_app; cbn [length];
        rewrite !length_take, length_drop, Hout; lia).
  destruct (contents_advance b' (used b' `min` Z.of_nat (length out)) Hwf') as [_ Hadv];
    [unfold used; lia|].
  exists b', (MoveReadOffset b' (used b' `min` Z.of_nat (length out))). split; [done|].
  rewrite Hadv. unfold used in *. rewrite Hgot, Hlen, Z.min_id, Nat2Z.id. split_and!.
  - rewrite Read_ok by (done || lia). unfold used. rewrite Hgot, Hlen, Z.min_id, Nat2Z.id.
    by rewrite take_ge, drop_ge, app_nil_r by lia.
  - apply drop_ge. lia.
  - unfold got. rewrite <- (take_drop direct l) at 4. split.
    + intros Heq%app_inv_head%app_inv_head. apply shifted_constant; [|done]. rewrite length_drop. lia.
    + intros Heq. do 2 f_equal. rewrite Heq, take_replicate, Nat.min_l by lia.
      by replace (length l - direct)%nat with (S (length l - direct - 1)) at 2 by lia.
Qed.

(** *** Witnesses *)

Definition sample : RecvBuffer Z := mkRecvBuffer 0 0 (λ _, 7).
Definition sample_wrapped : RecvBuffer Z := mkRecvBuffer (BUFFER_SIZE - 2) 3 (λ i, i).

Lemma sample_wf : wf sample.
Proof. repeat split; discriminate || reflexivity. Qed.

Lemma sample_wrapped_wf : wf sample_wrapped.
Proof. repeat split; discriminate || reflexivity. Qed.

Definition sample_ops : list (Queue.op Z) :=
  [Queue.OpWrite [1; 2; 3]; Queue.OpPeek [0; 0]; Queue.OpRead [0; 0]; Queue.OpRecv [4]].

Lemma execs_refine_queue_witness :
  ∃ rs b', Queue.execs sample_ops sample = Some (rs, b') ∧ wf b' ∧
           Queue.steps sample_ops (contents sample) = (rs, contents b').
Proof.
  apply (execs_refine_queue sample_ops sample sample_wf).
  cbn [Queue.unsplits sample_ops]. split; [left; vm_compute; discriminate|].
  intros r1 b1 [= _ <-]. split; [done|].
  intros r2 b2 [= _ <-]. split; [done|].
  intros r3 b3 [= _ <-]. split; [vm_compute; discriminate|]. done.
Defined.

Definition sample_split : RecvBuffer Z := mkRecvBuffer (BUFFER_SIZE - 2) (BUFFER_SIZE - 2) (λ _, 0).

Lemma Write_split_corrupts_witness :
  ∃ b' b'', Write sample_split [1; 2; 3] 3 = Some (true, b') ∧
    Read b' [9; 9; 9] 3 = Some (3, [1; 0; 2], b'') ∧ contents b'' = [].
Proof.
  destruct (Write_split_corrupts sample_split [1; 2; 3] [9; 9; 9]) as (b' & b'' & Hw & Hr & Hc & _).
  - split; vm_compute; split; discriminate || reflexivity.
  - vm_compute. split; [reflexivity|discriminate].
  - reflexivity.
  - by exists b', b''.
Defined.

Lemma Write_spec_witness :
  ∃ ok b', Write sample [1; 2; 3] 3 = Some (ok, b') ∧ wf b' ∧
    ok = (3 <=? GetRemainSize sample) ∧ (ok = false → b' = sample) ∧
    (ok = true → contents b' = contents sample ++ written sample [1; 2; 3] 3).
Proof. apply (Write_spec sample [1; 2; 3] 3 sample_wf). cbn. lia. Defined.

Lemma Read_spec_witness :
  ∃ n out' b', Read sample_wrapped [0; 0; 0; 0] 4 = Some (n, out', b') ∧
    Peek sample_wrapped [0; 0; 0; 0] 4 = Some (n, out') ∧
    n = GetUsedSize sample_wrapped `min` 4 ∧
    out' = take (Z.to_nat n) (contents sample_wrapped) ++ drop (Z.to_nat n) [0; 0; 0; 0] ∧
    wf b' ∧ contents b' = drop (Z.to_nat n) (contents sample_wrapped).
Proof. apply (Read_spec sample_wrapped [0; 0; 0; 0] 4 sample_wrapped_wf). cbn. lia. Defined.

Lemma sizes_spec_witness :
  GetUsedSize sample_wrapped = Z.of_nat (length (contents sample_wrapped)).
Proof. apply (sizes_spec sample_wrapped sample_wrapped_wf). Defined.

End RecvBuffer.
