(* ===== verification/Lock.v ===== *)
(** * Locks (lib-core, core/Lock.hpp)

    [NullLock], [Mutex] and the [LockGuard] bracket.  [LockObject] is the
    template parameter of [LockGuard]; [Exclusive] is what a lock promises to
    the code that brackets a block with it; [GuardedBlocks] is threads running
    such blocks statement by statement, and shows that they take effect one at
    a time, which is why the other files make one step of a guarded block. *)

From S2P Require Import Prelude.

Definition ThreadId : Type := nat.

(** What [template <typename LockObject> class LockGuard] uses; [None] is a
    call that does not return. *)
Class LockObject (L : Type) := {
  Lock : ThreadId → L → option L;
  Unlock : ThreadId → L → option L;
  TryLock : ThreadId → L → option (bool * L)
}.

(** The bracket: the constructor locks, the destructor unlocks. *)
Definition LockGuard {L St A : Type} `{LockObject L} (t : ThreadId)
    (block : St → A * St) (lo : L) (s : St) : option (A * L * St) :=
  lo1 ← Lock t lo;
  let '(a, s') := block s in
  lo2 ← Unlock t lo1;
  Some (a, lo2, s').

(** Mutual exclusion: [held] is the thread inside, for a lock in a [sound]
    state (one its constructor set up). *)
Class Exclusive (L : Type) `{LockObject L} := {
  sound : L → Prop;
  held : L → option ThreadId;
  lock_free t lo : sound lo → held lo = None →
    ∃ lo', Lock t lo = Some lo' ∧ held lo' = Some t ∧ sound lo';
  lock_held t t' lo : sound lo → held lo = Some t' → Lock t lo = None;
  unlock_held t lo : sound lo → held lo = Some t →
    ∃ lo', Unlock t lo = Some lo' ∧ held lo' = None ∧ sound lo'
}.

(** ** NullLock *)

Inductive NullLock := mkNullLock.

Definition NullLock_Lock (t : ThreadId) (lo : NullLock) : option NullLock := Some lo.
Definition NullLock_Unlock (t : ThreadId) (lo : NullLock) : option NullLock := Some lo.
Definition NullLock_TryLock (t : ThreadId) (lo : NullLock) : option (bool * NullLock) :=
  Some (true, lo).

#[export] Instance NullLock_LockObject : LockObject NullLock := {
  Lock := NullLock_Lock;
  Unlock := NullLock_Unlock;
  TryLock := NullLock_TryLock
}.

(** ** Mutex *)

Module Mutex.

Inductive Kind := PTHREAD_MUTEX_NORMAL | PTHREAD_MUTEX_ERRORCHECK.

#[export] Instance Kind_eq_dec : EqDecision Kind.
Proof. solve_decision. Defined.

(** [pthread_mutex_t]: its type and the thread that owns it. *)
Record Mutex := mkMutex { kind : Kind; owner : option ThreadId }.

Definition EBUSY : Z := 16.
Definition EPERM : Z := 1.
Definition EDEADLK : Z := 35.
Definition EDEADLOCK : Z := EDEADLK.

(** The pthread calls on an initialised mutex, as POSIX describes them. *)
Definition pthread_mutex_lock (t : ThreadId) (m : Mutex) : option (Z * Mutex) :=
  match owner m with
  | None => Some (0, mkMutex (kind m) (Some t))
  | Some t' =>
      if decide (kind m = PTHREAD_MUTEX_ERRORCHECK ∧ t' = t) then Some (EDEADLK, m)
      else None
  end.

Definition pthread_mutex_unlock (t : ThreadId) (m : Mutex) : option (Z * Mutex) :=
  if decide (owner m = Some t) then Some (0, mkMutex (kind m) None)
  else match kind m with
       | PTHREAD_MUTEX_ERRORCHECK => Some (EPERM, m)
       | PTHREAD_MUTEX_NORMAL => None
       end.

Definition pthread_mutex_trylock (t : ThreadId) (m : Mutex) : option (Z * Mutex) :=
  match owner m with
  | None => Some (0, mkMutex (kind m) (Some t))
  | Some _ => Some (EBUSY, m)
  end.

(** [debug] is whether the build defines [DEBUG]; a failed [ASSERT] of a
    debug build traps. *)
Definition construct (debug : bool) : Mutex :=
  mkMutex (if debug then PTHREAD_MUTEX_ERRORCHECK else PTHREAD_MUTEX_NORMAL) None.

Section Build.
Context (debug : bool).

Definition Lock (t : ThreadId) (m : Mutex) : option Mutex :=
  '(result, m') ← pthread_mutex_lock t m;
  if debug && negb (result =? 0) then None else Some m'.

Definition Unlock (t : ThreadId) (m : Mutex) : option Mutex :=
  '(_, m') ← pthread_mutex_unlock t m; Some m'.

Definition TryLock (t : ThreadId) (m : Mutex) : option (bool * Mutex) :=
  '(result, m') ← pthread_mutex_trylock t m;
  let isLock := result =? 0 in
  if debug && (result =? EDEADLOCK) then None else Some (isLock, m').
End Build.

End Mutex.

#[export] Instance Mutex_LockObject (debug : bool) : LockObject Mutex.Mutex := {
  Lock := Mutex.Lock debug;
  Unlock := Mutex.Unlock;
  TryLock := Mutex.TryLock debug
}.

(** In a release build a second [Lock] by the owner deadlocks, in a debug
    build it is detected and traps: it returns in neither. *)
#[export, refine] Instance Mutex_Exclusive (debug : bool) :
  @Exclusive Mutex.Mutex (Mutex_LockObject debug) := {
  sound m := Mutex.kind m = Mutex.kind (Mutex.construct debug);
  held := Mutex.owner
}.
Proof.
  - intros t [k o] Hk Ho; cbn in *; subst. exists (Mutex.mkMutex (Mutex.kind (Mutex.construct debug)) (Some t)).
    unfold Mutex.Lock; cbn. by destruct debug.
  - intros t t' [k o] Hk Ho; cbn in *; subst. unfold Mutex.Lock, Mutex.pthread_mutex_lock; cbn.
    destruct debug; cbn; case_decide as Hd; cbn; try done. by destruct Hd.
  - intros t [k o] Hk Ho; cbn in *; subst.
    exists (Mutex.mkMutex (Mutex.kind (Mutex.construct debug)) None).
    unfold Mutex.Unlock, Mutex.pthread_mutex_unlock; cbn. rewrite decide_True by done. done.
Defined.

(** ** Threads running guarded blocks

    A block is the list of its statements; a thread runs the blocks of its
    program one after the other, other threads running between any two
    statements. *)

Module GuardedBlocks.
Section Blocks.
Context {L St : Type} `{Exclusive L}.

Definition block : Type := list (St → St).

Record Thread := mkThread {
  inside : option block;     (* the statements left of the block it is in *)
  todo : list block          (* the blocks after that *)
}.

Record Sys := mkSys {
  lock : L;
  shared : St;
  threads : list Thread;
  entered : list block       (* the blocks entered so far, in order *)
}.

Inductive step : Sys → Sys → Prop :=
  | step_enter lo lo' s ts t b bs en :
      ts !! t = Some (mkThread None (b :: bs)) →
      Lock t lo = Some lo' →
      step (mkSys lo s ts en) (mkSys lo' s (<[t := mkThread (Some b) bs]> ts) (en ++ [b]))
  | step_statement lo s ts t f fs bs en :
      ts !! t = Some (mkThread (Some (f :: fs)) bs) →
      step (mkSys lo s ts en) (mkSys lo (f s) (<[t := mkThread (Some fs) bs]> ts) en)
  | step_leave lo lo' s ts t bs en :
      ts !! t = Some (mkThread (Some []) bs) →
      Unlock t lo = Some lo' →
      step (mkSys lo s ts en) (mkSys lo' s (<[t := mkThread None bs]> ts) en).

Definition run_block (s : St) (b : block) : St := fold_left (λ s f, f s) b s.
Definition run_blocks (s : St) (bs : list block) : St := fold_left run_block bs s.

Definition initial (lo : L) (s : St) (progs : list (list block)) : Sys :=
  mkSys lo s (mkThread None <$> progs) [].

(** Some thread is inside exactly when it holds the lock; the shared state
    is that of whole blocks, up to the block of that thread. *)
Definition inv (s0 : St) (y : Sys) : Prop :=
  sound (lock y) ∧
  (∀ t th b, threads y !! t = Some th → inside th = Some b → held (lock y) = Some t) ∧
  match held (lock y) with
  | None => shared y = run_blocks s0 (entered y)
  | Some t => ∃ bs ran left th,
      entered y = bs ++ [ran ++ left] ∧ threads y !! t = Some th ∧ inside th = Some left ∧
      shared y = run_block (run_blocks s0 bs) ran
  end.

Lemma inv_initial lo s progs :
  sound lo → held lo = None → inv s (initial lo s progs).
Proof.
  intros Hs Hh. split; [done|]. cbn. rewrite Hh. split; [|done].
  intros t th b Ht Hin. apply list_lookup_fmap_Some in Ht as (bs & ? & ?). by simplify_eq/=.
Qed.

(** A thread that is inside is the holder, and the state is known up to it. *)
Lemma inv_inside s0 lo s ts en t b bs :
  inv s0 (mkSys lo s ts en) → ts !! t = Some (mkThread (Some b) bs) →
  held lo = Some t ∧
  ∃ bs' ran, en = bs' ++ [ran ++ b] ∧ s = run_block (run_blocks s0 bs') ran.
Proof.
  intros (_ & Hin & Hst) Ht. cbn in *. pose proof (Hin _ _ _ Ht eq_refl) as Hh.
  split; [done|]. rewrite Hh in Hst. destruct Hst as (bs' & ran & left & th & Hen & Hth & Hl & Hs).
  simplify_eq/=. eauto.
Qed.

Lemma inv_step s0 y y' : inv s0 y → step y y' → inv s0 y'.
Proof.
  intros Hinv Hstep. destruct Hstep as [lo lo' s ts t b bs en Ht Hlock
    |lo s ts t f fs bs en Ht |lo lo' s ts t bs en Ht Hunlock].
  - destruct Hinv as (Hso & Hin & Hst); cbn in *.
    destruct (held lo) as [t'|] eqn:Hh; [by rewrite (lock_held _ _ _ Hso Hh) in Hlock|].
    destruct (lock_free t lo Hso Hh) as (lo2 & Hl2 & Hh2 & Hso2). simplify_eq.
    split; [done|]. cbn. rewrite Hh2. split.
    + intros t' th b' Ht' Hb'. destruct (decide (t = t')) as [->|Hne]; [done|].
      rewrite list_lookup_insert_ne in Ht' by done. by pose proof (Hin _ _ _ Ht' Hb').
    + exists en, [], b, (mkThread (Some b) bs). split; [done|]. split; [|done].
      apply list_lookup_insert_eq. by eapply lookup_lt_Some.
  - destruct (inv_inside _ _ _ _ _ _ _ _ Hinv Ht) as (Hh & bs' & ran & Hen & Hs).
    destruct Hinv as (Hso & Hin & _); cbn in *. split; [done|]. cbn. rewrite Hh. split.
    + intros t' th b' Ht' Hb'. destruct (decide (t = t')) as [->|Hne]; [done|].
      rewrite list_lookup_insert_ne in Ht' by done. rewrite <- Hh. by eapply Hin.
    + exists bs', (ran ++ [f]), fs, (mkThread (Some fs) bs). rewrite <- app_assoc.
      split; [done|]. split; [apply list_lookup_insert_eq; by eapply lookup_lt_Some|].
      split; [done|]. unfold run_block in *. by rewrite fold_left_app, Hs.
  - destruct (inv_inside _ _ _ _ _ _ _ _ Hinv Ht) as (Hh & bs' & ran & Hen & Hs).
    destruct Hinv as (Hso & Hin & _); cbn in *.
    destruct (unlock_held t lo Hso Hh) as (lo2 & Hl2 & Hh2 & Hso2). simplify_eq.
    split; [done|]. cbn. rewrite Hh2. split.
    + intros t' th b' Ht' Hb'. destruct (decide (t = t')) as [->|Hne].
      * rewrite list_lookup_insert_eq in Ht' by (by eapply lookup_lt_Some). by simplify_eq/=.
      * rewrite list_lookup_insert_ne in Ht' by done. rewrite (Hin _ _ _ Ht' Hb') in Hh. congruence.
    + rewrite (app_nil_r ran). unfold run_blocks. rewrite fold_left_app. done.
Qed.

Lemma inv_reachable lo s progs y :
  sound lo → held lo = None → rtc step (initial lo s progs) y → inv s y.
Proof.
  intros Hs Hh Hr. pose proof (inv_initial lo s progs Hs Hh) as Hi.
  induction Hr; eauto using inv_step.
Qed.

(** C20: threads that bracket their blocks with [LockGuard] on one lock that
    excludes never run inside two blocks at once, whatever the interleaving;
    and whenever the lock is free, the shared state is the one left by running
    the blocks whole, one after the other, in the order they were entered. *)
Theorem guarded_blocks_atomic lo s progs y :
  sound lo → held lo = None → rtc step (initial lo s progs) y →
  (∀ t t' th th' b b', threads y !! t = Some th → threads y !! t' = Some th' →
     inside th = Some b → inside th' = Some b' → t = t') ∧
  (held (lock y) = None → shared y = run_blocks s (entered y)).
Proof.
  intros Hs Hh Hr. destruct (inv_reachable _ _ _ _ Hs Hh Hr) as (_ & Hin & Hst). split.
  - intros t t' th th' b b' Ht Ht' Hb Hb'.
    pose proof (Hin _ _ _ Ht Hb). pose proof (Hin _ _ _ Ht' Hb'). congruence.
  - intros Hf. by rewrite Hf in Hst.
Qed.
End Blocks.

(** Two threads, each adding and then doubling inside a release-build mutex. *)
Definition sample_progs : list (list (@block Z)) := [[[Z.add 1; Z.mul 2]]; [[Z.add 3]]].

Lemma guarded_blocks_atomic_witness :
  ∃ y, rtc (step (H := Mutex_LockObject false)) (initial (Mutex.construct false) 0 sample_progs) y ∧
       held (Exclusive := Mutex_Exclusive false) (lock y) = None ∧ shared y = 2 ∧
       shared y = run_blocks 0 (entered y).
Proof.
  assert (∃ y, rtc (step (H := Mutex_LockObject false)) (initial (Mutex.construct false) 0 sample_progs) y
               ∧ held (Exclusive := Mutex_Exclusive false) (lock y) = None ∧ shared y = 2) as (y & Hr & Hh & Hs).
  { eexists. split.
    - eapply rtc_l; [by apply (step_enter (H := Mutex_LockObject false)) with (t := 0%nat)|]. cbn.
      eapply rtc_l; [by apply (step_statement (H := Mutex_LockObject false)) with (t := 0%nat)|]. cbn.
      eapply rtc_l; [by apply (step_statement (H := Mutex_LockObject false)) with (t := 0%nat)|]. cbn.
      eapply rtc_l; [by apply (step_leave (H := Mutex_LockObject false)) with (t := 0%nat)|].
      apply rtc_refl.
    - done. }
  exists y. split; [done|]. split; [done|]. split; [done|].
  by apply (guarded_blocks_atomic (H0 := Mutex_Exclusive false) (Mutex.construct false) 0 sample_progs y).
Defined.

End GuardedBlocks.
