(* ===== verification/WorkerThreadPool.v ===== *)
(** * The worker thread pool (lib-core, WorkerThreadPool.{hpp,cpp})

    The pool as a transition system over all the threads that touch it: the
    workers in [PollEvents], the callers of [AddJob] and the caller of [Stop].
    A step is one access to shared data: a block guarded by a [LockGuard] is
    one step (Lock.v), the unguarded reads are steps of their own. *)

From S2P Require Import Prelude.

Module WorkerThreadPool.

Section Pool.
Context {Job : Type}.

(** Where a worker is in [PollEvents], [PopJob] and [Idle]. *)
Inductive Worker :=
  | AtLoop                    (* while (mIsRunning) *)
  | AtPop                     (* PopJob *)
  | AtIdle                    (* Idle: push the context *)
  | AtRead                    (* Idle: read the eventfd *)
  | AtExecute (job : Job)
  | AtComplete (job : Job)
  | Exited.

(** Where a thread is in [AddJob] and [WakeOneThread]. *)
Inductive Adder :=
  | NotAdding
  | AtPush (job : Job)        (* mJobQueue.push *)
  | AtEmptyTest               (* mIdleThreads.empty(), unguarded *)
  | AtTop                     (* mIdleThreads.top, pop, guarded *)
  | AtWrite (context : nat)   (* write the eventfd *)
  | Undefined.                (* top and pop of an empty stack *)

(** Where the thread that calls [Stop] is. *)
Inductive Stopper :=
  | NotStopping
  | StopWrite (i : nat)
  | StopJoin (i : nat)
  | Stopped.

(** A [ThreadContext] is the index of its thread.  [pushed] and [popped]
    are history: what was ever put in the queue, and who took what out. *)
Record Pool := mkPool {
  mIsRunning : bool;
  mWorkerThreads : list Worker;
  mEventFDs : list Z;
  mIdleThreads : list nat;
  mJobQueue : list Job;
  adders : list Adder;
  stopper : Stopper;
  pushed : list Job;
  popped : list (nat * Job)
}.

(** [Start] with every [eventfd] and [pthread_create] succeeding; [callers]
    other threads may call [AddJob]. *)
Definition Start (workerThreadCount callers : nat) : Pool :=
  mkPool true (replicate workerThreadCount AtLoop) (replicate workerThreadCount 0)
    [] [] (replicate callers NotAdding) NotStopping [] [].

Definition set_worker (i : nat) (w : Worker) (p : Pool) : Pool :=
  mkPool (mIsRunning p) (<[i := w]> (mWorkerThreads p)) (mEventFDs p) (mIdleThreads p)
    (mJobQueue p) (adders p) (stopper p) (pushed p) (popped p).

Definition set_adder (k : nat) (a : Adder) (p : Pool) : Pool :=
  mkPool (mIsRunning p) (mWorkerThreads p) (mEventFDs p) (mIdleThreads p)
    (mJobQueue p) (<[k := a]> (adders p)) (stopper p) (pushed p) (popped p).

Definition set_stopper (st : Stopper) (p : Pool) : Pool :=
  mkPool (mIsRunning p) (mWorkerThreads p) (mEventFDs p) (mIdleThreads p)
    (mJobQueue p) (adders p) st (pushed p) (popped p).

Definition set_running (b : bool) (p : Pool) : Pool :=
  mkPool b (mWorkerThreads p) (mEventFDs p) (mIdleThreads p)
    (mJobQueue p) (adders p) (stopper p) (pushed p) (popped p).

Definition set_idle (l : list nat) (p : Pool) : Pool :=
  mkPool (mIsRunning p) (mWorkerThreads p) (mEventFDs p) l
    (mJobQueue p) (adders p) (stopper p) (pushed p) (popped p).

Definition set_event (i : nat) (n : Z) (p : Pool) : Pool :=
  mkPool (mIsRunning p) (mWorkerThreads p) (<[i := n]> (mEventFDs p)) (mIdleThreads p)
    (mJobQueue p) (adders p) (stopper p) (pushed p) (popped p).

Definition clear_workers (p : Pool) : Pool :=
  mkPool (mIsRunning p) [] (mEventFDs p) (mIdleThreads p)
    (mJobQueue p) (adders p) (stopper p) (pushed p) (popped p).

(** [write(eventFD, 1)]: blocks when the counter would pass its maximum. *)
Definition eventfd_write (i : nat) (p : Pool) : option Pool :=
  n ← mEventFDs p !! i;
  if n <? 2 ^ 64 - 2 then Some (set_event i (n + 1) p) else None.

(** [read(eventFD)]: blocks at 0, otherwise resets the counter. *)
Definition eventfd_read (i : nat) (p : Pool) : option Pool :=
  n ← mEventFDs p !! i;
  if 0 <? n then Some (set_event i 0 p) else None.

(** [PopJob], the queue lock held throughout. *)
Definition PopJob (i : nat) (p : Pool) : option Job * Pool :=
  match mJobQueue p with
  | [] => (None, p)
  | retJob :: queue =>
      (Some retJob,
       mkPool (mIsRunning p) (mWorkerThreads p) (mEventFDs p) (mIdleThreads p)
         queue (adders p) (stopper p) (pushed p) (popped p ++ [(i, retJob)]))
  end.

(** The guarded push of [AddJob]. *)
Definition PushJob (job : Job) (p : Pool) : Pool :=
  mkPool (mIsRunning p) (mWorkerThreads p) (mEventFDs p) (mIdleThreads p)
    (mJobQueue p ++ [job]) (adders p) (stopper p) (pushed p ++ [job]) (popped p).

(** One step of worker [i] in [PollEvents] and [Idle].  [answer] is that of the
    job the worker is in: [None] while the call of [Execute] or [Complete] has
    not returned, in which the worker cannot move ([PollJob::Execute] waits in
    [epoll_wait] without a timeout), [Some ret] when it returns, [ret] being the
    result of [Execute]. *)
Definition PollEvents (i : nat) (answer : option bool) (p : Pool) : option Pool :=
  w ← mWorkerThreads p !! i;
  match w with
  | AtLoop => Some (set_worker i (if mIsRunning p then AtPop else Exited) p)
  | AtPop =>
      match PopJob i p with
      | (Some job, p') => Some (set_worker i (AtExecute job) p')
      | (None, p') => Some (set_worker i AtIdle p')
      end
  | AtExecute job =>
      match answer with
      | Some ret => Some (set_worker i (if ret then AtComplete job else AtLoop) p)
      | None => None
      end
  | AtComplete job =>
      match answer with
      | Some _ => Some (set_worker i AtLoop p)
      | None => None
      end
  | AtIdle => Some (set_worker i AtRead (set_idle (i :: mIdleThreads p) p))
  | AtRead => set_worker i AtLoop <$> eventfd_read i p
  | Exited => None
  end.

(** One step of the [k]-th caller in [AddJob] and [WakeOneThread]. *)
Definition AddJob (k : nat) (p : Pool) : option Pool :=
  a ← adders p !! k;
  match a with
  | AtPush job => Some (set_adder k AtEmptyTest (PushJob job p))
  | AtEmptyTest =>
      Some (set_adder k (match mIdleThreads p with [] => NotAdding | _ => AtTop end) p)
  | AtTop =>
      match mIdleThreads p with
      | [] => Some (set_adder k Undefined p)
      | context :: rest => Some (set_adder k (AtWrite context) (set_idle rest p))
      end
  | AtWrite context => set_adder k NotAdding <$> eventfd_write context p
  | NotAdding | Undefined => None
  end.

Definition next_stop (i : nat) (p : Pool) : Pool :=
  if decide (i < length (mWorkerThreads p))%nat then set_stopper (StopWrite i) p
  else set_stopper Stopped (clear_workers p).

(** One step of [Stop]. *)
Definition Stop (p : Pool) : option Pool :=
  match stopper p with
  | NotStopping => Some (next_stop 0 (set_running false p))
  | StopWrite i => set_stopper (StopJoin i) <$> eventfd_write i p
  | StopJoin i =>
      match mWorkerThreads p !! i with
      | Some Exited => Some (next_stop (S i) p)
      | _ => None
      end
  | Stopped => None
  end.

Inductive Action :=
  | Work (i : nat) (answer : option bool)
  | CallAddJob (k : nat) (job : Job)
  | Add (k : nat)
  | DoStop.

Definition exec (a : Action) (p : Pool) : option Pool :=
  match a with
  | Work i answer => PollEvents i answer p
  | CallAddJob k job =>
      match adders p !! k with
      | Some NotAdding => Some (set_adder k (AtPush job) p)
      | _ => None
      end
  | Add k => AddJob k p
  | DoStop => Stop p
  end.

Fixpoint execs (l : list Action) (p : Pool) : option Pool :=
  match l with
  | [] => Some p
  | a :: l => p' ← exec a p; execs l p'
  end.

(** What the threads of a started pool can do together. *)
Inductive reachable (n callers : nat) : Pool → Prop :=
  | reachable_start : reachable n callers (Start n callers)
  | reachable_step p p' a :
      reachable n callers p → exec a p = Some p' → reachable n callers p'.

Lemma reachable_execs n callers l p p' :
  reachable n callers p → execs l p = Some p' → reachable n callers p'.
Proof.
  revert p. induction l as [|a l IH]; cbn; intros p Hr He; [by simplify_eq|].
  destruct (exec a p) as [p1|] eqn:Ha; [|done]. eauto using reachable_step.
Qed.

Lemma reachable_ind_inv (I : Pool → Prop) n callers :
  I (Start n callers) → (∀ p a p', I p → exec a p = Some p' → I p') →
  ∀ p, reachable n callers p → I p.
Proof. intros H0 HS p Hr. induction Hr; eauto. Qed.
End Pool.

Arguments Worker : clear implicits.
Arguments Adder : clear implicits.
Arguments Pool : clear implicits.
Arguments Action : clear implicits.

(** ** The steps as rules

    [exec] run by cases: one rule per branch of the code. *)

Section Rules.
Context {Job : Type}.
Implicit Types (p : Pool Job).

Inductive step p : Pool Job → Prop :=
  | loop i : mWorkerThreads p !! i = Some AtLoop →
      step p (set_worker i (if mIsRunning p then AtPop else Exited) p)
  | pop_some i job queue : mWorkerThreads p !! i = Some AtPop → mJobQueue p = job :: queue →
      step p (set_worker i (AtExecute job) (PopJob i p).2)
  | pop_none i : mWorkerThreads p !! i = Some AtPop → mJobQueue p = [] →
      step p (set_worker i AtIdle p)
  | idle i : mWorkerThreads p !! i = Some AtIdle →
      step p (set_worker i AtRead (set_idle (i :: mIdleThreads p) p))
  | read i n : mWorkerThreads p !! i = Some AtRead → mEventFDs p !! i = Some n → 0 < n →
      step p (set_worker i AtLoop (set_event i 0 p))
  | execute i job (ret : bool) : mWorkerThreads p !! i = Some (AtExecute job) →
      step p (set_worker i (if ret then AtComplete job else AtLoop) p)
  | complete i job : mWorkerThreads p !! i = Some (AtComplete job) →
      step p (set_worker i AtLoop p)
  | call k job : adders p !! k = Some NotAdding → step p (set_adder k (AtPush job) p)
  | push k job : adders p !! k = Some (AtPush job) →
      step p (set_adder k AtEmptyTest (PushJob job p))
  | test_empty k : adders p !! k = Some AtEmptyTest → mIdleThreads p = [] →
      step p (set_adder k NotAdding p)
  | test_idle k c rest : adders p !! k = Some AtEmptyTest → mIdleThreads p = c :: rest →
      step p (set_adder k AtTop p)
  | top_idle k c rest : adders p !! k = Some AtTop → mIdleThreads p = c :: rest →
      step p (set_adder k (AtWrite c) (set_idle rest p))
  | top_empty k : adders p !! k = Some AtTop → mIdleThreads p = [] →
      step p (set_adder k Undefined p)
  | wake k c n : adders p !! k = Some (AtWrite c) → mEventFDs p !! c = Some n →
      n < 2 ^ 64 - 2 → step p (set_adder k NotAdding (set_event c (n + 1) p))
  | stop : stopper p = NotStopping → step p (next_stop 0 (set_running false p))
  | stop_write i n : stopper p = StopWrite i → mEventFDs p !! i = Some n → n < 2 ^ 64 - 2 →
      step p (set_stopper (StopJoin i) (set_event i (n + 1) p))
  | stop_join i : stopper p = StopJoin i → mWorkerThreads p !! i = Some Exited →
      step p (next_stop (S i) p).

Lemma eventfd_write_Some i p p' :
  eventfd_write i p = Some p' ↔
  ∃ n, mEventFDs p !! i = Some n ∧ n < 2 ^ 64 - 2 ∧ p' = set_event i (n + 1) p.
Proof.
  unfold eventfd_write. rewrite bind_Some. split.
  - intros (n & Hn & H). destruct (Z.ltb_spec n (2 ^ 64 - 2)); naive_solver.
  - intros (n & Hn & Hlt & ->). exists n. by rewrite (proj2 (Z.ltb_lt _ _) Hlt).
Qed.

Lemma eventfd_read_Some i p p' :
  eventfd_read i p = Some p' ↔
  ∃ n, mEventFDs p !! i = Some n ∧ 0 < n ∧ p' = set_event i 0 p.
Proof.
  unfold eventfd_read. rewrite bind_Some. split.
  - intros (n & Hn & H). destruct (Z.ltb_spec 0 n); naive_solver.
  - intros (n & Hn & Hlt & ->). exists n. by rewrite (proj2 (Z.ltb_lt _ _) Hlt).
Qed.

Lemma exec_step a p p' : exec a p = Some p' → step p p'.
Proof.
  destruct a as [i ret|k job|k|]; cbn.
  - unfold PollEvents. intros (w & Hw & H)%bind_Some.
    destruct w as [| | | |job|job|]; [| | | |destruct ret as [ret|]|destruct ret as [ret|]|]; simplify_eq.
    + by apply loop.
    + destruct (mJobQueue p) as [|job queue] eqn:Hq.
      * unfold PopJob in H. rewrite Hq in H. simplify_eq. by apply pop_none.
      * assert (set_worker i (AtExecute job) (PopJob i p).2 = p') as <-
          by (unfold PopJob in *; rewrite Hq in *; by simplify_eq).
        by eapply pop_some.
    + by apply idle.
    + apply fmap_Some in H as (p1 & (n & Hn & Hlt & ->)%eventfd_read_Some & ->). by eapply read.
    + by apply execute.
    + by eapply complete.
  - intros H. destruct (adders p !! k) as [[]|] eqn:Hk; simplify_eq. by apply call.
  - unfold AddJob. intros (w & Hw & H)%bind_Some. destruct w as [|job| | |c|]; simplify_eq.
    + by apply push.
    + destruct (mIdleThreads p) eqn:Hi; [by apply test_empty|by eapply test_idle].
    + destruct (mIdleThreads p) eqn:Hi; simplify_eq; [by apply top_empty|by eapply top_idle].
    + apply fmap_Some in H as (p1 & (n & Hn & Hlt & ->)%eventfd_write_Some & ->). by eapply wake.
  - unfold Stop. destruct (stopper p) as [|i|i|] eqn:Hs; intros H; simplify_eq.
    + by apply stop.
    + apply fmap_Some in H as (p1 & (n & Hn & Hlt & ->)%eventfd_write_Some & ->).
      by eapply stop_write.
    + destruct (mWorkerThreads p !! i) as [[]|] eqn:Hi; simplify_eq. by apply stop_join.
Qed.

Lemma reachable_inv (I : Pool Job → Prop) n callers :
  I (Start n callers) → (∀ p p', I p → step p p' → I p') → ∀ p, reachable n callers p → I p.
Proof. intros H0 HS p Hr. induction Hr; eauto using exec_step. Qed.
End Rules.

Section Facts.
Context {Job : Type}.
Implicit Types (p : Pool Job).

Lemma lookup_set_worker p i w w0 j :
  mWorkerThreads p !! i = Some w0 →
  mWorkerThreads (set_worker i w p) !! j = if decide (i = j) then Some w else mWorkerThreads p !! j.
Proof.
  intros Hi. cbn. case_decide as Hd; [subst|by apply list_lookup_insert_ne].
  apply list_lookup_insert_eq. by eapply lookup_lt_Some.
Qed.

(** *** Jobs *)

(** What went into the queue is what came out, in that order, then what is
    still in it; a job in execution was taken out by the worker that runs it. *)
Definition jobs_inv p : Prop :=
  pushed p = (popped p).*2 ++ mJobQueue p ∧
  ∀ i job, mWorkerThreads p !! i = Some (AtExecute job) ∨
           mWorkerThreads p !! i = Some (AtComplete job) → (i, job) ∈ popped p.

Lemma jobs_inv_start n callers : jobs_inv (Start n callers).
Proof.
  split; [done|]. intros i job [H|H]; cbn in H; by apply lookup_replicate in H as [? _].
Qed.

Lemma jobs_inv_set_worker p i w w0 :
  jobs_inv p → mWorkerThreads p !! i = Some w0 →
  (∀ job, w = AtExecute job ∨ w = AtComplete job → (i, job) ∈ popped p) →
  jobs_inv (set_worker i w p).
Proof.
  intros [Hq Hw] Hi Hnew. split; [done|]. intros j job.
  rewrite (lookup_set_worker p i w w0) by done. case_decide; naive_solver.
Qed.

Lemma jobs_inv_clear p : jobs_inv p → jobs_inv (clear_workers p).
Proof. intros [Hq Hw]. split; [done|]. cbn. naive_solver. Qed.

Lemma jobs_inv_next_stop p i : jobs_inv p → jobs_inv (next_stop i p).
Proof. intros H. unfold next_stop. case_decide; [done|by apply jobs_inv_clear]. Qed.

Lemma jobs_inv_step p p' : jobs_inv p → step p p' → jobs_inv p'.
Proof.
  intros Hinv Hs. pose proof Hinv as [Hq Hw].
  destruct Hs as [i|i job queue Hi Hqu| | | |i job ret Hi| | |k job| | | | | | | |];
    try exact Hinv; try (eapply jobs_inv_set_worker; naive_solver);
    try by apply jobs_inv_next_stop.
  - eapply jobs_inv_set_worker; [done|done|]. destruct (mIsRunning p); naive_solver.
  - unfold PopJob. rewrite Hqu. cbn.
    apply (jobs_inv_set_worker _ i _ AtPop); cbn; [|done|set_solver].
    split; cbn; [|set_solver]. by rewrite fmap_app, <- app_assoc, Hq, Hqu.
  - eapply jobs_inv_set_worker; [done|done|]. destruct ret; naive_solver.
  - split; [cbn; by rewrite Hq, app_assoc|done].
Qed.
(** *** Wake-ups *)

Definition event p (i : nat) : Z := default 0 (mEventFDs p !! i).
Definition stacked p (i : nat) : Z := countb (Nat.eqb i) (mIdleThreads p).
Definition writes_to (i : nat) (a : Adder Job) : bool :=
  match a with AtWrite c => Nat.eqb i c | _ => false end.
Definition writing p (i : nat) : Z := countb (writes_to i) (adders p).
Definition waiting p (i : nat) : Z :=
  match mWorkerThreads p !! i with Some AtRead => 1 | _ => 0 end.

(** Every way a wake-up of [i] can be on its way. *)
Definition tokens p (i : nat) : Z := stacked p i + event p i + writing p i.

Definition wake_inv p : Prop :=
  stopper p = NotStopping →
  length (mEventFDs p) = length (mWorkerThreads p) ∧
  ∀ i, 0 ≤ event p i ∧ tokens p i = waiting p i.

Lemma wake_inv_start n callers : wake_inv (Start n callers).
Proof.
  intros _. split; [cbn; by rewrite !length_replicate|]. intros i.
  assert (event (Start n callers) i = 0) as He.
  { unfold event. cbn. destruct (replicate n 0 !! i) eqn:H; [|done].
    apply lookup_replicate in H as [-> _]. done. }
  assert (writing (Start n callers) i = 0) as Hw.
  { unfold writing. cbn. clear He. induction callers as [|m IH]; [done|exact IH]. }
  assert (waiting (Start n callers) i = 0) as Ht.
  { unfold waiting. cbn. destruct (replicate n AtLoop !! i) eqn:H; [|done].
    apply lookup_replicate in H as [-> _]. done. }
  unfold tokens. rewrite He, Hw, Ht. done.
Qed.

Lemma event_set p i n m j :
  mEventFDs p !! i = Some m →
  event (set_event i n p) j = if decide (i = j) then n else event p j.
Proof.
  intros Hi. unfold event. cbn. case_decide; [subst|by rewrite list_lookup_insert_ne].
  rewrite list_lookup_insert_eq by (by eapply lookup_lt_Some). done.
Qed.

Lemma waiting_set p i w w0 j :
  mWorkerThreads p !! i = Some w0 →
  waiting (set_worker i w p) j =
    if decide (i = j) then match w with AtRead => 1 | _ => 0 end else waiting p j.
Proof.
  intros Hi. unfold waiting. rewrite (lookup_set_worker p i w w0) by done.
  by case_decide.
Qed.

Lemma writing_set p k a a0 j :
  adders p !! k = Some a0 →
  writing (set_adder k a p) j =
    writing p j - (if writes_to j a0 then 1 else 0) + (if writes_to j a then 1 else 0).
Proof. intros Hk. unfold writing. cbn. by apply countb_insert. Qed.

Ltac frame :=
  repeat match goal with
  | |- context [event (set_worker ?i ?w ?q) ?j] => change (event (set_worker i w q) j) with (event q j)
  | |- context [event (set_adder ?i ?w ?q) ?j] => change (event (set_adder i w q) j) with (event q j)
  | |- context [event (set_idle ?l ?q) ?j] => change (event (set_idle l q) j) with (event q j)
  | |- context [writing (set_worker ?i ?w ?q) ?j] => change (writing (set_worker i w q) j) with (writing q j)
  | |- context [writing (set_event ?i ?w ?q) ?j] => change (writing (set_event i w q) j) with (writing q j)
  | |- context [writing (set_idle ?l ?q) ?j] => change (writing (set_idle l q) j) with (writing q j)
  | |- context [stacked (set_worker ?i ?w ?q) ?j] => change (stacked (set_worker i w q) j) with (stacked q j)
  | |- context [stacked (set_adder ?i ?w ?q) ?j] => change (stacked (set_adder i w q) j) with (stacked q j)
  | |- context [stacked (set_event ?i ?w ?q) ?j] => change (stacked (set_event i w q) j) with (stacked q j)
  | |- context [stacked (set_idle ?l ?q) ?j] => change (stacked (set_idle l q) j) with (countb (Nat.eqb j) l)
  | |- context [waiting (set_adder ?i ?w ?q) ?j] => change (waiting (set_adder i w q) j) with (waiting q j)
  | |- context [waiting (set_event ?i ?w ?q) ?j] => change (waiting (set_event i w q) j) with (waiting q j)
  | |- context [waiting (set_idle ?l ?q) ?j] => change (waiting (set_idle l q) j) with (waiting q j)
  end.

(** A step that changes only the place of one worker, [AtRead] neither
    before nor after. *)
Lemma wake_inv_set_worker p i w w0 :
  wake_inv p → mWorkerThreads p !! i = Some w0 → w0 ≠ AtRead → w ≠ AtRead →
  wake_inv (set_worker i w p).
Proof.
  intros Hinv Hi Hw0 Hw Hst. destruct (Hinv Hst) as [Hlen Ht].
  split; [cbn; by rewrite length_insert|]. intros j. destruct (Ht j) as [He Hj]. split; [done|].
  rewrite (waiting_set p i w w0) by done. change (tokens (set_worker i w p) j) with (tokens p j).
  case_decide; [subst|done]. rewrite Hj. unfold waiting. rewrite Hi. by destruct w0, w.
Qed.

Lemma wake_inv_set_adder p k a a0 :
  wake_inv p → adders p !! k = Some a0 → (∀ j, writes_to j a0 = false) →
  (∀ j, writes_to j a = false) → wake_inv (set_adder k a p).
Proof.
  intros Hinv Hk Ha0 Ha Hst. destruct (Hinv Hst) as [Hlen Ht]. split; [done|].
  intros j. destruct (Ht j) as [He Hj]. split; [done|].
  change (waiting (set_adder k a p) j) with (waiting p j). rewrite <- Hj. unfold tokens.
  rewrite (writing_set p k a a0) by done. rewrite Ha0, Ha.
  change (stacked (set_adder k a p) j) with (stacked p j).
  change (event (set_adder k a p) j) with (event p j). lia.
Qed.

Lemma stopper_next_stop p i : stopper (next_stop i p) ≠ NotStopping.
Proof. unfold next_stop. by case_decide. Qed.

Lemma wake_inv_step p p' : wake_inv p → step p p' → wake_inv p'.
Proof.
  intros Hinv Hs.
  destruct Hs as [i|i job queue Hi Hq|i|i Hi|i n Hi Hn Hpos|i job ret Hi|i job Hi|k job Hk
    |k job Hk|k Hk|k c rest Hk Hr|k c rest Hk Hr|k Hk|k c n Hk Hn Hlt| | |];
    try (by eapply wake_inv_set_worker); try (by eapply wake_inv_set_adder);
    try (by intros Hst; destruct (stopper_next_stop _ _ Hst)); try by intros Hst; rewrite ?H in *.
  - eapply wake_inv_set_worker; [done|done|done|]. by destruct (mIsRunning p).
  - eapply wake_inv_set_worker; [|by unfold PopJob; rewrite Hq|done|done].
    unfold PopJob. by rewrite Hq.
  - intros Hst. destruct (Hinv Hst) as [Hlen Ht]. split; [cbn; by rewrite length_insert|].
    intros j. destruct (Ht j) as [He Hj]. split; [done|].
    rewrite (waiting_set (set_idle _ p) i AtRead AtIdle) by done.
    unfold tokens in *. frame. unfold stacked in Hj. cbn [countb].
    destruct (Nat.eqb_spec j i); case_decide; subst; try done; try lia.
    unfold waiting in Hj. rewrite Hi in Hj. lia.
  - intros Hst. destruct (Hinv Hst) as [Hlen Ht]. split; [cbn; by rewrite !length_insert|].
    assert (event p i = n) as Hei by (unfold event; by rewrite Hn).
    intros j. destruct (Ht j) as [He Hj].
    rewrite (waiting_set (set_event i 0 p) i AtLoop AtRead) by done. unfold tokens in *. frame.
    rewrite (event_set p i 0 n) by done.
    pose proof (countb_nonneg (Nat.eqb j) (mIdleThreads p)) as Hc1.
    pose proof (countb_nonneg (writes_to j) (adders p)) as Hc2.
    fold (stacked p j) in Hc1. fold (writing p j) in Hc2.
    case_decide; [subst j|lia]. split; [lia|].
    unfold waiting in Hj. rewrite Hi in Hj. lia.
  - eapply wake_inv_set_worker; [done|done|done|]. by destruct ret.
  - intros Hst. destruct (Hinv Hst) as [Hlen Ht]. split; [done|].
    intros j. destruct (Ht j) as [He Hj]. split; [done|]. unfold tokens in *.
    rewrite (writing_set (set_idle rest p) k _ AtTop) by done. frame.
    unfold stacked in Hj. rewrite Hr in Hj. cbn [countb writes_to] in *. lia.
  - intros Hst. destruct (Hinv Hst) as [Hlen Ht]. split; [cbn; by rewrite length_insert|].
    assert (event p c = n) as Hec by (unfold event; by rewrite Hn).
    intros j. destruct (Ht j) as [He Hj]. unfold tokens in *.
    rewrite (writing_set (set_event c (n + 1) p) k _ (AtWrite c)) by done. cbn [writes_to].
    frame. rewrite (event_set p c (n + 1) n) by done.
    destruct (Nat.eqb_spec j c); case_decide; subst; try done; lia.
Qed.

(** *** One caller of [AddJob] *)

Definition single_inv p : Prop :=
  (length (adders p) ≤ 1)%nat ∧
  ∀ k a, adders p !! k = Some a → a ≠ Undefined ∧ (a = AtTop → mIdleThreads p ≠ []).

Lemma single_inv_start n callers : (callers ≤ 1)%nat → single_inv (Start n callers).
Proof.
  intros Hc. split; [cbn; by rewrite length_replicate|].
  intros k a H. cbn in H. by apply lookup_replicate in H as [-> _].
Qed.

Lemma single_inv_set_adder p k a a0 :
  (length (adders p) ≤ 1)%nat → adders p !! k = Some a0 → a ≠ Undefined →
  (a = AtTop → mIdleThreads p ≠ []) → single_inv (set_adder k a p).
Proof.
  intros Hl Hk Ha Ht. split; [cbn; by rewrite length_insert|]. intros j b Hj. cbn in Hj.
  apply lookup_lt_Some in Hk as Hlt. apply lookup_lt_Some in Hj as Hlt'. rewrite length_insert in Hlt'.
  replace j with k in Hj by lia. rewrite list_lookup_insert_eq in Hj by done. by simplify_eq.
Qed.

Lemma single_inv_step p p' : single_inv p → step p p' → single_inv p'.
Proof.
  intros Hinv Hs. pose proof Hinv as [Hl Ha].
  destruct Hs as [i|i job queue Hi Hq|i|i Hi|i n Hi Hn Hpos|i job ret Hi|i job Hi|k job Hk
    |k job Hk|k Hk|k c rest Hk Hr|k c rest Hk Hr|k Hk Hr|k c n Hk Hn Hlt| | |];
    try exact Hinv; try (by eapply single_inv_set_adder).
  - unfold PopJob. by rewrite Hq.
  - split; [done|]. cbn. intros k a Hk. destruct (Ha k a Hk). naive_solver.
  - eapply single_inv_set_adder; [done|done|done|]. intros _. by rewrite Hr.
  - by destruct (Ha k _ Hk) as [_ []].
  - unfold next_stop. by case_decide.
  - unfold next_stop. by case_decide.
Qed.

(** *** Stopping *)

Definition stop_inv p : Prop :=
  (stopper p ≠ NotStopping → mIsRunning p = false) ∧
  (∀ i, 0 ≤ event p i) ∧
  (∀ i, stopper p = StopJoin i →
     1 ≤ event p i ∨ mWorkerThreads p !! i = Some AtLoop ∨ mWorkerThreads p !! i = Some Exited).

Lemma stop_inv_start n callers : stop_inv (Start n callers).
Proof.
  split; [done|]. split; [|done]. intros i. destruct (wake_inv_start n callers eq_refl) as [_ H].
  apply (H i).
Qed.

Lemma stop_inv_set_worker p i w w0 :
  stop_inv p → mWorkerThreads p !! i = Some w0 →
  (mIsRunning p = false → w0 = AtLoop → w = Exited) → w0 ≠ Exited → stop_inv (set_worker i w p).
Proof.
  intros (Hr & He & Hj) Hi Hloop Hex. split; [done|]. split; [done|]. intros j Hst.
  rewrite (lookup_set_worker p i w w0) by done. frame.
  assert (mIsRunning p = false) as Hrun by (apply Hr; cbn in Hst; congruence).
  destruct (Hj j Hst) as [|Hl]; [by left|]. right. case_decide; [subst|done].
  right. f_equal. rewrite Hi in Hl. naive_solver.
Qed.

Lemma stop_inv_step p p' : stop_inv p → step p p' → stop_inv p'.
Proof.
  intros Hinv Hs. pose proof Hinv as (Hr & He & Hj).
  destruct Hs as [i|i job queue Hi Hq|i|i Hi|i n Hi Hn Hpos|i job ret Hi|i job Hi|k job Hk
    |k job Hk|k Hk|k c rest Hk Hre|k c rest Hk Hre|k Hk Hre|k c n Hk Hn Hlt|Hst|i n Hst Hn Hlt|i Hst Hi];
    try exact Hinv; try (by eapply stop_inv_set_worker).
  - eapply stop_inv_set_worker; [done|done| |done]. by intros ->.
  - unfold PopJob. rewrite Hq. cbn. by apply (stop_inv_set_worker _ i _ AtPop).
  - split; [done|]. split.
    + intros j. frame. rewrite (event_set p i 0 n) by done. case_decide; [lia|done].
    + intros j Hst. rewrite (lookup_set_worker _ i _ AtRead) by done. case_decide; [by right; left|].
      frame. rewrite (event_set p i 0 n), decide_False by done. by apply Hj.
  - assert (event p c = n) as Hec by (unfold event; by rewrite Hn).
    split; [done|]. split.
    + intros j. frame. rewrite (event_set p c _ n) by done. case_decide; [specialize (He c); lia|done].
    + intros j Hst. frame. rewrite (event_set p c _ n) by done.
      destruct (Hj j Hst) as [Hev|Hw]; [|by right]. left. case_decide; [subst; lia|done].
  - unfold next_stop. case_decide; (split; [done|]; split; done).
  - assert (event p i = n) as Hec by (unfold event; by rewrite Hn).
    split; [intros _; cbn; apply Hr; congruence|]. split.
    + intros j. change (0 ≤ event (set_event i (n + 1) p) j).
      rewrite (event_set p i _ n) by done. case_decide; [specialize (He i); lia|done].
    + cbn. intros j [= ->]. left. change (1 ≤ event (set_event j (n + 1) p) j).
      rewrite (event_set p j _ n), decide_True by done. specialize (He j). lia.
  - assert (mIsRunning p = false) by (apply Hr; congruence).
    unfold next_stop. case_decide; (split; [done|]; split; done).
Qed.

(** [m] steps of worker [i] take it out of [PollEvents]. *)
Definition finishes (i : nat) (ret : bool) (m : nat) p : Prop :=
  ∃ p', execs (replicate m (Work i (Some ret))) p = Some p' ∧
        mWorkerThreads p' !! i = Some Exited ∧ stopper p' = stopper p.

Lemma finishes_step i ret m p q :
  PollEvents i (Some ret) p = Some q → stopper q = stopper p → finishes i ret m q →
  finishes i ret (S m) p.
Proof.
  intros Hq Hst (p' & He & Hx & Hs). exists p'. cbn. rewrite Hq. cbn. by rewrite Hs.
Qed.

Lemma finishes_loop i ret p :
  mIsRunning p = false → mWorkerThreads p !! i = Some AtLoop → finishes i ret 1 p.
Proof.
  intros Hr Hi. eapply finishes_step; [unfold PollEvents; by rewrite Hi, Hr|done|].
  exists (set_worker i Exited p). split; [done|]. split; [|done].
  by rewrite (lookup_set_worker p i Exited AtLoop), decide_True.
Qed.

(** The [read] of a worker whose eventfd was written returns. *)
Lemma finishes_read i ret p :
  mIsRunning p = false → 1 ≤ event p i → mWorkerThreads p !! i = Some AtRead →
  finishes i ret 2 p.
Proof.
  intros Hr He Hi. unfold event in He. destruct (mEventFDs p !! i) as [n|] eqn:Hn; cbn in He; [|lia].
  apply finishes_step with (set_worker i AtLoop (set_event i 0 p)); [|done|].
  - unfold PollEvents. rewrite Hi. cbn.
    rewrite (proj2 (eventfd_read_Some i p (set_event i 0 p))) by (exists n; split_and!; [done|lia|done]).
    done.
  - apply finishes_loop; [done|].
    by rewrite (lookup_set_worker (set_event i 0 p) i _ AtRead), decide_True.
Qed.

Lemma finishes_idle i ret p :
  mIsRunning p = false → 1 ≤ event p i → mWorkerThreads p !! i = Some AtIdle →
  finishes i ret 3 p.
Proof.
  intros Hr He Hi. eapply finishes_step; [unfold PollEvents; by rewrite Hi|done|].
  apply finishes_read; [done|done|].
  by rewrite (lookup_set_worker (set_idle _ p) i _ AtIdle), decide_True.
Qed.

Lemma finishes_complete i ret p job :
  mIsRunning p = false → mWorkerThreads p !! i = Some (AtComplete job) → finishes i ret 2 p.
Proof.
  intros Hr Hi. eapply finishes_step; [unfold PollEvents; by rewrite Hi|done|].
  apply finishes_loop; [done|].
  by rewrite (lookup_set_worker p i _ (AtComplete job)), decide_True.
Qed.

Lemma finishes_execute i (ret : bool) p job :
  mIsRunning p = false → mWorkerThreads p !! i = Some (AtExecute job) →
  finishes i ret (if ret then 3 else 2)%nat p.
Proof.
  intros Hr Hi. destruct ret.
  - eapply finishes_step; [unfold PollEvents; by rewrite Hi|done|].
    apply finishes_complete with job; [done|].
    by rewrite (lookup_set_worker p i _ (AtExecute job)), decide_True.
  - eapply finishes_step; [unfold PollEvents; by rewrite Hi|done|].
    apply finishes_loop; [done|].
    by rewrite (lookup_set_worker p i _ (AtExecute job)), decide_True.
Qed.

Lemma finishes_pop i (ret : bool) p :
  mIsRunning p = false → 1 ≤ event p i → mWorkerThreads p !! i = Some AtPop →
  ∃ m, (m ≤ 4)%nat ∧ finishes i ret m p.
Proof.
  intros Hr He Hi. destruct (mJobQueue p) as [|job queue] eqn:Hq.
  - exists 4%nat. split; [done|].
    eapply finishes_step; [unfold PollEvents, PopJob; by rewrite Hi, Hq|done|].
    apply finishes_idle; [done|done|]. by rewrite (lookup_set_worker p i _ AtPop), decide_True.
  - exists (S (if ret then 3 else 2))%nat. split; [destruct ret; lia|].
    eapply finishes_step; [unfold PollEvents, PopJob; by rewrite Hi, Hq|done|].
    apply finishes_execute with job; [done|]. by erewrite lookup_set_worker, decide_True.
Qed.

(** A worker whose [Execute] and [Complete] return leaves [PollEvents] once the
    pool is stopping. *)
Lemma join_returns n callers p i ret :
  reachable n callers p → stopper p = StopJoin i → (i < length (mWorkerThreads p))%nat →
  ∃ m p' p'', (m ≤ 4)%nat ∧ execs (replicate m (Work i (Some ret))) p = Some p' ∧
              mWorkerThreads p' !! i = Some Exited ∧ Stop p' = Some p''.
Proof.
  intros Hr Hst Hi.
  destruct (reachable_inv stop_inv n callers (stop_inv_start _ _) stop_inv_step p Hr)
    as (Hrun & He & Hj).
  assert (mIsRunning p = false) as Hf by (apply Hrun; congruence).
  assert (∃ m, (m ≤ 4)%nat ∧ finishes i ret m p) as (m & Hm & p' & Hx & Hex & Hs).
  { destruct (lookup_lt_is_Some_2 _ _ Hi) as [w Hw].
    destruct (Hj i Hst) as [Hev|[Hl|Hl]].
    2: exists 1%nat; split; [lia|by apply finishes_loop].
    2: by exists 0%nat; split; [lia|exists p].
    destruct w as [| | | |job|job|].
    - exists 1%nat; split; [lia|by apply finishes_loop].
    - by apply finishes_pop.
    - exists 3%nat; split; [lia|by apply finishes_idle].
    - exists 2%nat; split; [lia|by apply finishes_read].
    - exists (if ret then 3 else 2)%nat; split; [by destruct ret; lia|by eapply finishes_execute].
    - exists 2%nat; split; [lia|by eapply finishes_complete].
    - by exists 0%nat; split; [lia|exists p]. }
  exists m, p', (next_stop (S i) p'). split_and!; [done|done|done|].
  unfold Stop. by rewrite Hs, Hst, Hex.
Qed.

(** *** A job that does not return *)

(** [Stop] waits for worker [i], which is in a job, at [w]. *)
Definition stuck_join (i : nat) (job : Job) (w : option (Worker Job)) p : Prop :=
  mWorkerThreads p !! i = w ∧ (w = Some (AtExecute job) ∨ w = Some (AtComplete job)) ∧
  stopper p = StopJoin i.

Lemma stuck_join_exec i job w a p p' :
  stuck_join i job w p → (∀ ret, a ≠ Work i (Some ret)) → exec a p = Some p' →
  stuck_join i job w p'.
Proof.
  intros (Hw & Hjob & Hst) Ha Hex. destruct a as [j answer|k job'|k|]; cbn [exec] in Hex.
  - unfold PollEvents in Hex. apply bind_Some in Hex as (wj & Hj & Hex).
    destruct (decide (j = i)) as [->|Hne].
    { destruct answer as [ret|]; [by destruct (Ha ret)|]. rewrite Hw in Hj.
      destruct Hjob as [-> | ->]; injection Hj as <-; done. }
    assert (∀ (q : Pool Job) wj', mWorkerThreads q = mWorkerThreads p → stopper q = stopper p →
              stuck_join i job w (set_worker j wj' q)) as Hother.
    { intros q wj' Hq Hs. split_and!; [|done|by rewrite <- Hst, <- Hs].
      unfold set_worker. cbn [mWorkerThreads]. by rewrite Hq, list_lookup_insert_ne. }
    destruct wj as [| | | |job'|job'|]; [| | | |destruct answer as [ret|]|destruct answer as [ret|]|]; simplify_eq;
      try (by apply Hother).
    all: try (unfold PopJob in Hex; destruct (mJobQueue p); simplify_eq; by apply Hother).
    all: apply fmap_Some in Hex as (q & (n & _ & _ & ->)%eventfd_read_Some & ->); by apply Hother.
  - destruct (adders p !! k) as [[]|]; by simplify_eq.
  - unfold AddJob in Hex. apply bind_Some in Hex as (wk & Hk & Hex).
    destruct wk as [|job'| | |c|]; simplify_eq; try done.
    + destruct (mIdleThreads p); by simplify_eq.
    + apply fmap_Some in Hex as (q & (n & _ & _ & ->)%eventfd_write_Some & ->). done.
  - unfold Stop in Hex. rewrite Hst, Hw in Hex. by destruct Hjob as [-> | ->].
Qed.

Lemma stuck_join_execs i job w l p p' :
  stuck_join i job w p → (∀ ret, Work i (Some ret) ∉ l) → execs l p = Some p' →
  stuck_join i job w p'.
Proof.
  revert p. induction l as [|a l IH]; intros p Hs Hl Hrun; [by simplify_eq/=|].
  cbn [execs] in Hrun. destruct (exec a p) as [p1|] eqn:Ha; [|done].
  apply (IH p1); [|set_solver|done]. apply (stuck_join_exec i job w a p); [done| |done].
  intros ret ->. apply (Hl ret). apply list_elem_of_here.
Qed.

End Facts.
(** ** Properties *)

Section Properties.
Context {Job : Type}.
Implicit Types (p : Pool Job).

(** C4: under every interleaving of any number of workers, of callers of
    [AddJob] and of [Stop], no job is lost, duplicated or reordered: the jobs
    put in the queue are, in order, those some worker took out followed by
    those still queued, and every job being executed or completed was taken
    out by the worker that runs it. *)
Theorem jobs_conserved n callers p :
  reachable n callers p →
  pushed p = (popped p).*2 ++ mJobQueue p ∧
  ∀ i job, mWorkerThreads p !! i = Some (AtExecute job) ∨
           mWorkerThreads p !! i = Some (AtComplete job) → (i, job) ∈ popped p.
Proof. apply (reachable_inv jobs_inv); [apply jobs_inv_start|apply jobs_inv_step]. Qed.

(** C17: until [Stop] is called, wake-ups and sleepers match exactly: a worker
    blocked in [Idle] has exactly one of an entry in [mIdleThreads], a caller
    about to write its eventfd, or an eventfd counter of 1, and any other
    worker has none of them; so an idle entry is never stale or duplicated, no
    wake-up is sent to a running worker, and none is sent twice. *)
Theorem wakeups_match_sleepers n callers p i :
  reachable n callers p → stopper p = NotStopping →
  stacked p i + event p i + writing p i
    = (match mWorkerThreads p !! i with Some AtRead => 1 | _ => 0 end) ∧
  0 ≤ stacked p i ≤ 1 ∧ 0 ≤ event p i ≤ 1 ∧ 0 ≤ writing p i ≤ 1.
Proof.
  intros Hr Hst.
  destruct (reachable_inv wake_inv n callers (wake_inv_start _ _) wake_inv_step p Hr Hst) as [_ Hw].
  destruct (Hw i) as [He Ht]. unfold tokens, waiting in Ht. split; [done|].
  pose proof (countb_nonneg (Nat.eqb i) (mIdleThreads p)) as Hc1. fold (stacked p i) in Hc1.
  pose proof (countb_nonneg (writes_to i) (adders p)) as Hc2. fold (writing p i) in Hc2.
  destruct (mWorkerThreads p !! i) as [[]|]; lia.
Qed.

(** C18: whether [Stop] gets past a worker it waits for depends on nothing but
    the job the worker is in.  If the [Execute] and [Complete] it makes return,
    with whatever result, it leaves [PollEvents] within four of its own steps
    and the [pthread_join] returns.  If it is in an [Execute] or [Complete] that
    does not return, as [PollJob::Execute] in [epoll_wait], then whatever the
    other workers, the callers of [AddJob] and [Stop] do, the worker stays there
    and the [pthread_join] does not return. *)
Theorem Stop_join_returns n callers p i :
  reachable n callers p → stopper p = StopJoin i → (i < length (mWorkerThreads p))%nat →
  (∀ ret, ∃ m p' p'', (m ≤ 4)%nat ∧ execs (replicate m (Work i (Some ret))) p = Some p' ∧
     mWorkerThreads p' !! i = Some Exited ∧ Stop p' = Some p'') ∧
  (∀ job l p', mWorkerThreads p !! i = Some (AtExecute job) ∨
               mWorkerThreads p !! i = Some (AtComplete job) →
     (∀ ret, Work i (Some ret) ∉ l) → execs l p = Some p' →
     mWorkerThreads p' !! i = mWorkerThreads p !! i ∧ stopper p' = StopJoin i ∧ Stop p' = None).
Proof.
  intros Hr Hst Hi. split.
  - intros ret. by eapply join_returns.
  - intros job l p' Hw Hl Hrun. assert (stuck_join i job (mWorkerThreads p !! i) p) as Hs by done.
    destruct (stuck_join_execs i job _ l p p' Hs Hl Hrun) as (Hw' & Hjob & Hst'). split_and!; [done|done|].
    unfold Stop. rewrite Hst', Hw'. by destruct Hjob as [-> | ->].
Qed.

(** With at most one thread calling [AddJob] the unguarded emptiness test
    of [WakeOneThread] is enough: [top] and [pop] are never called on an
    empty stack. *)
Theorem single_adder_defined n callers p k :
  (callers ≤ 1)%nat → reachable n callers p → adders p !! k ≠ Some Undefined.
Proof.
  intros Hc Hr.
  destruct (reachable_inv single_inv n callers (single_inv_start _ _ Hc) single_inv_step p Hr)
    as [_ Ha].
  intros Hk. by destruct (Ha k _ Hk).
Qed.
End Properties.

(** With two threads calling [AddJob] and one idle worker, both can pass
    the emptiness test before either takes the worker, and the second one then
    calls [top] and [pop] on an empty stack. *)
Theorem adders_race_undefined :
  ∃ p : Pool nat, reachable 1 2 p ∧ adders p !! 1%nat = Some Undefined.
Proof.
  eexists. split.
  - eapply (reachable_execs 1 2 ([Work 0 (Some true); Work 0 (Some true); Work 0 (Some true);
      CallAddJob 0 10%nat; Add 0; Add 0; CallAddJob 1 11%nat; Add 1; Add 1; Add 0; Add 1]));
      [apply reachable_start|vm_compute; reflexivity].
  - reflexivity.
Qed.

(** The schedule of the lost wake-up: every worker finds the queue empty, a job
    is added while none of them is in [mIdleThreads] yet, then all go to sleep. *)
Definition lost_wakeup_schedule (n : nat) : list (Action nat) :=
  ((λ i, Work i (Some true)) <$> seq 0 n) ++ ((λ i, Work i (Some true)) <$> seq 0 n) ++
  [CallAddJob 0 7%nat; Add 0; Add 0] ++ ((λ i, Work i (Some true)) <$> seq 0 n).

(** C37: a wake-up can be lost: with the twelve workers the test server starts,
    there is a reachable state, [Stop] not called, where a job is in the queue,
    [AddJob] has returned, and no worker can take any step: they all sleep until
    somebody else calls [AddJob] or [Stop]. *)
Theorem lost_wakeup_reachable :
  ∃ p : Pool nat, reachable 12 1 p ∧ stopper p = NotStopping ∧ mJobQueue p = [7%nat] ∧
    adders p = [NotAdding] ∧ length (mWorkerThreads p) = 12%nat ∧
    ∀ i ret, PollEvents i ret p = None.
Proof.
  eexists. split_and!.
  - eapply (reachable_execs 12 1 (lost_wakeup_schedule 12)); [apply reachable_start|vm_compute; reflexivity].
  - reflexivity.
  - reflexivity.
  - reflexivity.
  - reflexivity.
  - intros i ret. do 12 (destruct i as [|i]; [reflexivity|]). reflexivity.
Qed.

(** *** Witnesses *)

Lemma sample_reachable :
  ∃ p : Pool nat, reachable 1 1 p ∧ mWorkerThreads p = [AtExecute 5%nat] ∧ stopper p = NotStopping.
Proof.
  eexists. split.
  - eapply (reachable_execs 1 1 ([CallAddJob 0 5%nat; Add 0; Work 0 (Some true); Work 0 (Some true)]));
      [apply reachable_start|vm_compute; reflexivity].
  - done.
Qed.

Lemma jobs_conserved_witness :
  ∃ p : Pool nat, mWorkerThreads p = [AtExecute 5%nat] ∧ pushed p = (popped p).*2 ++ mJobQueue p.
Proof.
  destruct sample_reachable as (p & Hr & Hw & _). exists p. split; [done|].
  apply (jobs_conserved 1 1 p Hr).
Defined.

Lemma wakeups_match_sleepers_witness :
  ∃ p : Pool nat, mWorkerThreads p = [AtExecute 5%nat] ∧ stacked p 0 + event p 0 + writing p 0 = 0.
Proof.
  destruct sample_reachable as (p & Hr & Hw & Hs). exists p. split; [done|].
  destruct (wakeups_match_sleepers 1 1 p 0 Hr Hs) as [H _]. by rewrite Hw in H.
Defined.

Lemma Stop_join_returns_witness :
  ∃ p q : Pool nat, mWorkerThreads p = [AtRead] ∧
    (∃ m p' p'', (m ≤ 4)%nat ∧ execs (replicate m (Work 0 (Some true))) p = Some p' ∧
       mWorkerThreads p' !! 0%nat = Some Exited ∧ Stop p' = Some p'') ∧
    mWorkerThreads q = [AtExecute 5%nat] ∧
    ∃ q', execs [CallAddJob 0 6%nat; Add 0; Add 0] q = Some q' ∧ Stop q' = None.
Proof.
  assert (∃ p : Pool nat, reachable 1 1 p ∧ mWorkerThreads p = [AtRead] ∧ stopper p = StopJoin 0)
    as (p & Hr & Hw & Hs).
  { eexists. split.
    - eapply (reachable_execs 1 1 ([Work 0 (Some true); Work 0 (Some true); Work 0 (Some true); DoStop; DoStop]));
        [apply reachable_start|vm_compute; reflexivity].
    - done. }
  assert (∃ q q' : Pool nat, reachable 1 1 q ∧ mWorkerThreads q = [AtExecute 5%nat] ∧ stopper q = StopJoin 0 ∧
            execs [CallAddJob 0 6%nat; Add 0; Add 0] q = Some q')
    as (q & q' & Hrq & Hwq & Hsq & Hq').
  { eexists _, _. split_and!.
    - eapply (reachable_execs 1 1 ([CallAddJob 0 5%nat; Add 0; Add 0; Work 0 None; Work 0 None; DoStop; DoStop]));
        [apply reachable_start|vm_compute; reflexivity].
    - reflexivity.
    - reflexivity.
    - vm_compute. reflexivity. }
  exists p, q. split_and!; [done| |done|exists q'; split; [done|]].
  - apply (Stop_join_returns 1 1 p 0 Hr Hs). rewrite Hw. cbn. lia.
  - eapply (proj2 (Stop_join_returns 1 1 q 0 Hrq Hsq ltac:(rewrite Hwq; cbn; lia))) with (job := 5%nat);
      [left; by rewrite Hwq| |done]. intros ret. by rewrite !elem_of_cons, elem_of_nil; naive_solver.
Defined.

Lemma single_adder_defined_witness :
  ∃ p : Pool nat, mWorkerThreads p = [AtExecute 5%nat] ∧ adders p !! 0%nat ≠ Some Undefined.
Proof.
  destruct sample_reachable as (p & Hr & Hw & _). exists p. split; [done|].
  by apply (single_adder_defined 1 1 p 0).
Defined.

End WorkerThreadPool.
