(* ===== verification/PoolStart.v ===== *)
(** * Starting and stopping the worker pool (lib-core, WorkerThreadPool.{hpp,cpp})

    [Start] and [Stop] with the answers of [eventfd] and [pthread_create], failures
    included.  WorkerThreadPool.v runs the pool that a [Start] without failure
    leaves: its worker [i] is the thread created with the parameter [i]. *)

From S2P Require Import Prelude.

Module PoolStart.

(** [struct TagThreadContext], and [struct TagThreadParameter] without the pool. *)
Record ThreadContext := mkThreadContext { mThreadHandle : Z; mEventFD : Z }.
Record ThreadParameter := mkThreadParameter { mIndex : Z }.

(** The answer of [pthread_create]: a new thread, or an error with whatever the
    handle then holds. *)
Inductive Creation := Created (handle : Z) | NotCreated (handle : Z).

Inductive PoolCall :=
  | CallEventfd
  | CallCreate (index : Z)
  | CallWrite (fd value : Z)
  | CallJoin (handle : Z).

(** [joinable] are the threads created and not joined yet: the handle, and the
    index with which [WorkerThreadFunc] enters [PollEvents]. *)
Record World := mkWorld {
  mIsRunning : bool;
  mWorkerThreads : list ThreadContext;
  eventfds : list Z;
  creations : list Creation;
  joinable : list (Z * Z);
  pool_calls : list PoolCall
}.

Definition set_running (b : bool) (w : World) : World :=
  mkWorld b (mWorkerThreads w) (eventfds w) (creations w) (joinable w) (pool_calls w).
Definition set_contexts (l : list ThreadContext) (w : World) : World :=
  mkWorld (mIsRunning w) l (eventfds w) (creations w) (joinable w) (pool_calls w).
Definition set_joinable (l : list (Z * Z)) (w : World) : World :=
  mkWorld (mIsRunning w) (mWorkerThreads w) (eventfds w) (creations w) l (pool_calls w).
Definition log (cs : list PoolCall) (w : World) : World :=
  mkWorld (mIsRunning w) (mWorkerThreads w) (eventfds w) (creations w) (joinable w) (pool_calls w ++ cs).

(** [std::vector::resize]: new elements are zeroes. *)
Definition zeroed : ThreadContext := mkThreadContext 0 0.
Definition resize (n : nat) (l : list ThreadContext) : list ThreadContext := take n l ++ replicate (n - length l) zeroed.

Definition eventfd : M World Z := λ w,
  match eventfds w with
  | [] => None
  | fd :: fds => Some (fd, log [CallEventfd] (mkWorld (mIsRunning w) (mWorkerThreads w) fds (creations w) (joinable w) (pool_calls w)))
  end.

(** The thread function: the worker it becomes. *)
Definition WorkerThreadFunc (param : ThreadParameter) : Z := mIndex param.

(** The handle stored, and whether the thread was created. *)
Definition pthread_create (param : ThreadParameter) : M World (Z * bool) := λ w,
  match creations w with
  | [] => None
  | c :: l =>
      let w := log [CallCreate (mIndex param)]
        (mkWorld (mIsRunning w) (mWorkerThreads w) (eventfds w) l (joinable w) (pool_calls w)) in
      match c with
      | Created h => Some ((h, true), set_joinable (joinable w ++ [(h, WorkerThreadFunc param)]) w)
      | NotCreated h => Some ((h, false), w)
      end
  end.

(** [pthread_join] waits for a thread; of a handle without one it is undefined. *)
Definition pthread_join (handle : Z) : M World unit := λ w,
  if bool_decide (handle ∈ (joinable w).*1)
  then Some (tt, log [CallJoin handle] (set_joinable (filter (λ t, t.1 ≠ handle) (joinable w)) w))
  else None.

(** The loop of [Start], from thread [i] on. *)
Fixpoint start_threads (count i : nat) : M World bool :=
  match count with
  | O => mret true
  | S count =>
      let param := mkThreadParameter (i32 (Z.of_nat i)) in
      fd ← eventfd;
      modify (λ w, set_contexts (alter (λ c, mkThreadContext (mThreadHandle c) fd) i (mWorkerThreads w)) w);;
      '(handle, created) ← pthread_create param;
      modify (λ w, set_contexts (alter (λ c, mkThreadContext handle (mEventFD c)) i (mWorkerThreads w)) w);;
      if (created : bool) then start_threads count (S i) else mret false
  end.

Definition Start (workerThreadCount : nat) : M World bool :=
  modify (set_running true);;
  modify (λ w, set_contexts (resize workerThreadCount (mWorkerThreads w)) w);;
  start_threads workerThreadCount 0.

(** The loop of [Stop]. *)
Fixpoint stop_threads (l : list ThreadContext) : M World unit :=
  match l with
  | [] => mret tt
  | threadContext :: l =>
      modify (log [CallWrite (mEventFD threadContext) 1]);;
      pthread_join (mThreadHandle threadContext);;
      stop_threads l
  end.

Definition Stop : M World unit :=
  modify (set_running false);;
  contexts ← gets mWorkerThreads;
  stop_threads contexts;;
  modify (set_contexts []).

(** ** Starting *)

(** The threads of the handles [hs], from index [i] on. *)
Definition workers (i : nat) (hs : list Z) : list (Z * Z) := zip hs (Z.of_nat <$> seq i (length hs)).

Lemma alter_middle (f : ThreadContext → ThreadContext) l x r i : i = length l → alter f i (l ++ x :: r) = l ++ f x :: r.
Proof. intros ->. induction l as [|y l IH]; [done|]. cbn. by f_equal. Qed.

(** One turn: what it stores, and whether it goes on. *)
Lemma start_turn count i fd fds c l cs w :
  eventfds w = fd :: fds → creations w = c :: l → mWorkerThreads w = cs ++ zeroed :: replicate count zeroed →
  i = length cs → Z.of_nat i < 2 ^ 31 →
  ∃ w', mIsRunning w' = mIsRunning w ∧ eventfds w' = fds ∧ creations w' = l ∧
    match c with
    | Created h => start_threads (S count) i w = start_threads count (S i) w' ∧
        mWorkerThreads w' = (cs ++ [mkThreadContext h fd]) ++ replicate count zeroed ∧
        joinable w' = joinable w ++ [(h, Z.of_nat i)]
    | NotCreated h => start_threads (S count) i w = Some (false, w') ∧
        mWorkerThreads w' = (cs ++ [mkThreadContext h fd]) ++ replicate count zeroed ∧ joinable w' = joinable w
    end.
Proof.
  intros Hf Hc Hw Hi Hb. destruct w as [r ts es crs js ps]. cbn in Hf, Hc, Hw. subst es crs ts.
  set (h := match c with Created h | NotCreated h => h end).
  exists (mkWorld r ((cs ++ [mkThreadContext h fd]) ++ replicate count zeroed) fds l
    match c with Created h => js ++ [(h, Z.of_nat i)] | NotCreated _ => js end
    ((ps ++ [CallEventfd]) ++ [CallCreate (Z.of_nat i)])).
  split; [done|]. split; [done|]. split; [done|].
  destruct c as [h'|h']; (split; [|by split]).
  all: cbn [start_threads]; unfold eventfd, pthread_create; run; rewrite !alter_middle by done; cbn.
  all: rewrite (i32_small (Z.of_nat i)) by lia; rewrite <- (app_assoc cs); reflexivity.
Qed.

(** What [Start] leaves of the first [length hs] threads, all created. *)
Lemma start_created hs count i fds fds' l cs w :
  length fds = length hs → eventfds w = fds ++ fds' → creations w = (Created <$> hs) ++ l →
  mWorkerThreads w = cs ++ replicate (length hs + count) zeroed → i = length cs → Z.of_nat (i + length hs) ≤ 2 ^ 31 →
  ∃ w', start_threads (length hs + count) i w = start_threads count (i + length hs) w' ∧
    mIsRunning w' = mIsRunning w ∧ eventfds w' = fds' ∧ creations w' = l ∧
    mWorkerThreads w' = (cs ++ zip_with mkThreadContext hs fds) ++ replicate count zeroed ∧
    joinable w' = joinable w ++ workers i hs.
Proof.
  revert fds i cs w. induction hs as [|h hs IH]; intros fds i cs w Hlen Hf Hc Hw Hi Hb.
  - destruct fds; [|done]. exists w. rewrite Nat.add_0_r, !app_nil_r. by split_and!.
  - destruct fds as [|fd fds]; [done|]. cbn [length] in *.
    destruct (start_turn (length hs + count) i fd (fds ++ fds') (Created h) ((Created <$> hs) ++ l) cs w)
      as (w1 & R1 & F1 & C1 & S1 & W1 & J1); [done|done|done|done|lia|].
    destruct (IH fds (S i) (cs ++ [mkThreadContext h fd]) w1) as (w' & S2 & R2 & F2 & C2 & W2 & J2);
      [lia|done|done|done|rewrite length_app; cbn; lia|lia|].
    exists w'. split; [|split; [congruence|split; [done|split; [done|split]]]].
    + cbn [Nat.add]. rewrite S1, S2. f_equal. lia.
    + rewrite W2. cbn. by rewrite <- !app_assoc.
    + rewrite J2, J1, <- app_assoc. done.
Qed.

(** ** Stopping *)

Lemma filter_others (h : Z) (l : list (Z * Z)) : h ∉ l.*1 → filter (λ t, t.1 ≠ h) l = l.
Proof.
  induction l as [|[h' i] l IH]; [done|]. rewrite fmap_cons, not_elem_of_cons. intros [Hne Hn].
  rewrite filter_cons, decide_True by (cbn in *; congruence). by rewrite IH.
Qed.

(** The calls that stop the first threads: each is woken, then waited for. *)
Definition stop_calls (hs fds : list Z) : list PoolCall :=
  mjoin (zip_with (λ h fd, [CallWrite fd 1; CallJoin h]) hs fds).

Lemma stop_created hs fds ixs rest w :
  NoDup hs → length fds = length hs → length ixs = length hs → joinable w = zip hs ixs →
  ∃ w', stop_threads (zip_with mkThreadContext hs fds ++ rest) w = stop_threads rest w' ∧
    joinable w' = [] ∧ mIsRunning w' = mIsRunning w ∧ pool_calls w' = pool_calls w ++ stop_calls hs fds.
Proof.
  intros Hnd. revert fds ixs w. induction Hnd as [|h hs Hnew Hnd IH]; intros fds ixs w Hf Hi Hj.
  - destruct fds, ixs; try done. exists w. by rewrite app_nil_r.
  - destruct fds as [|fd fds], ixs as [|i ixs]; try done. cbn [length] in *.
    set (w1 := log [CallJoin h] (set_joinable (zip hs ixs) (log [CallWrite fd 1] w))).
    destruct (IH fds ixs w1) as (w' & S & J & R & C); [lia|lia|done|].
    exists w'. split; [|split; [done|split; [done|rewrite C; cbn; by rewrite <- !app_assoc]]].
    cbn [zip_with app stop_threads]. rewrite modify_bind.
    assert (pthread_join h (log [CallWrite fd 1] w) = Some (tt, w1)) as Hjoin; [|by rewrite (bind_eq _ _ _ _ _ Hjoin)].
    unfold pthread_join. change (joinable (log [CallWrite fd 1] w)) with (joinable w). rewrite Hj. cbn [zip_with].
    rewrite bool_decide_true by (rewrite fmap_cons; by left). rewrite filter_cons, decide_False by (cbn; tauto).
    rewrite filter_others; [done|]. rewrite fst_zip; [done|lia].
Qed.

(** ** Properties *)

Section Start.
Context (n : nat) (hs fds fds' : list Z) (l : list Creation) (w : World).
Hypothesis (Hempty : mWorkerThreads w = []) (Hnone : joinable w = []).
Hypothesis (Hfds : eventfds w = fds ++ fds') (Hlen : length fds = n).
Hypothesis (Hbound : Z.of_nat n < 2 ^ 31) (Hnd : NoDup hs).

(** The pool when its loop starts. *)
Definition resized : World := set_contexts (replicate n zeroed) (set_running true w).

Lemma Start_resized : Start n w = start_threads n 0 resized.
Proof using Hempty. unfold Start. rewrite !modify_bind. unfold resize. cbn. by rewrite Hempty, take_nil, Nat.sub_0_r. Qed.

Lemma Start_all :
  creations w = (Created <$> hs) ++ l → length hs = n →
  ∃ w1 w2, Start n w = Some (true, w1) ∧ mIsRunning w1 = true ∧
    mWorkerThreads w1 = zip_with mkThreadContext hs fds ∧ joinable w1 = workers 0 hs ∧
    Stop w1 = Some (tt, w2) ∧ mIsRunning w2 = false ∧ mWorkerThreads w2 = [] ∧ joinable w2 = [] ∧
    pool_calls w2 = pool_calls w1 ++ stop_calls hs fds.
Proof using All.
  intros Hc Hn. destruct (start_created hs 0 0 fds fds' l [] resized) as (w1 & S1 & R1 & _ & _ & W1 & J1);
    [lia|done|done|cbn; by rewrite Nat.add_0_r, Hn|done|lia|].
  rewrite Nat.add_0_r, Hn in S1. rewrite app_nil_r in W1. change (joinable resized) with (joinable w) in J1. rewrite Hnone in J1.
  destruct (stop_created hs fds (Z.of_nat <$> seq 0 (length hs)) [] (set_running false w1)) as (w2 & S2 & J2 & R2 & C2);
    [done|lia|by rewrite length_fmap, length_seq|done|].
  rewrite app_nil_r in S2. exists w1, (set_contexts [] w2). split; [by rewrite Start_resized, S1|].
  split; [done|]. split; [done|]. split; [done|]. split; [|by split].
  unfold Stop. rewrite modify_bind, gets_bind. change (mWorkerThreads (set_running false w1)) with (mWorkerThreads w1).
  rewrite W1. by rewrite (bind_eq _ _ _ tt w2).
Qed.

Lemma Start_fails g :
  creations w = (Created <$> hs) ++ NotCreated g :: l → (length hs < n)%nat →
  ∃ w1, Start n w = Some (false, w1) ∧ mIsRunning w1 = true ∧
    mWorkerThreads w1 = zip_with mkThreadContext (hs ++ [g]) (take (S (length hs)) fds) ++ replicate (n - S (length hs)) zeroed ∧
    joinable w1 = workers 0 hs.
Proof using Hempty Hnone Hfds Hlen Hbound.
  intros Hc Hn. destruct (lookup_lt_is_Some_2 fds (length hs)) as [fd Hfd]; [lia|].
  assert (fds = take (length hs) fds ++ fd :: drop (S (length hs)) fds) as Hsplit by (symmetry; by apply take_drop_middle).
  assert (n = length hs + S (n - S (length hs)))%nat as Hk by lia.
  destruct (start_created hs (S (n - S (length hs))) 0 (take (length hs) fds) (fd :: drop (S (length hs)) fds ++ fds')
    (NotCreated g :: l) [] resized) as (w1 & S1 & R1 & F1 & C1 & W1 & J1);
    [rewrite length_take; lia|etrans; [exact Hfds|rewrite Hsplit at 1; by rewrite <- app_assoc]|done|
     cbn [length app]; by rewrite <- Hk|done|lia|].
  change (joinable resized) with (joinable w) in J1. rewrite Hnone in J1.
  destruct (start_turn (n - S (length hs)) (length hs) fd (drop (S (length hs)) fds ++ fds') (NotCreated g) l
    (zip_with mkThreadContext hs (take (length hs) fds)) w1) as (w2 & R2 & _ & _ & S2 & W2 & J2);
    [exact F1|exact C1|exact W1|rewrite length_zip_with, length_take; lia|lia|].
  exists w2. split; [rewrite Start_resized, Hk at 1; by rewrite S1, Nat.add_0_l, S2|]. split; [by rewrite R2, R1|].
  split; [|by rewrite J2, J1].
  rewrite W2. f_equal. rewrite (take_S_r _ _ fd) by done. by rewrite zip_with_app by (rewrite length_take; lia).
Qed.

(** Joining the context whose thread was not created. *)
Lemma Stop_unstarted g cs w1 :
  (length hs < n)%nat →
  mWorkerThreads w1 = zip_with mkThreadContext (hs ++ [g]) (take (S (length hs)) fds) ++ cs →
  joinable w1 = workers 0 hs → Stop w1 = None.
Proof using Hlen Hnd.
  intros Hn Hw Hj. destruct (lookup_lt_is_Some_2 fds (length hs)) as [fd Hfd]; [lia|].
  rewrite (take_S_r _ _ fd), zip_with_app, <- app_assoc in Hw by (done || rewrite length_take; lia).
  destruct (stop_created hs (take (length hs) fds) (Z.of_nat <$> seq 0 (length hs)) (mkThreadContext g fd :: cs)
    (set_running false w1)) as (w3 & S3 & J3 & _);
    [done|rewrite length_take; lia|by rewrite length_fmap, length_seq|done|].
  unfold Stop. rewrite modify_bind, gets_bind. change (mWorkerThreads (set_running false w1)) with (mWorkerThreads w1).
  rewrite Hw. unfold mbind at 1, M_bind at 1. cbn [zip_with app]. rewrite S3.
  cbn [stop_threads]. rewrite modify_bind. unfold mbind at 1, M_bind at 1. unfold pthread_join.
  change (joinable (log _ w3)) with (joinable w3). by rewrite J3.
Qed.
End Start.

(** C19: the pool starts and stops.  If every thread can be created, [Start] returns true
    with the threads running, the [i]th as worker [i] with its own handle and eventfd;
    and [Stop] wakes and joins each of them once, in order, and leaves none.  If the
    creation of thread [k] fails, [Start] returns false with the [k] threads before it
    running and the contexts from [k] on without one, and a [Stop] of that pool, which
    [Server::Start] keeps, is undefined: it joins a thread that was never made. *)
Theorem Start_Stop n hs fds fds' l w :
  mWorkerThreads w = [] → joinable w = [] → eventfds w = fds ++ fds' → length fds = n → Z.of_nat n < 2 ^ 31 → NoDup hs →
  (creations w = (Created <$> hs) ++ l → length hs = n →
     ∃ w1 w2, Start n w = Some (true, w1) ∧ mIsRunning w1 = true ∧
       mWorkerThreads w1 = zip_with mkThreadContext hs fds ∧ joinable w1 = workers 0 hs ∧
       Stop w1 = Some (tt, w2) ∧ mIsRunning w2 = false ∧ mWorkerThreads w2 = [] ∧ joinable w2 = [] ∧
       pool_calls w2 = pool_calls w1 ++ stop_calls hs fds) ∧
  (∀ g, creations w = (Created <$> hs) ++ NotCreated g :: l → (length hs < n)%nat →
     ∃ w1, Start n w = Some (false, w1) ∧ mIsRunning w1 = true ∧
       mWorkerThreads w1 = zip_with mkThreadContext (hs ++ [g]) (take (S (length hs)) fds) ++ replicate (n - S (length hs)) zeroed ∧
       joinable w1 = workers 0 hs ∧ Stop w1 = None).
Proof.
  intros Hw Hj Hf Hlen Hb Hnd. split; [by apply Start_all with fds'|]. intros g Hc Hn.
  destruct (Start_fails n hs fds fds' l w Hw Hj Hf Hlen Hb g Hc Hn) as (w1 & HS & HR & HW & HJ).
  exists w1. do 4 (split; [done|]). by eapply (Stop_unstarted n hs fds).
Qed.

(** *** Witness *)

Definition sample_pool (l : list Creation) : World := mkWorld false [] [10; 11; 12] l [] [].

Lemma Start_Stop_witness :
  (∃ w1 w2, Start 3 (sample_pool [Created 101; Created 102; Created 103]) = Some (true, w1) ∧
     joinable w1 = [(101, 0); (102, 1); (103, 2)] ∧ Stop w1 = Some (tt, w2) ∧ joinable w2 = []) ∧
  ∃ w1, Start 3 (sample_pool [Created 101; NotCreated 0]) = Some (false, w1) ∧ joinable w1 = [(101, 0)] ∧ Stop w1 = None.
Proof.
  split.
  - destruct (Start_Stop 3 [101; 102; 103] [10; 11; 12] [] [] (sample_pool [Created 101; Created 102; Created 103])) as [Hall _];
      [done|done|done|done|lia|by apply (bool_decide_unpack _)|].
    destruct (Hall eq_refl eq_refl) as (w1 & w2 & H1 & _ & _ & H2 & H3 & _ & _ & H4 & _). by exists w1, w2.
  - destruct (Start_Stop 3 [101] [10; 11; 12] [] [] (sample_pool [Created 101; NotCreated 0])) as [_ Hsome];
      [done|done|done|done|lia|apply NoDup_singleton|].
    destruct (Hsome 0 eq_refl) as (w1 & H1 & _ & _ & H2 & H3); [cbn; lia|]. by exists w1.
Defined.
End PoolStart.
