(* ===== verification/System.v ===== *)
(** * The operating system, as the server sees it

    The types of core/Types.hpp, the results the system calls can give, and the
    log of the calls made, to the system and to the user's handlers.  Results come from the environment: a call whose result the
    code looks at takes the next answer of its list, and does not return when
    there is none. *)

From S2P Require Import Prelude.

(** ** core/Types.hpp *)

Definition Byte : Type := Z.
Definition SocketFD : Type := Z.
Definition SessionID : Type := Z.
Definition sINVALID_SOCKET_FD : SocketFD := -1.
Definition sINVALID_ID : Z := -1.

(** ** System calls *)

Inductive Errno := EAGAIN | EINTR | EPIPE | ECONNRESET | EOTHER (errno : Z).

#[export] Instance Errno_eq_dec : EqDecision Errno.
Proof. solve_decision. Defined.

(** [struct iovec]: an address and a [size_t]. *)
Record iovec := mkIovec { iov_base : Z; iov_len : Z }.

#[export] Instance iovec_eq_dec : EqDecision iovec.
Proof. solve_decision. Defined.

(** What [recv], [writev] and [epoll_ctl] can answer; [RecvClosed] is the
    result 0. *)
Inductive RecvAnswer := RecvData (bytes : list Byte) | RecvClosed | RecvError (e : Errno).
Inductive WritevAnswer := Sent (n : Z) | SendError (e : Errno).

Inductive EpollOp := EPOLL_CTL_ADD | EPOLL_CTL_DEL | EPOLL_CTL_MOD.

Definition EPOLLIN : Z := 0x1.
Definition EPOLLOUT : Z := 0x4.
Definition EPOLLONESHOT : Z := Z.shiftl 1 30.
Definition EPOLLET : Z := Z.shiftl 1 31.

(** [event.data.ptr]: the job a readiness event will queue. *)
Inductive JobPtr :=
  | JobNull
  | JobRecv (sessionID : SessionID)
  | JobSend (sessionID : SessionID)
  | JobAccept
  | JobPoll
  | JobSendPoll.

#[export] Instance JobPtr_eq_dec : EqDecision JobPtr.
Proof. solve_decision. Defined.

Inductive Call :=
  | CallRecv (fd : SocketFD) (len : Z)
  | CallWritev (fd : SocketFD) (iov : list iovec)
  | CallEpollCtl (epfd : Z) (op : EpollOp) (fd : SocketFD) (ptr : JobPtr) (events : Z)
  | CallClose (fd : SocketFD)
  | CallPrintln
  | CallOnRecv (sessionID : SessionID) (buffer size : Z)
  | CallOnDisconnected (sessionID : SessionID)
  | CallEpollCreate
  | CallEpollWait (epfd : Z)
  | CallSocket (family : Z)
  | CallSetSockOpt (fd : SocketFD) (level option : Z)
  | CallFcntlGet (fd : SocketFD)
  | CallFcntlSet (fd : SocketFD) (flags : Z)
  | CallBind (fd : SocketFD) (len : Z)
  | CallListen (fd : SocketFD)
  | CallAccept (fd : SocketFD)
  | CallOnAccepted (fd : SocketFD)
  | CallOnConnected (sessionID : SessionID).

Record OS := mkOS {
  recv_answers : list RecvAnswer;
  writev_answers : list WritevAnswer;
  epoll_ctl_answers : list (option Errno);
  calls : list Call                  (* the calls made, oldest first *)
}.

Definition log_call (c : Call) (o : OS) : OS :=
  mkOS (recv_answers o) (writev_answers o) (epoll_ctl_answers o) (calls o ++ [c]).

Definition set_recv_answers (l : list RecvAnswer) (o : OS) : OS :=
  mkOS l (writev_answers o) (epoll_ctl_answers o) (calls o).

Definition set_writev_answers (l : list WritevAnswer) (o : OS) : OS :=
  mkOS (recv_answers o) l (epoll_ctl_answers o) (calls o).

Definition set_epoll_ctl_answers (l : list (option Errno)) (o : OS) : OS :=
  mkOS (recv_answers o) (writev_answers o) l (calls o).

Definition log_calls (cs : list Call) (o : OS) : OS :=
  mkOS (recv_answers o) (writev_answers o) (epoll_ctl_answers o) (calls o ++ cs).

Lemma log_calls_nil o : log_calls [] o = o.
Proof. destruct o. unfold log_calls; cbn. by rewrite app_nil_r. Qed.

Lemma log_calls_app cs cs' o : log_calls cs' (log_calls cs o) = log_calls (cs ++ cs') o.
Proof. unfold log_calls; cbn. by rewrite app_assoc. Qed.
