(* ===== verification/Session.v ===== *)
(** * Sessions (lib-core, Network/Session.{hpp,cpp} and the jobs of
    ServerJob.{hpp,cpp} that belong to a session)

    [Session], its [RecvJob] and its [SendJob], and the methods that run on
    them, as state-passing code over the session and the operating system.
    The guarded blocks on [mPackets] are single actions (Lock.v). *)

From S2P Require Import Prelude RecvBuffer System.

Import RecvBuffer.

Record RecvJob := mkRecvJob { mRecvBuffer : RecvBuffer Byte }.
Record SendJob := mkSendJob { mSendPackets : list iovec }.

Record Session := mkSession {
  mSessionID : SessionID;
  mSessionFD : SocketFD;
  mIsRecving : bool;
  mRecvJob : RecvJob;
  mIsSending : bool;
  mSendJob : SendJob;
  mPackets : list iovec
}.

(** The session a method runs on, the system, and the address at which
    [mRecvJob.mRecvBuffer.mBuffer] lies. *)
Record World := mkWorld { session : Session; os : OS; buffer_address : Z }.

(** What a session uses of its server: the two epoll descriptors and the
    virtual [OnDisconnected]. *)
Record ServerView := mkServerView {
  GetEpollFD : Z;
  GetSendPollFD : Z;
  OnDisconnected : SessionID → M World unit
}.

(** ** Construction *)

(** [new (session) Session(server, sessionID, sessionFD)] on the memory [raw]:
    the members with no initialiser keep what the memory holds ([mRecvBuffer]),
    the vectors are constructed empty. *)
Definition Session_construct (sessionID : SessionID) (sessionFD : SocketFD) (raw : Session) : Session :=
  mkSession sessionID sessionFD true
    (mkRecvJob (construct (mRecvBuffer (mRecvJob raw)))) false (mkSendJob []) [].

Definition GetSessionID (s : Session) : SessionID := mSessionID s.
Definition GetSocketFD (s : Session) : SocketFD := mSessionFD s.

Definition set_fd (fd : SocketFD) (s : Session) : Session :=
  mkSession (mSessionID s) fd (mIsRecving s) (mRecvJob s) (mIsSending s) (mSendJob s) (mPackets s).

Definition SetReceiveState (state : bool) (s : Session) : Session :=
  mkSession (mSessionID s) (mSessionFD s) state (mRecvJob s) (mIsSending s) (mSendJob s) (mPackets s).

Definition SetSendState (state : bool) (s : Session) : Session :=
  mkSession (mSessionID s) (mSessionFD s) (mIsRecving s) (mRecvJob s) state (mSendJob s) (mPackets s).

Definition set_recv_buffer (b : RecvBuffer Byte) (s : Session) : Session :=
  mkSession (mSessionID s) (mSessionFD s) (mIsRecving s) (mkRecvJob b) (mIsSending s) (mSendJob s) (mPackets s).

Definition set_send_packets (l : list iovec) (s : Session) : Session :=
  mkSession (mSessionID s) (mSessionFD s) (mIsRecving s) (mRecvJob s) (mIsSending s) (mkSendJob l) (mPackets s).

Definition set_packets (l : list iovec) (s : Session) : Session :=
  mkSession (mSessionID s) (mSessionFD s) (mIsRecving s) (mRecvJob s) (mIsSending s) (mSendJob s) l.

Definition on_session (f : Session → Session) (w : World) : World :=
  mkWorld (f (session w)) (os w) (buffer_address w).

Definition on_os (f : OS → OS) (w : World) : World :=
  mkWorld (session w) (f (os w)) (buffer_address w).

(** ** System calls on the world *)

Definition call (c : Call) : M World unit := modify (on_os (log_call c)).

Definition writev (fd : SocketFD) (iov : list iovec) : M World WritevAnswer :=
  call (CallWritev fd iov);;
  answers ← gets (λ w, writev_answers (os w));
  match answers with
  | [] => undefined
  | a :: rest => modify (on_os (set_writev_answers rest));; mret a
  end.

(** [recv] stores at most [len] bytes, and at least one when it gives any, at
    the rear of the buffer. *)
Definition recv (fd : SocketFD) (len : Z) : M World RecvAnswer :=
  call (CallRecv fd len);;
  answers ← gets (λ w, recv_answers (os w));
  match answers with
  | [] => undefined
  | a :: rest =>
      modify (on_os (set_recv_answers rest));;
      match a with
      | RecvData bytes =>
          if (0 <? Z.of_nat (length bytes)) && (Z.of_nat (length bytes) <=? len)
          then modify (on_session (λ s,
                 let b := mRecvBuffer (mRecvJob s) in
                 set_recv_buffer (mkRecvBuffer (mFront b) (mRear b)
                   (store (mBuffer b) (GetRearBufferPtr b) bytes)) s));;
               mret a
          else undefined
      | _ => mret a
      end
  end.

Definition epoll_ctl (epfd : Z) (op : EpollOp) (fd : SocketFD) (ptr : JobPtr) (events : Z) :
    M World (option Errno) :=
  call (CallEpollCtl epfd op fd ptr events);;
  answers ← gets (λ w, epoll_ctl_answers (os w));
  match answers with
  | [] => undefined
  | a :: rest => modify (on_os (set_epoll_ctl_answers rest));; mret a
  end.

(** [epoll_ctl] where the code drops the result. *)
Definition epoll_ctl_ (epfd : Z) (op : EpollOp) (fd : SocketFD) (ptr : JobPtr) (events : Z) : M World unit :=
  call (CallEpollCtl epfd op fd ptr events).

Section Methods.
Context (server : ServerView).

Definition this {A} (f : Session → A) : M World A := gets (λ w, f (session w)).
Definition update (f : Session → Session) : M World unit := modify (on_session f).

(** The two identical tails of [Disconnect]. *)
Definition notify_disconnected : M World unit :=
  s ← this id;
  when (negb (mIsRecving s) && negb (mIsSending s))
    (call (CallOnDisconnected (mSessionID s));; OnDisconnected server (mSessionID s)).

Definition Disconnect : M World unit :=
  oldFD ← this mSessionFD;
  update (set_fd sINVALID_SOCKET_FD);;
  if decide (oldFD = sINVALID_SOCKET_FD) then notify_disconnected
  else
    epoll_ctl_ (GetEpollFD server) EPOLL_CTL_DEL oldFD JobNull 0;;
    call (CallClose oldFD);;
    notify_disconnected.

Definition SendJob_Reset : M World unit := update (set_send_packets []).

Definition AddPackets (buffer size : Z) : M World unit :=
  update (λ s, set_send_packets (mSendPackets (mSendJob s) ++ [mkIovec buffer size]) s).

(** [totalSendBytes]: an [Int32] accumulating [size_t]s. *)
Definition totalSendBytes (sendPackets : list iovec) : Z :=
  fold_left (λ total p, i32 (u64 (total + iov_len p))) sendPackets 0.

(** The loop that looks for the first packet not wholly sent, comparing the
    [Int32] [result] with a [size_t]: [startOffset] and the packets from
    [index] on. *)
Fixpoint find_unsent (result : Z) (sendPackets : list iovec) : Z * list iovec :=
  match sendPackets with
  | [] => (0, [])
  | p :: rest =>
      if u64 result <? iov_len p
      then (i32 (u64 (iov_len p - result)), sendPackets)
      else find_unsent result rest
  end.

(** The loop that hands those packets to the send job. *)
Fixpoint add_unsent (startOffset : Z) (sendPackets : list iovec) : M World unit :=
  match sendPackets with
  | [] => mret tt
  | p :: rest =>
      AddPackets (iov_base p + startOffset) (u64 (iov_len p - startOffset));;
      add_unsent 0 rest
  end.

(** What a turn of the [writev] loop does with the answer: [None] is
    [continue], [Some None] the returns inside the loop, [Some (Some result)]
    the [break]. *)
Definition DoSend_answer (total : Z) (a : WritevAnswer) : M World (option (option Z)) :=
  let compare result :=
    if result =? total then update (SetSendState false);; mret (Some None)
    else mret (Some (Some result)) in
  match a with
  | SendError EAGAIN => update (SetSendState false);; Disconnect;; mret (Some None)
  | SendError EINTR => mret None
  | SendError _ => update (SetSendState false);; Disconnect;; compare (-1)
  | Sent n => compare (i32 n)
  end.

Definition DoSend_turn (sendPackets : list iovec) (total : Z) : M World (option (option Z)) :=
  fd ← this mSessionFD;
  if decide (fd = sINVALID_SOCKET_FD) then
    update (SetSendState false);; Disconnect;; mret (Some None)
  else
    a ← writev fd sendPackets;
    DoSend_answer total a.

(** [event.events = EPOLLOUT | EPOLLONESHOT] on the send poll. *)
Definition arm_send_poll : M World unit :=
  s ← this id;
  epoll_ctl_ (GetSendPollFD server) EPOLL_CTL_MOD (mSessionFD s) (JobSend (mSessionID s))
    (Z.lor EPOLLOUT EPOLLONESHOT).

(** The part of [DoSend] after the loop: what was not sent goes to the send
    job. *)
Definition DoSend_leftover (sendPackets : list iovec) (result : Z) : M World unit :=
  let '(startOffset, unsent) := find_unsent result sendPackets in
  SendJob_Reset;;
  add_unsent startOffset unsent;;
  arm_send_poll.

(** [writev] is retried only after an answer, so the answers left bound the
    turns. *)
Definition DoSend : M World unit :=
  sendPackets ← this mPackets;
  update (set_packets []);;
  match sendPackets with
  | [] => update (SetSendState false)
  | _ =>
      turns ← gets (λ w : World, S (length (writev_answers (os w))));
      r ← forever turns (DoSend_turn sendPackets (totalSendBytes sendPackets));
      match r with
      | None => mret tt
      | Some result => DoSend_leftover sendPackets result
      end
  end.

Definition Send (buffer bufferSize : Z) : M World unit :=
  if (buffer =? 0) || (bufferSize <=? 0) then mret tt
  else
    update (λ s, set_packets (mPackets s ++ [mkIovec buffer bufferSize]) s);;
    sending ← this mIsSending;
    update (SetSendState true);;
    if (sending : bool) then mret tt
    else DoSend;; arm_send_poll.

(** [SendJob::Execute]. *)
Definition SendJob_Execute : M World bool :=
  DoSend;; call CallPrintln;; mret false.

(** *** RecvJob *)

Definition recv_buffer : M World (RecvBuffer Byte) := this (λ s, mRecvBuffer (mRecvJob s)).

Definition stop_receiving : M World (option bool) :=
  update (SetReceiveState false);; Disconnect;; mret (Some false).

(** One turn of the [recv] loop: [None] goes round again. *)
Definition RecvJob_turn : M World (option bool) :=
  fd ← this GetSocketFD;
  if decide (fd = sINVALID_SOCKET_FD) then stop_receiving
  else
    b ← recv_buffer;
    a ← recv fd (GetDirectWriteSize b);
    match a with
    | RecvClosed => stop_receiving
    | RecvError EAGAIN => mret (Some true)
    | RecvError EINTR => mret None
    | RecvError (EPIPE | ECONNRESET) => stop_receiving
    | RecvError (EOTHER _) => call CallPrintln;; mret (Some true)
    | RecvData bytes =>
        b ← recv_buffer;
        update (set_recv_buffer (MoveWriteOffset b (Z.of_nat (length bytes))));;
        mret None
    end.

Definition RecvJob_Execute : M World bool :=
  turns ← gets (λ w : World, S (length (recv_answers (os w))));
  forever turns RecvJob_turn.

(** [OnRecv] is the user's: any action that returns an [Int32]. *)
Context (OnRecv : SessionID → Z → Z → M World Z).

Definition RecvJob_Complete : M World unit :=
  b ← recv_buffer;
  let usedSize := GetUsedSize b in
  when (0 <? usedSize) (
    s ← this id;
    base ← gets buffer_address;
    call (CallOnRecv (mSessionID s) (base + GetFrontBufferPtr b) (GetDIrectReadSize b));;
    readSize ← OnRecv (mSessionID s) (base + GetFrontBufferPtr b) (GetDIrectReadSize b);
    when (0 <? readSize) (
      update (λ s, set_recv_buffer (MoveReadOffset (mRecvBuffer (mRecvJob s)) readSize) s);;
      when (readSize =? usedSize)
        (update (λ s, set_recv_buffer (Reset (mRecvBuffer (mRecvJob s))) s))));;
  s ← this id;
  r ← epoll_ctl (GetEpollFD server) EPOLL_CTL_MOD (mSessionFD s) (JobRecv (mSessionID s))
        (Z.lor (Z.lor EPOLLONESHOT EPOLLIN) EPOLLET);
  match r with
  | None => mret tt
  | Some _ =>
      fd ← this GetSocketFD;
      if decide (fd = sINVALID_SOCKET_FD)
      then update (SetReceiveState false);; Disconnect
      else call CallPrintln
  end.
End Methods.

(** ** Disconnecting *)

(** The user's [OnDisconnected] leaves the session and the system alone (the
    one of the test server prints). *)
Class QuietDisconnect (server : ServerView) : Prop :=
  on_disconnected_quiet : ∀ id w, OnDisconnected server id w = Some (tt, w).

Section Disconnect.
Context (server : ServerView) `{!QuietDisconnect server}.

Definition close_calls (fd : SocketFD) : list Call :=
  [CallEpollCtl (GetEpollFD server) EPOLL_CTL_DEL fd JobNull 0; CallClose fd].

Definition notify_calls (s : Session) : list Call :=
  if negb (mIsRecving s) && negb (mIsSending s) then [CallOnDisconnected (mSessionID s)] else [].

Definition disconnect_calls (s : Session) : list Call :=
  (if decide (mSessionFD s = sINVALID_SOCKET_FD) then [] else close_calls (mSessionFD s))
    ++ notify_calls s.

Lemma notify_run w :
  notify_disconnected server w = Some (tt, on_os (log_calls (notify_calls (session w))) w).
Proof.
  destruct w as [[id fd r rj s sj ps] [ra wa ea cs] ad].
  unfold notify_disconnected, notify_calls, this, call; run. destruct (negb r && negb s); cbn.
  - by rewrite on_disconnected_quiet.
  - unfold on_os; cbn. by rewrite log_calls_nil.
Qed.

Lemma Disconnect_run w :
  Disconnect server w =
    Some (tt, mkWorld (set_fd sINVALID_SOCKET_FD (session w))
                (log_calls (disconnect_calls (session w)) (os w)) (buffer_address w)).
Proof.
  destruct w as [[id fd r rj s sj ps] [ra wa ea cs] ad].
  unfold Disconnect, disconnect_calls, this, update, epoll_ctl_, call; run.
  case_decide; run; rewrite notify_run; unfold on_os, log_calls, log_call; cbn; [done|].
  by rewrite <- !app_assoc.
Qed.

Fixpoint Disconnects (n : nat) : M World unit :=
  match n with
  | O => mret tt
  | S n => Disconnect server;; Disconnects n
  end.

Lemma Disconnects_closed n w :
  mSessionFD (session w) = sINVALID_SOCKET_FD →
  Disconnects n w =
    Some (tt, on_os (log_calls (mjoin (replicate n (notify_calls (session w))))) w).
Proof.
  revert w. induction n as [|n IH]; intros w Hfd; cbn.
  - unfold on_os. rewrite log_calls_nil. by destruct w.
  - rewrite (bind_eq _ _ _ _ _ (Disconnect_run w)), IH by done.
    unfold disconnect_calls. rewrite decide_True by done.
    destruct w as [[id fd r rj s sj ps] o ad]; cbn in *; subst.
    unfold on_os; cbn. by rewrite log_calls_app.
Qed.
End Disconnect.

(** ** Sending *)

(** The addresses of the bytes a vector of packets covers, in order. *)
Fixpoint addresses (ps : list iovec) : list Z :=
  match ps with
  | [] => []
  | p :: rest => seqZ (iov_base p) (iov_len p) ++ addresses rest
  end.

Fixpoint sum_len (ps : list iovec) : Z :=
  match ps with
  | [] => 0
  | p :: rest => iov_len p + sum_len rest
  end.

(** A packet in memory: its size is a [size_t] that is not 0. *)
Definition packet_ok (p : iovec) : Prop := 0 < iov_len p < 2 ^ 31.

(** What [writev] still owes once it has taken [n] bytes of [ps]. *)
Fixpoint owed (n : Z) (ps : list iovec) : list iovec :=
  match ps with
  | [] => []
  | p :: rest =>
      if n <? iov_len p then mkIovec (iov_base p + n) (iov_len p - n) :: rest
      else owed (n - iov_len p) rest
  end.

(** What [DoSend] hands to the send job. *)
Definition scheduled (n : Z) (ps : list iovec) : list iovec :=
  match find_unsent n ps with
  | (_, []) => []
  | (startOffset, p :: rest) =>
      mkIovec (iov_base p + startOffset) (u64 (iov_len p - startOffset)) :: rest
  end.

Lemma sum_len_nonneg ps : Forall packet_ok ps → 0 ≤ sum_len ps.
Proof. induction 1 as [|p ps [] _ IH]; cbn; lia. Qed.

Lemma length_addresses ps : Forall packet_ok ps → Z.of_nat (length (addresses ps)) = sum_len ps.
Proof.
  induction 1 as [|p ps [] _ IH]; cbn; [done|].
  rewrite length_app, length_seqZ. lia.
Qed.

Lemma owed_addresses n ps :
  Forall packet_ok ps → 0 ≤ n → addresses (owed n ps) = drop (Z.to_nat n) (addresses ps).
Proof.
  intros Hps. revert n. induction Hps as [|p ps [] _ IH]; intros n Hn; cbn; [by rewrite drop_nil|].
  destruct (Z.ltb_spec n (iov_len p)).
  - cbn. rewrite drop_app_le by len_lia. f_equal.
    replace (iov_len p) with (n + (iov_len p - n)) at 2 by lia.
    rewrite seqZ_app, drop_app_length' by len_lia. done.
  - rewrite IH by lia. rewrite drop_app_ge by len_lia.
    f_equal. rewrite length_seqZ. lia.
Qed.

Lemma totalSendBytes_sum ps :
  Forall packet_ok ps → sum_len ps < 2 ^ 31 → totalSendBytes ps = sum_len ps.
Proof.
  intros Hps Hsum. unfold totalSendBytes.
  assert (∀ n, 0 ≤ n → n + sum_len ps < 2 ^ 31 →
    fold_left (λ total p, i32 (u64 (total + iov_len p))) ps n = n + sum_len ps) as H; [|by apply H].
  clear Hsum. induction Hps as [|p ps [] Hps IH]; intros n Hn Hs; cbn in *; [lia|].
  pose proof (sum_len_nonneg ps Hps). unwrap. rewrite IH by lia. lia.
Qed.

Section Sending.
Context (server : ServerView) `{!QuietDisconnect server}.

Lemma add_unsent_run so ps s o ad :
  Forall packet_ok ps →
  add_unsent so ps (mkWorld s o ad) =
    Some (tt, mkWorld (set_send_packets (mSendPackets (mSendJob s) ++
      match ps with
      | [] => []
      | p :: rest => mkIovec (iov_base p + so) (u64 (iov_len p - so)) :: rest
      end) s) o ad).
Proof.
  intros Hps. revert so s. induction Hps as [|p ps Hp Hps IH]; intros so s; run.
  - destruct s as [? ? ? ? ? [] ?]. unfold set_send_packets; cbn. by rewrite app_nil_r.
  - unfold AddPackets, update. run. unfold on_session; cbn [session os buffer_address].
    rewrite IH. unfold set_send_packets; cbn. do 4 f_equal. rewrite <- app_assoc. cbn. do 3 f_equal.
    destruct ps as [|[b l] rest]; [done|]. f_equal.
    inversion_clear Hps as [|? ? [Hl1 Hl2]]. cbn in *. f_equal; [lia|]. unwrap. lia.
Qed.

(** The system after [k] interrupted and one answered [writev] of [ps]. *)
Definition after_writev (k : nat) (fd : SocketFD) (ps : list iovec) (rest : list WritevAnswer) (o : OS) : OS :=
  mkOS (recv_answers o) rest (epoll_ctl_answers o) (calls o ++ replicate k (CallWritev fd ps)).

Lemma turns_interrupted k turns ps total s o ad rest :
  mSessionFD s ≠ sINVALID_SOCKET_FD →
  writev_answers o = replicate k (SendError EINTR) ++ rest →
  forever (k + turns) (DoSend_turn server ps total) (mkWorld s o ad) =
  forever turns (DoSend_turn server ps total)
    (mkWorld s (after_writev k (mSessionFD s) ps rest o) ad).
Proof.
  intros Hfd. revert o. induction k as [|k IH]; intros o Ho.
  - destruct o as [ra wa ea cs]; cbn in *; subst. unfold after_writev; cbn. by rewrite app_nil_r.
  - change (S k + turns)%nat with (S (k + turns)).
    rewrite (forever_again _ _ _ (mkWorld s (mkOS (recv_answers o) (replicate k (SendError EINTR) ++ rest)
      (epoll_ctl_answers o) (calls o ++ [CallWritev (mSessionFD s) ps])) ad)).
    + rewrite IH by done. unfold after_writev; cbn. by rewrite <- app_assoc.
    + unfold DoSend_turn, writev, this, call; run. rewrite decide_False by done. run. by rewrite Ho.
Qed.

Lemma writev_run k fd ps a rest s o ad :
  writev fd ps (mkWorld s (after_writev k fd ps (a :: rest) o) ad) =
    Some (a, mkWorld s (after_writev (S k) fd ps rest o) ad).
Proof.
  unfold writev, call; run. unfold on_os, set_writev_answers, log_call, after_writev. cbn -[replicate].
  do 4 f_equal. by rewrite replicate_S_end, app_assoc.
Qed.

Lemma turn_writev ps total k a rest s o ad :
  mSessionFD s ≠ sINVALID_SOCKET_FD →
  DoSend_turn server ps total (mkWorld s (after_writev k (mSessionFD s) ps (a :: rest) o) ad) =
    DoSend_answer server total a (mkWorld s (after_writev (S k) (mSessionFD s) ps rest o) ad).
Proof.
  intros Hfd. unfold DoSend_turn. erewrite (bind_eq (this mSessionFD)) by reflexivity. cbn [session].
  rewrite decide_False by done. by rewrite (bind_eq _ _ _ _ _ (writev_run _ _ _ _ _ _ _ _)).
Qed.

(** How [DoSend] ends, once [writev] gives an answer [a] that is not an
    interruption. *)
Lemma DoSend_run k a rest ps s o ad r w :
  mPackets s = ps → ps ≠ [] → mSessionFD s ≠ sINVALID_SOCKET_FD →
  writev_answers o = replicate k (SendError EINTR) ++ a :: rest →
  DoSend_answer server (totalSendBytes ps) a
    (mkWorld (set_packets [] s) (after_writev (S k) (mSessionFD s) ps rest o) ad) = Some (Some r, w) →
  DoSend server (mkWorld s o ad) =
    match r with None => mret tt | Some result => DoSend_leftover server ps result end w.
Proof.
  intros Hps Hne Hfd Ho Ha.
  transitivity
    ((r ← forever (S (length (writev_answers o))) (DoSend_turn server ps (totalSendBytes ps));
      match r with None => mret tt | Some result => DoSend_leftover server ps result end)
     (mkWorld (set_packets [] s) o ad)).
  { subst ps. unfold DoSend. destruct s as [? ? ? ? ? ? [|p ps]]; [done|]. reflexivity. }
  erewrite (bind_eq (forever _ _)); [reflexivity|]. rewrite Ho, length_app, length_replicate. cbn [length].
  replace (S (k + S (length rest)))%nat with (k + S (S (length rest)))%nat by lia.
  rewrite (turns_interrupted k _ _ _ (set_packets [] s) o ad (a :: rest)) by done.
  apply forever_stop. cbn [mSessionFD set_packets].
  by rewrite (turn_writev ps _ k a rest (set_packets [] s) o ad).
Qed.

Lemma find_unsent_suffix n ps : ∃ sent, ps = sent ++ (find_unsent n ps).2.
Proof.
  induction ps as [|p ps [sent IH]]; cbn; [by exists []|].
  destruct (u64 n <? iov_len p); [by exists []|]. exists (p :: sent). cbn. by f_equal.
Qed.

Lemma leftover_run ps n s o ad :
  Forall packet_ok ps →
  DoSend_leftover server ps n (mkWorld s o ad) =
    Some (tt, mkWorld (set_send_packets (scheduled n ps) s)
      (log_call (CallEpollCtl (GetSendPollFD server) EPOLL_CTL_MOD (mSessionFD s)
         (JobSend (mSessionID s)) (Z.lor EPOLLOUT EPOLLONESHOT)) o) ad).
Proof.
  intros Hps. unfold DoSend_leftover, scheduled.
  destruct (find_unsent_suffix n ps) as [sent Hsuf].
  destruct (find_unsent n ps) as [so unsent]; cbn in Hsuf.
  assert (Forall packet_ok unsent) as Hun by (subst ps; by apply Forall_app in Hps as [_ ?]).
  unfold SendJob_Reset, update, arm_send_poll, epoll_ctl_, call, this. run.
  change (on_session (set_send_packets []) (mkWorld s o ad)) with (mkWorld (set_send_packets [] s) o ad).
  rewrite add_unsent_run by done. cbn. by destruct unsent.
Qed.

(** One answered [DoSend], for each kind of answer. *)
Lemma DoSend_all k rest ps s o ad :
  mPackets s = ps → ps ≠ [] → Forall packet_ok ps → sum_len ps < 2 ^ 31 →
  mSessionFD s ≠ sINVALID_SOCKET_FD →
  writev_answers o = replicate k (SendError EINTR) ++ Sent (sum_len ps) :: rest →
  DoSend server (mkWorld s o ad) =
    Some (tt, mkWorld (SetSendState false (set_packets [] s))
                (after_writev (S k) (mSessionFD s) ps rest o) ad).
Proof.
  intros Hps Hne Hok Hsum Hfd Ho. pose proof (sum_len_nonneg ps Hok).
  rewrite (DoSend_run k (Sent (sum_len ps)) rest ps s o ad None
    (mkWorld (SetSendState false (set_packets [] s)) (after_writev (S k) (mSessionFD s) ps rest o) ad));
    try done.
  unfold DoSend_answer. by rewrite totalSendBytes_sum, i32_small, Z.eqb_refl by lia || done.
Qed.

Lemma DoSend_partial k rest n ps s o ad :
  mPackets s = ps → Forall packet_ok ps → sum_len ps < 2 ^ 31 →
  mSessionFD s ≠ sINVALID_SOCKET_FD → 0 ≤ n < sum_len ps →
  writev_answers o = replicate k (SendError EINTR) ++ Sent n :: rest →
  DoSend server (mkWorld s o ad) =
    Some (tt, mkWorld (set_send_packets (scheduled n ps) (set_packets [] s))
      (log_call (CallEpollCtl (GetSendPollFD server) EPOLL_CTL_MOD (mSessionFD s)
         (JobSend (mSessionID s)) (Z.lor EPOLLOUT EPOLLONESHOT))
         (after_writev (S k) (mSessionFD s) ps rest o)) ad).
Proof.
  intros Hps Hok Hsum Hfd Hn Ho.
  rewrite (DoSend_run k (Sent n) rest ps s o ad (Some n)
    (mkWorld (set_packets [] s) (after_writev (S k) (mSessionFD s) ps rest o) ad)); try done.
  - by rewrite leftover_run.
  - intros ->. cbn in Hn. lia.
  - unfold DoSend_answer. rewrite totalSendBytes_sum, i32_small by lia || done.
    by rewrite (proj2 (Z.eqb_neq n _)) by lia.
Qed.

(** What is called after a failed [writev] that is not retried. *)
Definition failed_calls (e : Errno) (s : Session) : list Call :=
  disconnect_calls server (SetSendState false s) ++
  (if decide (e = EAGAIN) then []
   else [CallEpollCtl (GetSendPollFD server) EPOLL_CTL_MOD sINVALID_SOCKET_FD
           (JobSend (mSessionID s)) (Z.lor EPOLLOUT EPOLLONESHOT)]).

Lemma scheduled_failed ps : Forall packet_ok ps → scheduled (-1) ps = [].
Proof.
  intros Hok. unfold scheduled. enough (find_unsent (-1) ps = (0, [])) as -> by done.
  induction Hok as [|p ps [] _ IH]; [done|]. cbn [find_unsent].
  change (u64 (-1)) with (2 ^ 64 - 1). by rewrite (proj2 (Z.ltb_ge _ _)) by lia.
Qed.

Lemma DoSend_failed k rest e ps s o ad :
  mPackets s = ps → ps ≠ [] → Forall packet_ok ps → sum_len ps < 2 ^ 31 →
  mSessionFD s ≠ sINVALID_SOCKET_FD → e ≠ EINTR →
  writev_answers o = replicate k (SendError EINTR) ++ SendError e :: rest →
  DoSend server (mkWorld s o ad) =
    Some (tt, mkWorld
      (set_send_packets (if decide (e = EAGAIN) then mSendPackets (mSendJob s) else [])
         (set_fd sINVALID_SOCKET_FD (SetSendState false (set_packets [] s))))
      (log_calls (failed_calls e s) (after_writev (S k) (mSessionFD s) ps rest o)) ad).
Proof.
  intros Hps Hne Hok Hsum Hfd He Ho. pose proof (sum_len_nonneg ps Hok).
  assert (update (SetSendState false) (mkWorld (set_packets [] s) (after_writev (S k) (mSessionFD s) ps rest o) ad)
    = Some (tt, mkWorld (SetSendState false (set_packets [] s)) (after_writev (S k) (mSessionFD s) ps rest o) ad))
    as Hup by done.
  erewrite (DoSend_run k (SendError e) rest ps s o ad (if decide (e = EAGAIN) then None else Some (-1))); try done.
  2:{ unfold DoSend_answer. rewrite totalSendBytes_sum by done.
      destruct e; try done; rewrite (bind_eq _ _ _ _ _ Hup), (bind_eq _ _ _ _ _ (Disconnect_run server _));
      rewrite ?(proj2 (Z.eqb_neq (-1) _)) by lia; reflexivity. }
  unfold failed_calls. case_decide; cbn [session os buffer_address].
  - rewrite app_nil_r. unfold mret, M_ret. do 3 f_equal. by destruct s as [? ? ? ? ? [] ?].
  - rewrite leftover_run by done. rewrite scheduled_failed by done.
    rewrite <- log_calls_app. done.
Qed.

(** *** Send *)

Lemma Send_idle b n s o ad :
  b ≠ 0 → 0 < n → mIsSending s = false →
  Send server b n (mkWorld s o ad) =
    (DoSend server;; arm_send_poll server)
      (mkWorld (SetSendState true (set_packets (mPackets s ++ [mkIovec b n]) s)) o ad).
Proof.
  intros Hb Hn Hs. unfold Send.
  rewrite (proj2 (Z.eqb_neq b 0) Hb), (proj2 (Z.leb_gt n 0)) by lia. cbn [orb].
  destruct s as [? ? ? ? [] ? ?]; [done|reflexivity].
Qed.

Lemma Send_busy b n s o ad :
  b ≠ 0 → 0 < n → mIsSending s = true →
  Send server b n (mkWorld s o ad) =
    Some (tt, mkWorld (set_packets (mPackets s ++ [mkIovec b n]) s) o ad).
Proof.
  intros Hb Hn Hs. unfold Send.
  rewrite (proj2 (Z.eqb_neq b 0) Hb), (proj2 (Z.leb_gt n 0)) by lia. cbn [orb].
  destruct s as [? ? ? ? [] ? ?]; [reflexivity|done].
Qed.

Fixpoint Sends (l : list iovec) : M World unit :=
  match l with
  | [] => mret tt
  | p :: l => Send server (iov_base p) (iov_len p);; Sends l
  end.

(** While [mIsSending] is set, sending is queueing. *)
Lemma Sends_busy l s o ad :
  Forall (λ p, iov_base p ≠ 0 ∧ 0 < iov_len p) l → mIsSending s = true →
  Sends l (mkWorld s o ad) = Some (tt, mkWorld (set_packets (mPackets s ++ l) s) o ad).
Proof.
  intros Hl. revert s. induction Hl as [|[b n] l [Hb Hn] Hl IH]; intros s Hs; cbn [Sends].
  - rewrite app_nil_r. by destruct s.
  - rewrite (bind_eq _ _ _ _ _ (Send_busy b n s o ad Hb Hn Hs)), IH by done.
    cbn. by rewrite <- app_assoc.
Qed.

(** *** The leftover *)

Lemma scheduled_single p n :
  packet_ok p → 0 ≤ n < iov_len p →
  scheduled n [p] = [mkIovec (iov_base p + (iov_len p - n)) n].
Proof.
  intros [] Hn. unfold scheduled. cbn [find_unsent]. unwrap.
  rewrite (proj2 (Z.ltb_lt _ _)) by lia. do 2 f_equal. unwrap. lia.
Qed.

Lemma scheduled_none n ps :
  0 ≤ n < 2 ^ 31 → Forall (λ p, iov_len p ≤ n) ps → scheduled n ps = [].
Proof.
  intros Hn Hps. unfold scheduled. enough (find_unsent n ps = (0, [])) as -> by done.
  induction Hps as [|p ps Hp _ IH]; [done|]. cbn [find_unsent]. unwrap.
  by rewrite (proj2 (Z.ltb_ge _ _)) by lia.
Qed.
End Sending.

(** ** Receiving *)

Section Receiving.
Context (server : ServerView) `{!QuietDisconnect server}.

(** The system after [recv] answered [as] with [rest] left, each asked for at
    most the matching length of [lens]. *)
Definition after_recv (fd : SocketFD) (lens : list Z) (rest : list RecvAnswer) (o : OS) : OS :=
  mkOS rest (writev_answers o) (epoll_ctl_answers o) (calls o ++ (CallRecv fd <$> lens)).

Definition bytes_of (a : RecvAnswer) : list Byte :=
  match a with RecvData bytes => bytes | _ => [] end.

(** An answer after which [Execute] goes round again. *)
Definition goes_on (a : RecvAnswer) : Prop :=
  match a with RecvData bytes => bytes ≠ [] | RecvError EINTR => True | _ => False end.

Definition received (l : list RecvAnswer) : list Byte := mjoin (bytes_of <$> l).

Lemma turn_answer b s o ad a rest :
  mSessionFD s ≠ sINVALID_SOCKET_FD → mRecvBuffer (mRecvJob s) = b →
  recv_answers o = a :: rest →
  (∀ bytes, a = RecvData bytes → 0 < Z.of_nat (length bytes) ≤ GetDirectWriteSize b) →
  RecvJob_turn server (mkWorld s o ad) =
    (match a with
     | RecvClosed => stop_receiving server
     | RecvError EAGAIN => mret (Some true)
     | RecvError EINTR => mret None
     | RecvError (EPIPE | ECONNRESET) => stop_receiving server
     | RecvError (EOTHER _) => call CallPrintln;; mret (Some true)
     | RecvData bytes => update (set_recv_buffer (recv_into b bytes));; mret None
     end) (mkWorld s (after_recv (mSessionFD s) [GetDirectWriteSize b] rest o) ad).
Proof.
  intros Hfd Hb Ho Ha. unfold RecvJob_turn.
  erewrite (bind_eq (this GetSocketFD)) by reflexivity. cbn [session]. unfold GetSocketFD.
  rewrite decide_False by done.
  erewrite (bind_eq recv_buffer) by reflexivity. cbn [session]. rewrite Hb.
  unfold recv. destruct o as [ra wa ea cs]; cbn in Ho; subst ra.
  destruct a as [bytes| |e]; try (destruct e; reflexivity); try reflexivity.
  destruct (Ha bytes eq_refl) as [H1 H2].
  run. rewrite (proj2 (Z.ltb_lt _ _) H1), (proj2 (Z.leb_le _ _) H2). run. by rewrite Hb.
Qed.

Lemma after_recv_app fd l1 l2 r1 r2 o :
  after_recv fd l2 r2 (after_recv fd l1 r1 o) = after_recv fd (l1 ++ l2) r2 o.
Proof. unfold after_recv; cbn. by rewrite fmap_app, app_assoc. Qed.

(** The turns that go round again put what they receive in the buffer. *)
Lemma turns_receive pre rest turns s o ad :
  mSessionFD s ≠ sINVALID_SOCKET_FD → wf (mRecvBuffer (mRecvJob s)) →
  recv_answers o = pre ++ rest → Forall goes_on pre →
  Z.of_nat (length (received pre)) ≤ GetDirectWriteSize (mRecvBuffer (mRecvJob s)) →
  ∃ b lens,
    forever (length pre + turns) (RecvJob_turn server) (mkWorld s o ad) =
    forever turns (RecvJob_turn server)
      (mkWorld (set_recv_buffer b s) (after_recv (mSessionFD s) lens rest o) ad) ∧
    wf b ∧ contents b = contents (mRecvBuffer (mRecvJob s)) ++ received pre ∧
    GetDirectWriteSize b = GetDirectWriteSize (mRecvBuffer (mRecvJob s)) - Z.of_nat (length (received pre)) ∧
    length lens = length pre ∧ mFront b = mFront (mRecvBuffer (mRecvJob s)).
Proof.
  intros Hfd. revert s o Hfd. induction pre as [|a pre IH]; intros s o Hfd Hwf Ho Hpre Hlen.
  - exists (mRecvBuffer (mRecvJob s)), []. cbn in *. rewrite app_nil_r. split_and!; [|done..|lia|done|done].
    f_equal. destruct s as [? ? ? [] ? ? ?], o; cbn in *; subst. unfold after_recv; cbn. by rewrite app_nil_r.
  - inversion_clear Hpre as [|? ? Ha Hpre']. set (b := mRecvBuffer (mRecvJob s)) in *.
    change (received (a :: pre)) with (bytes_of a ++ received pre) in *. rewrite length_app in Hlen.
    assert (RecvJob_turn server (mkWorld s o ad) = Some (None, mkWorld
      (set_recv_buffer (match a with RecvData bytes => recv_into b bytes | _ => b end) s)
      (after_recv (mSessionFD s) [GetDirectWriteSize b] (pre ++ rest) o) ad)) as Hturn.
    { rewrite (turn_answer b s o ad a (pre ++ rest)); try done.
      - destruct a as [bytes| |[]]; try done. by destruct s as [? ? ? [] ? ? ?].
      - intros bytes ->. cbn in *. destruct bytes; [done|]. cbn in *. lia. }
    change (length (a :: pre) + turns)%nat with (S (length pre + turns)).
    rewrite (forever_again _ _ _ _ Hturn).
    set (b1 := match a with RecvData bytes => recv_into b bytes | _ => b end) in *.
    assert (wf b1 ∧ contents b1 = contents b ++ bytes_of a ∧
            GetDirectWriteSize b1 = GetDirectWriteSize b - Z.of_nat (length (bytes_of a)) ∧
            mFront b1 = mFront b) as (Hwf1 & Hc1 & Hd1 & Hf1).
    { destruct a as [bytes| |]; cbn in Ha |- *; [|done|by rewrite app_nil_r, Z.sub_0_r].
      cbn in Hlen. destruct (recv_into_spec b bytes Hwf) as [? ?]; [lia|].
      split_and!; [done|done| |done]. apply direct_after_recv; [done|lia]. }
    destruct (IH (set_recv_buffer b1 s) (after_recv (mSessionFD s) [GetDirectWriteSize b] (pre ++ rest) o)
      Hfd Hwf1 eq_refl Hpre') as (b2 & lens & He & Hwf2 & Hc2 & Hd2 & Hl & Hf2); [cbn; rewrite Hd1; lia|].
    exists b2, (GetDirectWriteSize b :: lens). cbn in Hc2, Hd2. rewrite He, after_recv_app.
    split_and!; [done|done| | |by cbn; f_equal|by rewrite Hf2].
    + by rewrite Hc2, Hc1, app_assoc.
    + rewrite Hd2, Hd1, length_app. lia.
Qed.

(** The end of the connection, as [recv] reports it. *)
Definition hangs_up (a : RecvAnswer) : Prop :=
  match a with RecvClosed | RecvError (EPIPE | ECONNRESET) => True | _ => False end.

Lemma stop_receiving_run w :
  stop_receiving server w =
    Some (Some false, mkWorld (set_fd sINVALID_SOCKET_FD (SetReceiveState false (session w)))
      (log_calls (disconnect_calls server (SetReceiveState false (session w))) (os w)) (buffer_address w)).
Proof.
  unfold stop_receiving. erewrite (bind_eq (update _)) by reflexivity.
  by rewrite (bind_eq _ _ _ _ _ (Disconnect_run server _)).
Qed.

Lemma Execute_turns pre a rest s o ad :
  recv_answers o = pre ++ a :: rest →
  RecvJob_Execute server (mkWorld s o ad) =
    forever (length pre + S (S (length rest))) (RecvJob_turn server) (mkWorld s o ad).
Proof.
  intros Ho. unfold RecvJob_Execute. erewrite (bind_eq (gets _)) by reflexivity.
  cbn [os]. rewrite Ho, length_app. cbn [length]. f_equal. lia.
Qed.

(** [Execute] on a socket that gives [pre] and then would block. *)
Lemma Execute_run pre rest s o ad :
  mSessionFD s ≠ sINVALID_SOCKET_FD → wf (mRecvBuffer (mRecvJob s)) →
  recv_answers o = pre ++ RecvError EAGAIN :: rest → Forall goes_on pre →
  Z.of_nat (length (received pre)) ≤ GetDirectWriteSize (mRecvBuffer (mRecvJob s)) →
  ∃ b lens, RecvJob_Execute server (mkWorld s o ad) =
      Some (true, mkWorld (set_recv_buffer b s) (after_recv (mSessionFD s) lens rest o) ad) ∧
    wf b ∧ contents b = contents (mRecvBuffer (mRecvJob s)) ++ received pre ∧
    mFront b = mFront (mRecvBuffer (mRecvJob s)).
Proof.
  intros Hfd Hwf Ho Hpre Hlen.
  destruct (turns_receive pre (RecvError EAGAIN :: rest) (S (S (length rest))) s o ad)
    as (b & lens & He & Hwf' & Hc & Hd & Hl & Hfr); try done.
  rewrite (Execute_turns pre _ rest) by done. rewrite He.
  exists b, (lens ++ [GetDirectWriteSize b]). split; [|done].
  apply forever_stop. rewrite <- (after_recv_app _ lens _ (RecvError EAGAIN :: rest)).
  by rewrite (turn_answer b (set_recv_buffer b s) _ ad (RecvError EAGAIN) rest).
Qed.

(** *** Complete *)

(** The buffer after [OnRecv] said it used [n] bytes. *)
Definition consumed (b : RecvBuffer Byte) (n : Z) : RecvBuffer Byte :=
  if 0 <? n then (if n =? GetUsedSize b then Reset (MoveReadOffset b n) else MoveReadOffset b n) else b.

(** The receive job armed again. *)
Definition rearmed (s : Session) (o : OS) : OS :=
  log_call (CallEpollCtl (GetEpollFD server) EPOLL_CTL_MOD (mSessionFD s)
      (JobRecv (mSessionID s)) (Z.lor (Z.lor EPOLLONESHOT EPOLLIN) EPOLLET))
    (set_epoll_ctl_answers (tail (epoll_ctl_answers o)) o).

Lemma Complete_run OnRecv s o ad s1 o1 n :
  let b := mRecvBuffer (mRecvJob s) in
  wf b → 0 < used b →
  OnRecv (mSessionID s) (ad + mFront b) (GetDIrectReadSize b)
    (mkWorld s (log_call (CallOnRecv (mSessionID s) (ad + mFront b) (GetDIrectReadSize b)) o) ad)
    = Some (n, mkWorld s1 o1 ad) →
  mRecvBuffer (mRecvJob s1) = b → head (epoll_ctl_answers o1) = Some None →
  RecvJob_Complete server OnRecv (mkWorld s o ad) =
    Some (tt, mkWorld (set_recv_buffer (consumed b n) s1) (rearmed s1 o1) ad).
Proof.
  intros b Hwf Hused HOn Hb1 Hep. pose proof (used_eq b Hwf) as Hu.
  unfold RecvJob_Complete. erewrite (bind_eq recv_buffer) by reflexivity. cbn [session].
  fold b. rewrite (proj2 (Z.ltb_lt 0 (GetUsedSize b))) by lia.
  erewrite (bind_eq (when _ _)).
  2:{ unfold when. erewrite (bind_eq (this id)) by reflexivity.
      erewrite (bind_eq (gets buffer_address)) by reflexivity.
      erewrite (bind_eq (call _)) by reflexivity. cbn [session buffer_address id].
      unfold on_os; cbn [session os buffer_address]. erewrite bind_eq by apply HOn.
      instantiate (1 := mkWorld (set_recv_buffer (consumed b n) s1) o1 ad). instantiate (1 := tt).
      unfold consumed. destruct (0 <? n); [|destruct s1 as [? ? ? [] ? ? ?]; cbn in *; by subst].
      erewrite (bind_eq (update _)) by reflexivity. cbn [session os buffer_address on_session].
      destruct (n =? GetUsedSize b); run; rewrite <- Hb1; reflexivity. }
  erewrite (bind_eq (this id)) by reflexivity.
  unfold epoll_ctl, call, rearmed. destruct o1 as [ra wa [|[]] cs]; try done; by injection Hep as ->.
Qed.
End Receiving.

(** ** The server of tests/performance/test_server.cpp

    Its [OnRecv] sends what it is given back and returns the size; its
    [OnDisconnected] prints. *)

Definition test_server : ServerView := mkServerView 5 6 (λ _, mret tt).

#[export] Instance test_server_quiet : QuietDisconnect test_server.
Proof. done. Qed.

Definition TestServer_OnRecv (sessionID : SessionID) (buffer inputSize : Z) : M World Z :=
  Send test_server buffer inputSize;; mret inputSize.

(** ** Properties *)

Section Properties.
Context (server : ServerView) `{!QuietDisconnect server}.

(** However many times [Disconnect] is called on an open session, the
    socket is removed from the poll and closed exactly once, the descriptor
    stays invalid, and the user is told it is gone at every one of the calls
    if the session is neither receiving nor sending, and at none otherwise. *)
Theorem Disconnect_closes_once n s o ad :
  mSessionFD s ≠ sINVALID_SOCKET_FD →
  Disconnects server (S n) (mkWorld s o ad) =
    Some (tt, mkWorld (set_fd sINVALID_SOCKET_FD s)
      (log_calls ([CallEpollCtl (GetEpollFD server) EPOLL_CTL_DEL (mSessionFD s) JobNull 0;
                   CallClose (mSessionFD s)] ++
         replicate (if negb (mIsRecving s) && negb (mIsSending s) then S n else 0)
           (CallOnDisconnected (mSessionID s))) o) ad).
Proof.
  intros Hfd. cbn [Disconnects]. rewrite (bind_eq _ _ _ _ _ (Disconnect_run server _)).
  cbn [session os buffer_address]. rewrite Disconnects_closed by done.
  unfold disconnect_calls, close_calls. rewrite decide_False by done.
  unfold on_os; cbn [session os buffer_address]. rewrite log_calls_app. do 3 f_equal.
  rewrite <- app_assoc. f_equal. f_equal. unfold notify_calls. cbn.
  destruct (_ && _); cbn; [f_equal|]; by induction n as [|n IH]; cbn; [|f_equal + rewrite IH].
Qed.

(** C13: [DoSend], after any number of interruptions, when [writev] takes
    everything: the packets queued so far are handed to one gathered write, in
    order, the queue is empty and the session is no longer sending. *)
Theorem DoSend_sends_all k rest ps s o ad :
  mPackets s = ps → ps ≠ [] → Forall packet_ok ps → sum_len ps < 2 ^ 31 →
  mSessionFD s ≠ sINVALID_SOCKET_FD →
  writev_answers o = replicate k (SendError EINTR) ++ Sent (sum_len ps) :: rest →
  ∃ s' o', DoSend server (mkWorld s o ad) = Some (tt, mkWorld s' o' ad) ∧
    mPackets s' = [] ∧ mIsSending s' = false ∧ mSessionFD s' = mSessionFD s ∧
    calls o' = calls o ++ replicate (S k) (CallWritev (mSessionFD s) ps) ∧ writev_answers o' = rest.
Proof.
  intros Hps Hne Hok Hsum Hfd Ho. eexists _, _.
  split; [by apply (DoSend_all server k rest ps)|]. done.
Qed.

(** [DoSend] when [writev] fails for good: whatever the error, after the
    interruptions the session is closed, no longer sending, and its packets
    are dropped; the user is told exactly if it was not receiving either.  On
    errors other than [EAGAIN] the code goes on to arm the send poll for the
    descriptor it has just invalidated. *)
Theorem DoSend_closes_on_error k rest e ps s o ad :
  mPackets s = ps → ps ≠ [] → Forall packet_ok ps → sum_len ps < 2 ^ 31 →
  mSessionFD s ≠ sINVALID_SOCKET_FD → e ≠ EINTR →
  writev_answers o = replicate k (SendError EINTR) ++ SendError e :: rest →
  ∃ s' o', DoSend server (mkWorld s o ad) = Some (tt, mkWorld s' o' ad) ∧
    mSessionFD s' = sINVALID_SOCKET_FD ∧ mIsSending s' = false ∧ mPackets s' = [] ∧
    calls o' = calls o ++ replicate (S k) (CallWritev (mSessionFD s) ps) ++
      [CallEpollCtl (GetEpollFD server) EPOLL_CTL_DEL (mSessionFD s) JobNull 0; CallClose (mSessionFD s)] ++
      (if mIsRecving s then [] else [CallOnDisconnected (mSessionID s)]) ++
      (if decide (e = EAGAIN) then []
       else [CallEpollCtl (GetSendPollFD server) EPOLL_CTL_MOD (-1) (JobSend (mSessionID s))
               (Z.lor EPOLLOUT EPOLLONESHOT)]).
Proof.
  intros Hps Hne Hok Hsum Hfd He Ho. eexists _, _.
  split; [by apply (DoSend_failed server k rest e ps)|]. split_and!; try done.
  unfold log_calls, after_writev, failed_calls, disconnect_calls, close_calls, notify_calls.
  cbn [calls mSessionFD SetSendState mIsRecving mIsSending mSessionID].
  rewrite decide_False by done. rewrite <- !app_assoc. by destruct (mIsRecving s).
Qed.

(** After a short [writev] of one packet, of which [n] bytes went out,
    what [DoSend] hands to the send job are the last [n] bytes of the packet;
    these are the bytes still owed, the last [len - n], only when exactly half
    the packet was sent. *)
Theorem short_write_leftover k rest p n s o ad :
  mPackets s = [p] → packet_ok p → mSessionFD s ≠ sINVALID_SOCKET_FD → 0 ≤ n < iov_len p →
  writev_answers o = replicate k (SendError EINTR) ++ Sent n :: rest →
  ∃ s' o', DoSend server (mkWorld s o ad) = Some (tt, mkWorld s' o' ad) ∧
    addresses (mSendPackets (mSendJob s')) = drop (Z.to_nat (iov_len p - n)) (addresses [p]) ∧
    (mSendPackets (mSendJob s') = owed n [p] ↔ n + n = iov_len p).
Proof.
  intros Hps Hok Hfd Hn Ho. destruct Hok as [Hp1 Hp2]. eexists _, _. split.
  { apply (DoSend_partial server k rest n [p]); try done; cbn [sum_len]; try lia.
    by apply Forall_singleton. }
  cbn [mSendPackets mSendJob set_send_packets]. rewrite scheduled_single by done.
  cbn. rewrite (proj2 (Z.ltb_lt _ _)) by lia. split.
  - rewrite !app_nil_r. replace (iov_len p) with ((iov_len p - n) + n) at 3 by lia.
    rewrite seqZ_app, drop_app_length' by len_lia. done.
  - split; [intros [= H1 H2]; lia|]. intros H. do 2 f_equal; lia.
Qed.

(** A short [writev] stalls the session for good: if the first packet of
    an idle session is not sent whole, then whatever is sent afterwards is only
    queued, without any system call, and [mIsSending] stays set. *)
Theorem short_write_stalls p l n rest s o ad :
  mIsSending s = false → mPackets s = [] → mSessionFD s ≠ sINVALID_SOCKET_FD →
  iov_base p ≠ 0 → packet_ok p → 0 ≤ n < iov_len p →
  writev_answers o = Sent n :: rest →
  Forall (λ p, iov_base p ≠ 0 ∧ 0 < iov_len p) l →
  ∃ s' o', (Send server (iov_base p) (iov_len p);; Sends server l) (mkWorld s o ad)
             = Some (tt, mkWorld s' o' ad) ∧
    mIsSending s' = true ∧ mPackets s' = l ∧
    calls o' = calls o ++ CallWritev (mSessionFD s) [p] ::
      replicate 2 (CallEpollCtl (GetSendPollFD server) EPOLL_CTL_MOD (mSessionFD s)
                     (JobSend (mSessionID s)) (Z.lor EPOLLOUT EPOLLONESHOT)).
Proof.
  intros Hs Hps Hfd Hb Hok Hn Ho Hl. pose proof Hok as [Hp1 Hp2]. destruct p as [b len].
  cbn [iov_base iov_len] in *.
  assert (Send server b len (mkWorld s o ad) = Some (tt, mkWorld
    (set_send_packets (scheduled n [mkIovec b len]) (SetSendState true s))
    (log_calls (CallWritev (mSessionFD s) [mkIovec b len] ::
      replicate 2 (CallEpollCtl (GetSendPollFD server) EPOLL_CTL_MOD (mSessionFD s)
                     (JobSend (mSessionID s)) (Z.lor EPOLLOUT EPOLLONESHOT)))
      (set_writev_answers rest o)) ad)) as Hsend.
  { rewrite Send_idle by (done || lia). rewrite Hps.
    erewrite bind_eq; [|apply (DoSend_partial server 0 rest n [mkIovec b len]); try done; cbn [sum_len iov_len]; try lia; by apply Forall_singleton].
    unfold arm_send_poll, this, epoll_ctl_, call; run. unfold on_os, log_call, log_calls, after_writev; cbn.
    rewrite <- !app_assoc. destruct s as [? ? ? ? ? ? ps']; cbn in *; by subst. }
  rewrite (bind_eq _ _ _ _ _ Hsend), Sends_busy by done.
  eexists _, _. split; [done|]. cbn. by rewrite Hps.
Qed.

(** The send job does not send its own packets: run with nothing newly
    queued, [SendJob::Execute] writes nothing, clears [mIsSending], and the
    leftover is still in the job. *)
Theorem SendJob_forgets_leftover s o ad :
  mPackets s = [] →
  ∃ s' o', SendJob_Execute server (mkWorld s o ad) = Some (false, mkWorld s' o' ad) ∧
    calls o' = calls o ++ [CallPrintln] ∧ mIsSending s' = false ∧
    mSendPackets (mSendJob s') = mSendPackets (mSendJob s).
Proof.
  intros Hps. destruct s as [? ? ? ? ? ? ps]; cbn in Hps; subst. eexists _, _. by split.
Qed.

(** C14: [RecvJob::Execute] reads until the socket would block: the bytes of
    all the [recv]s, in order and around interruptions, are appended to the
    waiting ones, the buffer stays well-formed, and the job asks to be
    completed, nothing else of the session having changed. *)
Theorem Execute_drains_socket pre rest s o ad :
  mSessionFD s ≠ sINVALID_SOCKET_FD → wf (mRecvBuffer (mRecvJob s)) →
  recv_answers o = pre ++ RecvError EAGAIN :: rest → Forall goes_on pre →
  Z.of_nat (length (received pre)) ≤ GetDirectWriteSize (mRecvBuffer (mRecvJob s)) →
  ∃ b o', RecvJob_Execute server (mkWorld s o ad) = Some (true, mkWorld (set_recv_buffer b s) o' ad) ∧
    wf b ∧ contents b = contents (mRecvBuffer (mRecvJob s)) ++ received pre ∧
    recv_answers o' = rest.
Proof.
  intros Hfd Hwf Ho Hpre Hlen.
  destruct (Execute_run server pre rest s o ad) as (b & lens & He & Hwf' & Hc & _); try done.
  by eexists b, _.
Qed.

(** C35: when the peer closes or resets, [RecvJob::Execute] closes the session
    and returns [false]; so the bytes received in the same run, now in the
    buffer, never reach [Complete] and [OnRecv]. *)
Theorem Execute_hang_up pre a rest s o ad :
  mSessionFD s ≠ sINVALID_SOCKET_FD → wf (mRecvBuffer (mRecvJob s)) → hangs_up a →
  recv_answers o = pre ++ a :: rest → Forall goes_on pre →
  Z.of_nat (length (received pre)) ≤ GetDirectWriteSize (mRecvBuffer (mRecvJob s)) →
  ∃ s' o' lens, RecvJob_Execute server (mkWorld s o ad) = Some (false, mkWorld s' o' ad) ∧
    mSessionFD s' = sINVALID_SOCKET_FD ∧ mIsRecving s' = false ∧
    contents (mRecvBuffer (mRecvJob s')) = contents (mRecvBuffer (mRecvJob s)) ++ received pre ∧
    calls o' = calls o ++ (CallRecv (mSessionFD s) <$> lens) ++
      [CallEpollCtl (GetEpollFD server) EPOLL_CTL_DEL (mSessionFD s) JobNull 0; CallClose (mSessionFD s)] ++
      (if mIsSending s then [] else [CallOnDisconnected (mSessionID s)]) ∧
    length lens = S (length pre) ∧
    last lens = Some (GetDirectWriteSize (mRecvBuffer (mRecvJob s)) - Z.of_nat (length (received pre))).
Proof.
  intros Hfd Hwf Ha Ho Hpre Hlen.
  destruct (turns_receive server pre (a :: rest) (S (S (length rest))) s o ad)
    as (b & lens & He & Hwf' & Hc & Hd & Hl & _); try done.
  rewrite (Execute_turns server pre _ rest) by done. rewrite He.
  eexists _, _, (lens ++ [GetDirectWriteSize b]). split.
  - apply forever_stop.
    rewrite (turn_answer server b (set_recv_buffer b s) _ ad a rest); try done; [|by intros bytes ->].
    destruct a as [| |[]]; try done; apply (stop_receiving_run server).
  - rewrite after_recv_app. split_and!; try done.
    + unfold log_calls, after_recv, disconnect_calls, close_calls, notify_calls. cbn.
      rewrite decide_False by done. rewrite <- app_assoc. by destruct (mIsSending s).
    + rewrite length_app, Hl. cbn. lia.
    + by rewrite last_snoc, <- Hd.
Qed.

(** C15: [RecvJob::Complete] with bytes waiting: [OnRecv] is handed the
    address of the oldest byte and the number of bytes up to the end of the
    array, which is positive; if it says it used [n] of them, exactly the
    oldest [n] are dropped (none if [n] is 0), and the job is armed again.
    When everything was used the offsets go back to 0. *)
Theorem Complete_consumes OnRecv s o ad s1 o1 n :
  let b := mRecvBuffer (mRecvJob s) in
  wf b → 0 < used b →
  OnRecv (mSessionID s) (ad + mFront b) (GetDIrectReadSize b)
    (mkWorld s (log_call (CallOnRecv (mSessionID s) (ad + mFront b) (GetDIrectReadSize b)) o) ad)
    = Some (n, mkWorld s1 o1 ad) →
  mRecvBuffer (mRecvJob s1) = b → 0 ≤ n ≤ GetDIrectReadSize b →
  head (epoll_ctl_answers o1) = Some None →
  ∃ b' o', RecvJob_Complete server OnRecv (mkWorld s o ad) =
      Some (tt, mkWorld (set_recv_buffer b' s1) o' ad) ∧
    0 < GetDIrectReadSize b ∧
    segment (mBuffer b) (mFront b) (GetDIrectReadSize b) = take (Z.to_nat (GetDIrectReadSize b)) (contents b) ∧
    wf b' ∧ contents b' = drop (Z.to_nat n) (contents b) ∧
    (n = used b → mFront b' = 0 ∧ mRear b' = 0) ∧
    calls o' = calls o1 ++ [CallEpollCtl (GetEpollFD server) EPOLL_CTL_MOD (mSessionFD s1)
      (JobRecv (mSessionID s1)) (Z.lor (Z.lor EPOLLONESHOT EPOLLIN) EPOLLET)].
Proof.
  intros b Hwf Hused HOn Hb1 Hn Hep.
  pose proof (direct_read_le_used b Hwf) as Hd. pose proof (used_eq b Hwf) as Hu.
  exists (consumed b n), (rearmed server s1 o1).
  split; [by apply Complete_run|]. split; [clear -Hwf Hused Hu; rewrite <- Hu in Hused; revert Hused; ring_lia|].
  split; [by apply direct_read_prefix|]. unfold consumed. split_and!; [..|done].
  - cmp_cases; [apply Reset_spec|apply contents_advance; [done|lia]|done].
  - cmp_cases.
    + destruct (Reset_spec (MoveReadOffset b n)) as [_ ->]. rewrite drop_ge; [done|]. unfold used in *; lia.
    + apply contents_advance; [done|lia].
    + by replace n with 0 by lia.
  - intros ->. cmp_cases; [done|lia|lia].
Qed.

(** The first bytes a session delivers need not be its own: a [Session]
    built on a slot of the session vector whose previous user left bytes
    unread has them in its receive buffer, and on its first readiness event,
    before its socket has given anything, hands them to [OnRecv] as its own. *)
Theorem recycled_slot_delivers_stale_bytes OnRecv sid fd raw o rest ad :
  let b := mRecvBuffer (mRecvJob raw) in
  wf b → 0 < used b → fd ≠ sINVALID_SOCKET_FD →
  (∀ id buffer size w, OnRecv id buffer size w = Some (0, w)) →
  recv_answers o = RecvError EAGAIN :: rest → head (epoll_ctl_answers o) = Some None →
  ∃ s' o', (RecvJob_Execute server;; RecvJob_Complete server OnRecv)
             (mkWorld (Session_construct sid fd raw) o ad) = Some (tt, mkWorld s' o' ad) ∧
    CallOnRecv sid (ad + mFront b) (GetDIrectReadSize b) ∈ calls o' ∧
    contents (mRecvBuffer (mRecvJob s')) = contents b ∧ 0 < GetDIrectReadSize b.
Proof.
  intros b Hwf Hused Hfd HOn Ho Hep. pose proof (used_eq b Hwf) as Hu.
  pose proof (direct_read_le_used b Hwf) as Hd.
  assert (0 < GetDIrectReadSize b) as Hpos
    by (clear -Hwf Hused Hu; rewrite <- Hu in Hused; revert Hused; ring_lia).
  set (s := Session_construct sid fd raw).
  assert (RecvJob_Execute server (mkWorld s o ad) =
    Some (true, mkWorld s (after_recv fd [GetDirectWriteSize b] rest o) ad)) as He.
  { rewrite (Execute_turns server [] _ rest) by done. apply forever_stop.
    by rewrite (turn_answer server b s o ad (RecvError EAGAIN) rest). }
  rewrite (bind_eq _ _ _ _ _ He).
  rewrite (Complete_run server OnRecv s _ ad s
    (log_call (CallOnRecv sid (ad + mFront b) (GetDIrectReadSize b))
       (after_recv fd [GetDirectWriteSize b] rest o)) 0); try done.
  eexists _, _. split; [done|]. cbn. split_and!; [|done|done].
  rewrite <- !app_assoc. set_solver.
Qed.
End Properties.

(** *** The echo of the test server *)

(** The bytes a queued packet stands for: its addresses lie in the receive
    buffer of the session. *)
Definition packet_bytes (w : World) (p : iovec) : list Byte :=
  segment (mBuffer (mRecvBuffer (mRecvJob (session w)))) (iov_base p - buffer_address w) (iov_len p).

(** A session with the bytes 1, 2, 3 waiting. *)
Definition sample_buffer : RecvBuffer Byte := mkRecvBuffer 0 3 (λ i, i + 1).
Definition sample_session (sending : bool) (ps : list iovec) : Session :=
  mkSession 7 3 true (mkRecvJob sample_buffer) sending (mkSendJob []) ps.

(** The packets the test server echoes are not copied: when the session is
    already sending, the echo of the bytes just received is queued as a pointer
    into the receive buffer, and the next receive overwrites them, so that the
    queued packet then stands for bytes of a later message. *)
Theorem echo_overwritten :
  ∃ w w1 w2 p,
    mIsSending (session w) = true ∧ mPackets (session w) = [] ∧
    contents (mRecvBuffer (mRecvJob (session w))) = [1; 2; 3] ∧
    RecvJob_Complete test_server TestServer_OnRecv w = Some (tt, w1) ∧
    mPackets (session w1) = [p] ∧ packet_bytes w1 p = [1; 2; 3] ∧
    RecvJob_Execute test_server w1 = Some (true, w2) ∧
    mPackets (session w2) = [p] ∧ packet_bytes w2 p = [9; 9; 9].
Proof.
  exists (mkWorld (sample_session true []) (mkOS [RecvData [9; 9; 9]; RecvError EAGAIN] [] [None] []) 4096).
  eexists _, _, _. split_and!; [reflexivity|reflexivity|reflexivity|vm_compute; reflexivity|..];
    [reflexivity|vm_compute; reflexivity|vm_compute; reflexivity|reflexivity|vm_compute; reflexivity].
Qed.

(** *** Witnesses *)

Definition quiet_OnRecv (n : Z) : SessionID → Z → Z → M World Z := λ _ _ _, mret n.

Definition sample_packet : iovec := mkIovec 4096 10.

Lemma sample_packet_ok : packet_ok sample_packet.
Proof. by split. Qed.

Lemma sample_buffer_wf : wf sample_buffer.
Proof. repeat split; discriminate || reflexivity. Qed.

Lemma Disconnect_closes_once_witness :
  Disconnects test_server 2 (mkWorld (sample_session false []) (mkOS [] [] [] []) 4096) =
    Some (tt, mkWorld (set_fd sINVALID_SOCKET_FD (sample_session false []))
      (log_calls [CallEpollCtl 5 EPOLL_CTL_DEL 3 JobNull 0; CallClose 3] (mkOS [] [] [] [])) 4096).
Proof. by apply (Disconnect_closes_once test_server 1 (sample_session false [])). Defined.

Lemma DoSend_sends_all_witness :
  ∃ s' o', DoSend test_server (mkWorld (sample_session true [sample_packet; sample_packet])
      (mkOS [] [SendError EINTR; Sent 20] [] []) 0) = Some (tt, mkWorld s' o' 0) ∧
    mPackets s' = [] ∧ mIsSending s' = false ∧ mSessionFD s' = 3 ∧
    calls o' = replicate 2 (CallWritev 3 [sample_packet; sample_packet]) ∧ writev_answers o' = [].
Proof.
  apply (DoSend_sends_all test_server 1 [] [sample_packet; sample_packet]
    (sample_session true [sample_packet; sample_packet])); try done.
  repeat constructor; apply sample_packet_ok.
Defined.

Lemma DoSend_closes_on_error_witness :
  ∃ s' o', DoSend test_server (mkWorld (sample_session true [sample_packet])
      (mkOS [] [SendError EPIPE] [] []) 0) = Some (tt, mkWorld s' o' 0) ∧
    mSessionFD s' = sINVALID_SOCKET_FD.
Proof.
  destruct (DoSend_closes_on_error test_server 0 [] EPIPE [sample_packet]
    (sample_session true [sample_packet]) (mkOS [] [SendError EPIPE] [] []) 0)
    as (s' & o' & H & Hfd & _); try done.
  - repeat constructor; apply sample_packet_ok.
  - by exists s', o'.
Defined.

Lemma short_write_leftover_witness :
  ∃ s' o', DoSend test_server (mkWorld (sample_session true [sample_packet])
      (mkOS [] [Sent 3] [] []) 0) = Some (tt, mkWorld s' o' 0) ∧
    addresses (mSendPackets (mSendJob s')) = [4103; 4104; 4105] ∧
    addresses (owed 3 [sample_packet]) = [4099; 4100; 4101; 4102; 4103; 4104; 4105].
Proof.
  destruct (short_write_leftover test_server 0 [] sample_packet 3
    (sample_session true [sample_packet]) (mkOS [] [Sent 3] [] []) 0)
    as (s' & o' & H & Ha & _); try done.
  exists s', o'. by rewrite Ha.
Defined.

Lemma short_write_stalls_witness :
  ∃ s' o', (Send test_server 4096 10;; Sends test_server [sample_packet; sample_packet])
      (mkWorld (sample_session false []) (mkOS [] [Sent 3; Sent 20] [] []) 0) = Some (tt, mkWorld s' o' 0) ∧
    mIsSending s' = true ∧ mPackets s' = [sample_packet; sample_packet].
Proof.
  destruct (short_write_stalls test_server sample_packet [sample_packet; sample_packet] 3 [Sent 20]
    (sample_session false []) (mkOS [] [Sent 3; Sent 20] [] []) 0)
    as (s' & o' & H & Hs & Hp & _); try done.
  - repeat constructor; done.
  - by exists s', o'.
Defined.

Lemma SendJob_forgets_leftover_witness :
  ∃ s' o', SendJob_Execute test_server (mkWorld (set_send_packets [sample_packet] (sample_session true []))
      (mkOS [] [Sent 10] [] []) 0) = Some (false, mkWorld s' o' 0) ∧
    calls o' = [CallPrintln] ∧ mIsSending s' = false ∧ mSendPackets (mSendJob s') = [sample_packet].
Proof. by apply (SendJob_forgets_leftover test_server (set_send_packets [sample_packet] (sample_session true []))). Defined.

Definition sample_answers (a : RecvAnswer) : OS :=
  mkOS [RecvData [4; 5]; RecvError EINTR; RecvData [6]; a] [] [] [].

Lemma Execute_drains_socket_witness :
  ∃ b o', RecvJob_Execute test_server (mkWorld (sample_session false []) (sample_answers (RecvError EAGAIN)) 0)
      = Some (true, mkWorld (set_recv_buffer b (sample_session false [])) o' 0) ∧
    contents b = [1; 2; 3; 4; 5; 6].
Proof.
  destruct (Execute_drains_socket test_server [RecvData [4; 5]; RecvError EINTR; RecvData [6]] []
    (sample_session false []) (sample_answers (RecvError EAGAIN)) 0) as (b & o' & H & _ & Hc & _); try done.
  - repeat constructor; done.
  - by exists b, o'.
Defined.

Lemma Execute_hang_up_witness :
  ∃ s' o', RecvJob_Execute test_server (mkWorld (sample_session false []) (sample_answers RecvClosed) 0)
      = Some (false, mkWorld s' o' 0) ∧ mSessionFD s' = sINVALID_SOCKET_FD ∧
    contents (mRecvBuffer (mRecvJob s')) = [1; 2; 3; 4; 5; 6].
Proof.
  destruct (Execute_hang_up test_server [RecvData [4; 5]; RecvError EINTR; RecvData [6]] RecvClosed []
    (sample_session false []) (sample_answers RecvClosed) 0) as (s' & o' & lens & H & Hfd & _ & Hc & _); try done.
  - repeat constructor; done.
  - by exists s', o'.
Defined.

(** The echo of an idle session, in one write. *)
Lemma Complete_consumes_witness :
  ∃ b' s' o', RecvJob_Complete test_server TestServer_OnRecv
      (mkWorld (sample_session false []) (mkOS [] [Sent 3] [None] []) 4096)
      = Some (tt, mkWorld (set_recv_buffer b' s') o' 4096) ∧ contents b' = [].
Proof.
  destruct (Complete_consumes test_server TestServer_OnRecv (sample_session false [])
    (mkOS [] [Sent 3] [None] []) 4096 (sample_session false [])
    (mkOS [] [] [None] [CallOnRecv 7 4096 3; CallWritev 3 [mkIovec 4096 3];
       CallEpollCtl 6 EPOLL_CTL_MOD 3 (JobSend 7) (Z.lor EPOLLOUT EPOLLONESHOT)]) 3)
    as (b' & o' & H & _ & _ & _ & Hc & _); try done.
  exists b', (sample_session false []), o'. by split.
Defined.

Lemma recycled_slot_delivers_stale_bytes_witness :
  ∃ s' o', (RecvJob_Execute test_server;; RecvJob_Complete test_server (quiet_OnRecv 0))
      (mkWorld (Session_construct 8 4 (sample_session false []))
         (mkOS [RecvError EAGAIN] [] [None] []) 4096) = Some (tt, mkWorld s' o' 4096) ∧
    CallOnRecv 8 4096 3 ∈ calls o' ∧ contents (mRecvBuffer (mRecvJob s')) = [1; 2; 3] ∧
    0 < GetDIrectReadSize sample_buffer.
Proof.
  by apply (recycled_slot_delivers_stale_bytes test_server (quiet_OnRecv 0) 8 4 (sample_session false [])
    (mkOS [RecvError EAGAIN] [] [None] []) [] 4096).
Defined.
