(* ===== verification/SessionThreads.v ===== *)
(** * Threads on one session (lib-core, Network/Session.cpp and RecvJob of
    ServerJob.cpp, at the grain of the accesses to shared data)

    Any number of threads call [Session::Send] and the receive job on one session
    at once.  A thread is a stack of frames; each frame is the rest of a method
    up to its next access to the session or call of the system, and [exec] makes
    that access, atomically, with the actions of Session.v.  A block under
    [mPacketMutex] is one access (Lock.v).  Run alone, the frames are the methods of
    Session.v; run together, they show which of them can meet. *)

From S2P Require Import Prelude System RecvBuffer Session.

Module SessionThreads.
Import RecvBuffer.

Inductive Frame :=
  (* Send *)
  | Send_push (p : iovec)                       (* mPackets.emplace_back, guarded *)
  | Send_test                                   (* __sync_lock_test_and_set(&mIsSending, true) *)
  (* DoSend *)
  | DoSend_swap                                 (* sendPackets.swap(mPackets), guarded *)
  | DoSend_check (ps : list iovec)              (* mSessionFD == sINVALID_SOCKET_FD *)
  | DoSend_load (ps : list iovec)               (* mSessionFD, the argument of writev *)
  | DoSend_writev (ps : list iovec) (fd : SocketFD)
  | DoSend_idle                                 (* mIsSending = false; return *)
  | DoSend_give_up                              (* mIsSending = false; Disconnect(); return *)
  | DoSend_fail (ps : list iovec)               (* mIsSending = false; Disconnect(); and on *)
  | DoSend_compare (ps : list iovec)            (* result == totalSendBytes, result -1 *)
  | DoSend_reset (startOffset : Z) (ps : list iovec)
  | DoSend_add (startOffset : Z) (ps : list iovec)
  | Arm_load                                    (* mSessionFD, the argument of epoll_ctl *)
  | Arm (fd : SocketFD)
  (* Disconnect *)
  | Disconnect_swap                             (* __sync_lock_test_and_set(&mSessionFD, -1) *)
  | Disconnect_remove (fd : SocketFD)           (* epoll_ctl(DEL) *)
  | Disconnect_close (fd : SocketFD)
  | Disconnect_recving                          (* !mIsRecving && *)
  | Disconnect_sending                          (* !mIsSending *)
  | Disconnect_notify
  (* RecvJob *)
  | Recv_check                                  (* GetSocketFD() == sINVALID_SOCKET_FD *)
  | Recv_load                                   (* GetSocketFD(), the argument of recv *)
  | Recv_recv (fd : SocketFD)
  | Recv_stop                                   (* SetReceiveState(false); Disconnect() *)
  | Recv_complete
  | Recv_consume (usedSize readSize : Z)
  | Rearm_load
  | Rearm (fd : SocketFD)
  | Rearm_check.

#[export] Instance Frame_eq_dec : EqDecision Frame.
Proof. solve_decision. Defined.

Section Threads.
Context (server : ServerView).

(** What the user's [OnRecv] does: the packets it sends to this session, in order,
    and what it returns. *)
Context (OnRecv : SessionID → Z → Z → list iovec * Z).

(** [Send] up to its first access. *)
Definition Send_frames (p : iovec) : list Frame :=
  if (iov_base p =? 0) || (iov_len p <=? 0) then [] else [Send_push p; Send_test].

Definition Sends_frames (ps : list iovec) : list Frame := mjoin (Send_frames <$> ps).

(** The rest of [DoSend] after the loop. *)
Definition leftover_frames (ps : list iovec) (result : Z) : list Frame :=
  let '(startOffset, unsent) := find_unsent result ps in [DoSend_reset startOffset unsent].

(** [result == totalSendBytes]. *)
Definition compare_frames (ps : list iovec) (result : Z) : list Frame :=
  if result =? totalSendBytes ps then [DoSend_idle] else leftover_frames ps result.

(** One access: what is left of the frame, and of the methods it enters. *)
Definition Session_access (f : Frame) : M World (list Frame) :=
  match f with
  | Send_push p => update (λ s, set_packets (mPackets s ++ [p]) s);; mret []
  | Send_test =>
      sending ← this mIsSending;
      update (SetSendState true);;
      mret (if (sending : bool) then [] else [DoSend_swap; Arm_load])
  | DoSend_swap =>
      sendPackets ← this mPackets;
      update (set_packets []);;
      mret (match sendPackets with [] => [DoSend_idle] | _ => [DoSend_check sendPackets] end)
  | DoSend_check ps =>
      fd ← this mSessionFD;
      mret (if decide (fd = sINVALID_SOCKET_FD) then [DoSend_give_up] else [DoSend_load ps])
  | DoSend_load ps => fd ← this mSessionFD; mret [DoSend_writev ps fd]
  | DoSend_writev ps fd =>
      a ← writev fd ps;
      mret (match a with
            | SendError EAGAIN => [DoSend_give_up]
            | SendError EINTR => [DoSend_check ps]
            | SendError _ => [DoSend_fail ps]
            | Sent n => compare_frames ps (i32 n)
            end)
  | DoSend_idle => update (SetSendState false);; mret []
  | DoSend_give_up => update (SetSendState false);; mret [Disconnect_swap]
  | DoSend_fail ps => update (SetSendState false);; mret [Disconnect_swap; DoSend_compare ps]
  | DoSend_compare ps => mret (compare_frames ps (-1))
  | DoSend_reset startOffset ps => SendJob_Reset;; mret [DoSend_add startOffset ps]
  | DoSend_add startOffset [] => mret [Arm_load]
  | DoSend_add startOffset (p :: ps) =>
      AddPackets (iov_base p + startOffset) (u64 (iov_len p - startOffset));; mret [DoSend_add 0 ps]
  | Arm_load => fd ← this mSessionFD; mret [Arm fd]
  | Arm fd =>
      s ← this id;
      epoll_ctl_ (GetSendPollFD server) EPOLL_CTL_MOD fd (JobSend (mSessionID s)) (Z.lor EPOLLOUT EPOLLONESHOT);;
      mret []
  | Disconnect_swap =>
      oldFD ← this mSessionFD;
      update (set_fd sINVALID_SOCKET_FD);;
      mret (if decide (oldFD = sINVALID_SOCKET_FD) then [Disconnect_recving] else [Disconnect_remove oldFD])
  | Disconnect_remove fd =>
      epoll_ctl_ (GetEpollFD server) EPOLL_CTL_DEL fd JobNull 0;; mret [Disconnect_close fd]
  | Disconnect_close fd => call (CallClose fd);; mret [Disconnect_recving]
  | Disconnect_recving => r ← this mIsRecving; mret (if (r : bool) then [] else [Disconnect_sending])
  | Disconnect_sending => s ← this mIsSending; mret (if (s : bool) then [] else [Disconnect_notify])
  | Disconnect_notify =>
      s ← this id;
      call (CallOnDisconnected (mSessionID s));; OnDisconnected server (mSessionID s);; mret []
  | _ => undefined
  end.

Definition RecvJob_access (f : Frame) : M World (list Frame) :=
  match f with
  | Recv_check =>
      fd ← this GetSocketFD;
      mret (if decide (fd = sINVALID_SOCKET_FD) then [Recv_stop] else [Recv_load])
  | Recv_load => fd ← this GetSocketFD; mret [Recv_recv fd]
  | Recv_recv fd =>
      b ← recv_buffer;
      a ← recv fd (GetDirectWriteSize b);
      match a with
      | RecvClosed => mret [Recv_stop]
      | RecvError EAGAIN => mret [Recv_complete]
      | RecvError EINTR => mret [Recv_check]
      | RecvError (EPIPE | ECONNRESET) => mret [Recv_stop]
      | RecvError (EOTHER _) => call CallPrintln;; mret [Recv_complete]
      | RecvData bytes =>
          b ← recv_buffer;
          update (set_recv_buffer (MoveWriteOffset b (Z.of_nat (length bytes))));;
          mret [Recv_check]
      end
  | Recv_stop => update (SetReceiveState false);; mret [Disconnect_swap]
  | Recv_complete =>
      b ← recv_buffer;
      let usedSize := GetUsedSize b in
      if 0 <? usedSize then
        s ← this id;
        base ← gets buffer_address;
        call (CallOnRecv (mSessionID s) (base + GetFrontBufferPtr b) (GetDIrectReadSize b));;
        let '(packets, readSize) := OnRecv (mSessionID s) (base + GetFrontBufferPtr b) (GetDIrectReadSize b) in
        mret (Sends_frames packets ++ [Recv_consume usedSize readSize; Rearm_load])
      else mret [Rearm_load]
  | Recv_consume usedSize readSize =>
      when (0 <? readSize) (
        update (λ s, set_recv_buffer (MoveReadOffset (mRecvBuffer (mRecvJob s)) readSize) s);;
        when (readSize =? usedSize)
          (update (λ s, set_recv_buffer (Reset (mRecvBuffer (mRecvJob s))) s)));;
      mret []
  | Rearm_load => fd ← this GetSocketFD; mret [Rearm fd]
  | Rearm fd =>
      s ← this id;
      r ← epoll_ctl (GetEpollFD server) EPOLL_CTL_MOD fd (JobRecv (mSessionID s))
            (Z.lor (Z.lor EPOLLONESHOT EPOLLIN) EPOLLET);
      mret (match r with None => [] | Some _ => [Rearm_check] end)
  | Rearm_check =>
      fd ← this GetSocketFD;
      if decide (fd = sINVALID_SOCKET_FD) then mret [Recv_stop] else call CallPrintln;; mret []
  | _ => undefined
  end.

Definition exec (f : Frame) : M World (list Frame) :=
  match f with
  | Recv_check | Recv_load | Recv_recv _ | Recv_stop | Recv_complete | Recv_consume _ _
  | Rearm_load | Rearm _ | Rearm_check => RecvJob_access f
  | _ => Session_access f
  end.

(** ** Many threads *)

Record State := mkState { world : World; threads : list (list Frame) }.

(** A step of thread [i]. *)
Definition thread_step (i : nat) (st : State) : option State :=
  t ← threads st !! i;
  match t with
  | [] => None
  | f :: k =>
      '(fs, w) ← exec f (world st);
      Some (mkState w (<[i := fs ++ k]> (threads st)))
  end.

Definition step (st st' : State) : Prop := ∃ i, thread_step i st = Some st'.

Fixpoint schedule (order : list nat) (st : State) : option State :=
  match order with
  | [] => Some st
  | i :: order => st' ← thread_step i st; schedule order st'
  end.

(** The accesses of a schedule, with the session each of them found. *)
Fixpoint trace (order : list nat) (st : State) : list (Session * Frame) :=
  match order with
  | [] => []
  | i :: order =>
      match threads st !! i, thread_step i st with
      | Some (f :: _), Some st' => (session (world st), f) :: trace order st'
      | _, _ => []
      end
  end.

(** What a thread can start with. *)
Definition entry (f : Frame) : Prop :=
  match f with Send_push _ | Send_test | Recv_check => True | _ => False end.

Lemma schedule_rtc order st st' : schedule order st = Some st' → rtc step st st'.
Proof.
  revert st. induction order as [|i order IH]; intros st Hrun; [injection Hrun as ->; apply rtc_refl|].
  cbn [schedule] in Hrun. apply bind_Some in Hrun as (st1 & Hstep & Hrun). eapply rtc_l; [by exists i|by apply IH].
Qed.

(** ** One thread alone *)

Inductive alone : list Frame * World → list Frame * World → Prop :=
  | alone_exec f k w fs w' : exec f w = Some (fs, w') → alone (f :: k, w) (fs ++ k, w').

(** The frames [fs] come to [fs'], whatever is under them. *)
Definition reaches (fs : list Frame) (w : World) (fs' : list Frame) (w' : World) : Prop :=
  ∀ k, rtc alone (fs ++ k, w) (fs' ++ k, w').

Lemma reaches_refl fs w : reaches fs w fs w.
Proof. intros k. reflexivity. Qed.

Lemma reaches_trans fs w fs1 w1 fs2 w2 : reaches fs w fs1 w1 → reaches fs1 w1 fs2 w2 → reaches fs w fs2 w2.
Proof. intros H1 H2 k. etransitivity; [apply H1|apply H2]. Qed.

Lemma reaches_app fs w fs' w' r : reaches fs w fs' w' → reaches (fs ++ r) w (fs' ++ r) w'.
Proof. intros H k. rewrite <- !app_assoc. apply H. Qed.

Lemma reaches_exec f r w fs w1 fs' w' :
  exec f w = Some (fs, w1) → reaches (fs ++ r) w1 fs' w' → reaches (f :: r) w fs' w'.
Proof.
  intros He H k. eapply rtc_l; [by apply (alone_exec f (r ++ k))|]. rewrite app_assoc. apply H.
Qed.

Lemma reaches_seq fs w w1 r fs' w' : reaches fs w [] w1 → reaches r w1 fs' w' → reaches (fs ++ r) w fs' w'.
Proof. intros H1 H2. eapply reaches_trans; [apply reaches_app, H1|done]. Qed.

Lemma alone_notify w w' :
  notify_disconnected server w = Some (tt, w') → reaches [Disconnect_recving] w [] w'.
Proof.
  intros Hrun. eapply reaches_exec; [reflexivity|]. cbn.
  unfold notify_disconnected in Hrun. cbv [this] in Hrun. rewrite gets_bind in Hrun. unfold id in Hrun.
  destruct (mIsRecving (session w)); cbn in *; [injection Hrun as <-; apply reaches_refl|].
  eapply reaches_exec; [reflexivity|]. cbn.
  destruct (mIsSending (session w)); cbn in *; [injection Hrun as <-; apply reaches_refl|].
  apply bind_inv in Hrun as ([] & w1 & [= <-] & Hrun).
  apply (reaches_exec _ [] _ [] w'); [|apply reaches_refl]. cbn [exec RecvJob_access Session_access]. cbv [this]. rewrite gets_bind.
  erewrite (bind_eq (call _)) by reflexivity. by rewrite (bind_eq _ _ _ _ _ Hrun).
Qed.

Lemma alone_Disconnect w w' : Disconnect server w = Some (tt, w') → reaches [Disconnect_swap] w [] w'.
Proof.
  unfold Disconnect. cbv [this]. rewrite gets_bind. erewrite (bind_eq (update _)) by reflexivity.
  intros Hrun. eapply reaches_exec; [reflexivity|]. cbn [app].
  case_decide; [by apply alone_notify|].
  erewrite (bind_eq (epoll_ctl_ _ _ _ _ _)), (bind_eq (call _)) in Hrun by reflexivity.
  eapply reaches_exec; [reflexivity|]. eapply reaches_exec; [reflexivity|]. by apply alone_notify.
Qed.

Lemma alone_arm w : ∃ w', arm_send_poll server w = Some (tt, w') ∧ reaches [Arm_load] w [] w'.
Proof.
  eexists. split; [reflexivity|]. eapply reaches_exec; [reflexivity|]. eapply reaches_exec; [reflexivity|]. apply reaches_refl.
Qed.

Lemma alone_add start ps w w1 w' :
  add_unsent start ps w = Some (tt, w1) → arm_send_poll server w1 = Some (tt, w') →
  reaches [DoSend_add start ps] w [] w'.
Proof.
  revert start w. induction ps as [|p ps IH]; intros start w; cbn [add_unsent].
  - intros [= ->] Harm. eapply reaches_exec; [reflexivity|].
    destruct (alone_arm w1) as (w2 & Harm2 & Hr). rewrite Harm in Harm2. by injection Harm2 as ->.
  - intros ([] & w2 & Hadd & Hrest)%bind_inv Harm. apply (reaches_exec _ [] _ [DoSend_add 0 ps] w2).
    + cbn [exec RecvJob_access Session_access]. by rewrite (bind_eq _ _ _ _ _ Hadd).
    + by apply IH.
Qed.

Lemma alone_leftover ps result w w' :
  DoSend_leftover server ps result w = Some (tt, w') → reaches (leftover_frames ps result) w [] w'.
Proof.
  unfold DoSend_leftover, leftover_frames. destruct (find_unsent result ps) as [start unsent].
  intros ([] & w1 & Hreset & ([] & w2 & Hadd & Harm)%bind_inv)%bind_inv.
  apply (reaches_exec _ [] _ [DoSend_add start unsent] w1); [by injection Hreset as <-|]. by apply (alone_add _ _ _ w2).
Qed.

(** What the loop of [DoSend] comes to, by how it ends. *)
Definition loop_end (ps : list iovec) (r : option Z) : list Frame :=
  match r with None => [] | Some result => leftover_frames ps result end.

Lemma alone_idle w : reaches [DoSend_idle] w [] (on_session (SetSendState false) w).
Proof. eapply reaches_exec; [reflexivity|]. apply reaches_refl. Qed.

Lemma alone_give_up w w' :
  Disconnect server (on_session (SetSendState false) w) = Some (tt, w') → reaches [DoSend_give_up] w [] w'.
Proof. intros Hdis. eapply reaches_exec; [reflexivity|]. by apply alone_Disconnect. Qed.

(** [result == totalSendBytes], as both models have it. *)
Lemma alone_compare ps result w r w' :
  (if result =? totalSendBytes ps then update (SetSendState false);; mret (Some None) else mret (Some (Some result))) w
    = Some (Some r, w') →
  reaches (compare_frames ps result) w (loop_end ps r) w'.
Proof.
  unfold compare_frames. destruct (result =? totalSendBytes ps).
  - intros [= <- <-]. apply alone_idle.
  - intros [= <- <-]. apply reaches_refl.
Qed.

Lemma alone_fail ps w r w' :
  (update (SetSendState false);; Disconnect server;;
   if -1 =? totalSendBytes ps then update (SetSendState false);; mret (Some None) else mret (Some (Some (-1)))) w
    = Some (r, w') →
  ∃ r', r = Some r' ∧ reaches [DoSend_fail ps] w (loop_end ps r') w'.
Proof.
  intros ([] & w1 & [= <-] & ([] & w2 & Hdis & Hcmp)%bind_inv)%bind_inv.
  assert (∃ r', r = Some r') as [r' ->] by (destruct (_ =? _); injection Hcmp as <- _; by eexists).
  exists r'. split; [done|]. eapply reaches_exec; [reflexivity|].
  apply (reaches_seq [Disconnect_swap] _ w2); [by apply alone_Disconnect|].
  eapply reaches_exec; [reflexivity|]. rewrite app_nil_r. by apply alone_compare.
Qed.

(** What is left of the loop after a turn. *)
Definition turn_end (ps : list iovec) (r : option (option Z)) : list Frame :=
  match r with None => [DoSend_check ps] | Some r => loop_end ps r end.

Lemma alone_turn ps w r w' :
  DoSend_turn server ps (totalSendBytes ps) w = Some (r, w') → reaches [DoSend_check ps] w (turn_end ps r) w'.
Proof.
  unfold DoSend_turn. cbv [this]. rewrite gets_bind. intros Hrun.
  eapply reaches_exec; [reflexivity|]. cbn [app]. case_decide as Hfd; cbn [app].
  - apply bind_inv in Hrun as ([] & w1 & [= <-] & ([] & w2 & Hdis & [= <- <-])%bind_inv). by apply alone_give_up.
  - apply bind_inv in Hrun as (a & w1 & Hwritev & Hans).
    eapply reaches_exec; [reflexivity|]. cbn [app].
    eapply (reaches_exec _ []); [cbn [exec RecvJob_access Session_access]; by rewrite (bind_eq _ _ _ _ _ Hwritev)|]. rewrite app_nil_r.
    unfold DoSend_answer in Hans. destruct a as [n|[]].
    + cbv zeta in Hans. destruct r as [r|]; [by apply alone_compare|]. by destruct (_ =? _).
    + apply bind_inv in Hans as ([] & w2 & [= <-] & ([] & w3 & Hdis & [= <- <-])%bind_inv). by apply alone_give_up.
    + injection Hans as <- <-. apply reaches_refl.
    + by apply alone_fail in Hans as (r' & -> & ?).
    + by apply alone_fail in Hans as (r' & -> & ?).
    + by apply alone_fail in Hans as (r' & -> & ?).
Qed.

Lemma alone_DoSend w w' : DoSend server w = Some (tt, w') → reaches [DoSend_swap] w [] w'.
Proof.
  unfold DoSend. cbv [this]. rewrite gets_bind. erewrite (bind_eq (update _)) by reflexivity. intros Hrun.
  eapply reaches_exec; [reflexivity|]. destruct (mPackets (session w)) as [|p ps].
  - injection Hrun as <-. apply alone_idle.
  - apply bind_inv in Hrun as (turns & w1 & [= <- <-] & Hrun). apply bind_inv in Hrun as (r & w1 & Hloop & Hrun).
    apply forever_turns in Hloop as (w2 & Hturns & Hlast).
    assert (reaches [DoSend_check (p :: ps)] (on_session (set_packets []) w) [DoSend_check (p :: ps)] w2) as Hloop.
    { clear Hlast Hrun. induction Hturns as [x|x y z Hxy _ IH]; [apply reaches_refl|].
      eapply reaches_trans; [exact (alone_turn _ _ _ _ Hxy)|exact IH]. }
    eapply reaches_trans; [exact Hloop|]. eapply reaches_trans; [exact (alone_turn _ _ _ _ Hlast)|].
    destruct r as [result|]; [by apply alone_leftover|]. injection Hrun as <-. apply reaches_refl.
Qed.

Lemma alone_Send p w w' :
  Session.Send server (iov_base p) (iov_len p) w = Some (tt, w') → reaches (Send_frames p) w [] w'.
Proof.
  unfold Session.Send, Send_frames. destruct (_ || _); [intros [= <-]; apply reaches_refl|].
  erewrite (bind_eq (update _)) by reflexivity. cbv [this]. rewrite gets_bind. erewrite (bind_eq (update _)) by reflexivity.
  intros Hrun. eapply reaches_exec; [by destruct p|]. eapply reaches_exec; [reflexivity|].
  destruct (mIsSending _); [injection Hrun as <-; by destruct p; apply reaches_refl|].
  apply bind_inv in Hrun as ([] & w1 & Hdo & Harm). destruct p.
  apply (reaches_seq [DoSend_swap] _ w1); [by apply alone_DoSend|].
  destruct (alone_arm w1) as (w2 & Harm2 & Hr). rewrite Harm in Harm2. by injection Harm2 as <-.
Qed.

Lemma alone_Sends ps w w' : Sends server ps w = Some (tt, w') → reaches (Sends_frames ps) w [] w'.
Proof.
  revert w. induction ps as [|p ps IH]; intros w; cbn [Sends].
  - intros [= <-]. apply reaches_refl.
  - intros ([] & w1 & Hsend & Hrest)%bind_inv. change (Sends_frames (p :: ps)) with (Send_frames p ++ Sends_frames ps).
    eapply reaches_seq; [by apply alone_Send|by apply IH].
Qed.

(** *** The receive job *)

Lemma alone_stop w r w' :
  stop_receiving server w = Some (r, w') → r = Some false ∧ reaches [Recv_stop] w [] w'.
Proof.
  intros ([] & w1 & [= <-] & ([] & w2 & Hdis & [= <- <-])%bind_inv)%bind_inv. split; [done|].
  eapply reaches_exec; [reflexivity|]. by apply alone_Disconnect.
Qed.

Definition recv_end (r : option bool) : list Frame :=
  match r with None => [Recv_check] | Some true => [Recv_complete] | Some false => [] end.

Lemma alone_recv_turn w r w' : RecvJob_turn server w = Some (r, w') → reaches [Recv_check] w (recv_end r) w'.
Proof.
  unfold RecvJob_turn. cbv [this]. rewrite gets_bind. intros Hrun.
  eapply reaches_exec; [reflexivity|]. cbn [app]. case_decide as Hfd; cbn [app].
  { by apply alone_stop in Hrun as [-> Hr]. }
  apply bind_inv in Hrun as (b & w1 & [= <- <-] & (a & w1 & Hrecv & Hrun)%bind_inv).
  eapply reaches_exec; [reflexivity|]. cbn [app].
  assert (∀ (fs : list Frame) w2, (match a with
      | RecvClosed => mret [Recv_stop]
      | RecvError EAGAIN => mret [Recv_complete]
      | RecvError EINTR => mret [Recv_check]
      | RecvError (EPIPE | ECONNRESET) => mret [Recv_stop]
      | RecvError (EOTHER _) => call CallPrintln;; mret [Recv_complete]
      | RecvData bytes =>
          b ← recv_buffer;
          update (set_recv_buffer (MoveWriteOffset b (Z.of_nat (length bytes))));;
          mret [Recv_check]
      end : M World (list Frame)) w1 = Some (fs, w2) →
    exec (Recv_recv (GetSocketFD (session w))) w = Some (fs, w2)) as Hexec.
  { intros fs w2 Hm. cbn [exec RecvJob_access Session_access]. erewrite (bind_eq recv_buffer) by reflexivity.
    by rewrite (bind_eq _ _ _ _ _ Hrecv). }
  destruct a as [bytes| |[]].
  - injection Hrun as <- <-. apply (reaches_exec _ [] _ [Recv_check] _ _ _ (Hexec _ _ eq_refl)). apply reaches_refl.
  - apply alone_stop in Hrun as [-> Hr]. by apply (reaches_exec _ [] _ [Recv_stop] _ _ _ (Hexec _ _ eq_refl)).
  - injection Hrun as <- <-. apply (reaches_exec _ [] _ [Recv_complete] _ _ _ (Hexec _ _ eq_refl)). apply reaches_refl.
  - injection Hrun as <- <-. apply (reaches_exec _ [] _ [Recv_check] _ _ _ (Hexec _ _ eq_refl)). apply reaches_refl.
  - apply alone_stop in Hrun as [-> Hr]. by apply (reaches_exec _ [] _ [Recv_stop] _ _ _ (Hexec _ _ eq_refl)).
  - apply alone_stop in Hrun as [-> Hr]. by apply (reaches_exec _ [] _ [Recv_stop] _ _ _ (Hexec _ _ eq_refl)).
  - injection Hrun as <- <-. apply (reaches_exec _ [] _ [Recv_complete] _ _ _ (Hexec _ _ eq_refl)). apply reaches_refl.
Qed.

Lemma alone_RecvJob_Execute w b w' :
  RecvJob_Execute server w = Some (b, w') → reaches [Recv_check] w (recv_end (Some b)) w'.
Proof.
  unfold RecvJob_Execute. rewrite gets_bind. intros (w1 & Hturns & Hlast)%forever_turns.
  eapply reaches_trans; [|exact (alone_recv_turn _ _ _ Hlast)].
  clear Hlast. induction Hturns as [x|x y z Hxy _ IH]; [apply reaches_refl|].
  eapply reaches_trans; [exact (alone_recv_turn _ _ _ Hxy)|exact IH].
Qed.

(** The user's [OnRecv] as an action of Session.v. *)
Definition OnRecv_action (id : SessionID) (buffer size : Z) : M World Z :=
  Sends server (OnRecv id buffer size).1;; mret (OnRecv id buffer size).2.

Lemma alone_rearm w w' :
  (s ← this id;
   r ← epoll_ctl (GetEpollFD server) EPOLL_CTL_MOD (mSessionFD s) (JobRecv (mSessionID s))
         (Z.lor (Z.lor EPOLLONESHOT EPOLLIN) EPOLLET);
   match r with
   | None => mret tt
   | Some _ =>
       fd ← this GetSocketFD;
       if decide (fd = sINVALID_SOCKET_FD) then update (SetReceiveState false);; Disconnect server else call CallPrintln
   end) w = Some (tt, w') → reaches [Rearm_load] w [] w'.
Proof.
  cbv [this]. rewrite gets_bind. intros (r & w1 & Hctl & Hrun)%bind_inv.
  eapply reaches_exec; [reflexivity|]. cbn [app].
  assert (exec (Rearm (GetSocketFD (session w))) w = Some (match r with None => [] | Some _ => [Rearm_check] end, w1)) as He.
  { cbn [exec RecvJob_access Session_access]. cbv [this]. rewrite gets_bind. by rewrite (bind_eq _ _ _ _ _ Hctl). }
  eapply reaches_exec; [exact He|]. destruct r as [e|]; [|injection Hrun as <-; apply reaches_refl].
  rewrite gets_bind in Hrun. cbn [app]. case_decide as Hfd.
  - eapply (reaches_exec Rearm_check [] w1 [Recv_stop] w1).
    { cbn [exec RecvJob_access Session_access]. cbv [this]. rewrite gets_bind. by rewrite decide_True. }
    apply bind_inv in Hrun as ([] & w2 & [= <-] & Hdis).
    eapply reaches_exec; [reflexivity|]. by apply alone_Disconnect.
  - eapply (reaches_exec Rearm_check [] w1 [] w'); [|apply reaches_refl].
    cbn [exec RecvJob_access Session_access]. cbv [this]. rewrite gets_bind. rewrite decide_False by done. by rewrite (bind_eq _ _ _ _ _ Hrun).
Qed.

Lemma alone_RecvJob_Complete w w' :
  RecvJob_Complete server OnRecv_action w = Some (tt, w') → reaches [Recv_complete] w [] w'.
Proof.
  intros (b & w0 & [= <- <-] & ([] & w1 & Huser & Hrest)%bind_inv)%bind_inv.
  set (b := mRecvBuffer (mRecvJob (session w))) in *. apply alone_rearm in Hrest.
  destruct (0 <? GetUsedSize b) eqn:Hused; cbn [when] in Huser.
  2:{ injection Huser as ->. apply (reaches_exec _ [] _ [Rearm_load] w1); [|done].
      cbn [exec RecvJob_access Session_access]. erewrite (bind_eq recv_buffer) by reflexivity. fold b. cbv zeta. by rewrite Hused. }
  cbv [this] in Huser. rewrite !gets_bind in Huser. apply bind_inv in Huser as ([] & w2 & [= <-] & Huser).
  apply bind_inv in Huser as (n & w3 & Huser & Hconsume). unfold OnRecv_action in Huser.
  destruct (OnRecv _ _ _) as [packets readSize] eqn:Hon in Huser.
  apply bind_inv in Huser as ([] & w4 & Hsends & [= <- <-]). cbn [fst snd] in *.
  eapply (reaches_exec _ [] _ (Sends_frames packets ++ [Recv_consume (GetUsedSize b) readSize; Rearm_load])).
  { cbn [exec RecvJob_access Session_access]. erewrite (bind_eq recv_buffer) by reflexivity. fold b. cbv zeta. rewrite Hused.
    erewrite (bind_eq (this id)), (bind_eq (gets buffer_address)), (bind_eq (call _)) by reflexivity.
    fold b. unfold id in *. rewrite Hon. reflexivity. }
  rewrite app_nil_r. eapply reaches_seq; [by apply alone_Sends|].
  apply (reaches_exec _ [Rearm_load] _ [] w1); [|exact Hrest]. cbn [exec RecvJob_access Session_access]. by rewrite (bind_eq _ _ _ _ _ Hconsume).
Qed.

(** *** Alone among others *)

Lemma rtc_alone_steps i t w t' w' ts :
  rtc alone (t, w) (t', w') → ts !! i = Some t → rtc step (mkState w ts) (mkState w' (<[i := t']> ts)).
Proof.
  intros Hrun. remember (t, w) as x eqn:Hx. remember (t', w') as y eqn:Hy. revert t w ts Hx Hy.
  induction Hrun as [x|x y z Hxy _ IH]; intros t w ts Hx Hz Hi.
  - subst. injection Hz as -> ->. by rewrite list_insert_id.
  - destruct Hxy as [f k w0 fs w1 He]. injection Hx as <- <-.
    apply rtc_l with (mkState w1 (<[i := fs ++ k]> ts)).
    + exists i. unfold thread_step. cbn. rewrite Hi. cbn. by rewrite He.
    + rewrite <- (list_insert_insert_eq ts i t' (fs ++ k)). apply (IH _ _ _ eq_refl Hz).
      apply list_lookup_insert_eq. by eapply lookup_lt_Some.
Qed.

(** What the methods of Session.v do in one piece, a thread among any others
    can do when it is not interrupted: [Send] of a packet, and the receive job
    as a worker runs it, [Execute] and, if it returns true, [Complete]. *)
Theorem methods_are_schedules ts i k w w' :
  (∀ p, ts !! i = Some (Send_frames p ++ k) →
     Session.Send server (iov_base p) (iov_len p) w = Some (tt, w') →
     rtc step (mkState w ts) (mkState w' (<[i := k]> ts))) ∧
  (ts !! i = Some (Recv_check :: k) →
     (b ← RecvJob_Execute server; if (b : bool) then RecvJob_Complete server OnRecv_action else mret tt) w = Some (tt, w') →
     rtc step (mkState w ts) (mkState w' (<[i := k]> ts))).
Proof.
  split.
  - intros p Hi Hrun. eapply rtc_alone_steps; [|exact Hi]. by apply (alone_Send p w w').
  - intros Hi (b & w1 & Hex & Hco)%bind_inv. apply (rtc_alone_steps i (Recv_check :: k)); [|done].
    pose proof (alone_RecvJob_Execute _ _ _ Hex k) as Hr. etransitivity; [exact Hr|].
    destruct b; cbn [recv_end app]; [|by injection Hco as <-].
    exact (alone_RecvJob_Complete _ _ Hco k).
Qed.

(** ** One step, in the list of all frames *)

Definition frames (st : State) : list Frame := mjoin (threads st).

Lemma thread_step_frames i st st' :
  thread_step i st = Some st' →
  ∃ f k l r fs, threads st !! i = Some (f :: k) ∧
    frames st = l ++ f :: r ∧ exec f (world st) = Some (fs, world st') ∧ frames st' = l ++ fs ++ r.
Proof.
  unfold thread_step. intros (t & Ht & Hi)%bind_Some.
  destruct t as [|f k]; [done|]. apply bind_Some in Hi as ([fs w] & He & [= <-]).
  exists f, k, (mjoin (take i (threads st))), (k ++ mjoin (drop (S i) (threads st))), fs. unfold frames. cbn [world threads].
  pose proof (lookup_lt_Some _ _ _ Ht) as Hlt. split_and!; [done| |done|].
  - rewrite <- (take_drop_middle (threads st) i (f :: k)) at 1 by done. by rewrite join_app.
  - rewrite insert_take_drop by done. rewrite join_app. cbn. by rewrite <- app_assoc.
Qed.
End Threads.

(** The [OnRecv] that sends back what it gets. *)
Definition echoing (id : SessionID) (buffer size : Z) : list iovec * Z := ([mkIovec buffer size], size).

Lemma methods_are_schedules_witness :
  ∃ w', rtc (step test_server echoing)
    (mkState (mkWorld (sample_session false []) (mkOS [] [Sent 10] [] []) 0) [Send_frames sample_packet; [Recv_check]])
    (mkState w' [[]; [Recv_check]]) ∧ mPackets (session w') = [] ∧ mIsSending (session w') = false.
Proof.
  eexists. split; [|split].
  - apply (proj1 (methods_are_schedules test_server echoing [Send_frames sample_packet; [Recv_check]] 0 [] _ _)
      sample_packet); reflexivity.
  - reflexivity.
  - reflexivity.
Defined.
End SessionThreads.
