(* ===== verification/SessionRaces.v ===== *)
(** * What threads on one session can and cannot do to each other

    Over every interleaving of the accesses of SessionThreads.v: the socket is
    closed once, at most one thread is in [DoSend], and the packets go out in
    the order in which they were queued; and the interleavings in which a packet
    stays behind, a closed descriptor is written to, or the user is told of the
    end twice or never. *)

From S2P Require Import Prelude System RecvBuffer Session SessionThreads.

Module SessionRaces.
Import RecvBuffer SessionThreads.

Section Races.
Context (server : ServerView) `{!QuietDisconnect server}.
Context (OnRecv : SessionID → Z → Z → list iovec * Z).

(** ** The accesses as rules

    What an access finds in the session, what is left of its frame, and the
    session and the calls after it. *)
Inductive access (s : Session) : Frame → list Frame → Session → list Call → Prop :=
  | push p : access s (Send_push p) [] (set_packets (mPackets s ++ [p]) s) []
  | test_busy : mIsSending s = true → access s Send_test [] s []
  | test_idle : mIsSending s = false → access s Send_test [DoSend_swap; Arm_load] (SetSendState true s) []
  | swap_empty : mPackets s = [] → access s DoSend_swap [DoSend_idle] s []
  | swap : mPackets s ≠ [] → access s DoSend_swap [DoSend_check (mPackets s)] (set_packets [] s) []
  | check_closed ps : mSessionFD s = sINVALID_SOCKET_FD → access s (DoSend_check ps) [DoSend_give_up] s []
  | check_open ps : mSessionFD s ≠ sINVALID_SOCKET_FD → access s (DoSend_check ps) [DoSend_load ps] s []
  | load ps : access s (DoSend_load ps) [DoSend_writev ps (mSessionFD s)] s []
  | write_again ps fd : access s (DoSend_writev ps fd) [DoSend_check ps] s [CallWritev fd ps]
  | write_full ps fd : access s (DoSend_writev ps fd) [DoSend_give_up] s [CallWritev fd ps]
  | write_fails ps fd : access s (DoSend_writev ps fd) [DoSend_fail ps] s [CallWritev fd ps]
  | write_sent ps fd n : access s (DoSend_writev ps fd) (compare_frames ps n) s [CallWritev fd ps]
  | idle : access s DoSend_idle [] (SetSendState false s) []
  | gives_up : access s DoSend_give_up [Disconnect_swap] (SetSendState false s) []
  | fail ps : access s (DoSend_fail ps) [Disconnect_swap; DoSend_compare ps] (SetSendState false s) []
  | compare ps : access s (DoSend_compare ps) (compare_frames ps (-1)) s []
  | reset start ps : access s (DoSend_reset start ps) [DoSend_add start ps] (set_send_packets [] s) []
  | add_done start : access s (DoSend_add start []) [Arm_load] s []
  | add start p ps :
      access s (DoSend_add start (p :: ps)) [DoSend_add 0 ps]
        (set_send_packets (mSendPackets (mSendJob s) ++ [mkIovec (iov_base p + start) (u64 (iov_len p - start))]) s) []
  | arm_load : access s Arm_load [Arm (mSessionFD s)] s []
  | arm fd :
      access s (Arm fd) [] s
        [CallEpollCtl (GetSendPollFD server) EPOLL_CTL_MOD fd (JobSend (mSessionID s)) (Z.lor EPOLLOUT EPOLLONESHOT)]
  | end_again : mSessionFD s = sINVALID_SOCKET_FD → access s Disconnect_swap [Disconnect_recving] s []
  | end_first : mSessionFD s ≠ sINVALID_SOCKET_FD →
      access s Disconnect_swap [Disconnect_remove (mSessionFD s)] (set_fd sINVALID_SOCKET_FD s) []
  | remove fd :
      access s (Disconnect_remove fd) [Disconnect_close fd] s [CallEpollCtl (GetEpollFD server) EPOLL_CTL_DEL fd JobNull 0]
  | close fd : access s (Disconnect_close fd) [Disconnect_recving] s [CallClose fd]
  | still_recving : mIsRecving s = true → access s Disconnect_recving [] s []
  | not_recving : mIsRecving s = false → access s Disconnect_recving [Disconnect_sending] s []
  | still_sending : mIsSending s = true → access s Disconnect_sending [] s []
  | not_sending : mIsSending s = false → access s Disconnect_sending [Disconnect_notify] s []
  | notify : access s Disconnect_notify [] s [CallOnDisconnected (mSessionID s)]
  | recv_closed : mSessionFD s = sINVALID_SOCKET_FD → access s Recv_check [Recv_stop] s []
  | recv_open : mSessionFD s ≠ sINVALID_SOCKET_FD → access s Recv_check [Recv_load] s []
  | recv_load : access s Recv_load [Recv_recv (mSessionFD s)] s []
  | recv_answer fd f b n (println : bool) : f ∈ [Recv_stop; Recv_complete; Recv_check] →
      (wf (mRecvBuffer (mRecvJob s)) → 0 ≤ n < BUFFER_SIZE ∧ wf b) →
      access s (Recv_recv fd) [f] (set_recv_buffer b s) (CallRecv fd n :: if println then [CallPrintln] else [])
  | recv_stop : access s Recv_stop [Disconnect_swap] (SetReceiveState false s) []
  | complete_empty : access s Recv_complete [Rearm_load] s []
  | complete_user address n used : (wf (mRecvBuffer (mRecvJob s)) → 0 ≤ n < BUFFER_SIZE) →
      access s Recv_complete (Sends_frames (OnRecv (mSessionID s) address n).1 ++ [Recv_consume used (OnRecv (mSessionID s) address n).2; Rearm_load])
        s [CallOnRecv (mSessionID s) address n]
  | consume used n b : (n < BUFFER_SIZE → wf (mRecvBuffer (mRecvJob s)) → wf b) →
      access s (Recv_consume used n) [] (set_recv_buffer b s) []
  | rearm_load : access s Rearm_load [Rearm (mSessionFD s)] s []
  | rearm fd fs : fs ∈ [[]; [Rearm_check]] →
      access s (Rearm fd) fs s
        [CallEpollCtl (GetEpollFD server) EPOLL_CTL_MOD fd (JobRecv (mSessionID s)) (Z.lor (Z.lor EPOLLONESHOT EPOLLIN) EPOLLET)]
  | rearm_closed : mSessionFD s = sINVALID_SOCKET_FD → access s Rearm_check [Recv_stop] s []
  | rearm_failed : mSessionFD s ≠ sINVALID_SOCKET_FD → access s Rearm_check [] s [CallPrintln].

Lemma same_buffer s : set_recv_buffer (mRecvBuffer (mRecvJob s)) s = s.
Proof. by destruct s as [? ? ? [] ? ? ?]. Qed.

Lemma writev_spec fd ps w a w' :
  writev fd ps w = Some (a, w') → session w' = session w ∧ calls (os w') = calls (os w) ++ [CallWritev fd ps].
Proof. unfold writev, call. run. destruct (writev_answers _); [done|]. by intros [= <- <-]. Qed.

Lemma epoll_ctl_spec e op fd j ev w r w' :
  epoll_ctl e op fd j ev w = Some (r, w') →
  session w' = session w ∧ calls (os w') = calls (os w) ++ [CallEpollCtl e op fd j ev].
Proof. unfold epoll_ctl, call. run. destruct (epoll_ctl_answers _); [done|]. by intros [= <- <-]. Qed.

Lemma recv_spec fd n w a w' :
  recv fd n w = Some (a, w') →
  ∃ b, session w' = set_recv_buffer b (session w) ∧ calls (os w') = calls (os w) ++ [CallRecv fd n] ∧
    mFront b = mFront (mRecvBuffer (mRecvJob (session w))) ∧ mRear b = mRear (mRecvBuffer (mRecvJob (session w))) ∧
    (∀ bytes, a = RecvData bytes → Z.of_nat (length bytes) ≤ n).
Proof.
  unfold recv, call. run. destruct (recv_answers _) as [|[bytes| |e] rest]; [done|..]; run.
  - destruct (_ && _) eqn:Hlen; [|done]. apply andb_prop in Hlen as [_ Hlen%Z.leb_le].
    intros [= <- <-]. eexists. split_and!; [done..|]. by intros ? [= <-].
  - intros [= <- <-]. exists (mRecvBuffer (mRecvJob (session w))). by rewrite same_buffer.
  - intros [= <- <-]. exists (mRecvBuffer (mRecvJob (session w))). by rewrite same_buffer.
Qed.

Lemma wf_consumed {A} (b : RecvBuffer A) n : 0 < n < BUFFER_SIZE → wf b → wf (MoveReadOffset b n).
Proof.
  intros Hn [Hf Hr]. split; [|done]. cbn [MoveReadOffset mFront].
  rewrite advance_index by lia. destruct (Z.ltb_spec (mFront b + n) BUFFER_SIZE); lia.
Qed.

Lemma direct_write_range {A} (b : RecvBuffer A) : wf b → 0 ≤ GetDirectWriteSize b < BUFFER_SIZE.
Proof. intros Hwf. ring_lia. Qed.

Lemma direct_read_range {A} (b : RecvBuffer A) : wf b → 0 ≤ GetDIrectReadSize b < BUFFER_SIZE.
Proof.
  intros Hwf. pose proof (direct_read_le_used b Hwf) as Hd. pose proof (used_bounds b Hwf). rewrite used_eq in Hd by done. lia.
Qed.

Lemma same_sending s : SetSendState (mIsSending s) s = s.
Proof. by destruct s. Qed.

Definition follows (f : Frame) (w : World) (fs : list Frame) (w' : World) : Prop :=
  ∃ cs, access (session w) f fs (session w') cs ∧ calls (os w') = calls (os w) ++ cs.

(** An access without calls, and one with a single call. *)
Lemma follows_quiet f w fs s' :
  access (session w) f fs s' [] → follows f w fs (mkWorld s' (os w) (buffer_address w)).
Proof. intros H. exists []. by rewrite app_nil_r. Qed.

Lemma follows_call f w fs c :
  access (session w) f fs (session w) [c] → follows f w fs (on_os (log_call c) w).
Proof. intros H. by exists [c]. Qed.

Lemma follows_recv fd w fs w' :
  (a ← recv fd (GetDirectWriteSize (mRecvBuffer (mRecvJob (session w))));
   match a with
   | RecvClosed => mret [Recv_stop]
   | RecvError EAGAIN => mret [Recv_complete]
   | RecvError EINTR => mret [Recv_check]
   | RecvError (EPIPE | ECONNRESET) => mret [Recv_stop]
   | RecvError (EOTHER _) => call CallPrintln;; mret [Recv_complete]
   | RecvData bytes =>
       b ← recv_buffer;
       update (set_recv_buffer (MoveWriteOffset b (Z.of_nat (length bytes))));;
       mret [Recv_check]
   end) w = Some (fs, w') → follows (Recv_recv fd) w fs w'.
Proof.
  intros (a & w1 & (b & Hs & Hc & Hf & Hr & Hlen)%recv_spec & Hrest)%bind_inv.
  assert (∀ f (println : bool), f ∈ [Recv_stop; Recv_complete; Recv_check] →
    fs = [f] → session w' = session w1 →
    calls (os w') = calls (os w1) ++ (if println then [CallPrintln] else []) → follows (Recv_recv fd) w fs w') as Hend.
  { intros f println Hin -> Hs' Hc'. eexists. split; [rewrite Hs', Hs; apply recv_answer with (println := println); [done|]|].
    - intros Hwf. split; [by apply (direct_write_range (mRecvBuffer (mRecvJob (session w))))|]. unfold wf. by rewrite Hf, Hr.
    - by rewrite Hc', Hc, <- app_assoc. }
  destruct a as [bytes| |[]]; try injection Hrest as <- <-.
  - eexists. split; [|exact Hc]. cbn [on_session session]. rewrite Hs.
    refine (recv_answer (session w) fd Recv_check (MoveWriteOffset b _) _ false _ _); [set_solver|].
    intros Hwf. split; [by apply (direct_write_range (mRecvBuffer (mRecvJob (session w))))|]. pose proof (direct_write_le_remain _ Hwf).
    specialize (Hlen bytes eq_refl). unfold MoveWriteOffset. rewrite Hf, Hr. apply wf_append; [done|lia].
  - apply (Hend Recv_stop false); rewrite ?app_nil_r; done || set_solver.
  - apply (Hend Recv_complete false); rewrite ?app_nil_r; done || set_solver.
  - apply (Hend Recv_check false); rewrite ?app_nil_r; done || set_solver.
  - apply (Hend Recv_stop false); rewrite ?app_nil_r; done || set_solver.
  - apply (Hend Recv_stop false); rewrite ?app_nil_r; done || set_solver.
  - apply (Hend Recv_complete true); done || set_solver.
Qed.

Lemma follows_complete w fs w' : exec server OnRecv Recv_complete w = Some (fs, w') → follows Recv_complete w fs w'.
Proof.
  cbn [exec RecvJob_access Session_access]. erewrite (bind_eq recv_buffer) by reflexivity. cbv zeta. destruct (0 <? _).
  - erewrite (bind_eq (this id)), (bind_eq (gets buffer_address)), (bind_eq (call _)) by reflexivity.
    unfold id. destruct (OnRecv _ _ _) as [packets n] eqn:Hon. intros [= <- <-].
    match type of Hon with OnRecv _ ?a ?n = _ =>
      pose proof (complete_user (session w) a n (GetUsedSize (mRecvBuffer (mRecvJob (session w)))) (direct_read_range _)) as Hrule
    end.
    rewrite Hon in Hrule. by eexists.
  - intros [= <- <-]. apply follows_quiet, complete_empty.
Qed.

Lemma follows_consume usedSize readSize w fs w' :
  exec server OnRecv (Recv_consume usedSize readSize) w = Some (fs, w') → follows (Recv_consume usedSize readSize) w fs w'.
Proof.
  destruct w as [s o ad]. cbn [exec RecvJob_access Session_access]. intros He.
  pose proof (λ b Hb, follows_quiet _ (mkWorld s o ad) [] _ (consume s usedSize readSize b Hb)) as Hrule.
  destruct (Z.ltb_spec 0 readSize), (readSize =? usedSize); injection He as <- <-.
  - apply (Hrule (Reset (MoveReadOffset (mRecvBuffer (mRecvJob s)) readSize))). intros _ _. apply Reset_spec.
  - apply (Hrule (MoveReadOffset (mRecvBuffer (mRecvJob s)) readSize)). intros ??. by apply wf_consumed.
  - specialize (Hrule (mRecvBuffer (mRecvJob s)) (λ _ H, H)). by rewrite same_buffer in Hrule.
  - specialize (Hrule (mRecvBuffer (mRecvJob s)) (λ _ H, H)). by rewrite same_buffer in Hrule.
Qed.

Ltac quietly He := injection He as <- <-; apply (follows_quiet _ (mkWorld _ _ _)).
Ltac with_call He := injection He as <- <-; apply (follows_call _ (mkWorld _ _ _)).

Lemma follows_Session f w fs w' : Session_access server f w = Some (fs, w') → follows f w fs w'.
Proof.
  destruct w as [s o ad]. intros He.
  destruct f; try done; cbn [Session_access RecvJob_access] in He; cbv [this] in He; rewrite ?gets_bind in He; cbn [session] in He.
  - quietly He. apply push.
  - injection He as <- <-. destruct (mIsSending s) eqn:Hs; [|by apply (follows_quiet _ (mkWorld _ _ _)), test_idle].
    assert (SetSendState true s = s) as Hsame by (rewrite <- Hs; apply same_sending).
    apply (follows_quiet _ (mkWorld _ _ _)). cbn. rewrite Hsame. by apply test_busy.
  - injection He as <- <-. destruct (mPackets s) as [|p ps] eqn:Hp.
    + assert (set_packets [] s = s) as Hsame by (destruct s; cbn in *; by subst).
      apply (follows_quiet _ (mkWorld _ _ _)). cbn. rewrite Hsame. by apply swap_empty.
    + apply (follows_quiet _ (mkWorld _ _ _)). cbn. rewrite <- Hp. apply swap. by rewrite Hp.
  - quietly He. case_decide; [by apply check_closed|by apply check_open].
  - quietly He. apply load.
  - apply bind_inv in He as (a & w1 & [Hs Hc]%writev_spec & [= <- <-]).
    exists [CallWritev fd ps]. split; [|done]. rewrite Hs. destruct a as [n|[]]; constructor.
  - quietly He. apply idle.
  - quietly He. apply gives_up.
  - quietly He. apply fail.
  - quietly He. apply compare.
  - quietly He. apply reset.
  - destruct ps; injection He as <- <-; apply (follows_quiet _ (mkWorld _ _ _)); constructor.
  - quietly He. apply arm_load.
  - with_call He. apply arm.
  - quietly He. cbn. case_decide as Hfd; [|by apply end_first].
    assert (set_fd sINVALID_SOCKET_FD s = s) as -> by (destruct s; cbn in *; by subst). by apply end_again.
  - with_call He. apply remove.
  - with_call He. apply close.
  - quietly He. destruct (mIsRecving s) eqn:?; by constructor.
  - quietly He. destruct (mIsSending s) eqn:?; by constructor.
  - erewrite (bind_eq (call _)) in He by reflexivity. erewrite (bind_eq (OnDisconnected _ _)) in He by apply on_disconnected_quiet.
    with_call He. apply notify.
Qed.

Lemma follows_RecvJob f w fs w' : RecvJob_access server OnRecv f w = Some (fs, w') → follows f w fs w'.
Proof.
  destruct w as [s o ad]. intros He.
  destruct f; try done; cbn [Session_access RecvJob_access] in He; cbv [this] in He; rewrite ?gets_bind in He; cbn [session] in He.
  - quietly He. case_decide; [by apply recv_closed|by apply recv_open].
  - quietly He. apply recv_load.
  - erewrite (bind_eq recv_buffer) in He by reflexivity. by apply follows_recv.
  - quietly He. apply recv_stop.
  - by apply follows_complete.
  - by apply follows_consume.
  - quietly He. apply rearm_load.
  - apply bind_inv in He as (r & w1 & [Hs Hc]%epoll_ctl_spec & [= <- <-]).
    eexists. split; [|exact Hc]. rewrite Hs. apply rearm. destruct r; set_solver.
  - case_decide; injection He as <- <-.
    + by apply (follows_quiet _ (mkWorld _ _ _)), rearm_closed.
    + by apply (follows_call _ (mkWorld _ _ _)), rearm_failed.
Qed.

(** Every access is one of the rules. *)
Lemma exec_access f w fs w' : exec server OnRecv f w = Some (fs, w') → follows f w fs w'.
Proof. destruct f; first [apply follows_Session|apply follows_RecvJob]. Qed.

Lemma rtc_keeps {A} (R : relation A) (P : A → Prop) x y :
  (∀ x y, R x y → P x → P y) → rtc R x y → P x → P y.
Proof. intros Hstep. induction 1; eauto. Qed.

(** A step of a thread is one of the rules, and leaves the other frames alone. *)
Lemma thread_access i st st' :
  thread_step server OnRecv i st = Some st' →
  ∃ f k l r fs cs,
    threads st !! i = Some (f :: k) ∧ frames st = l ++ f :: r ∧ frames st' = l ++ fs ++ r ∧
    access (session (world st)) f fs (session (world st')) cs ∧
    calls (os (world st')) = calls (os (world st)) ++ cs.
Proof.
  intros (f & k & l & r & fs & Hi & Hst & (cs & Ha & Hc)%exec_access & Hst')%thread_step_frames. by exists f, k, l, r, fs, cs.
Qed.

(** The user's packets put [Send] frames down and no other. *)
Lemma Sends_frames_send (P : Frame → Prop) ps :
  (∀ p, P (Send_push p)) → P Send_test → Forall P (Sends_frames ps).
Proof.
  intros Hpush Htest. unfold Sends_frames. apply Forall_join, Forall_fmap, Forall_forall. intros p _. cbn.
  unfold Send_frames. destruct (_ || _); [constructor|]. repeat constructor; auto.
Qed.

(** ** The socket is closed once *)

(** Between taking the descriptor out of the session and closing it. *)
Definition closing (f : Frame) : bool :=
  match f with Disconnect_remove _ | Disconnect_close _ => true | _ => false end.

Definition closes (c : Call) : bool :=
  match c with CallEpollCtl _ EPOLL_CTL_DEL _ _ _ | CallClose _ => true | _ => false end.

Lemma filter_none {A} (f : A → bool) (l : list A) : Forall (λ x, f x = false) l → filter f l = [].
Proof. induction 1 as [|x l Hx _ IH]; [done|]. rewrite filter_cons_False; [done|rewrite Hx; by intros []]. Qed.

Lemma Sends_frames_closing ps k : filter closing (Sends_frames ps ++ k) = filter closing k.
Proof. rewrite filter_app, filter_none; [done|by apply Sends_frames_send]. Qed.

Lemma compare_frames_closing ps n : filter closing (compare_frames ps n) = [].
Proof. unfold compare_frames, leftover_frames. destruct (_ =? _); [done|]. by destruct (find_unsent _ _). Qed.

Inductive closing_phase (fd : SocketFD) : SocketFD → list Frame → list Call → Prop :=
  | still_open : closing_phase fd fd [] []
  | removing : closing_phase fd sINVALID_SOCKET_FD [Disconnect_remove fd] []
  | removed : closing_phase fd sINVALID_SOCKET_FD [Disconnect_close fd] [CallEpollCtl (GetEpollFD server) EPOLL_CTL_DEL fd JobNull 0]
  | closed : closing_phase fd sINVALID_SOCKET_FD [] (close_calls server fd).

(** An access that has no part in closing. *)
Lemma access_closing s f fs s' cs :
  access s f fs s' cs →
  mSessionFD s' = mSessionFD s ∧ closing f = false ∧ filter closing fs = [] ∧ filter closes cs = [] ∨
  mSessionFD s ≠ sINVALID_SOCKET_FD ∧ f = Disconnect_swap ∧ fs = [Disconnect_remove (mSessionFD s)] ∧
    mSessionFD s' = sINVALID_SOCKET_FD ∧ cs = [] ∨
  (∃ fd, f = Disconnect_remove fd ∧ fs = [Disconnect_close fd] ∧ s' = s ∧
    cs = [CallEpollCtl (GetEpollFD server) EPOLL_CTL_DEL fd JobNull 0]) ∨
  (∃ fd, f = Disconnect_close fd ∧ fs = [Disconnect_recving] ∧ s' = s ∧ cs = [CallClose fd]).
Proof.
  intros Ha. destruct Ha as [| | | | | | | | | | |ps fd n| | | |ps| | | | | | |Hfd|fd|fd| | | | | | | | |fd f b n println Hf Hb| | |address n used Hn|used n b Hb| |fd fs Hfs| |];
    try (left; by auto using compare_frames_closing).
  - right; left. by auto.
  - right; right; left. by eauto.
  - right; right; right. by eauto.
  - left. split_and!; [done..| |by destruct println].
    set_unfold in Hf. by destruct Hf as [->|[->|[->|[]]]].
  - left. split_and!; [done..| |done]. by rewrite Sends_frames_closing.
  - left. split_and!; [done..| |done]. set_unfold in Hfs. by destruct Hfs as [->|[->|[]]].
Qed.

Lemma closing_phase_step fd base st st' :
  fd ≠ sINVALID_SOCKET_FD → step server OnRecv st st' →
  (∃ cs, calls (os (world st)) = base ++ cs ∧
     closing_phase fd (mSessionFD (session (world st))) (filter closing (frames st)) (filter closes cs)) →
  (∃ cs, calls (os (world st')) = base ++ cs ∧
     closing_phase fd (mSessionFD (session (world st'))) (filter closing (frames st')) (filter closes cs)).
Proof.
  intros Hfd [i (f & k & l & r & fs & cs' & _ & -> & -> & Ha & Hc')%thread_access] (cs & Hc & Hphase).
  exists (cs ++ cs'). rewrite Hc', Hc, app_assoc. split; [done|]. rewrite !filter_app in *.
  apply access_closing in Ha as
    [(-> & Hf & -> & ->)|[(Hopen & -> & -> & -> & ->)|[(fd' & -> & -> & -> & ->)|(fd' & -> & -> & -> & ->)]]].
  - rewrite filter_cons_False in Hphase by (rewrite Hf; by intros []). by rewrite app_nil_r.
  - rewrite filter_cons_False in Hphase by by intros []. cbn. rewrite app_nil_r.
    inversion Hphase as [Hfd' Hl Hcs|Hfd'|Hfd'|Hfd']; try by rewrite <- Hfd' in Hopen.
    symmetry in Hl. apply app_nil in Hl as [-> ->]. constructor.
  - rewrite filter_cons_True in Hphase by done.
    inversion Hphase as [Hfd' Hl Hcs|Hfd' Hl Hcs|Hfd' Hl Hcs|Hfd' Hl Hcs]; symmetry in Hl; try by destruct (filter closing l).
    + destruct (filter closing l) as [|? []]; [|done..]. injection Hl as -> ->. constructor.
    + by destruct (filter closing l) as [|? []].
  - rewrite filter_cons_True in Hphase by done.
    inversion Hphase as [Hfd' Hl Hcs|Hfd' Hl Hcs|Hfd' Hl Hcs|Hfd' Hl Hcs]; symmetry in Hl; try by destruct (filter closing l).
    + by destruct (filter closing l) as [|? []].
    + destruct (filter closing l) as [|? []]; [|done..]. injection Hl as -> ->. constructor.
Qed.

(** C9: however many threads send on a session and run its receive job, and
    however they are interleaved, its descriptor is taken out of the epoll and
    closed at most once, in this order, and no other descriptor is; and when all
    threads are done, a session that has lost its descriptor has closed it. *)
Theorem closed_once st st' (fd := mSessionFD (session (world st))) :
  Forall entry (frames st) → fd ≠ sINVALID_SOCKET_FD → rtc (step server OnRecv) st st' →
  ∃ cs, calls (os (world st')) = calls (os (world st)) ++ cs ∧
    filter closes cs `prefix_of` close_calls server fd ∧
    (mSessionFD (session (world st')) = fd ∧ filter closes cs = [] ∨
     mSessionFD (session (world st')) = sINVALID_SOCKET_FD ∧
     (frames st' = [] → filter closes cs = close_calls server fd)).
Proof.
  intros Hentry Hfd Hrun.
  assert (∃ cs, calls (os (world st')) = calls (os (world st)) ++ cs ∧
    closing_phase fd (mSessionFD (session (world st'))) (filter closing (frames st')) (filter closes cs)) as (cs & Hc & Hphase).
  { refine (rtc_keeps _ _ _ _ (λ x y, closing_phase_step fd _ x y Hfd) Hrun _).
    exists []. rewrite app_nil_r. split; [done|]. rewrite filter_none; [constructor|].
    eapply Forall_impl; [exact Hentry|]. by intros []. }
  exists cs. split; [done|].
  inversion Hphase as [Hfd' Hl Hcs|Hfd' Hl Hcs|Hfd' Hl Hcs|Hfd' Hl Hcs].
  - split; [apply prefix_nil|]. by left.
  - split; [apply prefix_nil|]. right. split; [done|]. intros Hnone. by rewrite Hnone in Hl.
  - split; [by eexists|]. right. split; [done|]. intros Hnone. by rewrite Hnone in Hl.
  - split; [done|]. by right.
Qed.

(** ** One thread at a time sends, in order *)

(** The frames of a thread that has set [mIsSending] and not cleared it. *)
Definition sending (f : Frame) : bool :=
  match f with
  | DoSend_swap | DoSend_check _ | DoSend_load _ | DoSend_writev _ _
  | DoSend_idle | DoSend_give_up | DoSend_fail _ => true
  | _ => false
  end.

(** The batch a frame can still write. *)
Definition batch (f : Frame) : option (list iovec) :=
  match f with DoSend_check ps | DoSend_load ps | DoSend_writev ps _ => Some ps | _ => None end.

(** The batch a frame still compares with the result -1. *)
Definition compared (f : Frame) : option (list iovec) :=
  match f with DoSend_fail ps | DoSend_compare ps => Some ps | _ => batch f end.

(** What the packets of a run are: those queued, the batches [DoSend] takes, and
    those given to [writev]. *)
Definition queued (f : Frame) : list iovec := match f with Send_push p => [p] | _ => [] end.

Definition taken (s : Session) (f : Frame) : list (list iovec) :=
  match f with DoSend_swap => [mPackets s] | _ => [] end.

Definition written (cs : list Call) : list (list iovec) :=
  omap (λ c, match c with CallWritev _ ps => Some ps | _ => None end) cs.

(** The writes of the batches [T]: each batch in its turn, not at all, once, or
    again and again. *)
Inductive writes : list (list iovec) → list (list iovec) → Prop :=
  | writes_none : writes [] []
  | writes_skip T ps ws : writes T ws → writes (T ++ [ps]) ws
  | writes_again T ps ws : writes (T ++ [ps]) ws → writes (T ++ [ps]) (ws ++ [ps]).

Record one_sender (T ws : list (list iovec)) (fs : list Frame) (s : Session) : Prop := {
  at_most_one : countb sending fs ≤ (if mIsSending s then 1 else 0);
  batch_last : Forall (λ f, ∀ ps, batch f = Some ps → last T = Some ps) fs;
  batches_compare : Forall (λ f, ∀ ps, compared f = Some ps → totalSendBytes ps ≠ -1) fs;
  writes_batches : writes T ws
}.

Lemma countb_none {A} (f : A → bool) l : Forall (λ x, f x = false) l → countb f l = 0.
Proof. induction 1 as [|x l Hx _ IH]; [done|]. cbn. by rewrite Hx, IH. Qed.

Lemma countb_zero {A} (f : A → bool) l : countb f l ≤ 0 → Forall (λ x, f x = false) l.
Proof.
  induction l as [|x l IH]; intros Hl; [constructor|]. cbn in Hl. pose proof (countb_nonneg f l).
  destruct (f x) eqn:Hx; [lia|]. constructor; [done|]. apply IH. lia.
Qed.

Lemma sending_batch fs :
  Forall (λ f, sending f = false) fs → Forall (λ f, batch f = None) fs.
Proof. intros Hfs. eapply Forall_impl; [exact Hfs|]. by intros []. Qed.

(** What an access is to the sending of packets: most change nothing, [Send_test]
    starts, [DoSend_swap] takes a batch, and the last accesses of [DoSend] stop. *)
Inductive sender_effect (s : Session) (f : Frame) (fs : list Frame) (s' : Session) (cs : list Call) : Prop :=
  | goes_on :
      mIsSending s' = mIsSending s → countb sending fs ≤ countb sending [f] → taken s f = [] →
      Forall (λ g, batch g = None ∨ batch g = batch f) fs →
      Forall (λ g, compared g = None ∨ compared g = compared f) fs →
      written cs = [] ∨ (∃ ps, batch f = Some ps ∧ written cs = [ps]) → sender_effect s f fs s' cs
  | starts :
      f = Send_test → fs = [DoSend_swap; Arm_load] → cs = [] →
      mIsSending s = false → mIsSending s' = true → sender_effect s f fs s' cs
  | takes g :
      f = DoSend_swap → fs = [g] → cs = [] → mIsSending s' = mIsSending s → sending g = true →
      batch g = None ∨ batch g = Some (mPackets s) → compared g = batch g → sender_effect s f fs s' cs
  | stops :
      sending f = true → mIsSending s' = false → taken s f = [] →
      Forall (λ g, sending g = false) fs → Forall (λ g, compared g = None ∨ compared g = compared f) fs →
      cs = [] → sender_effect s f fs s' cs.

Lemma compare_frames_effect ps n :
  countb sending (compare_frames ps n) ≤ (if n =? totalSendBytes ps then 1 else 0) ∧
  Forall (λ g, batch g = None) (compare_frames ps n) ∧ Forall (λ g, compared g = None) (compare_frames ps n).
Proof.
  unfold compare_frames, leftover_frames. destruct (_ =? _); [by repeat constructor|].
  destruct (find_unsent _ _). by repeat constructor.
Qed.

Lemma compare_sender s f ps n cs :
  compared f = Some ps → (n = totalSendBytes ps → sending f = true) → taken s f = [] →
  written cs = [] ∨ (∃ ps, batch f = Some ps ∧ written cs = [ps]) →
  sender_effect s f (compare_frames ps n) s cs.
Proof.
  intros Hps Hn Ht Hcs. destruct (compare_frames_effect ps n) as (Hcount & Hbatch & Hcmp).
  apply goes_on; [done| |done|..|done].
  - cbn. destruct (Z.eqb_spec n (totalSendBytes ps)) as [Heq|_]; [by rewrite Hn|]. destruct (sending f); lia.
  - eapply Forall_impl; [exact Hbatch|auto].
  - eapply Forall_impl; [exact Hcmp|auto].
Qed.

(** Frames that have nothing to do with sending, for one that has not either. *)
Lemma idle_sender s f fs s' cs :
  mIsSending s' = mIsSending s → taken s f = [] → written cs = [] →
  Forall (λ g, sending g = false ∧ compared g = None) fs → sender_effect s f fs s' cs.
Proof.
  intros Hs Ht Hw Hfs. apply goes_on; [done| |done|..|by left].
  - rewrite countb_none; [cbn; destruct (sending f); lia|]. eapply Forall_impl; [exact Hfs|]. by intros ? [].
  - eapply Forall_impl; [exact Hfs|]. intros []; naive_solver.
  - eapply Forall_impl; [exact Hfs|]. naive_solver.
Qed.

Lemma keeps_sending s f g cs :
  sending f = true → taken s f = [] → batch g = None ∨ batch g = batch f → compared g = None ∨ compared g = compared f →
  written cs = [] ∨ (∃ ps, batch f = Some ps ∧ written cs = [ps]) → sender_effect s f [g] s cs.
Proof.
  intros Hf Ht Hb Hc Hw. apply goes_on; [done| |done|by apply Forall_singleton..|done].
  cbn. rewrite Hf. destruct (sending g); lia.
Qed.

Lemma access_sender s f fs s' cs :
  access s f fs s' cs → (∀ ps, compared f = Some ps → totalSendBytes ps ≠ -1) → sender_effect s f fs s' cs.
Proof.
  intros Ha Hps.
  destruct Ha as [| | | | | | |ps|ps fd|ps fd|ps fd|ps fd n| | | |ps| | | | | | |Hfd|fd|fd| | | | | | | | |fd f b n println Hf Hb| | |address n used Hn|used n b Hb| |fd fs Hfs| |];
    try (by apply idle_sender; repeat constructor).
  - by apply starts.
  - apply (takes _ _ _ _ _ DoSend_idle); auto.
  - apply (takes _ _ _ _ _ (DoSend_check (mPackets s))); auto.
  - apply keeps_sending; eauto.
  - apply keeps_sending; eauto.
  - apply keeps_sending; eauto.
  - apply keeps_sending; eauto.
  - apply keeps_sending; eauto.
  - apply keeps_sending; eauto.
  - apply compare_sender; [done..|]. right. by eexists.
  - by apply stops; repeat constructor.
  - by apply stops; repeat constructor.
  - by apply stops; repeat (constructor; auto).
  - apply compare_sender; [done| |done|by left]. intros Hn. by destruct (Hps ps).
  - apply idle_sender; [done..|by destruct println|]. set_unfold in Hf. apply Forall_singleton. by destruct Hf as [->|[->|[->|[]]]].
  - apply idle_sender; [done..|]. apply Forall_app. split; [by apply Sends_frames_send|]. rewrite !Forall_cons. naive_solver.
  - apply idle_sender; [done..|]. set_unfold in Hfs. destruct Hfs as [->|[->|[]]]; [constructor|by apply Forall_singleton].
Qed.

Lemma one_sender_step T ws l f r s fs s' cs :
  one_sender T ws (l ++ f :: r) s → access s f fs s' cs →
  (f = DoSend_swap → totalSendBytes (mPackets s) ≠ -1) →
  one_sender (T ++ taken s f) (ws ++ written cs) (l ++ fs ++ r) s'.
Proof.
  intros [Hcount Hlast Hcmp Hws] Ha Hswap.
  apply Forall_app in Hlast as [Hlastl [Hlastf Hlastr]%Forall_cons].
  apply Forall_app in Hcmp as [Hcmpl [Hcmpf Hcmpr]%Forall_cons].
  apply access_sender in Ha; [|done]. rewrite countb_app in Hcount. cbn in Hcount.
  pose proof (countb_nonneg sending l). pose proof (countb_nonneg sending r).
  assert (sending f = true → Forall (λ g, sending g = false) l ∧ Forall (λ g, sending g = false) r) as Hothers.
  { intros Hf. rewrite Hf in Hcount. split; apply countb_zero; destruct (mIsSending s); lia. }
  destruct Ha as [Hs Hn -> Hb Hc Hw| -> -> -> Hs Hs'|g -> -> -> Hs Hg Hb Hc|Hf Hs' -> Hb Hc ->].
  - rewrite app_nil_r. split.
    + rewrite !countb_app, Hs. cbn in Hn. lia.
    + rewrite !Forall_app. split_and!; [done| |done]. eapply Forall_impl; [exact Hb|]. cbn. intros g [->| ->]; [done|apply Hlastf].
    + rewrite !Forall_app. split_and!; [done| |done]. eapply Forall_impl; [exact Hc|]. cbn. intros g [->| ->]; [done|apply Hcmpf].
    + destruct Hw as [->|(ps & Hps & ->)]; [by rewrite app_nil_r|].
      apply Hlastf, last_Some in Hps as [T' ->]. by apply writes_again.
  - cbn. rewrite !app_nil_r. rewrite Hs in Hcount. cbn in Hcount. split; [|rewrite Forall_app, !Forall_cons..|done].
    + rewrite Hs', countb_app. cbn. lia.
    + done.
    + done.
  - destruct (Hothers eq_refl) as [Hl Hr]. cbn. rewrite app_nil_r. split.
    + rewrite Hs, countb_app. cbn. rewrite Hg. cbn in Hcount. lia.
    + rewrite Forall_app, Forall_cons. split_and!.
      * eapply Forall_impl; [by apply sending_batch|]. by intros ? ->.
      * intros ps. rewrite last_snoc. naive_solver.
      * eapply Forall_impl; [by apply sending_batch|]. by intros ? ->.
    + rewrite Forall_app, Forall_cons. split_and!; [done| |done]. rewrite Hc. naive_solver.
    + by apply writes_skip.
  - destruct (Hothers Hf) as [Hl Hr]. rewrite !app_nil_r. split; [..|done].
    + rewrite countb_none; [by destruct (mIsSending s')|]. by rewrite !Forall_app.
    + eapply Forall_impl; [apply sending_batch; by rewrite !Forall_app|]. by intros ? ->.
    + rewrite !Forall_app. split_and!; [done| |done]. eapply Forall_impl; [exact Hc|]. cbn. intros g [->| ->]; [done|apply Hcmpf].
Qed.

Lemma access_packets s f fs s' cs :
  access s f fs s' cs → mPackets s ++ queued f = mjoin (taken s f) ++ mPackets s'.
Proof. intros []; cbn; rewrite ?app_nil_r; try done. by destruct s; cbn in *; subst. Qed.

Lemma trace_cons order i st st' f k :
  threads st !! i = Some (f :: k) → thread_step server OnRecv i st = Some st' →
  trace server OnRecv (i :: order) st = (session (world st), f) :: trace server OnRecv order st'.
Proof. intros Hi Hstep. cbn. by rewrite Hi, Hstep. Qed.

(** No batch amounts to -1 as an [Int32], which [DoSend] would take for sent. *)
Definition batches_ok (tr : list (Session * Frame)) : Prop :=
  Forall (λ a, a.2 = DoSend_swap → totalSendBytes (mPackets a.1) ≠ -1) tr.

Definition all_queued (tr : list (Session * Frame)) : list iovec := tr ≫= (λ a, queued a.2).
Definition all_taken (tr : list (Session * Frame)) : list (list iovec) := tr ≫= (λ a, taken a.1 a.2).

Lemma schedule_sends order st st' T ws :
  schedule server OnRecv order st = Some st' → batches_ok (trace server OnRecv order st) →
  one_sender T ws (frames st) (session (world st)) →
  ∃ cs, calls (os (world st')) = calls (os (world st)) ++ cs ∧
    mPackets (session (world st)) ++ all_queued (trace server OnRecv order st) =
      mjoin (all_taken (trace server OnRecv order st)) ++ mPackets (session (world st')) ∧
    one_sender (T ++ all_taken (trace server OnRecv order st)) (ws ++ written cs) (frames st') (session (world st')).
Proof.
  revert st T ws. induction order as [|i order IH]; intros st T ws Hrun Hok Hinv.
  - injection Hrun as <-. exists []. cbn. by rewrite !app_nil_r.
  - cbn [schedule] in Hrun. apply bind_Some in Hrun as (st1 & Hstep & Hrun).
    pose proof Hstep as (f & k & l & r & fs & cs & Hi & Hst & Hst1 & Ha & Hc)%thread_access.
    rewrite (trace_cons order _ _ _ _ _ Hi Hstep) in Hok |- *. apply Forall_cons in Hok as [Hswap Hok].
    rewrite Hst in Hinv. pose proof (one_sender_step _ _ _ _ _ _ _ _ _ Hinv Ha Hswap) as Hinv1. rewrite <- Hst1 in Hinv1.
    destruct (IH st1 _ _ Hrun Hok Hinv1) as (cs' & Hc' & Hq & Hinv').
    exists (cs ++ cs'). unfold all_queued, all_taken, written in *. cbn. rewrite omap_app.
    split_and!; [by rewrite Hc', Hc, app_assoc| |by rewrite !app_assoc in *].
    rewrite app_assoc, (access_packets _ _ _ _ _ Ha), join_app, <- !app_assoc. by f_equal.
Qed.

Lemma one_sender_start fs s : Forall entry fs → one_sender [] [] fs s.
Proof.
  intros Hfs. split; [..|constructor].
  - rewrite countb_none; [by destruct (mIsSending s)|]. eapply Forall_impl; [exact Hfs|]. by intros [].
  - eapply Forall_impl; [exact Hfs|]. by intros [].
  - eapply Forall_impl; [exact Hfs|]. by intros [].
Qed.

(** C8: at most one of the threads is in [DoSend] between the start of its batch
    and the store that clears [mIsSending], and none is while [mIsSending] is
    false, as long as no batch amounts to -1 as an [Int32] (the result an error
    leaves, which [DoSend] would compare with it). *)
Theorem one_thread_sends order st st' :
  Forall entry (frames st) → schedule server OnRecv order st = Some st' →
  batches_ok (trace server OnRecv order st) →
  countb sending (frames st') ≤ (if mIsSending (session (world st')) then 1 else 0).
Proof.
  intros Hentry Hrun Hok.
  destruct (schedule_sends order st st' [] [] Hrun Hok) as (cs & _ & _ & Hinv); [by apply one_sender_start|].
  exact (at_most_one _ _ _ _ Hinv).
Qed.

(** C7: the packets go out in the order in which they were queued, whichever
    thread queued them and whichever sends: what was queued is, in order, the batches
    taken and the packets still waiting, and every [writev] is of the batch last
    taken, whole (as long as no batch amounts to -1 as an [Int32]). *)
Theorem sends_in_order order st st' (tr := trace server OnRecv order st) :
  Forall entry (frames st) → schedule server OnRecv order st = Some st' → batches_ok tr →
  mPackets (session (world st)) ++ all_queued tr = mjoin (all_taken tr) ++ mPackets (session (world st')) ∧
  ∃ cs, calls (os (world st')) = calls (os (world st)) ++ cs ∧ writes (all_taken tr) (written cs).
Proof.
  intros Hentry Hrun Hok.
  destruct (schedule_sends order st st' [] [] Hrun Hok) as (cs & Hc & Hq & Hinv); [by apply one_sender_start|].
  split; [done|]. exists cs. split; [done|]. exact (writes_batches _ _ _ _ Hinv).
Qed.

(** ** The values stay in their types *)

Definition typed_fd (fd : SocketFD) : Prop := - 2 ^ 31 ≤ fd < 2 ^ 31.
Definition typed_packet (p : iovec) : Prop := 0 ≤ iov_len p < 2 ^ 64.

Record typed (s : Session) : Prop := {
  typed_descriptor : typed_fd (mSessionFD s);
  typed_offsets : wf (mRecvBuffer (mRecvJob s));
  typed_leftover : Forall typed_packet (mSendPackets (mSendJob s));
  typed_queue : Forall typed_packet (mPackets s)
}.

Definition typed_frame (f : Frame) : Prop :=
  match f with
  | Send_push p => typed_packet p
  | DoSend_check ps | DoSend_load ps | DoSend_fail ps | DoSend_compare ps | DoSend_reset _ ps | DoSend_add _ ps =>
      Forall typed_packet ps
  | DoSend_writev ps fd => Forall typed_packet ps ∧ typed_fd fd
  | Arm fd | Disconnect_remove fd | Disconnect_close fd | Recv_recv fd | Rearm fd => typed_fd fd
  | Recv_consume _ n => n < BUFFER_SIZE
  | _ => True
  end.

(** The arguments of a call of the system: an [int], a length that stays inside the
    receive buffer, a vector of [size_t]s. *)
Definition typed_call (c : Call) : Prop :=
  match c with
  | CallRecv fd n => typed_fd fd ∧ 0 ≤ n < BUFFER_SIZE
  | CallWritev fd ps => typed_fd fd ∧ Forall typed_packet ps
  | CallEpollCtl _ _ fd _ _ | CallClose fd => typed_fd fd
  | CallOnRecv _ _ n => 0 ≤ n < BUFFER_SIZE
  | _ => True
  end.

(** What the user's [OnRecv] may do: send any [size_t]s, and say it used less than the
    size of the buffer. *)
Definition typed_user : Prop :=
  ∀ id address n, 0 ≤ n < BUFFER_SIZE →
    Forall typed_packet (OnRecv id address n).1 ∧ (OnRecv id address n).2 < BUFFER_SIZE.

Lemma typed_u64 base z : typed_packet (mkIovec base (u64 z)).
Proof. unfold typed_packet, u64, uwrap. cbn. apply Z.mod_pos_bound. lia. Qed.

Lemma typed_compare ps n : Forall typed_packet ps → Forall typed_frame (compare_frames ps n).
Proof.
  intros Hps. unfold compare_frames, leftover_frames. destruct (_ =? _); [by repeat constructor|].
  destruct (find_unsent_suffix n ps) as [sent Hsuf]. destruct (find_unsent n ps) as [start unsent]. cbn in Hsuf.
  apply Forall_singleton. subst ps. by apply Forall_app in Hps as [_ ?].
Qed.

Lemma typed_sends ps : Forall typed_packet ps → Forall typed_frame (Sends_frames ps).
Proof.
  intros Hps. unfold Sends_frames. apply Forall_join, Forall_fmap. eapply Forall_impl; [exact Hps|]. intros p Hp. cbn.
  unfold Send_frames. destruct (_ || _); [constructor|]. by rewrite !Forall_cons.
Qed.

Lemma access_typed s f fs s' cs :
  typed_user → access s f fs s' cs → typed s → typed_frame f →
  typed s' ∧ Forall typed_frame fs ∧ Forall typed_call cs.
Proof.
  intros Huser Ha Hs Hf. pose proof Hs as [Hfd Hbuf Hleft Hq].
  destruct Ha as [| | | | | | |ps|ps fd|ps fd|ps fd|ps fd n| | | |ps|start ps|start|start p ps| | | | |fd|fd| | | | | | | | |fd f b n println Hin Hb| | |address n used Hn|used n b Hb| |fd fs Hfs| |]; cbn in Hf.
  all: try (split; [done|]; rewrite ?Forall_cons; naive_solver).
  - split; [|by split; constructor]. split; [done..|]. cbn. apply Forall_app. by rewrite Forall_singleton.
  - split_and!; [done|by apply typed_compare, Hf|apply Forall_singleton; by destruct Hf].
  - split_and!; [done|by apply typed_compare|constructor].
  - apply Forall_cons in Hf as [Hp Hps]. split; [|split; [by apply Forall_singleton|constructor]].
    split; [done..| |done]. cbn. apply Forall_app. rewrite Forall_singleton. split; [done|apply typed_u64].
  - destruct (Hb Hbuf) as [Hn Hwf]. split_and!; [by split| |by destruct println; rewrite ?Forall_cons].
    apply Forall_singleton. set_unfold in Hin. by destruct Hin as [->|[->|[->|[]]]].
  - destruct (Huser (mSessionID s) address n (Hn Hbuf)) as [Hps Hused].
    split_and!; [done| |apply Forall_singleton; by apply Hn].
    apply Forall_app. split; [by apply typed_sends|]. by rewrite !Forall_cons.
  - split; [|by split; constructor]. split; try done. cbn. auto.
  - split_and!; [done| |by apply Forall_singleton].
    set_unfold in Hfs. destruct Hfs as [->|[->|[]]]; by rewrite ?Forall_cons.
Qed.

(** C32: whatever the interleaving, the values stay in the types the code gives
    them and in the bounds the code relies on, if the user's [OnRecv], given less than
    a bufferful, sends lengths that are [size_t]s and says it used less than a
    bufferful: the descriptor is an [int], the lengths queued and
    left over are [size_t]s, the offsets of the receive buffer stay inside it;
    and [recv] and [OnRecv] are only given lengths smaller than the buffer. *)
Theorem values_typed st st' :
  typed_user → typed (session (world st)) → Forall typed_frame (frames st) → rtc (step server OnRecv) st st' →
  typed (session (world st')) ∧ Forall typed_frame (frames st') ∧
  ∃ cs, calls (os (world st')) = calls (os (world st)) ++ cs ∧ Forall typed_call cs.
Proof.
  intros Huser Hs Hfs Hrun.
  refine (rtc_keeps _ (λ st1, typed (session (world st1)) ∧ Forall typed_frame (frames st1) ∧
    ∃ cs, calls (os (world st1)) = calls (os (world st)) ++ cs ∧ Forall typed_call cs) _ _ _ Hrun _).
  - intros x y [i (f & k & l & r & fs & cs & _ & Hx & Hy & Ha & Hc)%thread_access] (Htx & Hfx & cs' & Hc' & Hcs').
    rewrite Hx in Hfx. apply Forall_app in Hfx as [Hl [Hf Hr]%Forall_cons].
    destruct (access_typed _ _ _ _ _ Huser Ha Htx Hf) as (Hty & Hfy & Hcs).
    split_and!; [done|rewrite Hy; by rewrite !Forall_app|]. exists (cs' ++ cs).
    by rewrite Hc, Hc', app_assoc, Forall_app.
  - split_and!; [done..|]. exists []. by rewrite app_nil_r.
Qed.

(** ** What can go wrong

    One thread that sends against another, or against the receive job. *)

Lemma step_at i f k fs w w' ts :
  ts !! i = Some (f :: k) → exec server OnRecv f w = Some (fs, w') →
  step server OnRecv (mkState w ts) (mkState w' (<[i := fs ++ k]> ts)).
Proof. intros Hi He. exists i. unfold thread_step. cbn. rewrite Hi. cbn. by rewrite He. Qed.

Lemma Send_frames_ok p : iov_base p ≠ 0 → packet_ok p → Send_frames p = [Send_push p; Send_test].
Proof.
  intros Hp [Hlen _]. unfold Send_frames. rewrite (proj2 (Z.eqb_neq (iov_base p) 0)) by done.
  by rewrite (proj2 (Z.leb_gt (iov_len p) 0)).
Qed.

Lemma compare_sent p : packet_ok p → compare_frames [p] (i32 (iov_len p)) = [DoSend_idle].
Proof.
  intros Hp. pose proof Hp as [Hlen Hlen']. unfold compare_frames.
  rewrite totalSendBytes_sum, i32_small by (repeat constructor; cbn; lia). cbn. by rewrite Z.add_0_r, Z.eqb_refl.
Qed.

#[local] Arguments compare_frames : simpl never.
#[local] Arguments i32 : simpl never.
#[local] Arguments GetDirectWriteSize : simpl never.

(** The next access of thread [i]. *)
Ltac access_of i :=
  eapply rtc_l;
    [eapply (step_at i);
      [reflexivity
      |cbn [exec RecvJob_access Session_access]; unfold this, update, call, writev, recv, epoll_ctl, epoll_ctl_; run;
       rewrite ?decide_False by done; rewrite ?compare_sent, ?on_disconnected_quiet by done; reflexivity]
    |]; cbn.

(** The log of a run, from its accesses. *)
Ltac read_log :=
  cbn [calls os world on_os on_session log_call set_recv_answers set_writev_answers]; by rewrite <- !app_assoc.

(** The run has come to the state it should. *)
Ltac ended :=
  refine (eq_ind_r (λ st, rtc _ st _) (rtc_refl _ _) _);
  lazy beta iota delta [on_os on_session log_call set_recv_answers set_writev_answers set_epoll_ctl_answers set_fd
    SetSendState SetReceiveState set_packets calls os world session buffer_address recv_answers writev_answers
    epoll_ctl_answers mSessionID mSessionFD mIsRecving mRecvJob mIsSending mSendJob mPackets];
  by rewrite <- ?app_assoc.

Section Schedules.
Context (id : SessionID) (fd : SocketFD) (rj : RecvJob) (sj : SendJob) (ad : Z).
Context (Hfd : fd ≠ sINVALID_SOCKET_FD).
Context (p q : iovec) (Hp : iov_base p ≠ 0) (Hq : iov_base q ≠ 0) (Hlp : packet_ok p) (Hlq : packet_ok q).

(** A session with nothing to send, whose receive job is in its place. *)
Definition quiet_session : Session := mkSession id fd true rj false sj [].

(** C38: a packet can stay behind: a [Send] that finds [mIsSending] set leaves its packet
    to the thread that set it, which may already have taken its batch and be about
    to clear the flag.  All threads are done, the session is open and idle, and the
    packet waits for a later [Send]. *)
Theorem packet_left_behind ra rest ea cs (o := mkOS ra (Sent (iov_len p) :: rest) ea cs) :
  ∃ st, rtc (step server OnRecv) (mkState (mkWorld quiet_session o ad) [Send_frames p; Send_frames q]) st ∧
    frames st = [] ∧ mSessionFD (session (world st)) = fd ∧
    mIsSending (session (world st)) = false ∧ mPackets (session (world st)) = [q].
Proof.
  rewrite !Send_frames_ok by done. unfold quiet_session. eexists. split.
  - do 6 access_of 0%nat. do 2 access_of 1%nat. do 3 access_of 0%nat. apply rtc_refl.
  - done.
Qed.

(** A descriptor can be written to after it is closed: the sender has read
    [mSessionFD] for [writev] when the receive job, at the peer's end, closes it.
    The number may by then be another client's. *)
Theorem written_after_close ra a wa ea cs (o := mkOS (RecvClosed :: ra) (a :: wa) ea cs) :
  ∃ st cs', rtc (step server OnRecv) (mkState (mkWorld quiet_session o ad) [Send_frames p; [Recv_check]]) st ∧
    calls (os (world st)) = cs ++ cs' ++ [CallClose fd; CallWritev fd [p]].
Proof.
  rewrite !Send_frames_ok by done. unfold quiet_session. eexists.
  exists [CallRecv fd (GetDirectWriteSize (mRecvBuffer rj)); CallEpollCtl (GetEpollFD server) EPOLL_CTL_DEL fd JobNull 0]. split.
  - do 5 access_of 0%nat. do 7 access_of 1%nat. access_of 0%nat. apply rtc_refl.
  - read_log.
Qed.

(** The receive job has read [mSessionFD] to rearm it, and before it does, a sender
    whose [writev] answers [EAGAIN] closes it. *)
Definition closed_session : Session := mkSession id sINVALID_SOCKET_FD true rj false sj [].
Definition stale_threads : list (list Frame) := [[Disconnect_recving; Arm_load]; [Rearm fd]].

Lemma closed_before_rearm ra wa ea cs :
  GetUsedSize (mRecvBuffer rj) = 0 →
  rtc (step server OnRecv)
    (mkState (mkWorld quiet_session (mkOS (RecvError EAGAIN :: ra) (SendError EAGAIN :: wa) ea cs) ad)
       [Send_frames p; [Recv_check]])
    (mkState (mkWorld closed_session (mkOS ra wa ea (cs ++
        [CallRecv fd (GetDirectWriteSize (mRecvBuffer rj)); CallWritev fd [p];
         CallEpollCtl (GetEpollFD server) EPOLL_CTL_DEL fd JobNull 0; CallClose fd])) ad) stale_threads).
Proof.
  intros Hempty. rewrite !Send_frames_ok by done. unfold quiet_session.
  do 3 access_of 1%nat.
  eapply rtc_l; [eapply (step_at 1);
    [reflexivity|cbn [exec RecvJob_access]; unfold recv_buffer, this; run; rewrite Hempty; reflexivity]|]. cbn.
  access_of 1%nat. do 10 access_of 0%nat. ended.
Qed.

(** The rearming of the number read before, and the end of both threads. *)
Lemma stale_rearm ra wa ea cs :
  rtc (step server OnRecv)
    (mkState (mkWorld closed_session (mkOS ra wa (None :: ea) cs) ad) stale_threads)
    (mkState (mkWorld closed_session (mkOS ra wa ea (cs ++
        [CallEpollCtl (GetEpollFD server) EPOLL_CTL_MOD fd (JobRecv id) (Z.lor (Z.lor EPOLLONESHOT EPOLLIN) EPOLLET);
         CallEpollCtl (GetSendPollFD server) EPOLL_CTL_MOD sINVALID_SOCKET_FD (JobSend id) (Z.lor EPOLLOUT EPOLLONESHOT)])) ad)
       [[]; []]).
Proof.
  unfold closed_session, stale_threads. access_of 1%nat. do 3 access_of 0%nat. ended.
Qed.

Definition reports (c : Call) : bool := match c with CallOnDisconnected _ => true | _ => false end.

(** C40: the user can be told of the end of a session never, or twice.  When the
    peer closes while another thread sends, the receive job sees [mIsSending] and
    leaves the report to the sender, who has nothing to report if its [writev]
    succeeded; and when that answers [EAGAIN], both can find both flags clear. *)
Theorem end_misreported ra wa ea cs (twice : bool)
    (o := mkOS (RecvClosed :: ra) ((if twice then SendError EAGAIN else Sent (iov_len p)) :: wa) ea cs) :
  ∃ st cs', rtc (step server OnRecv) (mkState (mkWorld quiet_session o ad) [Send_frames p; [Recv_check]]) st ∧
    frames st = [] ∧ mSessionFD (session (world st)) = sINVALID_SOCKET_FD ∧
    mIsRecving (session (world st)) = false ∧ mIsSending (session (world st)) = false ∧
    calls (os (world st)) = cs ++ cs' ∧ length (filter reports cs') = (if twice then 2 else 0)%nat.
Proof.
  rewrite !Send_frames_ok by done. unfold quiet_session.
  set (end_calls := [CallWritev fd [p]; CallRecv fd (GetDirectWriteSize (mRecvBuffer rj));
                     CallEpollCtl (GetEpollFD server) EPOLL_CTL_DEL fd JobNull 0; CallClose fd]).
  set (arm := CallEpollCtl (GetSendPollFD server) EPOLL_CTL_MOD sINVALID_SOCKET_FD (JobSend id) (Z.lor EPOLLOUT EPOLLONESHOT)).
  destruct twice; eexists.
  - exists (end_calls ++ [CallOnDisconnected id; CallOnDisconnected id; arm]). split.
    + do 6 access_of 0%nat. do 7 access_of 1%nat. access_of 0%nat. do 3 access_of 1%nat. do 6 access_of 0%nat. apply rtc_refl.
    + split_and!; [done..|read_log|done].
  - exists (end_calls ++ [arm]). split.
    + do 6 access_of 0%nat. do 9 access_of 1%nat. do 3 access_of 0%nat. apply rtc_refl.
    + split_and!; [done..|read_log|done].
Qed.
End Schedules.
End Races.

(** ** Witnesses *)

Definition other_packet : iovec := mkIovec 8192 20.

Lemma other_packet_ok : packet_ok other_packet.
Proof. by split. Qed.

Definition sample_state (recvs : list RecvAnswer) (writevs : list WritevAnswer) (ts : list (list Frame)) : State :=
  mkState (mkWorld (sample_session false []) (mkOS recvs writevs [] []) 4096) ts.

(** The receive job at the peer's end. *)
Lemma closed_once_witness :
  ∃ st' cs, schedule test_server echoing (replicate 10 0%nat) (sample_state [RecvClosed] [] [[Recv_check]]) = Some st' ∧
    calls (os (world st')) = cs ∧ filter closes cs = close_calls test_server 3.
Proof.
  set (st := sample_state [RecvClosed] [] [[Recv_check]]).
  assert (∃ st', schedule test_server echoing (replicate 10 0%nat) st = Some st' ∧
    mSessionFD (session (world st')) = -1 ∧ frames st' = []) as (st' & Hrun & Hfd & Hdone)
    by (eexists; split; [vm_compute; reflexivity|by vm_compute]).
  destruct (closed_once test_server echoing st st') as (cs & Hc & _ & Hend).
  - by repeat constructor.
  - done.
  - exact (schedule_rtc _ _ _ _ _ Hrun).
  - exists st', cs. destruct Hend as [[Hopen _]|[_ Hend]]; [by rewrite Hfd in Hopen|].
    split_and!; [done|done|by apply Hend].
Defined.

Lemma echoing_typed : typed_user echoing.
Proof.
  intros id address n Hn. cbn. rewrite Forall_singleton. unfold typed_packet, BUFFER_SIZE in *. cbn. lia.
Qed.

(** The receive job up to the echo of what it received. *)
Lemma values_typed_witness :
  ∃ st', schedule test_server echoing (replicate 8 0%nat)
      (sample_state [RecvData [9]; RecvError EAGAIN] [] [[Recv_check]]) = Some st' ∧
    mPackets (session (world st')) = [mkIovec 4096 4] ∧ typed (session (world st')).
Proof.
  set (st := sample_state _ _ _).
  assert (∃ st', schedule test_server echoing (replicate 8 0%nat) st = Some st' ∧
    mPackets (session (world st')) = [mkIovec 4096 4]) as (st' & Hrun & Hps)
    by (eexists; split; [vm_compute; reflexivity|by vm_compute]).
  exists st'. split_and!; [done|done|].
  apply (values_typed test_server echoing st st').
  - apply echoing_typed.
  - split; [by split|exact sample_buffer_wf|constructor|constructor].
  - by apply Forall_singleton.
  - exact (schedule_rtc _ _ _ _ _ Hrun).
Defined.

(** Two senders, the second between the first one's batch and its end. *)
Definition two_senders : State := sample_state [] [Sent 10] [Send_frames sample_packet; Send_frames other_packet].
Definition two_senders_order : list nat := [0; 0; 0; 0; 0; 0; 1; 1]%nat.

Lemma two_senders_batches : batches_ok (trace test_server echoing two_senders_order two_senders).
Proof. by repeat constructor. Qed.

Lemma one_thread_sends_witness :
  ∃ st', schedule test_server echoing two_senders_order two_senders = Some st' ∧
    frames st' = [DoSend_idle; Arm_load] ∧ countb sending (frames st') ≤ 1.
Proof.
  eexists. split_and!; [reflexivity|reflexivity|].
  apply (one_thread_sends test_server echoing two_senders_order two_senders).
  - by repeat constructor.
  - reflexivity.
  - apply two_senders_batches.
Defined.

Lemma sends_in_order_witness :
  ∃ st' cs, schedule test_server echoing two_senders_order two_senders = Some st' ∧
    [sample_packet; other_packet] = mjoin [[sample_packet]] ++ mPackets (session (world st')) ∧
    calls (os (world st')) = cs ∧ writes [[sample_packet]] (written cs).
Proof.
  assert (∃ st', schedule test_server echoing two_senders_order two_senders = Some st') as [st' Hrun] by (by eexists).
  destruct (sends_in_order test_server echoing two_senders_order two_senders st') as (Hq & cs & Hc & Hw).
  - by repeat constructor.
  - done.
  - apply two_senders_batches.
  - exists st', cs. by split_and!.
Defined.

Lemma packet_left_behind_witness :
  ∃ st, rtc (step test_server echoing) two_senders st ∧ frames st = [] ∧ mPackets (session (world st)) = [other_packet].
Proof.
  destruct (packet_left_behind test_server echoing 7 3 (mkRecvJob sample_buffer) (mkSendJob []) 4096 ltac:(done)
    sample_packet other_packet ltac:(done) ltac:(done) sample_packet_ok other_packet_ok [] [] [] [])
    as (st & Hrun & Hdone & _ & _ & Hps). by exists st.
Defined.

Definition sender_and_receiver (a : WritevAnswer) : State :=
  sample_state [RecvClosed] [a] [Send_frames sample_packet; [Recv_check]].

Lemma written_after_close_witness :
  ∃ st cs, rtc (step test_server echoing) (sender_and_receiver (Sent 10)) st ∧
    calls (os (world st)) = cs ++ [CallClose 3; CallWritev 3 [sample_packet]].
Proof.
  destruct (written_after_close test_server echoing 7 3 (mkRecvJob sample_buffer) (mkSendJob []) 4096 ltac:(done)
    sample_packet ltac:(done) sample_packet_ok [] (Sent 10) [] [] []) as (st & cs & Hrun & Hc).
  by exists st, cs.
Defined.

Lemma end_misreported_witness :
  ∃ st cs, rtc (step test_server echoing) (sender_and_receiver (SendError EAGAIN)) st ∧ frames st = [] ∧
    calls (os (world st)) = cs ∧ length (filter reports cs) = 2%nat.
Proof.
  destruct (end_misreported test_server echoing 7 3 (mkRecvJob sample_buffer) (mkSendJob []) 4096 ltac:(done)
    sample_packet ltac:(done) sample_packet_ok [] [] [] [] true) as (st & cs & Hrun & Hdone & _ & _ & _ & Hc & Hn).
  by exists st, cs.
Defined.
End SessionRaces.
