(* ===== verification/SessionProgress.v ===== *)
(** * Threads on one session always finish

    No interleaving of the accesses of SessionThreads.v runs for ever or gets stuck:
    each access brings a measure down, and a thread that cannot make its next
    access waits for the system. *)

From Stdlib Require Import Relation_Operators Wellfounded.
From S2P Require Import Prelude System RecvBuffer Session SessionThreads.

Module SessionProgress.
Import RecvBuffer SessionThreads.

Section Progress.
Context (server : ServerView) `{!QuietDisconnect server}.
Context (OnRecv : SessionID → Z → Z → list iovec * Z).

(** ** The measure *)

(** How many accesses a frame can lead to before it uses up an answer of [recv] or
    [writev], or completes a receive. *)
Definition cost (f : Frame) : nat :=
  match f with
  | Send_push _ => 1
  | Send_test => 12
  | DoSend_swap => 9
  | DoSend_check _ => 8
  | DoSend_load _ => 1
  | DoSend_writev _ _ => 0
  | DoSend_idle => 1
  | DoSend_give_up => 7
  | DoSend_fail ps => 12 + length ps
  | DoSend_compare ps => 5 + length ps
  | DoSend_reset _ ps => 4 + length ps
  | DoSend_add _ ps => 3 + length ps
  | Arm_load => 2
  | Arm _ => 1
  | Disconnect_swap => 6
  | Disconnect_remove _ => 5
  | Disconnect_close _ => 4
  | Disconnect_recving => 3
  | Disconnect_sending => 2
  | Disconnect_notify => 1
  | Recv_check => 8
  | Recv_load => 1
  | Recv_recv _ => 0
  | Recv_stop => 7
  | Recv_complete => 0
  | Recv_consume _ _ => 1
  | Rearm_load => 10
  | Rearm _ => 9
  | Rearm_check => 8
  end.

Definition completes (f : Frame) : nat := match f with Recv_complete => 1 | _ => 0 end.

Fixpoint total (c : Frame → nat) (fs : list Frame) : nat :=
  match fs with [] => 0 | f :: fs => c f + total c fs end.

Lemma total_app c fs gs : total c (fs ++ gs) = (total c fs + total c gs)%nat.
Proof. induction fs as [|f fs IH]; cbn; lia. Qed.

(** The answers to come, the receives to complete, and the rest. *)
Definition measure (fs : list Frame) (w : World) : nat * (nat * (nat * nat)) :=
  (length (recv_answers (os w)), (total completes fs, (length (writev_answers (os w)), total cost fs))).

Definition lex {B} (R : B → B → Prop) : nat * B → nat * B → Prop := slexprod nat B lt R.

Definition smaller : nat * (nat * (nat * nat)) → nat * (nat * (nat * nat)) → Prop := lex (lex (lex lt)).

Lemma lex_wf {B} (R : B → B → Prop) : well_founded R → well_founded (lex R).
Proof. intros HR. apply wf_slexprod; [apply lt_wf|done]. Qed.

Lemma smaller_wf : well_founded smaller.
Proof. repeat apply lex_wf. apply lt_wf. Qed.

(** The orders of the four parts, as an access can bring them down. *)
Lemma smaller_spec r r' k k' w w' c c' :
  (r' < r)%nat ∨ r' = r ∧ ((k' < k)%nat ∨ k' = k ∧ ((w' < w)%nat ∨ w' = w ∧ (c' < c)%nat)) →
  smaller (r', (k', (w', c'))) (r, (k, (w, c))).
Proof.
  intros [Hr|[-> [Hk|[-> [Hw|[-> Hc]]]]]]; [by left|right..]; [by left|right..]; [by left|by right].
Qed.

(** *** What a frame leaves *)

Lemma Sends_frames_completes ps : total completes (Sends_frames ps) = 0%nat.
Proof.
  induction ps as [|p ps IH]; [done|]. change (Sends_frames (p :: ps)) with (Send_frames p ++ Sends_frames ps).
  rewrite total_app, IH. unfold Send_frames. by destruct (_ || _).
Qed.

Lemma compare_frames_cost ps n :
  (total cost (compare_frames ps n) ≤ 4 + length ps)%nat ∧ total completes (compare_frames ps n) = 0%nat.
Proof.
  unfold compare_frames, leftover_frames. destruct (_ =? _); [cbn; lia|].
  destruct (find_unsent_suffix n ps) as [sent Hsuf]. destruct (find_unsent n ps) as [start unsent].
  cbn in *. subst ps. rewrite length_app. lia.
Qed.

(** An access of [f] brings the measure down, when [f] is among the frames. *)
Definition descends (f : Frame) (w : World) (fs : list Frame) (w' : World) : Prop :=
  (length (recv_answers (os w')) < length (recv_answers (os w)))%nat ∨
  recv_answers (os w') = recv_answers (os w) ∧
    ((total completes fs < completes f)%nat ∨
     total completes fs = completes f ∧
       ((length (writev_answers (os w')) < length (writev_answers (os w)))%nat ∨
        writev_answers (os w') = writev_answers (os w) ∧ (total cost fs < cost f)%nat)).

(** Most accesses use up no answer. *)
Lemma descends_here f w fs w' :
  recv_answers (os w') = recv_answers (os w) → writev_answers (os w') = writev_answers (os w) →
  total completes fs = completes f → (total cost fs < cost f)%nat → descends f w fs w'.
Proof. intros. right. split; [done|]. right. split; [done|]. by right. Qed.

Lemma writev_uses fd ps w a w' :
  writev fd ps w = Some (a, w') →
  recv_answers (os w') = recv_answers (os w) ∧ (length (writev_answers (os w')) < length (writev_answers (os w)))%nat.
Proof. unfold writev, call. run. destruct (writev_answers _) eqn:Hw; [done|]. intros [= <- <-]. cbn. split; [done|lia]. Qed.

Lemma recv_uses fd n w a w' :
  recv fd n w = Some (a, w') → (length (recv_answers (os w')) < length (recv_answers (os w)))%nat.
Proof.
  unfold recv, call. run. destruct (recv_answers _) as [|[bytes| |e] rest]; [done|..]; run.
  - destruct (_ && _); [|done]. intros [= <- <-]. cbn. lia.
  - intros [= <- <-]. cbn. lia.
  - intros [= <- <-]. cbn. lia.
Qed.

Lemma epoll_ctl_uses e op fd j ev w r w' :
  epoll_ctl e op fd j ev w = Some (r, w') →
  recv_answers (os w') = recv_answers (os w) ∧ writev_answers (os w') = writev_answers (os w).
Proof. unfold epoll_ctl, call. run. destruct (epoll_ctl_answers _); [done|]. by intros [= <- <-]. Qed.

(** An access that uses an answer of [recv] leaves it at that. *)
Lemma uses_recv_descends f w fs w' :
  (length (recv_answers (os w')) < length (recv_answers (os w)))%nat → descends f w fs w'.
Proof. by left. Qed.

Lemma recv_descends fd w fs w' : exec server OnRecv (Recv_recv fd) w = Some (fs, w') → descends (Recv_recv fd) w fs w'.
Proof.
  cbn [exec RecvJob_access]. erewrite (bind_eq recv_buffer) by reflexivity.
  intros (a & w1 & Huses%recv_uses & Hrest)%bind_inv. apply uses_recv_descends.
  assert (recv_answers (os w') = recv_answers (os w1)) as ->; [|done].
  by destruct a as [?| |[]]; injection Hrest as <- <-.
Qed.

Lemma complete_descends w fs w' : exec server OnRecv Recv_complete w = Some (fs, w') → descends Recv_complete w fs w'.
Proof.
  intros He. assert (os w' = os w ∨ ∃ c, os w' = log_call c (os w)) as Hos.
  { revert He. cbn [exec RecvJob_access]. erewrite (bind_eq recv_buffer) by reflexivity. cbv zeta. destruct (0 <? _).
    - erewrite (bind_eq (this id)), (bind_eq (gets buffer_address)), (bind_eq (call _)) by reflexivity.
      destruct (OnRecv _ _ _) as [packets n]. intros [= _ <-]. right. by eexists.
    - intros [= _ <-]. by left. }
  assert (total completes fs = 0%nat) as Hfs.
  { revert He. cbn [exec RecvJob_access]. erewrite (bind_eq recv_buffer) by reflexivity. cbv zeta. destruct (0 <? _).
    - erewrite (bind_eq (this id)), (bind_eq (gets buffer_address)), (bind_eq (call _)) by reflexivity.
      destruct (OnRecv _ _ _) as [packets n]. intros [= <- _]. by rewrite total_app, Sends_frames_completes.
    - by intros [= <- _]. }
  right. split; [by destruct Hos as [->|[c ->]]|]. left. rewrite Hfs. cbn. lia.
Qed.

Lemma writev_descends ps fd w fs w' :
  exec server OnRecv (DoSend_writev ps fd) w = Some (fs, w') → descends (DoSend_writev ps fd) w fs w'.
Proof.
  cbn [exec Session_access]. intros (a & w1 & [Hr Hw]%writev_uses & [= <- <-])%bind_inv.
  right. split; [done|]. right. split; [|by left].
  destruct a as [n|[]]; cbn [completes]; [apply (proj2 (compare_frames_cost _ _))|done..].
Qed.

Lemma exec_descends f w fs w' : exec server OnRecv f w = Some (fs, w') → descends f w fs w'.
Proof.
  destruct f; try (by apply recv_descends || by apply complete_descends || by apply writev_descends);
    cbn [exec Session_access RecvJob_access]; cbv [this]; rewrite ?gets_bind; intros He.
  all: try (injection He as <- <-; apply descends_here; [done|done|..]; repeat case_match; cbn; lia).
  - injection He as <- <-. apply descends_here; [done..|apply compare_frames_cost|].
    cbn [cost]. pose proof (proj1 (compare_frames_cost ps (-1))). lia.
  - destruct ps; injection He as <- <-; apply descends_here; cbn; done || lia.
  - erewrite (bind_eq (call _)) in He by reflexivity.
    erewrite (bind_eq (OnDisconnected _ _)) in He by apply on_disconnected_quiet.
    injection He as <- <-. apply descends_here; cbn; done || lia.
  - destruct (0 <? readSize), (readSize =? usedSize); injection He as <- <-; apply descends_here; cbn; done || lia.
  - apply bind_inv in He as (r & w1 & [Hr Hw]%epoll_ctl_uses & [= <- <-]).
    apply descends_here; [done..| |]; destruct r; cbn; lia.
  - case_decide; injection He as <- <-; apply descends_here; cbn; done || lia.
Qed.

Lemma step_smaller st st' :
  step server OnRecv st st' → smaller (measure (frames st') (world st')) (measure (frames st) (world st)).
Proof.
  intros (i & (f & k & l & r & fs & _ & Hf & He & Hfs)%thread_step_frames).
  apply exec_descends in He. rewrite Hf, Hfs. unfold measure. rewrite !total_app. cbn [total].
  apply smaller_spec. destruct He as [?|[-> [?|[? [?|[-> ?]]]]]]; lia.
Qed.

(** ** Waiting

    An access that cannot be made: a call of the system that has not answered yet,
    or a [recv] whose next answer is none that [recv] can give for the room in the
    buffer. *)
Definition waits (f : Frame) (w : World) : Prop :=
  match f with
  | DoSend_writev _ _ => writev_answers (os w) = []
  | Recv_recv fd =>
      match recv_answers (os w) with
      | [] => True
      | RecvData bytes :: _ => ¬ (0 < Z.of_nat (length bytes) ≤ GetDirectWriteSize (mRecvBuffer (mRecvJob (session w))))
      | _ => False
      end
  | Rearm _ => epoll_ctl_answers (os w) = []
  | _ => False
  end.

#[export] Instance waits_dec f w : Decision (waits f w).
Proof. destruct f; cbn; try apply _. destruct (recv_answers (os w)) as [|[]]; apply _. Defined.

Lemma writev_waits fd ps w : writev fd ps w = None ↔ writev_answers (os w) = [].
Proof. unfold writev, call. run. by destruct (writev_answers _). Qed.

Lemma epoll_ctl_waits e op fd j ev w : epoll_ctl e op fd j ev w = None ↔ epoll_ctl_answers (os w) = [].
Proof. unfold epoll_ctl, call. run. by destruct (epoll_ctl_answers _). Qed.

Lemma recv_waits fd fd' w :
  recv fd (GetDirectWriteSize (mRecvBuffer (mRecvJob (session w)))) w = None ↔ waits (Recv_recv fd') w.
Proof.
  unfold recv, call, waits. run. destruct (recv_answers _) as [|[bytes| |e] rest]; run; [done| |split; done|split; done].
  destruct (_ && _) eqn:Hlen; run; [|split; [intros _|done]].
  - split; [done|]. intros []. lia.
  - lia.
Qed.

(** What is bound first may be the only thing to wait for. *)
Lemma bind_none {A B} (m : M World A) (f : A → M World B) w :
  (∀ a w', f a w' ≠ None) → (m ≫= f) w = None ↔ m w = None.
Proof.
  intros Hf. unfold mbind, M_bind. destruct (m w) as [[a w']|]; [|done]. split; [|done]. intros Hn. by destruct (Hf a w').
Qed.

Lemma exec_waits f w : exec server OnRecv f w = None ↔ waits f w.
Proof.
  destruct f; cbn [exec Session_access RecvJob_access]; cbv [this]; rewrite ?gets_bind; try (split; [|by intros []]; done).
  - rewrite bind_none by done. apply writev_waits.
  - split; [|by intros []]. by destruct ps.
  - erewrite (bind_eq (call _)) by reflexivity. by erewrite (bind_eq (OnDisconnected _ _)) by apply on_disconnected_quiet.
  - erewrite (bind_eq recv_buffer) by reflexivity. rewrite bind_none; [apply recv_waits|by intros [?| |[]]].
  - split; [|by intros []]. erewrite (bind_eq recv_buffer) by reflexivity. destruct (0 <? _); [|done].
    erewrite (bind_eq (gets _)), (bind_eq (gets _)), (bind_eq (call _)) by reflexivity. by destruct (OnRecv _ _ _).
  - split; [|by intros []]. by destruct (0 <? readSize), (readSize =? usedSize).
  - rewrite bind_none by done. apply epoll_ctl_waits.
  - split; [|by intros []]. by case_decide.
Qed.

Lemma thread_waits i st f k :
  threads st !! i = Some (f :: k) → thread_step server OnRecv i st = None ↔ waits f (world st).
Proof.
  intros Hi. rewrite <- exec_waits. unfold thread_step. rewrite Hi. cbn.
  by destruct (exec server OnRecv f (world st)) as [[fs w]|].
Qed.

Lemma runs_end st : Acc (flip (step server OnRecv)) st.
Proof.
  pose (m := λ st, measure (frames st) (world st)).
  apply (wf_incl _ _ (λ x y, smaller (m x) (m y)) (λ x y, step_smaller y x)), wf_inverse_image, smaller_wf.
Qed.

(** Every thread is at its end, or at an access that waits. *)
Definition quiescent (st : State) : Prop :=
  Forall (λ t, match t with [] => True | f :: _ => waits f (world st) end) (threads st).

#[export] Instance quiescent_dec st : Decision (quiescent st).
Proof. apply Forall_dec. intros [|f k]; apply _. Defined.

Lemma quiescent_stuck st : quiescent st ↔ ∀ st', ¬ step server OnRecv st st'.
Proof.
  unfold quiescent. rewrite Forall_lookup. split.
  - intros Hq st' [i Hi]. pose proof Hi as (t & Ht & Hstep)%bind_Some. specialize (Hq i t Ht).
    destruct t as [|f k]; [done|]. by apply (thread_waits _ _ _ _ Ht) in Hq; rewrite Hq in Hi.
  - intros Hno i [|f k] Hi; [done|]. apply (thread_waits _ _ _ _ Hi).
    destruct (thread_step server OnRecv i st) as [st'|] eqn:Hs; [|done]. destruct (Hno st'). by exists i.
Qed.

(** C10: threads that share a session neither run for ever nor block each other,
    whatever the interleaving and whatever the system answers: every run of
    accesses is finite, a thread can make its next access exactly when that is no
    call the system has not answered, and every state runs to one in which every
    thread is at its end or waits for the system, where no access can be made. *)
Theorem threads_finish st :
  Acc (flip (step server OnRecv)) st ∧
  (∀ i f k, threads st !! i = Some (f :: k) → thread_step server OnRecv i st = None ↔ waits f (world st)) ∧
  ∃ st', rtc (step server OnRecv) st st' ∧ quiescent st' ∧ ∀ st'', ¬ step server OnRecv st' st''.
Proof.
  split_and!; [apply runs_end|by intros ????; apply thread_waits with k|].
  setoid_rewrite <- quiescent_stuck. induction (runs_end st) as [st _ IH]. destruct (decide (quiescent st)) as [Hq|Hq]; [by exists st|].
  assert (∃ st', step server OnRecv st st') as [st' Hs].
  { apply not_Forall_Exists in Hq; [|intros [|??]; apply _].
    apply Exists_exists in Hq as ([|f k] & [i Hi]%list_elem_of_lookup & Hq); [by destruct Hq|].
    destruct (thread_step server OnRecv i st) as [st'|] eqn:Hst; [by exists st', i|].
    by apply (thread_waits _ _ _ _ Hi) in Hst. }
  destruct (IH st' Hs) as (st'' & Hrun & Hq''). exists st''. split; [by eapply rtc_l|done].
Qed.

End Progress.

(** A sender and the receive job: the job gets three bytes, sends back the six there are and
    arms its socket again. *)
Definition sender_and_job : State :=
  mkState (mkWorld (sample_session false []) (mkOS [RecvData [1; 2; 3]; RecvError EAGAIN] [Sent 10; Sent 6] [None] []) 4096)
    [Send_frames sample_packet; [Recv_check]].

Lemma threads_finish_witness :
  Acc (flip (step test_server echoing)) sender_and_job ∧
  (∃ st', rtc (step test_server echoing) sender_and_job st' ∧ quiescent st') ∧
  ∃ st', schedule test_server echoing (replicate 9 0%nat ++ replicate 19 1%nat) sender_and_job = Some st' ∧
    frames st' = [].
Proof.
  destruct (threads_finish test_server echoing sender_and_job) as (Hacc & _ & st' & Hrun & Hq & _).
  split_and!; [exact Hacc|by exists st'|]. eexists. split; [vm_compute; reflexivity|reflexivity].
Defined.
End SessionProgress.
