(* ===== verification/SessionGroup.v ===== *)
(** * The session table (lib-core, Network/SessionGroup.{hpp,cpp})

    Session identifiers, the vector of session slots and the stack of free
    indices.  The table is generic in the session type: [SessionSlot] is what it
    uses of one, and [Session] provides it.  The blocks guarded by [mStackMutex]
    are single actions; [None] is an access outside the vector. *)

From S2P Require Import Prelude System Session.

(** What the table needs of a session: placement construction and the id. *)
Class SessionSlot (S : Type) := {
  slot_construct : SessionID → SocketFD → S → S;
  slot_id : S → SessionID;
  slot_construct_id sid fd raw : slot_id (slot_construct sid fd raw) = sid
}.

#[export, refine] Instance Session_slot : SessionSlot Session := {
  slot_construct := Session_construct;
  slot_id := GetSessionID
}.
Proof. done. Defined.

Module SessionGroup.

(** ** Identifiers *)

Definition sSessionUnqueMask : Z := i64 0xFFFFFFFFFFFF0000.
Definition sSessionIndexMask : Z := 0x000000000000FFFF.

Definition GetIndex (sessionID : SessionID) : Z := i32 (Z.land sessionID sSessionIndexMask).

Definition GetUniqueNumber (sessionID : SessionID) : Z :=
  Z.shiftr (Z.land sessionID sSessionUnqueMask) 48.

(** [uniqueNumber <<= 48; sessionID = uniqueNumber | index], on [Int64]. *)
Definition make_id (uniqueNumber index : Z) : SessionID :=
  Z.lor (i64 (Z.shiftl uniqueNumber 48)) index.

Section Table.
Context {S : Type} `{SessionSlot S}.

Record SessionGroup := mkSessionGroup {
  mMaxSession : Z;
  mSessionVector : list S;
  mSessionIndexPool : list Z;      (* the top first *)
  sUniqueNumber : Z                (* the file's static counter *)
}.

(** [for (index = n; index >= 0; --index) push(index)]. *)
Fixpoint push_indices (n : nat) (pool : list Z) : list Z :=
  match n with
  | O => 0 :: pool
  | Datatypes.S m => push_indices m (Z.of_nat n :: pool)
  end.

(** The constructor; [raw] is the memory of the vector, whose sessions are
    default-constructed, which leaves it as it is; a negative size throws. *)
Definition construct (maxSessions : Z) (raw : list S) (unique : Z) : option SessionGroup :=
  if (0 <=? maxSessions) && (Z.of_nat (length raw) =? maxSessions)
  then Some (mkSessionGroup maxSessions raw (push_indices (Z.to_nat maxSessions) []) unique)
  else None.

(** [mSessionVector[index]]: undefined outside the vector. *)
Definition at_index (v : list S) (index : Z) : option S :=
  if 0 <=? index then v !! Z.to_nat index else None.

Definition AllocSession (g : SessionGroup) : Z * SessionGroup :=
  match mSessionIndexPool g with
  | [] => (sINVALID_ID, g)
  | index :: pool =>
      (index, mkSessionGroup (mMaxSession g) (mSessionVector g) pool (sUniqueNumber g))
  end.

Definition FreeSession (index : Z) (g : SessionGroup) : SessionGroup :=
  mkSessionGroup (mMaxSession g) (mSessionVector g) (index :: mSessionIndexPool g) (sUniqueNumber g).

Definition AddSession (clientFD : SocketFD) (g : SessionGroup) : option (SessionID * SessionGroup) :=
  let '(index, g) := AllocSession g in
  let sessionID := make_id (sUniqueNumber g) index in
  raw ← at_index (mSessionVector g) index;
  Some (sessionID,
        mkSessionGroup (mMaxSession g)
          (<[Z.to_nat index := slot_construct sessionID clientFD raw]> (mSessionVector g))
          (mSessionIndexPool g) (i64 (sUniqueNumber g + 1))).

Definition DeleteSession (sessionID : SessionID) (g : SessionGroup) : option (bool * SessionGroup) :=
  let index := GetIndex sessionID in
  session ← at_index (mSessionVector g) index;
  if decide (slot_id session = sessionID) then Some (true, FreeSession index g)
  else Some (false, g).

(** The session found, or [None] for [nullptr]. *)
Definition GetSession (sessionID : SessionID) (g : SessionGroup) : option (option S) :=
  let index := GetIndex sessionID in
  session ← at_index (mSessionVector g) index;
  Some (if decide (slot_id session = sessionID) then Some session else None).

Fixpoint AddSessions (fds : list SocketFD) (g : SessionGroup) : option (list SessionID * SessionGroup) :=
  match fds with
  | [] => Some ([], g)
  | fd :: fds =>
      '(id, g) ← AddSession fd g;
      '(ids, g) ← AddSessions fds g;
      Some (id :: ids, g)
  end.
End Table.

Arguments SessionGroup : clear implicits.

(** ** Facts on identifiers *)

Lemma shifted_id u : ∃ k, i64 (Z.shiftl u 48) = (wrap 16 u) * 2 ^ 48 ∧ wrap 16 u = u - k * 2 ^ 16.
Proof.
  exists ((u + 2 ^ 15) / 2 ^ 16). rewrite Z.shiftl_mul_pow2 by lia. unfold i64, wrap.
  change (64 - 1) with 63. change (16 - 1) with 15.
  pose proof (Z.div_mod (u + 2 ^ 15) (2 ^ 16)) as H1.
  replace (u * 2 ^ 48 + 2 ^ 63) with ((u + 2 ^ 15) * 2 ^ 48) by lia.
  replace (2 ^ 64) with (2 ^ 16 * 2 ^ 48) by lia.
  rewrite Zmult_mod_distr_r. lia.
Qed.

Lemma land_shiftl_small a i : 0 ≤ i < 65536 → Z.land (Z.shiftl a 48) i = 0.
Proof.
  intros Hi. apply Z.bits_inj'. intros n Hn. rewrite Z.land_spec, Z.bits_0.
  destruct (Z.ltb_spec n 48) as [Hl|Hl]; [by rewrite Z.shiftl_spec_low|].
  replace i with (i mod 2 ^ 16) by (by rewrite Z.mod_small).
  rewrite Z.mod_pow2_bits_high by lia. by rewrite andb_false_r.
Qed.

Lemma make_id_add u i : 0 ≤ i < 65536 → make_id u i = wrap 16 u * 2 ^ 48 + i.
Proof.
  intros Hi. unfold make_id. destruct (shifted_id u) as (k & -> & _).
  rewrite <- Z.shiftl_mul_pow2 by lia. pose proof (land_shiftl_small (wrap 16 u) i Hi) as Hl.
  by rewrite Z.add_nocarry_lxor, Z.lxor_lor.
Qed.

Lemma GetIndex_make_id u i : 0 ≤ i < 65536 → GetIndex (make_id u i) = i.
Proof.
  intros Hi. unfold GetIndex. rewrite make_id_add by done. change sSessionIndexMask with (Z.ones 16).
  rewrite Z.land_ones by lia. replace (wrap 16 u * 2 ^ 48) with (wrap 16 u * 2 ^ 32 * 2 ^ 16) by lia.
  rewrite Z.add_comm, Z_mod_plus_full, Z.mod_small by lia. unwrap. done.
Qed.

Lemma GetUniqueNumber_make_id u i : 0 ≤ i < 65536 → GetUniqueNumber (make_id u i) = wrap 16 u.
Proof.
  intros Hi. unfold GetUniqueNumber. rewrite make_id_add by done.
  change sSessionUnqueMask with (Z.lnot (Z.ones 16)).
  rewrite <- Z.ldiff_land, Z.ldiff_ones_r by lia. rewrite Z.shiftl_mul_pow2, Z.shiftr_div_pow2, Z.shiftr_div_pow2 by lia.
  replace (wrap 16 u * 2 ^ 48 + i) with (i + wrap 16 u * 2 ^ 32 * 2 ^ 16) by lia.
  rewrite Z.div_add, (Z.div_small i) by lia.
  replace ((0 + wrap 16 u * 2 ^ 32) * 2 ^ 16) with (wrap 16 u * 2 ^ 48) by lia.
  by rewrite Z.div_mul by lia.
Qed.

Lemma make_id_eq u u' i i' :
  0 ≤ i < 65536 → 0 ≤ i' < 65536 →
  make_id u i = make_id u' i' ↔ wrap 16 u = wrap 16 u' ∧ i = i'.
Proof.
  intros Hi Hi'. split.
  - intros Heq. split.
    + rewrite <- (GetUniqueNumber_make_id u i), <- (GetUniqueNumber_make_id u' i') by done. by rewrite Heq.
    + rewrite <- (GetIndex_make_id u i), <- (GetIndex_make_id u' i') by done. by rewrite Heq.
  - intros [Hu ->]. rewrite !make_id_add by done. by rewrite Hu.
Qed.

Lemma wrap16_distinct u u' : - 2 ^ 63 ≤ u → u < u' → u' < u + 65536 → wrap 16 u ≠ wrap 16 u'.
Proof.
  intros _ Hlt Hlt' Heq. destruct (shifted_id u) as (k & _ & Hk), (shifted_id u') as (k' & _ & Hk').
  assert (u' - u = (k' - k) * 65536) by lia. nia.
Qed.

(** ** Facts on the table *)

Section Facts.
Context {S : Type} `{SessionSlot S}.
Implicit Types (g : SessionGroup S).

Lemma push_indices_eq n pool : push_indices n pool = seqZ 0 (Z.of_nat n + 1) ++ pool.
Proof.
  revert pool. induction n as [|n IH]; intros pool; [done|].
  cbn [push_indices]. rewrite IH.
  replace (Z.of_nat (Datatypes.S n) + 1) with (Z.of_nat n + 1 + 1) by lia.
  rewrite (seqZ_app 0 (Z.of_nat n + 1) 1), <- app_assoc by lia.
  replace (0 + (Z.of_nat n + 1)) with (Z.of_nat (Datatypes.S n)) by lia. done.
Qed.

Lemma at_index_lookup (v : list S) i s :
  at_index v i = Some s ↔ 0 ≤ i ∧ v !! Z.to_nat i = Some s.
Proof. unfold at_index. destruct (Z.leb_spec 0 i); naive_solver lia. Qed.

Lemma at_index_insert (v : list S) i j s :
  0 ≤ i < Z.of_nat (length v) →
  at_index (<[Z.to_nat i := s]> v) j = if decide (i = j) then Some s else at_index v j.
Proof.
  intros Hi. unfold at_index. case_decide; [subst|].
  - rewrite (proj2 (Z.leb_le 0 j)) by lia. apply list_lookup_insert_eq. lia.
  - destruct (Z.leb_spec 0 j); [|done]. apply list_lookup_insert_ne. lia.
Qed.

(** What [AddSession] does when it does not run off the vector. *)
Lemma AddSession_Some fd g id g' :
  AddSession fd g = Some (id, g') ↔
  ∃ index pool raw, mSessionIndexPool g = index :: pool ∧
    at_index (mSessionVector g) index = Some raw ∧ id = make_id (sUniqueNumber g) index ∧
    g' = mkSessionGroup (mMaxSession g)
           (<[Z.to_nat index := slot_construct id fd raw]> (mSessionVector g)) pool
           (i64 (sUniqueNumber g + 1)).
Proof.
  unfold AddSession, AllocSession. destruct (mSessionIndexPool g) as [|index pool].
  - cbn. split; [done|]. naive_solver.
  - cbn. destruct (at_index _ _) as [raw|] eqn:Hr; cbn; naive_solver.
Qed.

(** [k] sessions added to a table whose free indices are [n], [n + 1], ... *)
Lemma AddSessions_run fds g n :
  mSessionIndexPool g = seqZ n (mMaxSession g + 1 - n) →
  Z.of_nat (length (mSessionVector g)) = mMaxSession g →
  0 ≤ n → n + Z.of_nat (length fds) ≤ mMaxSession g →
  0 ≤ sUniqueNumber g → sUniqueNumber g + Z.of_nat (length fds) < 2 ^ 63 →
  ∃ g', AddSessions fds g =
      Some ((λ k, make_id (sUniqueNumber g + k) (n + k)) <$> seqZ 0 (Z.of_nat (length fds)), g') ∧
    mSessionIndexPool g' = seqZ (n + Z.of_nat (length fds)) (mMaxSession g + 1 - (n + Z.of_nat (length fds))) ∧
    mMaxSession g' = mMaxSession g ∧ length (mSessionVector g') = length (mSessionVector g) ∧
    sUniqueNumber g' = sUniqueNumber g + Z.of_nat (length fds) ∧
    (∀ j, j < n → at_index (mSessionVector g') j = at_index (mSessionVector g) j) ∧
    (∀ k, 0 ≤ k < Z.of_nat (length fds) →
       slot_id <$> at_index (mSessionVector g') (n + k) = Some (make_id (sUniqueNumber g + k) (n + k))).
Proof.
  revert g n. induction fds as [|fd fds IH]; intros g n Hpool Hlen Hn Hmax Hu0 Hu.
  - exists g. cbn in *. rewrite !Z.add_0_r. split_and!; try done. intros; lia.
  - cbn [length] in *. rewrite Nat2Z.inj_succ, <- Z.add_1_l in *.
    assert (mSessionIndexPool g = n :: seqZ (n + 1) (mMaxSession g + 1 - (n + 1))) as Hp.
    { rewrite Hpool. rewrite seqZ_cons by lia. f_equal. f_equal; lia. }
    destruct (at_index (mSessionVector g) n) as [raw|] eqn:Hraw.
    2:{ unfold at_index in Hraw. rewrite (proj2 (Z.leb_le 0 n)) in Hraw by lia.
        apply lookup_ge_None in Hraw. lia. }
    assert (AddSession fd g = Some (make_id (sUniqueNumber g) n,
      mkSessionGroup (mMaxSession g) (<[Z.to_nat n := slot_construct (make_id (sUniqueNumber g) n) fd raw]> (mSessionVector g))
        (seqZ (n + 1) (mMaxSession g + 1 - (n + 1))) (sUniqueNumber g + 1))) as Hadd.
    { apply AddSession_Some. exists n, (seqZ (n + 1) (mMaxSession g + 1 - (n + 1))), raw.
      by rewrite i64_small by lia. }
    cbn [AddSessions]. rewrite Hadd. cbn [mbind option_bind].
    set (g1 := mkSessionGroup _ _ _ _) in *.
    destruct (IH g1 (n + 1)) as (g' & -> & Hp' & Hm' & Hl' & Hu' & Hlow & Hnew); try done; cbn; try lia.
    { by rewrite length_insert. }
    cbn in *. exists g'. split_and!; try done.
    + do 2 f_equal. rewrite (seqZ_cons 0 (1 + Z.of_nat (length fds))) by lia. cbn. rewrite !Z.add_0_r. f_equal.
      replace (Z.pred (1 + Z.of_nat (length fds))) with (Z.of_nat (length fds)) by lia.
      change (Z.succ 0) with (1 + 0). rewrite <- (fmap_add_seqZ 1 0), <- list_fmap_compose.
      apply list_fmap_ext. intros i x _. cbn. f_equal; lia.
    + rewrite Hp'. f_equal; lia.
    + by rewrite Hl', length_insert.
    + lia.
    + intros j Hj. rewrite Hlow by lia. rewrite at_index_insert by lia. by rewrite decide_False by lia.
    + intros k Hk. destruct (decide (k = 0)) as [->|Hne].
      * rewrite !Z.add_0_r. rewrite Hlow, at_index_insert, decide_True by lia || done.
        cbn. by rewrite slot_construct_id.
      * replace (n + k) with (n + 1 + (k - 1)) by lia. rewrite Hnew by lia.
        do 2 f_equal; lia.
Qed.

Lemma GetIndex_range id : 0 ≤ GetIndex id < 65536.
Proof.
  unfold GetIndex. change sSessionIndexMask with (Z.ones 16). rewrite Z.land_ones by lia.
  pose proof (Z.mod_pos_bound id (2 ^ 16)). unwrap. lia.
Qed.

(** [GetSession] and [DeleteSession] by the id in the slot. *)
Lemma GetSession_slot id g s :
  at_index (mSessionVector g) (GetIndex id) = Some s →
  GetSession id g = Some (if decide (slot_id s = id) then Some s else None).
Proof. intros Hs. unfold GetSession. by rewrite Hs. Qed.

Lemma DeleteSession_true id g g' :
  DeleteSession id g = Some (true, g') ↔
  (∃ s, at_index (mSessionVector g) (GetIndex id) = Some s ∧ slot_id s = id) ∧
  g' = FreeSession (GetIndex id) g.
Proof.
  unfold DeleteSession. destruct (at_index _ _) as [s|]; cbn; [|naive_solver].
  case_decide; naive_solver.
Qed.

(** A freed index is the next one allocated. *)
Lemma AddSession_freed fd g i raw :
  at_index (mSessionVector g) i = Some raw →
  let id := make_id (sUniqueNumber g) i in
  AddSession fd (FreeSession i g) =
    Some (id, mkSessionGroup (mMaxSession g) (<[Z.to_nat i := slot_construct id fd raw]> (mSessionVector g))
                (mSessionIndexPool g) (i64 (sUniqueNumber g + 1))).
Proof. intros Hraw. apply AddSession_Some. by exists i, (mSessionIndexPool g), raw. Qed.

Lemma at_index_bound (v : list S) i s : at_index v i = Some s → 0 ≤ i < Z.of_nat (length v).
Proof. intros [? Hl]%at_index_lookup. apply lookup_lt_Some in Hl. lia. Qed.

Lemma at_index_Some (v : list S) i : 0 ≤ i < Z.of_nat (length v) → ∃ s, at_index v i = Some s.
Proof.
  intros Hi. destruct (lookup_lt_is_Some_2 v (Z.to_nat i)) as [s Hs]; [lia|].
  exists s. apply at_index_lookup. split; [lia|done].
Qed.

(** A session just added is found. *)
Lemma AddSession_found fd g id g' :
  AddSession fd g = Some (id, g') → Z.of_nat (length (mSessionVector g)) ≤ 65536 →
  length (mSessionVector g') = length (mSessionVector g) ∧
  ∃ s, GetSession id g' = Some (Some s) ∧ slot_id s = id.
Proof.
  intros (i & pool & raw & Hp & Hraw & -> & ->)%AddSession_Some Hlen; cbn.
  pose proof (at_index_bound _ _ _ Hraw) as Hi. split; [apply length_insert|].
  exists (slot_construct (make_id (sUniqueNumber g) i) fd raw). split; [|apply slot_construct_id].
  rewrite (GetSession_slot _ _ (slot_construct (make_id (sUniqueNumber g) i) fd raw)).
  - rewrite slot_construct_id. by rewrite decide_True.
  - cbn. rewrite GetIndex_make_id, at_index_insert by lia. by rewrite decide_True.
Qed.

Lemma construct_Some maxSessions raw u g :
  construct maxSessions raw u = Some g →
  0 ≤ maxSessions ∧ g = mkSessionGroup maxSessions raw (seqZ 0 (maxSessions + 1)) u ∧
  Z.of_nat (length raw) = maxSessions.
Proof.
  unfold construct. destruct (Z.leb_spec 0 maxSessions), (Z.eqb_spec (Z.of_nat (length raw)) maxSessions);
    try done; intros [= <-]. rewrite push_indices_eq, app_nil_r, Z2Nat.id by lia. done.
Qed.
End Facts.

(** ** A client that keeps to the contract

    It asks for a session only while fewer than [mMaxSession] are live, and
    deletes only live ones, each once.  Its state is the set of live ids. *)

Section Client.
Context {S : Type} `{SessionSlot S}.

Inductive client_step : SessionGroup S * gset SessionID → SessionGroup S * gset SessionID → Prop :=
  | client_add fd g live id g' :
      Z.of_nat (size live) < mMaxSession g → AddSession fd g = Some (id, g') →
      client_step (g, live) (g', {[id]} ∪ live)
  | client_delete id b g live g' :
      id ∈ live → DeleteSession id g = Some (b, g') →
      client_step (g, live) (g', live ∖ {[id]}).

(** [stack]: the free indices that have a slot. *)
Definition table_ok (g : SessionGroup S) (live : gset SessionID) : Prop :=
  ∃ stack, mSessionIndexPool g = stack ++ [mMaxSession g] ∧ NoDup stack ∧
    (∀ i, i ∈ stack → 0 ≤ i < mMaxSession g) ∧ mMaxSession g < 65536 ∧
    Z.of_nat (length (mSessionVector g)) = mMaxSession g ∧
    Z.of_nat (length stack + size live) = mMaxSession g ∧
    (∀ id, id ∈ live → (GetIndex id ∉ stack) ∧
       slot_id <$> at_index (mSessionVector g) (GetIndex id) = Some id).

Lemma table_ok_construct maxSessions raw u g :
  construct maxSessions raw u = Some g → maxSessions < 65536 → table_ok g ∅.
Proof.
  intros (Hm & -> & Hlen)%construct_Some Hmax. exists (seqZ 0 maxSessions). cbn. split_and!; try done.
  - rewrite (seqZ_app 0 maxSessions 1) by lia. by replace (0 + maxSessions) with maxSessions by lia.
  - apply NoDup_seqZ.
  - intros i Hi%elem_of_seqZ. lia.
  - rewrite length_seqZ, size_empty. lia.
Qed.

Lemma table_ok_add fd g live :
  table_ok g live → Z.of_nat (size live) < mMaxSession g →
  ∃ id g', AddSession fd g = Some (id, g') ∧ (id ∉ live) ∧ mMaxSession g' = mMaxSession g ∧
    table_ok g' ({[id]} ∪ live).
Proof.
  intros (stack & Hp & Hnd & Hr & Hmax & Hlen & Hsz & Hlive) Hfull.
  destruct stack as [|i stack]; [cbn in *; lia|]. apply NoDup_cons in Hnd as [Hi Hnd].
  assert (0 ≤ i < mMaxSession g) as Hri by (apply Hr; set_solver).
  destruct (at_index_Some (mSessionVector g) i) as [raw Hraw]; [lia|].
  set (id := make_id (sUniqueNumber g) i).
  assert (GetIndex id = i) as Hid by (apply GetIndex_make_id; lia).
  assert (id ∉ live) as Hfresh by (intros Hin; apply Hlive in Hin as [Hn _]; rewrite Hid in Hn; set_solver).
  exists id. eexists. split; [apply AddSession_Some; by exists i, (stack ++ [mMaxSession g]), raw|].
  split; [done|]. split; [done|]. exists stack. cbn. split_and!; try done; [set_solver| | |].
  - by rewrite length_insert.
  - rewrite size_union, size_singleton by set_solver. cbn in Hsz. lia.
  - intros id' Hin. rewrite at_index_insert by lia.
    destruct (decide (id' = id)) as [->|Hne].
    + rewrite Hid. split; [done|]. rewrite decide_True by done. cbn. by rewrite slot_construct_id.
    + destruct (Hlive id') as [Hn Hs]; [set_solver|].
      split; [set_solver|]. rewrite decide_False; [done|]. set_solver.
Qed.

Lemma table_ok_delete id g live :
  table_ok g live → id ∈ live →
  ∃ g', DeleteSession id g = Some (true, g') ∧ mMaxSession g' = mMaxSession g ∧ table_ok g' (live ∖ {[id]}).
Proof.
  intros (stack & Hp & Hnd & Hr & Hmax & Hlen & Hsz & Hlive) Hin.
  destruct (Hlive id Hin) as [Hn Hs]. apply fmap_Some in Hs as (s & Hs & Hid).
  pose proof (at_index_bound _ _ _ Hs).
  exists (FreeSession (GetIndex id) g). split; [apply DeleteSession_true; naive_solver|].
  split; [done|]. exists (GetIndex id :: stack). cbn. rewrite Hp. split_and!; try done.
  - by apply NoDup_cons.
  - intros i [->|Hi]%elem_of_cons; [lia|by apply Hr].
  - rewrite size_difference, size_singleton by set_solver.
    assert (size live ≠ 0)%nat by (intros Hz%size_empty_inv; set_solver). cbn in *. lia.
  - intros id' Hin'. destruct (Hlive id') as [Hn' Hs']; [set_solver|]. split; [|done].
    intros [Heq|]%elem_of_cons; [|done]. rewrite Heq in Hs'. rewrite Hs in Hs'. cbn in Hs'.
    assert (id' = id) by congruence. set_solver.
Qed.

Lemma table_ok_step x y : client_step x y → table_ok x.1 x.2 → table_ok y.1 y.2.
Proof.
  intros [fd g live id g' Hsz Ha|id b g live g' Hin Hd] Hok; cbn in *.
  - destruct (table_ok_add fd g live Hok Hsz) as (id' & g'' & ? & _ & _ & ?). by simplify_eq.
  - destruct (table_ok_delete id g live Hok Hin) as (g'' & ? & _ & ?). by simplify_eq.
Qed.

Lemma table_ok_reachable maxSessions raw u g0 g live :
  construct maxSessions raw u = Some g0 → maxSessions < 65536 →
  rtc client_step (g0, ∅) (g, live) → table_ok g live ∧ mMaxSession g = maxSessions.
Proof.
  intros Hc Hmax Hr. pose proof (table_ok_construct _ _ _ _ Hc Hmax) as Hok.
  apply construct_Some in Hc as (_ & -> & _).
  assert (∀ x y, rtc client_step x y → table_ok x.1 x.2 →
    table_ok y.1 y.2 ∧ mMaxSession y.1 = mMaxSession x.1) as Hind.
  { induction 1 as [x|x y z Hxy _ IH]; intros Hx; [done|].
    destruct (IH (table_ok_step _ _ Hxy Hx)) as [? ->]. split; [done|].
    destruct Hxy as [fd g1 l1 id g1' Hsz Ha|id b g1 l1 g1' Hin Hd]; cbn in *.
    - destruct (table_ok_add fd g1 l1 Hx Hsz) as (? & ? & ? & _ & ? & _). by simplify_eq.
    - destruct (table_ok_delete id g1 l1 Hx Hin) as (? & ? & ? & _). by simplify_eq. }
  apply (Hind _ _ Hr Hok).
Qed.
End Client.

(** ** Properties *)

Section Properties.
Context {S : Type} `{SessionSlot S}.
Implicit Types (g : SessionGroup S).

(** A session id gives back what it was made from: its slot, and the low
    16 bits of the unique number (as a signed number); and two ids are equal
    exactly when these two are. *)
Theorem id_roundtrip u i u' i' :
  0 ≤ i < 65536 → 0 ≤ i' < 65536 →
  GetIndex (make_id u i) = i ∧ GetUniqueNumber (make_id u i) = wrap 16 u ∧
  (make_id u i = make_id u' i' ↔ u `mod` 2 ^ 16 = u' `mod` 2 ^ 16 ∧ i = i').
Proof.
  intros Hi Hi'. split; [by apply GetIndex_make_id|]. split; [by apply GetUniqueNumber_make_id|].
  rewrite make_id_eq by done. by rewrite wrap_eq_mod by lia.
Qed.

(** A table for [maxSessions] sessions (at most 65535 of them) takes that
    many clients: each [AddSession] gives the next slot and an id of its own,
    and afterwards every id leads to its session. *)
Theorem table_holds_maxSessions maxSessions raw u g fds :
  construct maxSessions raw u = Some g → maxSessions < 65536 →
  Z.of_nat (length fds) ≤ maxSessions → 0 ≤ u → u + maxSessions < 2 ^ 63 →
  ∃ ids g', AddSessions fds g = Some (ids, g') ∧ NoDup ids ∧ length ids = length fds ∧
    ∀ k id, ids !! k = Some id →
      GetIndex id = Z.of_nat k ∧ ∃ s, GetSession id g' = Some (Some s) ∧ slot_id s = id.
Proof.
  intros (Hm & -> & Hlen)%construct_Some Hmax Hfds Hu0 Hu.
  destruct (AddSessions_run fds (mkSessionGroup maxSessions raw (seqZ 0 (maxSessions + 1)) u) 0)
    as (g' & Hadd & _ & _ & _ & _ & _ & Hids); cbn; try lia; [f_equal; lia|].
  cbn in *. eexists _, g'. split; [exact Hadd|].
  assert (∀ k id, ((λ k, make_id (u + k) k) <$> seqZ 0 (Z.of_nat (length fds))) !! k = Some id →
    GetIndex id = Z.of_nat k ∧ id = make_id (u + Z.of_nat k) (Z.of_nat k) ∧ (k < length fds)%nat) as Hk.
  { intros k id (x & -> & [-> Hx]%lookup_seqZ)%list_lookup_fmap_Some.
    rewrite Z.add_0_l, GetIndex_make_id by lia. split_and!; [done|done|lia]. }
  split; [|split].
  - apply NoDup_alt. intros j k id Hj%Hk Hk'%Hk. lia.
  - by rewrite length_fmap, length_seqZ, Nat2Z.id.
  - intros k id (Hi & -> & Hlt)%Hk. split; [done|].
    pose proof (Hids (Z.of_nat k) ltac:(lia)) as Hs. rewrite Z.add_0_l in Hs.
    apply fmap_Some in Hs as (s & Hs & Hid). exists s. split; [|done].
    rewrite (GetSession_slot _ _ s) by (by rewrite Hi). by rewrite decide_True.
Qed.

(** But a table for [maxSessions] sessions has one more index in its pool
    than slots: with [maxSessions] clients connected, the next [AddSession]
    constructs a session past the end of the vector, instead of refusing. *)
Theorem one_too_many_undefined maxSessions raw u g fds fd :
  construct maxSessions raw u = Some g →
  Z.of_nat (length fds) = maxSessions → 0 ≤ u → u + maxSessions < 2 ^ 63 →
  ∃ ids g', AddSessions fds g = Some (ids, g') ∧
    AllocSession g' = (maxSessions, mkSessionGroup maxSessions (mSessionVector g') [] (u + maxSessions)) ∧
    length (mSessionVector g') = Z.to_nat maxSessions ∧ AddSession fd g' = None.
Proof.
  intros (Hm & -> & Hlen)%construct_Some Hfds Hu0 Hu.
  destruct (AddSessions_run fds (mkSessionGroup maxSessions raw (seqZ 0 (maxSessions + 1)) u) 0)
    as (g' & Hadd & Hp & Hm' & Hl & Hu' & _ & _); cbn; try lia; [f_equal; lia|].
  cbn in *. eexists _, g'. split; [exact Hadd|].
  assert (mSessionIndexPool g' = [maxSessions]) as Hpool.
  { rewrite Hp, Hfds. replace (seqZ _ _) with (seqZ maxSessions 1) by (f_equal; lia). done. }
  assert (AllocSession g' = (maxSessions, mkSessionGroup maxSessions (mSessionVector g') [] (u + maxSessions))) as Ha.
  { unfold AllocSession. rewrite Hpool, Hm', Hu', Hfds. done. }
  split; [done|]. split; [lia|]. unfold AddSession. rewrite Ha. cbn.
  unfold at_index. destruct (Z.leb_spec 0 maxSessions); [|done].
  by rewrite lookup_ge_None_2 by lia.
Qed.

(** C12: a client that never asks for more than [maxSessions] live sessions,
    and deletes only live ones, never sees the table go wrong: whatever it did,
    every live id leads to its own session and the live ids have distinct
    slots; it can add a session, with a fresh id, while there is room, and
    delete any live one. *)
Theorem disciplined_client maxSessions raw u g0 g live :
  construct maxSessions raw u = Some g0 → maxSessions < 65536 →
  rtc client_step (g0, ∅) (g, live) →
  (∀ id, id ∈ live → ∃ s, GetSession id g = Some (Some s) ∧ slot_id s = id) ∧
  (∀ id id', id ∈ live → id' ∈ live → GetIndex id = GetIndex id' → id = id') ∧
  (∀ fd, Z.of_nat (size live) < maxSessions → ∃ id g', AddSession fd g = Some (id, g') ∧ id ∉ live) ∧
  (∀ id, id ∈ live → ∃ g', DeleteSession id g = Some (true, g')).
Proof.
  intros Hc Hmax Hr. destruct (table_ok_reachable _ _ _ _ _ _ Hc Hmax Hr) as [Hok Hm].
  assert (∀ id, id ∈ live → ∃ s, at_index (mSessionVector g) (GetIndex id) = Some s ∧ slot_id s = id) as Hslot.
  { destruct Hok as (stack & _ & _ & _ & _ & _ & _ & Hlive). intros id Hin.
    destruct (Hlive id Hin) as [_ (s & ? & ?)%fmap_Some]. by exists s. }
  split; [|split; [|split]].
  - intros id (s & Hs & Hid)%Hslot. exists s. rewrite (GetSession_slot _ _ _ Hs). by rewrite decide_True.
  - intros id id' (s & Hs & Hid)%Hslot (s' & Hs' & Hid')%Hslot Heq. congruence.
  - intros fd Hsz. destruct (table_ok_add fd g live Hok) as (id & g' & ? & ? & _); [lia|]. by exists id, g'.
  - intros id Hin. destruct (table_ok_delete id g live Hok Hin) as (g' & ? & _). by exists g'.
Qed.

(** [DeleteSession] does not retire the id: it is still found, and can be
    deleted again, which frees its slot twice; the next two [AddSession]s then
    share that slot, and the first of the two clients has lost its session. *)
Theorem double_delete_shares_slot id g g' fd1 fd2 :
  DeleteSession id g = Some (true, g') → 0 ≤ sUniqueNumber g < 2 ^ 62 →
  (∃ s, GetSession id g' = Some (Some s)) ∧
  ∃ g'' id1 g1 id2 g2, DeleteSession id g' = Some (true, g'') ∧
    AddSession fd1 g'' = Some (id1, g1) ∧ AddSession fd2 g1 = Some (id2, g2) ∧
    GetIndex id1 = GetIndex id ∧ GetIndex id2 = GetIndex id ∧ id1 ≠ id2 ∧
    GetSession id1 g2 = Some None.
Proof.
  intros [(s & Hs & Hid) ->]%DeleteSession_true Hu. pose proof (GetIndex_range id) as Hr.
  pose proof (at_index_bound _ _ _ Hs) as Hb. split.
  { exists s. rewrite (GetSession_slot _ (FreeSession (GetIndex id) g) s Hs). by rewrite decide_True. }
  set (i := GetIndex id) in *. set (u := sUniqueNumber g) in *.
  assert (make_id u i ≠ make_id (u + 1) i) as Hne.
  { intros [Heq _]%make_id_eq; [|done..]. revert Heq. apply wrap16_distinct; lia. }
  eexists (FreeSession i (FreeSession i g)), (make_id u i), _, (make_id (u + 1) i), _.
  split; [apply DeleteSession_true; by split; [exists s|]|].
  split; [by apply (AddSession_freed fd1 (FreeSession i g) i s)|].
  split.
  { pose (v := <[Z.to_nat i := slot_construct (make_id u i) fd1 s]> (mSessionVector g)).
    pose proof (AddSession_freed fd2 (mkSessionGroup (mMaxSession g) v (mSessionIndexPool g) (u + 1)) i
      (slot_construct (make_id u i) fd1 s)) as Ha. cbn in Ha.
    cbn. unfold u in *. rewrite (i64_small (sUniqueNumber g + 1)) by lia. apply Ha.
    unfold v. rewrite at_index_insert by lia. by rewrite decide_True. }
  rewrite !GetIndex_make_id by done. split_and!; try done.
  rewrite (GetSession_slot _ _ (slot_construct (make_id (u + 1) i) fd2 (slot_construct (make_id u i) fd1 s))).
  - rewrite slot_construct_id. by rewrite decide_False.
  - cbn. rewrite GetIndex_make_id by done. rewrite at_index_insert by len_lia.
    by rewrite decide_True.
Qed.

(** After a slot has been given to a new client, the id of its old one is
    refused, unless the two unique numbers agree modulo 2^16: then the old id
    is the new one's. *)
Theorem stale_id_rejected u0 i g g1 fd id g2 :
  0 ≤ i < 65536 → DeleteSession (make_id u0 i) g = Some (true, g1) →
  AddSession fd g1 = Some (id, g2) →
  GetIndex id = i ∧ ∃ s, GetSession id g2 = Some (Some s) ∧ slot_id s = id ∧
  GetSession (make_id u0 i) g2 =
    Some (if decide (u0 `mod` 2 ^ 16 = sUniqueNumber g `mod` 2 ^ 16) then Some s else None).
Proof.
  intros Hi [(raw & Hraw & _) ->]%DeleteSession_true. rewrite GetIndex_make_id in * by done.
  rewrite (AddSession_freed fd g i raw Hraw). intros [= <- <-].
  pose proof (at_index_bound _ _ _ Hraw).
  set (s := slot_construct (make_id (sUniqueNumber g) i) fd raw). rewrite GetIndex_make_id by done.
  split; [done|]. exists s.
  assert (slot_id s = make_id (sUniqueNumber g) i) as Hid by apply slot_construct_id.
  assert (at_index (<[Z.to_nat i := s]> (mSessionVector g)) i = Some s) as Hat
    by (rewrite at_index_insert by lia; by rewrite decide_True).
  split_and!; [|done|].
  - rewrite (GetSession_slot _ _ s) by (cbn; by rewrite GetIndex_make_id). by rewrite decide_True.
  - rewrite (GetSession_slot _ _ s) by (cbn; by rewrite GetIndex_make_id).
    rewrite Hid. f_equal. apply decide_ext. rewrite make_id_eq, wrap_eq_mod by lia || done. naive_solver.
Qed.
End Properties.

(** *** Witnesses *)

Definition sample_slots (n : nat) : list Session := replicate n (sample_session false []).

(** A table of one slot, before and after its first client. *)
Definition sample_table (pool : list Z) (u : Z) : SessionGroup Session :=
  mkSessionGroup 1 (sample_slots 1) pool u.

Definition sample_used (pool : list Z) : SessionGroup Session :=
  mkSessionGroup 1 [Session_construct 0 3 (sample_session false [])] pool 1.

Lemma id_roundtrip_witness :
  GetIndex (make_id 70000 4999) = 4999 ∧ GetUniqueNumber (make_id 70000 4999) = 4464 ∧
  make_id 70000 4999 = make_id 4464 4999.
Proof.
  destruct (id_roundtrip 70000 4999 4464 4999) as (? & ? & ?); [lia|lia|].
  split_and!; [done|done|]. naive_solver.
Defined.

Lemma table_holds_maxSessions_witness :
  ∃ ids g', AddSessions [3; 4] (mkSessionGroup 2 (sample_slots 2) [0; 1; 2] 0) = Some (ids, g') ∧
    NoDup ids ∧ length ids = 2%nat.
Proof.
  destruct (table_holds_maxSessions 2 (sample_slots 2) 0 (mkSessionGroup 2 (sample_slots 2) [0; 1; 2] 0) [3; 4])
    as (ids & g' & ? & ? & ? & _); [reflexivity|cbn; lia..|]. by exists ids, g'.
Defined.

Lemma one_too_many_undefined_witness :
  ∃ ids g', AddSessions [3] (sample_table [0; 1] 0) = Some (ids, g') ∧ AddSession 4 g' = None.
Proof.
  destruct (one_too_many_undefined 1 (sample_slots 1) 0 (sample_table [0; 1] 0) [3] 4)
    as (ids & g' & ? & _ & _ & ?); [reflexivity|cbn; lia..|]. by exists ids, g'.
Defined.

Lemma disciplined_client_witness :
  (∃ s, GetSession 0 (sample_used [1]) = Some (Some s) ∧ slot_id s = 0) ∧
  (∃ g', DeleteSession 0 (sample_used [1]) = Some (true, g')).
Proof.
  destruct (disciplined_client 1 (sample_slots 1) 0 (sample_table [0; 1] 0) (sample_used [1]) ({[0]} ∪ ∅))
    as (H1 & _ & _ & H2); [reflexivity|lia| |].
  - apply rtc_once, (client_add 3); [by rewrite size_empty|reflexivity].
  - split; [apply H1|apply H2]; set_solver.
Defined.

Lemma double_delete_shares_slot_witness :
  ∃ g'' id1 g1 id2 g2, DeleteSession 0 (sample_used [0; 1]) = Some (true, g'') ∧
    AddSession 4 g'' = Some (id1, g1) ∧ AddSession 5 g1 = Some (id2, g2) ∧
    GetIndex id1 = GetIndex id2 ∧ id1 ≠ id2 ∧ GetSession id1 g2 = Some None.
Proof.
  destruct (double_delete_shares_slot 0 (sample_used [1]) (sample_used [0; 1]) 4 5)
    as (_ & g'' & id1 & g1 & id2 & g2 & ? & ? & ? & ? & ? & ? & ?); [reflexivity|cbn; lia|].
  exists g'', id1, g1, id2, g2. split_and!; congruence || done.
Defined.

Lemma stale_id_rejected_witness :
  ∃ id g2, AddSession 4 (sample_used [0; 1]) = Some (id, g2) ∧ GetSession 0 g2 = Some None.
Proof.
  eexists _, _. split; [reflexivity|].
  destruct (stale_id_rejected 0 0 (sample_used [1]) (sample_used [0; 1]) 4 (2 ^ 48)
    (mkSessionGroup 1 [Session_construct (2 ^ 48) 4 (Session_construct 0 3 (sample_session false []))] [1] 2))
    as (_ & s & _ & _ & H); [lia|reflexivity|reflexivity|exact H].
Defined.
End SessionGroup.
