(* ===== verification/Endpoint.v ===== *)
(** * Endpoints (lib-core, Network/Endpoint.{hpp,cpp})

    The socket address held by an [Endpoint], byte by byte in the layout of
    x86-64 Linux: the family in the host's (little-endian) order at offset 0, the
    port in network order at 2, the IPv4 address at 4, the IPv6 one at 8 after
    [sin6_flowinfo] and before [sin6_scope_id].  The C library's [inet_pton] and
    [inet_ntop] are parameters. *)

From S2P Require Import Prelude System.

Module Endpoint.

Inductive eIPVersion := NONE | IPv4 | IPv6.

#[global] Instance eIPVersion_eq_dec : EqDecision eIPVersion.
Proof. solve_decision. Defined.

Definition AF_UNSPEC : Z := 0.
Definition AF_INET : Z := 2.
Definition AF_INET6 : Z := 10.
Definition sizeof_sockaddr_in : Z := 16.
Definition sizeof_sockaddr_in6 : Z := 28.

(** A [sockaddr_storage]: its bytes. *)
Definition sockaddr : Type := Z → Byte.

(** A [uint16_t] in memory. *)
Definition load16 (m : sockaddr) (o : Z) : Z := m o + 256 * m (o + 1).
Definition store16 (m : sockaddr) (o v : Z) : sockaddr := store m o [u8 v; u8 (Z.shiftr v 8)].

(** Network order: the two bytes swapped. *)
Definition htons (v : Z) : Z := Z.lor (Z.shiftl (u8 v) 8) (u8 (Z.shiftr v 8)).
Definition ntohs (v : Z) : Z := htons v.

Definition sa_family (m : sockaddr) : Z := load16 m 0.

Record Endpoint := mkEndpoint { mAddress : sockaddr }.

(** [memcpy(&mAddress, addr, n)]. *)
Definition copy_address (addr : sockaddr) (n : Z) (raw : sockaddr) : sockaddr := store raw 0 (segment addr 0 n).

(** The copy of a socket address; [raw] is the memory it is built on. *)
Definition of_sockaddr (addr raw : sockaddr) : Endpoint :=
  if sa_family addr =? AF_INET then mkEndpoint (copy_address addr sizeof_sockaddr_in raw)
  else if sa_family addr =? AF_INET6 then mkEndpoint (copy_address addr sizeof_sockaddr_in6 raw)
  else mkEndpoint raw.

Definition GetAddress (e : Endpoint) : sockaddr := mAddress e.

Definition GetIPVersion (e : Endpoint) : eIPVersion :=
  if sa_family (mAddress e) =? AF_INET then IPv4
  else if sa_family (mAddress e) =? AF_INET6 then IPv6
  else NONE.

Definition GetPort (e : Endpoint) : Z :=
  if sa_family (mAddress e) =? AF_INET then ntohs (load16 (mAddress e) 2)
  else if sa_family (mAddress e) =? AF_INET6 then ntohs (load16 (mAddress e) 2)
  else 0.

Section Text.
(** [inet_pton]: [Some] of the bytes stored with the result 1, [None] for any
    other result; [inet_ntop]: the text, [None] for [nullptr]. *)
Context (inet_pton : Z → string → option (list Byte)).
Context (inet_ntop : Z → list Byte → Z → option string).

(** [Endpoint(ipVersion, ipAddress, port)]. *)
Definition of_text (ipVersion : eIPVersion) (ipAddress : string) (port : Z) (raw : sockaddr) : Endpoint :=
  match ipVersion with
  | NONE => mkEndpoint raw
  | IPv4 =>
      match inet_pton AF_INET ipAddress with
      | None => mkEndpoint raw
      | Some bytes => mkEndpoint (store16 (store16 (store raw 4 bytes) 0 AF_INET) 2 (htons port))
      end
  | IPv6 =>
      match inet_pton AF_INET6 ipAddress with
      | None => mkEndpoint raw
      | Some bytes => mkEndpoint (store16 (store16 (store raw 8 bytes) 0 AF_INET6) 2 (htons port))
      end
  end.

(** [static_cast<socklen_t>(n)], an unsigned 32-bit type. *)
Definition socklen (n : Z) : Z := uwrap 32 n.

(** The result, and what is in the buffer when it is 0.  [bufferLen] is a
    [size_t]: [inet_ntop] is given its low 32 bits. *)
Definition GetIPAddressString (bufferLen : Z) (e : Endpoint) : Z * option string :=
  if sa_family (mAddress e) =? AF_INET then
    match inet_ntop AF_INET (segment (mAddress e) 4 4) (socklen bufferLen) with
    | None => (-1, None)
    | Some text => (0, Some text)
    end
  else if sa_family (mAddress e) =? AF_INET6 then
    match inet_ntop AF_INET6 (segment (mAddress e) 8 16) (socklen bufferLen) with
    | None => (-1, None)
    | Some text => (0, Some text)
    end
  else (-1, None).
End Text.

(** ** Facts *)

Definition is_byte (b : Z) : Prop := 0 ≤ b < 256.

Lemma htons_arith v : 0 ≤ v < 65536 → htons v = v `mod` 256 * 256 + v `div` 256.
Proof.
  intros Hv. unfold htons, u8, uwrap. change (2 ^ 8) with 256.
  rewrite Z.shiftr_div_pow2 by lia. change (2 ^ 8) with 256.
  assert (0 ≤ v `div` 256 < 256) as Hd by (split; [apply Z.div_pos; lia|apply Z.div_lt_upper_bound; lia]).
  rewrite (Z.mod_small (v `div` 256)) by lia. rewrite Z.shiftl_mul_pow2 by lia. change (2 ^ 8) with 256.
  rewrite <- Z.lxor_lor, <- Z.add_nocarry_lxor; [done| |].
  all: apply Z.bits_inj'; intros n Hn; rewrite Z.land_spec, Z.bits_0; change 256 with (2 ^ 8).
  all: destruct (Z.ltb_spec n 8) as [Hl|Hl];
    [by rewrite Z.mul_pow2_bits_low|].
  all: rewrite <- (Z.mod_small (v `div` 2 ^ 8) (2 ^ 8)) by (change (2 ^ 8) with 256; lia).
  all: rewrite Z.mod_pow2_bits_high by lia; by rewrite andb_false_r.
Qed.

Lemma htons_range v : 0 ≤ v < 65536 → 0 ≤ htons v < 65536.
Proof.
  intros Hv. rewrite htons_arith by done.
  pose proof (Z.mod_pos_bound v 256). pose proof (Z.div_mod v 256). lia.
Qed.

Lemma ntohs_htons v : 0 ≤ v < 65536 → ntohs (htons v) = v.
Proof.
  intros Hv. unfold ntohs. rewrite (htons_arith (htons v)) by (by apply htons_range).
  rewrite htons_arith by done. pose proof (Z.mod_pos_bound v 256). pose proof (Z.div_mod v 256).
  assert (0 ≤ v `div` 256 < 256) by (split; [apply Z.div_pos; lia|apply Z.div_lt_upper_bound; lia]).
  rewrite (Z.add_comm (_ * 256) (v `div` 256)), Z_mod_plus_full, Z.mod_small by lia.
  rewrite Z.div_add, (Z.div_small (v `div` 256)) by lia. lia.
Qed.

(** Reading what is stored, and around it. *)
Lemma store_in (m : sockaddr) o l i x :
  l !! i = Some x → store m o l (o + Z.of_nat i) = x.
Proof.
  intros Hx. unfold store. rewrite (proj2 (Z.leb_le _ _)) by lia.
  replace (Z.to_nat (o + Z.of_nat i - o)) with i by lia. by rewrite Hx.
Qed.

Lemma store_out (m : sockaddr) o l i :
  i < o ∨ o + Z.of_nat (length l) ≤ i → store m o l i = m i.
Proof.
  intros Hi. unfold store. destruct (Z.leb_spec o i); [|done]. by rewrite lookup_ge_None_2 by lia.
Qed.

Lemma load16_store16 m o v : 0 ≤ v < 65536 → load16 (store16 m o v) o = v.
Proof.
  intros Hv. unfold load16, store16.
  rewrite (store_in m o _ 1 (u8 (Z.shiftr v 8))) by done.
  pose proof (store_in m o [u8 v; u8 (Z.shiftr v 8)] 0 (u8 v) eq_refl) as H0.
  rewrite Z.add_0_r in H0. rewrite H0. unfold u8, uwrap. change (2 ^ 8) with 256.
  rewrite Z.shiftr_div_pow2 by lia. change (2 ^ 8) with 256.
  assert (0 ≤ v `div` 256 < 256) by (split; [apply Z.div_pos; lia|apply Z.div_lt_upper_bound; lia]).
  rewrite (Z.mod_small (v `div` 256)) by lia. pose proof (Z.div_mod v 256). lia.
Qed.

Lemma load16_store_other m o l o' :
  o' + 2 ≤ o ∨ o + Z.of_nat (length l) ≤ o' → load16 (store m o l) o' = load16 m o'.
Proof. intros Hd. unfold load16. by rewrite !store_out by lia. Qed.

Lemma load16_copy addr n raw o :
  0 ≤ o → o + 2 ≤ n → load16 (copy_address addr n raw) o = load16 addr o.
Proof.
  intros Ho Hn. unfold load16, copy_address.
  assert (∀ i, 0 ≤ i < n → store raw 0 (segment addr 0 n) i = addr i) as Hin.
  { intros i Hi. pose proof (store_in raw 0 (segment addr 0 n) (Z.to_nat i) (addr i)) as Hs.
    replace (0 + Z.of_nat (Z.to_nat i)) with i in Hs by lia. apply Hs.
    rewrite lookup_segment by lia. do 2 f_equal. lia. }
  by rewrite !Hin by lia.
Qed.

Lemma segment_copy addr n raw o k :
  0 ≤ o → o + k ≤ n → segment (copy_address addr n raw) o k = segment addr o k.
Proof.
  intros Ho Hn. apply segment_ext. intros i Hi. unfold copy_address.
  pose proof (store_in raw 0 (segment addr 0 n) (Z.to_nat i) (addr i)) as Hs.
  replace (0 + Z.of_nat (Z.to_nat i)) with i in Hs by lia. apply Hs.
  rewrite lookup_segment by lia. do 2 f_equal. lia.
Qed.

(** ** Properties *)

(** The family, and the place and size of the address, of each version. *)
Definition family (v : eIPVersion) : Z :=
  match v with NONE => AF_UNSPEC | IPv4 => AF_INET | IPv6 => AF_INET6 end.
Definition address_offset (v : eIPVersion) : Z := match v with IPv6 => 8 | _ => 4 end.
Definition address_size (v : eIPVersion) : Z := match v with NONE => 0 | IPv4 => 4 | IPv6 => 16 end.

Section Properties.
Context (inet_pton : Z → string → option (list Byte)).
Context (inet_ntop : Z → list Byte → Z → option string).

(** Documented of [inet_pton]: it stores a whole address. *)
Definition pton_size : Prop :=
  ∀ v text bytes, inet_pton (family v) text = Some bytes → Z.of_nat (length bytes) = address_size v.

(** What an endpoint of version [v] looks like. *)
Definition is_endpoint (e : Endpoint) (v : eIPVersion) (bytes : list Byte) (port : Z) : Prop :=
  sa_family (mAddress e) = family v ∧ load16 (mAddress e) 2 = htons port ∧
  segment (mAddress e) (address_offset v) (address_size v) = bytes.

Lemma is_endpoint_queries e v bytes port :
  is_endpoint e v bytes port → v ≠ NONE → 0 ≤ port < 65536 →
  GetIPVersion e = v ∧ GetPort e = port ∧
  ∀ n, GetIPAddressString inet_ntop n e =
    match inet_ntop (family v) bytes (socklen n) with Some text => (0, Some text) | None => (-1, None) end.
Proof.
  intros (Hf & Hp & Hb) Hv Hport. unfold GetIPVersion, GetPort, GetIPAddressString.
  rewrite Hf, Hp, (ntohs_htons port) by done. destruct v; [done|..]; cbn in *; rewrite Hb.
  - split_and!; [done|done|]. intros n. by destruct (inet_ntop _ _ _).
  - split_and!; [done|done|]. intros n. by destruct (inet_ntop _ _ _).
Qed.

Lemma of_text_is_endpoint v text port raw bytes :
  pton_size → v ≠ NONE → 0 ≤ port < 65536 → inet_pton (family v) text = Some bytes →
  is_endpoint (of_text inet_pton v text port raw) v bytes port.
Proof.
  intros Hsize Hv Hport Ht. pose proof (Hsize v text bytes Ht) as Hlen.
  pose proof (htons_range port Hport) as Hr.
  assert (∀ (m : sockaddr) f, 0 ≤ f < 65536 → sa_family (store16 (store16 m 0 f) 2 (htons port)) = f) as Hf.
  { intros m f Hf. unfold sa_family. unfold store16 at 1. rewrite load16_store_other by (cbn; lia).
    by apply load16_store16. }
  assert (∀ (m : sockaddr) f o k, 4 ≤ o →
    segment (store16 (store16 m 0 f) 2 (htons port)) o k = segment m o k) as Hs.
  { intros m f o k Ho. unfold store16. rewrite !segment_store_disjoint by (cbn; lia). done. }
  unfold is_endpoint, of_text. destruct v; [done|..]; cbn in *; rewrite Ht; cbn.
  - rewrite Hf, Hs, load16_store16 by done || lia. by rewrite segment_store' by lia.
  - rewrite Hf, Hs, load16_store16 by done || lia. by rewrite segment_store' by lia.
Qed.

Lemma of_sockaddr_is_endpoint e raw v bytes port :
  is_endpoint e v bytes port → v ≠ NONE → is_endpoint (of_sockaddr (GetAddress e) raw) v bytes port.
Proof.
  intros (Hf & Hp & Hb) Hv. unfold is_endpoint, of_sockaddr, GetAddress, sa_family in *. rewrite Hf.
  unfold sizeof_sockaddr_in, sizeof_sockaddr_in6. destruct v; [done|..]; cbn in *.
  - rewrite !load16_copy, segment_copy by lia. done.
  - rewrite !load16_copy, segment_copy by lia. done.
Qed.

(** C33: an endpoint made from a version, a text [inet_pton] accepts and a port
    answers with the same version and port, and prints the address [inet_pton]
    gave as [inet_ntop] does in a buffer of the length given taken to 32 bits
    (so a buffer of 4 GiB is one of no bytes); and so does the copy of its socket address, whatever memory either
    was built on: the port survives the two changes of byte order. *)
Theorem endpoint_roundtrip v text port bytes raw raw' n :
  pton_size → v ≠ NONE → 0 ≤ port < 65536 → inet_pton (family v) text = Some bytes →
  let e := of_text inet_pton v text port raw in
  let e' := of_sockaddr (GetAddress e) raw' in
  (GetIPVersion e = v ∧ GetPort e = port) ∧ (GetIPVersion e' = v ∧ GetPort e' = port) ∧
  GetIPAddressString inet_ntop n e' = GetIPAddressString inet_ntop n e ∧
  GetIPAddressString inet_ntop n e =
    match inet_ntop (family v) bytes (socklen n) with Some text => (0, Some text) | None => (-1, None) end ∧
  (0 ≤ n < 2 ^ 32 → socklen n = n) ∧ socklen (2 ^ 32 + n) = socklen n.
Proof.
  intros Hsize Hv Hport Ht e e'.
  pose proof (of_text_is_endpoint v text port raw bytes Hsize Hv Hport Ht) as He.
  pose proof (of_sockaddr_is_endpoint e raw' v bytes port He Hv) as He'.
  destruct (is_endpoint_queries _ _ _ _ He Hv Hport) as (? & ? & Hn).
  destruct (is_endpoint_queries _ _ _ _ He' Hv Hport) as (? & ? & Hn').
  unfold e', e in *. rewrite Hn', Hn. split_and!; [done|done|done|done|done|done|..].
  - intros Hn32. unfold socklen, uwrap. by apply Z.mod_small.
  - unfold socklen, uwrap. by rewrite Z.add_comm, <- (Z.mul_1_l (2 ^ 32)) at 1; rewrite Z_mod_plus_full.
Qed.

(** The constructors do not initialise the address: given a text that is
    not accepted, or a socket address of another family, the endpoint is what
    its memory held, so on the memory of an earlier endpoint it is that
    endpoint; and a good IPv6 one keeps the memory's flow label and scope. *)
Theorem constructors_leave_memory v text text6 port bytes e0 addr :
  pton_size → inet_pton (family v) text = None → inet_pton AF_INET6 text6 = Some bytes →
  sa_family addr ≠ AF_INET → sa_family addr ≠ AF_INET6 →
  of_text inet_pton v text port (mAddress e0) = e0 ∧ of_sockaddr addr (mAddress e0) = e0 ∧
  let e := of_text inet_pton IPv6 text6 port (mAddress e0) in
  segment (mAddress e) 4 4 = segment (mAddress e0) 4 4 ∧
  segment (mAddress e) 24 4 = segment (mAddress e0) 24 4.
Proof.
  intros Hsize Hv Ht Hf4 Hf6. split; [|split].
  - unfold of_text. destruct v; cbn in Hv; rewrite ?Hv; by destruct e0.
  - unfold of_sockaddr. rewrite (proj2 (Z.eqb_neq _ _) Hf4), (proj2 (Z.eqb_neq _ _) Hf6). by destruct e0.
  - pose proof (Hsize IPv6 text6 bytes Ht) as Hlen. cbn in *. rewrite Ht. cbn. unfold store16.
    by rewrite !segment_store_disjoint by (cbn; lia).
Qed.
End Properties.

(** *** Witnesses *)

(** A resolver that knows one address of each family. *)
Definition sample_pton (af : Z) (text : string) : option (list Byte) :=
  if (af =? AF_INET) && bool_decide (text = "127.0.0.1"%string) then Some [127; 0; 0; 1]
  else if (af =? AF_INET6) && bool_decide (text = "::1"%string) then Some (replicate 15 0 ++ [1])
  else None.

Definition sample_ntop (af : Z) (bytes : list Byte) (len : Z) : option string :=
  if bool_decide (bytes = [127; 0; 0; 1]) && (10 <=? len) then Some "127.0.0.1"%string else None.

Lemma sample_pton_size : pton_size sample_pton.
Proof.
  intros v text bytes. unfold sample_pton.
  destruct v; cbn; repeat case_bool_decide; intros; by simplify_eq.
Qed.

Lemma endpoint_roundtrip_witness :
  let e := of_text sample_pton IPv4 "127.0.0.1" 7799 (λ _, 170) in
  GetIPVersion e = IPv4 ∧ GetPort e = 7799 ∧
  GetIPAddressString sample_ntop 30 e = (0, Some "127.0.0.1"%string) ∧
  GetIPAddressString sample_ntop (2 ^ 32 + 5) e = (-1, None).
Proof.
  destruct (endpoint_roundtrip sample_pton sample_ntop IPv4 "127.0.0.1" 7799 [127; 0; 0; 1]
    (λ _, 170) (λ _, 85) 30) as ([? ?] & _ & _ & ? & _); [apply sample_pton_size|done|lia|done|].
  destruct (endpoint_roundtrip sample_pton sample_ntop IPv4 "127.0.0.1" 7799 [127; 0; 0; 1]
    (λ _, 170) (λ _, 85) (2 ^ 32 + 5)) as (_ & _ & _ & ? & _); [apply sample_pton_size|done|lia|done|done].
Defined.

Lemma constructors_leave_memory_witness :
  of_text sample_pton IPv4 "localhost" 80 (λ _, 170) = mkEndpoint (λ _, 170).
Proof.
  by apply (constructors_leave_memory sample_pton IPv4 "localhost" "::1" 80 (replicate 15 0 ++ [1])
    (mkEndpoint (λ _, 170)) (λ _, 0)); [apply sample_pton_size|..].
Defined.
End Endpoint.
