(* ===== verification/Server.v ===== *)
(** * The server (lib-core, Server.{hpp,cpp} and the jobs of
    ServerJob.{hpp,cpp} that belong to it)

    [Server] puts the worker pool, the session table and the two epolls
    together; [PollJob] moves readiness events to the pool and [AcceptJob] takes
    clients in.  The server is generic in the pool: [JobPool] states what it uses
    of one, and the pool of WorkerThreadPool.v provides it. *)

From S2P Require Import Prelude System RecvBuffer Session SessionGroup Endpoint WorkerThreadPool.

Import SessionGroup.

(** ** The worker pool, as the server sees it

    [waiting] is the queue of the jobs no worker has taken yet; [accepting], that
    [AddJob] returns.  [pool_stop] is entering [Stop]: what it waits for then is
    in WorkerThreadPool.v. *)
Class JobPool (P : Type) := {
  pool_start : nat → P;
  pool_add : JobPtr → P → option P;
  pool_stop : P → option P;
  waiting : P → list JobPtr;
  accepting : P → Prop;
  waiting_start n : waiting (pool_start n) = [];
  accepting_start n : accepting (pool_start n);
  pool_add_spec j p :
    accepting p → ∃ p', pool_add j p = Some p' ∧ accepting p' ∧ waiting p' = waiting p ++ [j]
}.

(** *** The worker pool provides it *)

Module PoolInstance.
Import WorkerThreadPool.

(** The steps of one caller in [AddJob], uninterrupted, until it returns: at
    most four. *)
Fixpoint finish_AddJob (fuel : nat) (p : Pool JobPtr) : option (Pool JobPtr) :=
  match fuel with
  | O => None
  | S fuel =>
      match adders p !! 0%nat with
      | Some NotAdding => Some p
      | _ => p' ← exec (Add 0) p; finish_AddJob fuel p'
      end
  end.

Definition AddJob_call (job : JobPtr) (p : Pool JobPtr) : option (Pool JobPtr) :=
  p' ← exec (CallAddJob 0 job) p; finish_AddJob 5 p'.

Definition ready (p : Pool JobPtr) : Prop :=
  adders p !! 0%nat = Some NotAdding ∧ NoDup (mIdleThreads p) ∧
  ∀ c, c ∈ mIdleThreads p → ∃ n, mEventFDs p !! c = Some n ∧ n < 2 ^ 64 - 2.

Lemma ready_start n : ready (Start n 1).
Proof. split; [done|]. cbn. split; [constructor|set_solver]. Qed.

Lemma finish_step fuel (p : Pool JobPtr) a p' :
  adders p !! 0%nat = Some a → a ≠ NotAdding → exec (Add 0) p = Some p' →
  finish_AddJob (S fuel) p = finish_AddJob fuel p'.
Proof. intros Ha Hne He. cbn [finish_AddJob]. rewrite Ha, He. by destruct a. Qed.

Lemma finish_done fuel (p : Pool JobPtr) : adders p !! 0%nat = Some NotAdding → finish_AddJob (S fuel) p = Some p.
Proof. intros Ha. cbn [finish_AddJob]. by rewrite Ha. Qed.

Lemma exec_Add (p : Pool JobPtr) a : adders p !! 0%nat = Some a →
  exec (Add 0) p =
    match a with
    | AtPush job => Some (set_adder 0 AtEmptyTest (PushJob job p))
    | AtEmptyTest => Some (set_adder 0 (match mIdleThreads p with [] => NotAdding | _ => AtTop end) p)
    | AtTop =>
        match mIdleThreads p with
        | [] => Some (set_adder 0 Undefined p)
        | context :: rest => Some (set_adder 0 (AtWrite context) (set_idle rest p))
        end
    | AtWrite context => set_adder 0 NotAdding <$> eventfd_write context p
    | NotAdding | Undefined => None
    end.
Proof. intros Ha. unfold exec, AddJob. by rewrite Ha. Qed.

Lemma adder_set (p : Pool JobPtr) a a0 : adders p !! 0%nat = Some a0 → adders (set_adder 0 a p) !! 0%nat = Some a.
Proof. intros Ha. apply list_lookup_insert_eq. by eapply lookup_lt_Some. Qed.

Lemma AddJob_call_spec j (p : Pool JobPtr) :
  ready p → ∃ p', AddJob_call j p = Some p' ∧ ready p' ∧ mJobQueue p' = mJobQueue p ++ [j].
Proof.
  intros (Ha & Hnd & Hev). unfold AddJob_call.
  replace (exec (CallAddJob 0 j) p) with (Some (set_adder 0 (AtPush j) p)) by (cbn; by rewrite Ha).
  cbn [mbind option_bind]. set (p1 := set_adder 0 (AtPush j) p).
  assert (adders p1 !! 0%nat = Some (AtPush j)) as H1 by (by eapply adder_set).
  set (p2 := set_adder 0 AtEmptyTest (PushJob j p1)).
  assert (adders p2 !! 0%nat = Some AtEmptyTest) as H2 by (by eapply (adder_set (PushJob j p1))).
  rewrite (finish_step _ p1 _ p2 H1) by (done || by rewrite (exec_Add _ _ H1)).
  assert (mIdleThreads p2 = mIdleThreads p) as Hi2 by done.
  destruct (mIdleThreads p) as [|c idle] eqn:Hidle.
  - set (p3 := set_adder 0 NotAdding p2).
    assert (adders p3 !! 0%nat = Some NotAdding) as H3 by (by eapply adder_set).
    assert (exec (Add 0) p2 = Some p3) as E2 by (by rewrite (exec_Add _ _ H2), Hi2).
    rewrite (finish_step _ p2 _ p3 H2) by done. rewrite finish_done by done.
    exists p3. split; [done|]. split; [|done]. split; [done|]. cbn. rewrite Hidle. split; [constructor|set_solver].
  - destruct (Hev c) as (n & Hn & Hlt); [set_solver|].
    set (p3 := set_adder 0 AtTop p2).
    assert (adders p3 !! 0%nat = Some AtTop) as H3 by (by eapply adder_set).
    assert (exec (Add 0) p2 = Some p3) as E2 by (by rewrite (exec_Add _ _ H2), Hi2).
    rewrite (finish_step _ p2 _ p3 H2) by done.
    set (p4 := set_adder 0 (AtWrite c) (set_idle idle p3)).
    assert (adders p4 !! 0%nat = Some (AtWrite c)) as H4 by (by eapply (adder_set (set_idle idle p3))).
    assert (mIdleThreads p3 = c :: idle) as Hi3 by done.
    assert (exec (Add 0) p3 = Some p4) as E3 by (by rewrite (exec_Add _ _ H3), Hi3).
    rewrite (finish_step _ p3 _ p4 H3) by done.
    set (p5 := set_adder 0 NotAdding (set_event c (n + 1) p4)).
    assert (adders p5 !! 0%nat = Some NotAdding) as H5 by (by eapply (adder_set (set_event c (n + 1) p4))).
    assert (eventfd_write c p4 = Some (set_event c (n + 1) p4)) as Hw
      by (apply eventfd_write_Some; by exists n).
    assert (exec (Add 0) p4 = Some p5) as E4 by (by rewrite (exec_Add _ _ H4), Hw).
    rewrite (finish_step _ p4 _ p5 H4) by done. rewrite finish_done by done.
    exists p5. split; [done|]. split; [|done]. apply NoDup_cons in Hnd as [Hc Hnd].
    split; [done|]. split; [done|]. intros c' Hc'. change (mIdleThreads p5) with idle in Hc'.
    destruct (Hev c') as (n' & Hn' & Hlt'); [set_solver|]. exists n'. split; [|done].
    change (mEventFDs p5) with (<[c := n + 1]> (mEventFDs p)). rewrite list_lookup_insert_ne by set_solver. done.
Qed.
End PoolInstance.

#[export, refine] Instance WorkerThreadPool_pool : JobPool (WorkerThreadPool.Pool JobPtr) := {
  pool_start n := WorkerThreadPool.Start n 1;
  pool_add := PoolInstance.AddJob_call;
  pool_stop := WorkerThreadPool.exec WorkerThreadPool.DoStop;
  waiting := WorkerThreadPool.mJobQueue;
  accepting := PoolInstance.ready
}.
Proof. - done. - apply PoolInstance.ready_start. - apply PoolInstance.AddJob_call_spec. Defined.

(** ** The server and its world *)

Module Server.

Section Definitions.
Context {P : Type} `{JobPool P}.

(** A pointer member: no value until something assigns it one. *)
Inductive Pointer := Indeterminate | Null | To (job : JobPtr).

Record Server := mkServer {
  mListenFD : SocketFD;
  mEpollFD : Z;
  mSendPollFD : Z;
  mIsRunning : bool;
  mWorkerThreadPool : option P;
  mSessionGroup : option (SessionGroup Session);
  mPollJob : Pointer;
  mAcceptJob : Pointer
}.

(** What a call whose result the code uses answers; a failure is -1. *)
Inductive SysResult := Ret (n : Z) | Failed (e : Errno).
Inductive WaitAnswer := Ready (ptrs : list JobPtr) | WaitError (e : Errno).
Inductive AcceptAnswer := Accepted (fd : SocketFD) (address : Endpoint.sockaddr) | AcceptError (e : Errno).

Definition value (r : SysResult) : Z := match r with Ret n => n | Failed _ => -1 end.

(** The server, the system, the answers to come, the addresses of the receive
    buffers of the slots, the memory the next session vector will get, and the
    counter of SessionGroup.cpp while there is no table. *)
Record ServerWorld := mkServerWorld {
  server : Server;
  sys : OS;
  results : list SysResult;
  waits : list WaitAnswer;
  accepts : list AcceptAnswer;
  slot_address : Z → Z;
  fresh_slots : list Session;
  idle_unique : Z
}.

Definition set_server (s : Server) (w : ServerWorld) : ServerWorld :=
  mkServerWorld s (sys w) (results w) (waits w) (accepts w) (slot_address w) (fresh_slots w) (idle_unique w).

Definition set_sys (o : OS) (w : ServerWorld) : ServerWorld :=
  mkServerWorld (server w) o (results w) (waits w) (accepts w) (slot_address w) (fresh_slots w) (idle_unique w).

Definition set_results (l : list SysResult) (w : ServerWorld) : ServerWorld :=
  mkServerWorld (server w) (sys w) l (waits w) (accepts w) (slot_address w) (fresh_slots w) (idle_unique w).

Definition set_waits (l : list WaitAnswer) (w : ServerWorld) : ServerWorld :=
  mkServerWorld (server w) (sys w) (results w) l (accepts w) (slot_address w) (fresh_slots w) (idle_unique w).

Definition set_accepts (l : list AcceptAnswer) (w : ServerWorld) : ServerWorld :=
  mkServerWorld (server w) (sys w) (results w) (waits w) l (slot_address w) (fresh_slots w) (idle_unique w).

Definition set_idle_unique (u : Z) (w : ServerWorld) : ServerWorld :=
  mkServerWorld (server w) (sys w) (results w) (waits w) (accepts w) (slot_address w) (fresh_slots w) u.

(** *** Assignments to the members *)

Definition set_listen_fd (fd : SocketFD) (s : Server) : Server :=
  mkServer fd (mEpollFD s) (mSendPollFD s) (mIsRunning s) (mWorkerThreadPool s) (mSessionGroup s) (mPollJob s) (mAcceptJob s).
Definition set_epoll_fd (fd : Z) (s : Server) : Server :=
  mkServer (mListenFD s) fd (mSendPollFD s) (mIsRunning s) (mWorkerThreadPool s) (mSessionGroup s) (mPollJob s) (mAcceptJob s).
Definition set_send_poll_fd (fd : Z) (s : Server) : Server :=
  mkServer (mListenFD s) (mEpollFD s) fd (mIsRunning s) (mWorkerThreadPool s) (mSessionGroup s) (mPollJob s) (mAcceptJob s).
Definition set_running (b : bool) (s : Server) : Server :=
  mkServer (mListenFD s) (mEpollFD s) (mSendPollFD s) b (mWorkerThreadPool s) (mSessionGroup s) (mPollJob s) (mAcceptJob s).
Definition set_pool (p : option P) (s : Server) : Server :=
  mkServer (mListenFD s) (mEpollFD s) (mSendPollFD s) (mIsRunning s) p (mSessionGroup s) (mPollJob s) (mAcceptJob s).
Definition set_group (g : option (SessionGroup Session)) (s : Server) : Server :=
  mkServer (mListenFD s) (mEpollFD s) (mSendPollFD s) (mIsRunning s) (mWorkerThreadPool s) g (mPollJob s) (mAcceptJob s).
Definition set_poll_job (p : Pointer) (s : Server) : Server :=
  mkServer (mListenFD s) (mEpollFD s) (mSendPollFD s) (mIsRunning s) (mWorkerThreadPool s) (mSessionGroup s) p (mAcceptJob s).
Definition set_accept_job (p : Pointer) (s : Server) : Server :=
  mkServer (mListenFD s) (mEpollFD s) (mSendPollFD s) (mIsRunning s) (mWorkerThreadPool s) (mSessionGroup s) (mPollJob s) p.

Definition this {A} (f : Server → A) : M ServerWorld A := gets (λ w, f (server w)).
Definition assign (f : Server → Server) : M ServerWorld unit := modify (λ w, set_server (f (server w)) w).

(** *** System calls *)

(** A call whose result is dropped. *)
Definition sys_ (c : Call) : M ServerWorld unit := modify (λ w, set_sys (log_call c (sys w)) w).

Definition sys_result (c : Call) : M ServerWorld SysResult :=
  sys_ c;;
  l ← gets results;
  match l with [] => undefined | r :: rest => modify (set_results rest);; mret r end.

(** It gives at most [maxevents] events. *)
Definition epoll_wait (epfd : Z) (maxevents : nat) : M ServerWorld WaitAnswer :=
  sys_ (CallEpollWait epfd);;
  l ← gets waits;
  match l with
  | [] => undefined
  | Ready ptrs :: rest =>
      if decide (length ptrs ≤ maxevents)%nat
      then modify (set_waits rest);; mret (Ready ptrs)
      else undefined
  | a :: rest => modify (set_waits rest);; mret a
  end.

Definition accept (fd : SocketFD) : M ServerWorld AcceptAnswer :=
  sys_ (CallAccept fd);;
  l ← gets accepts;
  match l with [] => undefined | a :: rest => modify (set_accepts rest);; mret a end.

Definition O_NONBLOCK : Z := 0x800.
Definition SOL_SOCKET : Z := 1.
Definition SO_REUSEADDR : Z := 2.
Definition TCP_NODELAY : Z := 1.

Definition set_nonblocking (fd : SocketFD) : M ServerWorld unit :=
  flags ← sys_result (CallFcntlGet fd);
  sys_ (CallFcntlSet fd (Z.lor (value flags) O_NONBLOCK)).

Definition receive_events : Z := Z.lor (Z.lor EPOLLIN EPOLLONESHOT) EPOLLET.

(** ** Server.cpp *)

(** The members without initialiser keep what the memory [raw] holds. *)
Definition Server_construct (raw : Server) : Server :=
  mkServer sINVALID_SOCKET_FD (mEpollFD raw) (mSendPollFD raw) false None None Indeterminate Indeterminate.

Definition CreateListenSocket (serverEndpoint : Endpoint.Endpoint) : M ServerWorld SocketFD :=
  let version := Endpoint.GetIPVersion serverEndpoint in
  r ← sys_result (CallSocket (if decide (version = Endpoint.IPv4) then Endpoint.AF_INET else Endpoint.AF_INET6));
  let listenFD := value r in
  if decide (listenFD = sINVALID_SOCKET_FD) then mret sINVALID_SOCKET_FD
  else
    r ← sys_result (CallSetSockOpt listenFD SOL_SOCKET SO_REUSEADDR);
    if value r <? 0 then sys_ (CallClose listenFD);; mret sINVALID_SOCKET_FD
    else
      set_nonblocking listenFD;;
      r ← sys_result (CallBind listenFD
            (if decide (version = Endpoint.IPv4) then Endpoint.sizeof_sockaddr_in else Endpoint.sizeof_sockaddr_in6));
      if value r <? 0 then sys_ (CallClose listenFD);; mret sINVALID_SOCKET_FD
      else
        r ← sys_result (CallListen listenFD);
        if value r <? 0 then sys_ (CallClose listenFD);; mret sINVALID_SOCKET_FD
        else mret listenFD.

Definition AddJob (job : JobPtr) : M ServerWorld unit :=
  pool ← this mWorkerThreadPool;
  match pool with
  | None => undefined
  | Some p =>
      match pool_add job p with
      | None => undefined
      | Some p' => assign (set_pool (Some p'))
      end
  end.

Definition unique_number : M ServerWorld Z :=
  gets (λ w, match mSessionGroup (server w) with Some g => sUniqueNumber g | None => idle_unique w end).

Definition new_SessionGroup (maxSessions : Z) : M ServerWorld (SessionGroup Session) :=
  unique ← unique_number;
  raw ← gets fresh_slots;
  match construct maxSessions raw unique with
  | None => undefined
  | Some g => mret g
  end.

Definition Start (serverEndpoint : Endpoint.Endpoint) (workerThreadCount : nat) : M ServerWorld bool :=
  r ← sys_result CallEpollCreate;
  assign (set_epoll_fd (value r));;
  if decide (value r = sINVALID_ID) then sys_ CallPrintln;; mret false
  else
    r ← sys_result CallEpollCreate;
    assign (set_send_poll_fd (value r));;
    if decide (value r = sINVALID_ID) then sys_ CallPrintln;; mret false
    else
      sessionGroup ← new_SessionGroup 5000;
      assign (set_group (Some sessionGroup));;
      assign (set_pool (Some (pool_start workerThreadCount)));;
      listenFD ← CreateListenSocket serverEndpoint;
      assign (set_listen_fd listenFD);;
      assign (set_running true);;
      assign (set_poll_job (To JobPoll));;
      AddJob JobPoll;;
      assign (set_accept_job (To JobAccept));;
      s ← this id;
      sys_ (CallEpollCtl (mEpollFD s) EPOLL_CTL_ADD (mListenFD s) JobAccept receive_events);;
      mret true.

Definition CloseListenSocket : M ServerWorld unit :=
  fd ← this mListenFD;
  if decide (fd = sINVALID_SOCKET_FD) then mret tt
  else sys_ (CallClose fd);; assign (set_listen_fd sINVALID_SOCKET_FD).

Definition Stop : M ServerWorld unit :=
  running ← this mIsRunning;
  if negb running then mret tt
  else
    CloseListenSocket;;
    assign (set_running false);;
    fd ← this mListenFD;
    (if decide (fd = sINVALID_SOCKET_FD) then mret tt
     else sys_ (CallClose fd);; assign (set_listen_fd sINVALID_SOCKET_FD));;
    fd ← this mEpollFD;
    (if decide (fd = sINVALID_ID) then mret tt
     else sys_ (CallClose fd);; assign (set_epoll_fd sINVALID_ID));;
    fd ← this mSendPollFD;
    (if decide (fd = sINVALID_ID) then mret tt
     else sys_ (CallClose fd);; assign (set_send_poll_fd sINVALID_ID));;
    pool ← this mWorkerThreadPool;
    match pool ≫= pool_stop with
    | None => undefined
    | Some p' => assign (set_pool (Some p'))
    end.

(** [if (p != nullptr) { delete p; p = nullptr; }]: undefined on a pointer
    without a value. *)
Definition delete_pointer (get : Server → Pointer) (set : Pointer → Server → Server) : M ServerWorld unit :=
  p ← this get;
  match p with
  | Indeterminate => undefined
  | Null => mret tt
  | To _ => assign (set Null)
  end.

Definition Server_destroy : M ServerWorld unit :=
  Stop;;
  delete_pointer mPollJob set_poll_job;;
  delete_pointer mAcceptJob set_accept_job;;
  assign (set_pool None);;
  u ← unique_number;
  modify (set_idle_unique u);;
  assign (set_group None).

Definition AddSession (clientFD : SocketFD) : M ServerWorld SessionID :=
  group ← this mSessionGroup;
  match group ≫= SessionGroup.AddSession clientFD with
  | None => undefined
  | Some (id, g) => assign (set_group (Some g));; mret id
  end.

Definition DeleteSession (sessionID : SessionID) : M ServerWorld bool :=
  group ← this mSessionGroup;
  match group ≫= SessionGroup.DeleteSession sessionID with
  | None => undefined
  | Some (b, g) => assign (set_group (Some g));; mret b
  end.

Definition GetSession (sessionID : SessionID) : M ServerWorld (option Session) :=
  group ← this mSessionGroup;
  match group ≫= SessionGroup.GetSession sessionID with
  | None => undefined
  | Some r => mret r
  end.

(** A method of the session in a slot, run where it lies in the vector. *)
Definition on_slot {A} (index : Z) (m : M World A) : M ServerWorld A := λ w,
  g ← mSessionGroup (server w);
  s ← at_index (mSessionVector g) index;
  '(a, w') ← m (mkWorld s (sys w) (slot_address w index));
  Some (a, set_server (set_group (Some (mkSessionGroup (mMaxSession g)
              (<[Z.to_nat index := session w']> (mSessionVector g))
              (mSessionIndexPool g) (sUniqueNumber g))) (server w))
            (set_sys (os w') w)).

(** What the sessions of the server see of it. *)
Context (user_OnDisconnected : SessionID → M World unit).

Definition view (s : Server) : ServerView :=
  mkServerView (mEpollFD s) (mSendPollFD s) user_OnDisconnected.

Definition Send (sessionID : SessionID) (buffer bufferSize : Z) : M ServerWorld unit :=
  session ← GetSession sessionID;
  match session with
  | None => mret tt
  | Some _ =>
      s ← this id;
      on_slot (GetIndex sessionID) (Session.Send (view s) buffer bufferSize)
  end.

(** ** The jobs of ServerJob.cpp that belong to the server *)

Definition sMAX_EVENTS : nat := 126.

Fixpoint AddJobs (jobs : list JobPtr) : M ServerWorld unit :=
  match jobs with
  | [] => mret tt
  | job :: jobs => AddJob job;; AddJobs jobs
  end.

(** One [epoll_wait]; the [continue] of the code leaves its
    [do ... while (false)]. *)
Definition PollJob_Execute : M ServerWorld bool :=
  epollFD ← this mEpollFD;
  a ← epoll_wait epollFD sMAX_EVENTS;
  match a with
  | WaitError EINTR => mret tt
  | WaitError _ => sys_ CallPrintln
  | Ready ptrs => AddJobs ptrs
  end;;
  AddJob JobPoll;;
  mret true.

(** It waits on [GetEpollFD], as [PollJob] does, and skips null pointers. *)
Definition SendPollJob_Execute : M ServerWorld bool :=
  epollFD ← this mEpollFD;
  a ← epoll_wait epollFD sMAX_EVENTS;
  match a with
  | WaitError EINTR => mret tt
  | WaitError _ => sys_ CallPrintln
  | Ready ptrs => AddJobs (filter (λ p, p ≠ JobNull) ptrs)
  end;;
  AddJob JobSendPoll;;
  mret true.

(** The user's handlers: any actions. *)
Context (OnAccepeted : Endpoint.Endpoint → M ServerWorld bool) (OnConnected : SessionID → M ServerWorld unit).

(** The client put under both epolls: nothing to queue when it can send, its
    receive job when it can receive. *)
Definition register (epollFD : Z) (clientFD : SocketFD) (clientSession : SessionID) : M ServerWorld unit :=
  sendPollFD ← this mSendPollFD;
  sys_ (CallEpollCtl sendPollFD EPOLL_CTL_ADD clientFD JobNull (Z.lor EPOLLOUT EPOLLONESHOT));;
  sys_ (CallEpollCtl epollFD EPOLL_CTL_ADD clientFD (JobRecv clientSession) receive_events).

(** One turn of the accept loop: [None] goes round again.  [stack] is the
    memory of the local [clientEndpoint]; a null session is dereferenced. *)
Definition AcceptJob_turn (listenFD epollFD : Z) (stack : Endpoint.sockaddr) : M ServerWorld (option bool) :=
  a ← accept listenFD;
  match a with
  | AcceptError EAGAIN => mret (Some true)
  | AcceptError EINTR => mret None
  | AcceptError _ => sys_ CallPrintln;; mret (Some true)
  | Accepted clientFD address =>
      sys_ (CallOnAccepted clientFD);;
      ok ← OnAccepeted (Endpoint.of_sockaddr address stack);
      if negb ok then sys_ (CallClose clientFD);; mret None
      else
        clientSession ← AddSession clientFD;
        session ← GetSession clientSession;
        match session with
        | None => undefined
        | Some _ =>
            set_nonblocking clientFD;;
            sys_ (CallSetSockOpt clientFD SOL_SOCKET TCP_NODELAY);;
            register epollFD clientFD clientSession;;
            sys_ (CallOnConnected clientSession);;
            OnConnected clientSession;;
            mret None
        end
  end.

(** The loop ends at an answer of [accept]: those left bound the turns. *)
Definition AcceptJob_Execute (stack : Endpoint.sockaddr) : M ServerWorld bool :=
  listenFD ← this mListenFD;
  epollFD ← this mEpollFD;
  turns ← gets (λ w : ServerWorld, S (length (accepts w)));
  forever turns (AcceptJob_turn listenFD epollFD stack).

Definition AcceptJob_Complete : M ServerWorld unit :=
  s ← this id;
  sys_ (CallEpollCtl (mEpollFD s) EPOLL_CTL_MOD (mListenFD s) JobAccept receive_events).
End Definitions.

Arguments Server : clear implicits.
Arguments ServerWorld : clear implicits.

(** ** Facts *)

Section Facts.
Context {P : Type} `{JobPool P}.
Implicit Types (w : ServerWorld P).

(** The world with [cs] logged. *)
Definition logged (cs : list Call) w : ServerWorld P := set_sys (log_calls cs (sys w)) w.

Lemma logged_app cs cs' w : logged cs' (logged cs w) = logged (cs ++ cs') w.
Proof. destruct w. unfold logged, set_sys; cbn. by rewrite log_calls_app. Qed.

Lemma logged_nil w : logged [] w = w.
Proof. destruct w. unfold logged, set_sys; cbn. by rewrite log_calls_nil. Qed.

Lemma sys_run c w : sys_ c w = Some (tt, logged [c] w).
Proof. done. Qed.

(** The world with [cs] logged and the answers [rest] left. *)
Definition answered (cs : list Call) (rest : list SysResult) w : ServerWorld P :=
  set_results rest (logged cs w).

Lemma results_answered cs rest w : results (answered cs rest w) = rest.
Proof. done. Qed.

Lemma answered_answered cs cs' rest rest' w :
  answered cs' rest' (answered cs rest w) = answered (cs ++ cs') rest' w.
Proof. unfold answered, logged, set_results, set_sys; cbn. by rewrite log_calls_app. Qed.

Lemma logged_answered cs cs' rest w :
  logged cs' (answered cs rest w) = answered (cs ++ cs') rest w.
Proof. unfold answered, logged, set_results, set_sys; cbn. by rewrite log_calls_app. Qed.

Lemma set_server_answered s cs rest w :
  set_server s (answered cs rest w) = answered cs rest (set_server s w).
Proof. done. Qed.

Lemma server_answered cs rest w : server (answered cs rest w) = server w.
Proof. done. Qed.

Lemma set_server_twice s s' w : set_server s (set_server s' w) = set_server s w.
Proof. done. Qed.

Lemma server_set_server s w : server (set_server s w) = s.
Proof. done. Qed.

Lemma assign_run f w : assign f w = Some (tt, set_server (f (server w)) w).
Proof. done. Qed.

Lemma this_run {A} (f : Server P → A) w : this f w = Some (f (server w), w).
Proof. done. Qed.

Lemma sys_result_run c w r rest :
  results w = r :: rest → sys_result c w = Some (r, answered [c] rest w).
Proof. intros Hr. unfold sys_result. run. by rewrite Hr. Qed.

(** Adding a job to a pool that accepts it. *)
Definition with_pool (p : P) w : ServerWorld P := set_server (set_pool (Some p) (server w)) w.

Lemma AddJobs_run js w p :
  mWorkerThreadPool (server w) = Some p → accepting p →
  ∃ p', AddJobs js w = Some (tt, with_pool p' w) ∧ accepting p' ∧ waiting p' = waiting p ++ js.
Proof.
  revert w p. induction js as [|j js IH]; intros w p Hp Ha; cbn [AddJobs].
  - exists p. rewrite app_nil_r. split; [|done]. unfold with_pool. destruct w as [[] ? ? ? ? ? ? ?]; cbn in *. by subst.
  - destruct (pool_add_spec j p Ha) as (p1 & Hadd & Ha1 & Hw1).
    destruct (IH (with_pool p1 w) p1) as (p' & He & Ha' & Hw'); [done|done|].
    exists p'. split; [|split; [done|by rewrite Hw', Hw1, <- app_assoc]].
    erewrite (bind_eq (AddJob j)); [exact He|]. unfold AddJob, this. run. by rewrite Hp, Hadd.
Qed.

Lemma AddJobs_snoc js j w : (AddJobs (js ++ [j]);; mret true) w = (AddJobs js;; AddJob j;; mret true) w.
Proof.
  revert w. induction js as [|j' js IH]; intros w.
  - cbn [AddJobs app]. cbv [mbind M_bind mret M_ret]. by destruct (AddJob j w) as [[[] ?]|].
  - cbn [AddJobs app]. unfold mbind, M_bind in *. cbn beta in *. destruct (AddJob j' w) as [[[] w']|]; [|done]. apply IH.
Qed.

Lemma calls_answered cs rest w : calls (sys (answered cs rest w)) = calls (sys w) ++ cs.
Proof. done. Qed.

Lemma logged_set_server s cs w : set_server s (logged cs w) = logged cs (set_server s w).
Proof. done. Qed.

Lemma server_logged cs w : server (logged cs w) = server w.
Proof. done. Qed.

(** *** Stopping *)

Lemma Stop_stopped w : mIsRunning (server w) = false → Stop w = Some (tt, w).
Proof. intros Hr. unfold Stop. rewrite (bind_eq _ _ _ _ _ (this_run _ _)). by rewrite Hr. Qed.

Lemma delete_pointer_run get set w j :
  get (server w) = To j → delete_pointer get set w = Some (tt, set_server (set Null (server w)) w).
Proof. intros Hj. unfold delete_pointer. rewrite (bind_eq _ _ _ _ _ (this_run _ _)). by rewrite Hj. Qed.

Lemma destroy_indeterminate w :
  mIsRunning (server w) = false → mPollJob (server w) = Indeterminate → Server_destroy w = None.
Proof.
  intros Hr Hj. unfold Server_destroy. rewrite (bind_eq _ _ _ _ _ (Stop_stopped w Hr)).
  unfold delete_pointer. unfold mbind, M_bind, this, gets. by rewrite Hj.
Qed.

Lemma Close_run w :
  mListenFD (server w) ≠ sINVALID_SOCKET_FD →
  CloseListenSocket w =
    Some (tt, logged [CallClose (mListenFD (server w))] (set_server (set_listen_fd (-1) (server w)) w)).
Proof.
  intros Hl. unfold CloseListenSocket. rewrite (bind_eq _ _ _ _ _ (this_run _ _)).
  by rewrite decide_False by done.
Qed.

Lemma close_assign_run fd f w :
  (sys_ (CallClose fd);; assign f) w = Some (tt, logged [CallClose fd] (set_server (f (server w)) w)).
Proof. done. Qed.

(** *** The listening socket *)

(** The answers with which [CreateListenSocket] gives up: the first failure of
    [socket], [setsockopt], [bind] or [listen] ([fcntl] may fail). *)
Inductive refused (l : SocketFD) : list SysResult → Prop :=
  | no_socket e : refused l [Failed e]
  | no_option e : refused l [Ret l; Failed e]
  | no_bind o f e : 0 ≤ o → refused l [Ret l; Ret o; f; Failed e]
  | no_listen o f b e : 0 ≤ o → 0 ≤ b → refused l [Ret l; Ret o; f; Ret b; Failed e].

Definition granted (l : SocketFD) (f : SysResult) (answers : list SysResult) : Prop :=
  ∃ o b n, answers = [Ret l; Ret o; f; Ret b; Ret n] ∧ 0 ≤ o ∧ 0 ≤ b ∧ 0 ≤ n.

Lemma set_nonblocking_run fd w f rest :
  results w = f :: rest →
  set_nonblocking fd w =
    Some (tt, answered [CallFcntlGet fd; CallFcntlSet fd (Z.lor (value f) O_NONBLOCK)] rest w).
Proof.
  intros Hr. unfold set_nonblocking. rewrite (bind_eq _ _ _ _ _ (sys_result_run _ _ _ _ Hr)).
  by rewrite sys_run, logged_answered.
Qed.
End Facts.

(** Brings the world the goal has reached to the form
    [answered calls rest (set_server server w)]. *)
Ltac tidy :=
  rewrite ?set_server_answered, ?server_answered, ?logged_set_server, ?server_logged,
    ?set_server_twice, ?server_set_server, ?answered_answered, ?logged_app; cbn [app].

(** Runs an assignment, or a read, of members. *)
Ltac assigned := rewrite (bind_eq _ _ _ _ _ (assign_run _ _)); tidy.
Ltac members := rewrite (bind_eq _ _ _ _ _ (this_run _ _)); tidy.

(** Runs the close of a descriptor and the assignment after it. *)
Ltac closed := rewrite (bind_eq _ _ _ _ _ (close_assign_run _ _ _)); tidy.

(** Runs a call whose answer is known. *)
Ltac answer :=
  erewrite (bind_eq (sys_result _)); [|apply sys_result_run; first [rewrite results_answered; reflexivity|eassumption]];
  rewrite ?answered_answered; cbn [value].

Ltac answer_nonblocking :=
  erewrite (bind_eq (set_nonblocking _)); [|apply set_nonblocking_run; first [rewrite results_answered; reflexivity|eassumption]];
  rewrite ?answered_answered.

(** The failed call: the socket is closed. *)
Ltac abandon :=
  change (-1 <? 0) with true; cbn [value];
  rewrite (bind_eq _ _ _ _ _ (sys_run _ _)), logged_answered; reflexivity.

Section Listening.
Context {P : Type} `{JobPool P}.
Implicit Types (w : ServerWorld P).

Definition socket_calls (ep : Endpoint.Endpoint) : list Call :=
  [CallSocket (if decide (Endpoint.GetIPVersion ep = Endpoint.IPv4) then Endpoint.AF_INET else Endpoint.AF_INET6)].

Definition setup_calls (ep : Endpoint.Endpoint) (l : SocketFD) (f : SysResult) : list Call :=
  [CallSetSockOpt l SOL_SOCKET SO_REUSEADDR; CallFcntlGet l; CallFcntlSet l (Z.lor (value f) O_NONBLOCK);
   CallBind l (if decide (Endpoint.GetIPVersion ep = Endpoint.IPv4)
               then Endpoint.sizeof_sockaddr_in else Endpoint.sizeof_sockaddr_in6)].

Lemma CreateListenSocket_granted ep l f answers rest w :
  l ≠ sINVALID_SOCKET_FD → granted l f answers → results w = answers ++ rest →
  CreateListenSocket ep w =
    Some (l, answered (socket_calls ep ++ setup_calls ep l f ++ [CallListen l]) rest w).
Proof.
  intros Hl (o & b & n & -> & Ho & Hb & Hn) Hr. cbn in Hr. unfold CreateListenSocket.
  answer. rewrite decide_False by done. answer. rewrite (proj2 (Z.ltb_ge o 0)) by done.
  answer_nonblocking.
  answer. rewrite (proj2 (Z.ltb_ge b 0)) by done. answer. rewrite (proj2 (Z.ltb_ge n 0)) by done.
  by rewrite ?sys_run, ?logged_answered.
Qed.

Lemma CreateListenSocket_refused ep l answers rest :
  l ≠ sINVALID_SOCKET_FD → refused l answers →
  ∃ cs, (∀ w, results w = answers ++ rest → CreateListenSocket ep w =
      Some (sINVALID_SOCKET_FD, answered (socket_calls ep ++ cs) rest w)) ∧
    (cs = [] ∨ last cs = Some (CallClose l)) ∧ (head answers = Some (Ret l) → cs ≠ []).
Proof.
  intros Hl Href. unfold CreateListenSocket.
  destruct Href as [e|e|o f e Ho|o f b e Ho Hb].
  - exists []. split; [|split; [by left|done]]; intros w Hr; cbn in Hr. answer. rewrite decide_True by done. by rewrite ?sys_run, ?logged_answered.
  - exists [CallSetSockOpt l SOL_SOCKET SO_REUSEADDR; CallClose l]. split; [|split; [by right|done]]; intros w Hr; cbn in Hr.
    answer. rewrite decide_False by done. answer. abandon.
  - exists (setup_calls ep l f ++ [CallClose l]). split; [|split; [by right|done]]; intros w Hr; cbn in Hr.
    answer. rewrite decide_False by done. answer. rewrite (proj2 (Z.ltb_ge o 0)) by done.
    answer_nonblocking. answer. abandon.
  - exists (setup_calls ep l f ++ [CallListen l; CallClose l]). split; [|split; [by right|done]]; intros w Hr; cbn in Hr.
    answer. rewrite decide_False by done. answer. rewrite (proj2 (Z.ltb_ge o 0)) by done.
    answer_nonblocking.
    answer. rewrite (proj2 (Z.ltb_ge b 0)) by done. answer. abandon.
Qed.
End Listening.

Section Starting.
Context {P : Type} `{JobPool P}.
Implicit Types (w : ServerWorld P).

Definition unique_of w : Z :=
  match mSessionGroup (server w) with Some g => sUniqueNumber g | None => idle_unique w end.

(** A started server. *)
Definition started (e s l : Z) (p : P) w : Server P :=
  mkServer l e s true (Some p)
    (Some (mkSessionGroup 5000 (fresh_slots w) (seqZ 0 5001) (unique_of w)))
    (To JobPoll) (To JobAccept).

Definition start_calls (e l : Z) (listening : list Call) : list Call :=
  [CallEpollCreate; CallEpollCreate] ++ listening ++
  [CallEpollCtl e EPOLL_CTL_ADD l JobAccept receive_events].

Lemma new_SessionGroup_run w :
  length (fresh_slots w) = 5000%nat →
  new_SessionGroup 5000 w =
    Some (mkSessionGroup 5000 (fresh_slots w) (seqZ 0 5001) (unique_of w), w).
Proof.
  intros Hlen. unfold new_SessionGroup.
  erewrite (bind_eq unique_number) by reflexivity. erewrite (bind_eq (gets fresh_slots)) by reflexivity.
  unfold construct. rewrite Hlen, push_indices_eq, app_nil_r. done.
Qed.

(** [Start] after both epolls are there, by what [CreateListenSocket] does. *)
Lemma Start_run ep n e s l listening rest rest' w :
  results w = Ret e :: Ret s :: rest → e ≠ -1 → s ≠ -1 → length (fresh_slots w) = 5000%nat →
  (∀ w', results w' = rest → CreateListenSocket ep w' = Some (l, answered listening rest' w')) →
  ∃ p, waiting p = [JobPoll] ∧ accepting p ∧
    Start ep n w = Some (true, answered (start_calls e l listening) rest' (set_server (started e s l p w) w)).
Proof.
  intros Hr He Hs Hlen Hlisten.
  destruct (pool_add_spec JobPoll (pool_start n : P) (accepting_start n)) as (p & Hadd & Ha & Hw).
  exists p. split; [by rewrite Hw, waiting_start|]. split; [done|]. unfold Start.
  answer. assigned. rewrite decide_False by done.
  answer. assigned. rewrite decide_False by done.
  erewrite (bind_eq (new_SessionGroup 5000)) by (by apply new_SessionGroup_run).
  assigned. assigned.
  erewrite (bind_eq (CreateListenSocket ep)) by (by apply Hlisten).
  tidy. assigned. assigned. assigned.
  erewrite (bind_eq (AddJob JobPoll)); [|unfold AddJob, this; run; rewrite Hadd; reflexivity].
  tidy. assigned. members. rewrite (bind_eq _ _ _ _ _ (sys_run _ _)), logged_answered.
  unfold start_calls. reflexivity.
Qed.
End Starting.

(** ** Accepting *)

Section Accepting.
Context {P : Type} `{JobPool P}.
Context (OnAccepeted : Endpoint.Endpoint → M (ServerWorld P) bool) (OnConnected : SessionID → M (ServerWorld P) unit).
Context (admits : Endpoint.Endpoint → bool) (stack : Endpoint.sockaddr).
Implicit Types (w : ServerWorld P).

(** The user's handlers decide by the endpoint and leave the server alone (the
    ones of the test server print). *)
Definition quiet_handlers : Prop :=
  (∀ ep w, OnAccepeted ep w = Some (admits ep, w)) ∧ ∀ id w, OnConnected id w = Some (tt, w).

(** An answer of [accept] after which the loop goes on. *)
Definition accept_goes_on (a : AcceptAnswer) : Prop :=
  match a with Accepted _ _ | AcceptError EINTR => True | _ => False end.

(** The clients the user admits, in order. *)
Fixpoint admitted (answers : list AcceptAnswer) : list SocketFD :=
  match answers with
  | [] => []
  | Accepted fd address :: rest =>
      if admits (Endpoint.of_sockaddr address stack) then fd :: admitted rest else admitted rest
  | AcceptError _ :: rest => admitted rest
  end.

(** What is done for a client: its socket no longer blocks, it is under both
    epolls, and the user hears of it. *)
Definition client_calls (s : Server P) (fd : SocketFD) (id : SessionID) (flags : SysResult) : list Call :=
  [CallFcntlGet fd; CallFcntlSet fd (Z.lor (value flags) O_NONBLOCK);
   CallSetSockOpt fd SOL_SOCKET TCP_NODELAY;
   CallEpollCtl (mSendPollFD s) EPOLL_CTL_ADD fd JobNull (Z.lor EPOLLOUT EPOLLONESHOT);
   CallEpollCtl (mEpollFD s) EPOLL_CTL_ADD fd (JobRecv id) receive_events;
   CallOnConnected id].

Fixpoint accept_calls (s : Server P) (answers : list AcceptAnswer) (ids : list SessionID) (flags : list SysResult) :
    list Call :=
  match answers with
  | [] => []
  | AcceptError _ :: rest => CallAccept (mListenFD s) :: accept_calls s rest ids flags
  | Accepted fd address :: rest =>
      [CallAccept (mListenFD s); CallOnAccepted fd] ++
      if admits (Endpoint.of_sockaddr address stack) then
        match ids, flags with
        | id :: ids, f :: flags => client_calls s fd id f ++ accept_calls s rest ids flags
        | _, _ => []
        end
      else CallClose fd :: accept_calls s rest ids flags
  end.

(** The world once [accept] gave its last answer but [rest]. *)
Definition accepted (rest : list AcceptAnswer) (cs : list Call) (results : list SysResult) (g : SessionGroup Session) w :
    ServerWorld P :=
  set_accepts rest (answered cs results (set_server (set_group (Some g) (server w)) w)).

Lemma accept_run l a rest w :
  accepts w = a :: rest → accept l w = Some (a, set_accepts rest (logged [CallAccept l] w)).
Proof. intros Ha. unfold accept. run. by rewrite Ha. Qed.

Lemma accepted_eq rest cs1 cs2 cs rs g w :
  answered cs rs (set_server (set_group (Some g) (server w)) (logged cs2 (set_accepts rest (logged cs1 w)))) =
    accepted rest (cs1 ++ cs2 ++ cs) rs g w.
Proof.
  unfold accepted, answered, logged, set_accepts, set_results, set_sys, set_server; cbn.
  by rewrite !log_calls_app.
Qed.

Lemma AcceptJob_turn_client fd address rest f flags id g g' w :
  quiet_handlers → accepts w = Accepted fd address :: rest → results w = f :: flags →
  admits (Endpoint.of_sockaddr address stack) = true →
  mSessionGroup (server w) = Some g → SessionGroup.AddSession fd g = Some (id, g') →
  Z.of_nat (length (mSessionVector g)) ≤ 65536 →
  AcceptJob_turn OnAccepeted OnConnected (mListenFD (server w)) (mEpollFD (server w)) stack w =
    Some (None, accepted rest ([CallAccept (mListenFD (server w)); CallOnAccepted fd] ++
                  client_calls (server w) fd id f) flags g' w).
Proof.
  intros [Hacc Hcon] Ha Hr Hok Hg Hadd Hlen.
  destruct (AddSession_found _ _ _ _ Hadd Hlen) as (_ & s & Hget & _).
  unfold AcceptJob_turn. rewrite (bind_eq _ _ _ _ _ (accept_run _ _ _ _ Ha)).
  rewrite (bind_eq _ _ _ _ _ (sys_run _ _)). rewrite (bind_eq _ _ _ _ _ (Hacc _ _)), Hok. cbn [negb].
  set (w1 := logged [CallOnAccepted fd] _).
  assert (AddSession fd w1 = Some (id, set_server (set_group (Some g') (server w)) w1)) as Hadd1.
  { unfold AddSession, this. run. rewrite Hg. cbn. by rewrite Hadd. }
  rewrite (bind_eq _ _ _ _ _ Hadd1). set (w2 := set_server _ w1).
  assert (GetSession id w2 = Some (Some s, w2)) as Hget2 by (unfold GetSession, this; run; by rewrite Hget).
  rewrite (bind_eq _ _ _ _ _ Hget2).
  assert (results w2 = f :: flags) as Hr2 by done.
  rewrite (bind_eq _ _ _ _ _ (set_nonblocking_run _ _ _ _ Hr2)).
  rewrite (bind_eq _ _ _ _ _ (sys_run _ _)), logged_answered.
  erewrite (bind_eq (register _ _ _)).
  2:{ unfold register. members. rewrite (bind_eq _ _ _ _ _ (sys_run _ _)), logged_answered.
      rewrite sys_run, logged_answered. reflexivity. }
  rewrite (bind_eq _ _ _ _ _ (sys_run _ _)), logged_answered. rewrite (bind_eq _ _ _ _ _ (Hcon _ _)).
  unfold mret, M_ret, w2, w1. rewrite accepted_eq. do 3 f_equal.
Qed.

Lemma accepted_accepted rest rest' cs cs' rs rs' g g' w :
  accepted rest' cs' rs' g' (accepted rest cs rs g w) = accepted rest' (cs ++ cs') rs' g' w.
Proof.
  destruct w as [s sy r wa ac ad fr u]. unfold accepted.
  change (answered cs' rs' _) with
    (set_accepts rest (answered cs' rs' (answered cs rs (mkServerWorld (set_group (Some g') s) sy r wa ac ad fr u)))).
  by rewrite answered_answered.
Qed.

Lemma accepted_start rest rs g w :
  accepts w = rest → results w = rs → mSessionGroup (server w) = Some g → accepted rest [] rs g w = w.
Proof.
  intros <- <- Hg. unfold accepted, answered. rewrite logged_nil.
  destruct w as [[] ? ? ? ? ? ? ?]; cbn in *. by subst.
Qed.

Lemma accept_calls_group g s answers ids flags :
  accept_calls (set_group g s) answers ids flags = accept_calls s answers ids flags.
Proof.
  revert ids flags. induction answers as [|[fd address|e] answers IH]; intros ids flags; cbn; [done| |by rewrite IH].
  destruct (admits _); [|by rewrite IH]. destruct ids, flags; [done..|]. by rewrite IH.
Qed.

Lemma AddSessions_cons fd fds g ids g' :
  AddSessions (fd :: fds) g = Some (ids, g') →
  ∃ id g1 ids', SessionGroup.AddSession fd g = Some (id, g1) ∧ AddSessions fds g1 = Some (ids', g') ∧ ids = id :: ids'.
Proof.
  cbn [AddSessions]. intros ([id g1] & Hadd & ([ids' g2] & Hrec & [= <- <-])%bind_Some)%bind_Some.
  by exists id, g1, ids'.
Qed.

Lemma turns_accept answers rest ids flags frest g g' turns w :
  quiet_handlers → Forall accept_goes_on answers →
  accepts w = answers ++ rest → results w = flags ++ frest → length flags = length ids →
  mSessionGroup (server w) = Some g → AddSessions (admitted answers) g = Some (ids, g') →
  Z.of_nat (length (mSessionVector g)) ≤ 65536 →
  let turn := AcceptJob_turn OnAccepeted OnConnected (mListenFD (server w)) (mEpollFD (server w)) stack in
  forever (length answers + turns) turn w =
    forever turns turn (accepted rest (accept_calls (server w) answers ids flags) frest g' w).
Proof.
  intros Hq Hgo. revert ids flags g w.
  induction Hgo as [|a answers Ha Hgo IH]; intros ids flags g w Hacc Hres Hlen Hg Hadd Hvec turn.
  - cbn in *. simplify_eq. destruct flags; [|done]. cbn in *. by rewrite accepted_start.
  - change (length (a :: answers) + turns)%nat with (S (length answers + turns)).
    destruct a as [fd address|[]]; try done.
    + cbn [admitted accept_calls] in *. destruct (admits (Endpoint.of_sockaddr address stack)) eqn:Hok.
      * apply AddSessions_cons in Hadd as (id & g1 & ids' & H1 & Hadd & ->).
        destruct flags as [|f flags]; [done|].
        rewrite (forever_again _ _ _ _ (AcceptJob_turn_client fd address _ f _ id g g1 w Hq Hacc Hres Hok Hg H1 Hvec)).
        destruct (AddSession_found _ _ _ _ H1 Hvec) as [Hl _].
        assert (length flags = length ids') as Hlen' by (by injection Hlen).
        assert (Z.of_nat (length (mSessionVector g1)) ≤ 65536) as Hvec' by (by rewrite Hl).
        set (w1 := accepted _ _ _ _ w).
        pose proof (IH ids' flags g1 w1 eq_refl eq_refl Hlen' eq_refl Hadd Hvec') as IH1.
        etransitivity; [exact IH1|]. unfold w1. rewrite accepted_accepted.
        by change (server (accepted _ _ _ g1 w)) with (set_group (Some g1) (server w)); rewrite accept_calls_group.
      * destruct Hq as [Hqa Hqc].
        rewrite (forever_again _ _ _ (accepted (answers ++ rest)
          [CallAccept (mListenFD (server w)); CallOnAccepted fd; CallClose fd] (results w) g w)).
        2:{ unfold turn, AcceptJob_turn. rewrite (bind_eq _ _ _ _ _ (accept_run _ _ _ _ Hacc)).
            rewrite (bind_eq _ _ _ _ _ (sys_run _ _)), (bind_eq _ _ _ _ _ (Hqa _ _)), Hok. cbn [negb].
            rewrite (bind_eq _ _ _ _ _ (sys_run _ _)). destruct w as [[] [] ? ? ? ? ? ?]; cbn in *; subst.
            unfold mret, M_ret, accepted, answered, logged, log_calls, set_accepts, set_results, set_sys; cbn.
            by rewrite <- !app_assoc. }
        set (w1 := accepted _ _ _ _ w).
        pose proof (IH ids flags g w1 eq_refl Hres Hlen eq_refl Hadd Hvec) as IH1.
        etransitivity; [exact IH1|]. unfold w1. rewrite accepted_accepted.
        by change (server (accepted _ _ _ g w)) with (set_group (Some g) (server w)); rewrite accept_calls_group.
    + cbn [admitted accept_calls] in *.
      rewrite (forever_again _ _ _ (accepted (answers ++ rest) [CallAccept (mListenFD (server w))] (results w) g w)).
      2:{ unfold turn, AcceptJob_turn. rewrite (bind_eq _ _ _ _ _ (accept_run _ _ _ _ Hacc)).
          by destruct w as [[] [] ? ? ? ? ? ?]; cbn in *; subst. }
      set (w1 := accepted _ _ _ _ w).
      pose proof (IH ids flags g w1 eq_refl Hres Hlen eq_refl Hadd Hvec) as IH1.
      etransitivity; [exact IH1|]. unfold w1. rewrite accepted_accepted.
      by change (server (accepted _ _ _ g w)) with (set_group (Some g) (server w)); rewrite accept_calls_group.
Qed.
End Accepting.

(** ** Properties *)

Section Properties.
Context {P : Type} `{JobPool P}.
Implicit Types (w : ServerWorld P).

(** When the system grants everything, [Start] returns [true] with both
    epolls, the listening socket and the pool in place, a table of 5000
    slots, exactly the poll job waiting for a worker, and the listening socket,
    which does not block, registered to queue the accept job. *)
Theorem Start_listens ep n e s l f answers rest w :
  results w = Ret e :: Ret s :: answers ++ rest → e ≠ -1 → s ≠ -1 → l ≠ -1 → granted l f answers →
  length (fresh_slots w) = 5000%nat →
  ∃ p w', Start ep n w = Some (true, w') ∧ server w' = started e s l p w ∧ waiting p = [JobPoll] ∧
    results w' = rest ∧
    calls (sys w') = calls (sys w) ++ [CallEpollCreate; CallEpollCreate] ++ socket_calls ep ++
      setup_calls ep l f ++ [CallListen l; CallEpollCtl e EPOLL_CTL_ADD l JobAccept receive_events].
Proof.
  intros Hr He Hs Hl Hg Hlen.
  destruct (Start_run ep n e s l (socket_calls ep ++ setup_calls ep l f ++ [CallListen l]) (answers ++ rest) rest w)
    as (p & Hw & _ & Hrun); try done.
  - intros w' Hr'. by apply (CreateListenSocket_granted ep l f answers).
  - exists p. eexists. split; [exact Hrun|]. by split_and!.
Qed.

(** [Start] does not look at what became of the listening socket: if
    [socket], [setsockopt], [bind] or [listen] fails, the socket, if any, is
    closed, and [Start] still returns [true] and leaves a running server, with no
    listening socket, whose accept job was registered for the descriptor -1. *)
Theorem Start_without_socket ep n e s l answers rest w :
  results w = Ret e :: Ret s :: answers ++ rest → e ≠ -1 → s ≠ -1 → l ≠ -1 → refused l answers →
  length (fresh_slots w) = 5000%nat →
  ∃ w', Start ep n w = Some (true, w') ∧ mIsRunning (server w') = true ∧ mListenFD (server w') = -1 ∧
    (head answers = Some (Ret l) → CallClose l ∈ calls (sys w')) ∧
    last (calls (sys w')) = Some (CallEpollCtl e EPOLL_CTL_ADD (-1) JobAccept receive_events).
Proof.
  intros Hr He Hs Hl Href Hlen.
  destruct (CreateListenSocket_refused (P := P) ep l answers rest Hl Href) as (cs & Hc & Hcs & Hne).
  destruct (Start_run ep n e s (-1) (socket_calls ep ++ cs) (answers ++ rest) rest w) as (p & Hw & _ & Hrun); try done.
  eexists. split; [exact Hrun|]. split; [done|]. split; [done|]. rewrite calls_answered. unfold start_calls. split.
  - intros Ha%Hne. destruct Hcs as [|Hlast]; [done|]. apply last_Some in Hlast as [cs' ->]. set_solver.
  - rewrite !app_assoc. apply last_snoc.
Qed.

(** C21: [Stop] closes the listening socket and the two epolls, each once, and
    enters the pool's [Stop]; the sessions stay as they are, their sockets open.
    A second [Stop] does nothing, and destroying the server afterwards closes
    nothing more. *)
Theorem Stop_closes_once s p p' w :
  server w = s → mIsRunning s = true →
  mListenFD s ≠ -1 → mEpollFD s ≠ -1 → mSendPollFD s ≠ -1 →
  mWorkerThreadPool s = Some p → pool_stop p = Some p' →
  mPollJob s = To JobPoll → mAcceptJob s = To JobAccept →
  ∃ w' w'', Stop w = Some (tt, w') ∧
    server w' = mkServer (-1) (-1) (-1) false (Some p') (mSessionGroup s) (To JobPoll) (To JobAccept) ∧
    calls (sys w') = calls (sys w) ++ [CallClose (mListenFD s); CallClose (mEpollFD s); CallClose (mSendPollFD s)] ∧
    Stop w' = Some (tt, w') ∧
    Server_destroy w' = Some (tt, w'') ∧ sys w'' = sys w' ∧ idle_unique w'' = unique_of w'.
Proof.
  intros Hs Hrun Hl He Hse Hp Hstop Hpj Haj.
  set (s' := mkServer (-1) (-1) (-1) false (Some p') (mSessionGroup s) (To JobPoll) (To JobAccept)).
  set (w' := logged [CallClose (mListenFD s); CallClose (mEpollFD s); CallClose (mSendPollFD s)] (set_server s' w)).
  assert (mIsRunning (server w') = false) as Hrun' by done.
  exists w', (set_idle_unique (unique_of w') (set_server (mkServer (-1) (-1) (-1) false None None Null Null) w')).
  split; [|split; [done|split; [done|split; [by apply Stop_stopped|split; [|done]]]]].
  - unfold Stop. members. rewrite Hs, Hrun. cbn [negb].
    rewrite (bind_eq _ _ _ _ _ (Close_run w ltac:(by rewrite Hs))). rewrite Hs. assigned. members.
    rewrite decide_True by done. rewrite (bind_eq (mret tt) _ _ tt _ eq_refl). members.
    rewrite decide_False by done. closed. members. rewrite decide_False by done. closed. members.
    replace (_ ≫= pool_stop) with (Some p') by (cbn; by rewrite Hp).
    rewrite assign_run. tidy. unfold w', s'. rewrite <- Hpj, <- Haj. reflexivity.
  - unfold Server_destroy. rewrite (bind_eq _ _ _ _ _ (Stop_stopped w' Hrun')).
    do 2 (erewrite (bind_eq (delete_pointer _ _)) by (by eapply delete_pointer_run)).
    rewrite (bind_eq _ _ _ _ _ (assign_run _ _)).
    erewrite (bind_eq unique_number) by reflexivity. reflexivity.
Qed.

(** C16: [AcceptJob::Execute] takes in every client that is waiting, around
    interruptions, until [accept] would block: each client the user admits gets
    the next session of the table, a socket that does not block and its places
    in the two epolls, and only then is announced; the others are closed. *)
Theorem Accept_takes_all OnAccepeted OnConnected admits stack answers rest ids flags frest g g' w :
  quiet_handlers OnAccepeted OnConnected admits → Forall accept_goes_on answers →
  accepts w = answers ++ AcceptError EAGAIN :: rest → results w = flags ++ frest → length flags = length ids →
  mSessionGroup (server w) = Some g → Z.of_nat (length (mSessionVector g)) ≤ 65536 →
  AddSessions (admitted admits stack answers) g = Some (ids, g') →
  ∃ w', AcceptJob_Execute OnAccepeted OnConnected stack w = Some (true, w') ∧
    server w' = set_group (Some g') (server w) ∧ accepts w' = rest ∧ results w' = frest ∧
    calls (sys w') = calls (sys w) ++ accept_calls admits stack (server w) answers ids flags ++
      [CallAccept (mListenFD (server w))].
Proof.
  intros Hq Hgo Hacc Hres Hlen Hg Hvec Hadd. unfold AcceptJob_Execute.
  rewrite (bind_eq _ _ _ _ _ (this_run _ _)), (bind_eq _ _ _ _ _ (this_run _ _)).
  erewrite (bind_eq (gets _)) by reflexivity. rewrite Hacc, length_app. cbn [length].
  replace (S (length answers + S (length rest)))%nat with (length answers + S (S (length rest)))%nat by lia.
  rewrite (turns_accept OnAccepeted OnConnected admits stack answers (AcceptError EAGAIN :: rest) ids flags frest g g'
    (S (S (length rest))) w Hq Hgo Hacc Hres Hlen Hg Hadd Hvec).
  set (w1 := accepted _ _ _ g' w).
  exists (set_accepts rest (logged [CallAccept (mListenFD (server w))] w1)). split.
  - apply forever_stop. unfold AcceptJob_turn.
    assert (accepts w1 = AcceptError EAGAIN :: rest) as Ha by done.
    by rewrite (bind_eq _ _ _ _ _ (accept_run _ _ _ _ Ha)).
  - split_and!; try done. unfold w1, accepted, logged. cbn [calls sys set_accepts set_sys log_calls].
    change (calls (sys (set_accepts ?r ?x))) with (calls (sys x)). rewrite calls_answered. by rewrite <- app_assoc.
Qed.

(** The jobs an answer of [epoll_wait] makes ready. *)
Definition ready_jobs (a : WaitAnswer) : list JobPtr :=
  match a with Ready ptrs => ptrs | WaitError _ => [] end.

(** Whatever [epoll_wait] answers, [PollJob::Execute] queues the ready jobs
    in the order reported and then itself, nothing lost and nothing else
    changed: there is always a poll job waiting or running. *)
Theorem PollJob_requeues a rest p w :
  waits w = a :: rest → (length (ready_jobs a) ≤ sMAX_EVENTS)%nat →
  mWorkerThreadPool (server w) = Some p → accepting p →
  ∃ p' w', PollJob_Execute w = Some (true, w') ∧ server w' = set_pool (Some p') (server w) ∧
    accepting p' ∧ waiting p' = waiting p ++ ready_jobs a ++ [JobPoll] ∧ waits w' = rest.
Proof.
  intros Hw Hlen Hp Hacc.
  set (log := match a with WaitError EINTR => [] | WaitError _ => [CallPrintln] | _ => [] end).
  set (w1 := logged log (set_waits rest (logged [CallEpollWait (mEpollFD (server w))] w))).
  destruct (AddJobs_run (ready_jobs a ++ [JobPoll]) w1 p Hp Hacc) as (p' & Hrun & Hacc' & Hw').
  exists p', (with_pool p' w1). split; [|done].
  transitivity ((AddJobs (ready_jobs a ++ [JobPoll]);; mret true) w1).
  - unfold PollJob_Execute. rewrite (bind_eq _ _ _ _ _ (this_run _ _)).
    assert (epoll_wait (mEpollFD (server w)) sMAX_EVENTS w =
      Some (a, set_waits rest (logged [CallEpollWait (mEpollFD (server w))] w))) as Hwait.
    { unfold epoll_wait. rewrite (bind_eq _ _ _ _ _ (sys_run _ _)).
      erewrite (bind_eq (gets waits)) by reflexivity. change (waits (logged _ w)) with (waits w). rewrite Hw.
      destruct a as [ptrs|e]; [|done]. rewrite decide_True by done. done. }
    rewrite (bind_eq _ _ _ _ _ Hwait), AddJobs_snoc. unfold w1, log.
    destruct a as [ptrs|[]]; rewrite ?logged_nil; reflexivity.
  - by rewrite (bind_eq _ _ _ _ _ Hrun).
Qed.

(** [Server::Send] to an id that is not in its slot does nothing; to a
    live id it is [Session::Send] on that session, and every session in another
    slot stays as it is. *)
Theorem Send_routes user id b n g w :
  mSessionGroup (server w) = Some g → 
  (SessionGroup.GetSession id g = Some None → Send user id b n w = Some (tt, w)) ∧
  ∀ s (w' : World), SessionGroup.GetSession id g = Some (Some s) →
    Session.Send (view user (server w)) b n (mkWorld s (sys w) (slot_address w (GetIndex id))) = Some (tt, w') →
    ∃ g' w'', Send user id b n w = Some (tt, w'') ∧ sys w'' = os w' ∧
      server w'' = set_group (Some g') (server w) ∧
      at_index (mSessionVector g') (GetIndex id) = Some (session w') ∧
      ∀ i, i ≠ GetIndex id → at_index (mSessionVector g') i = at_index (mSessionVector g) i.
Proof.
  intros Hg. split.
  - intros Hnone. unfold Send, GetSession, this. run. rewrite Hg. cbn. rewrite Hnone. done.
  - intros s w' Hget Hsend. unfold SessionGroup.GetSession in Hget.
    destruct (at_index (mSessionVector g) (GetIndex id)) as [s0|] eqn:Hat; cbn in Hget; [|done].
    case_decide as Hid; [|done]. injection Hget as ->. pose proof (at_index_bound _ _ _ Hat) as Hb.
    unfold Send. assert (GetSession id w = Some (Some s, w)) as Hget.
    { unfold GetSession, this. run. rewrite Hg. cbn. unfold SessionGroup.GetSession. rewrite Hat. cbn.
      by rewrite decide_True. }
    rewrite (bind_eq _ _ _ _ _ Hget), (bind_eq _ _ _ _ _ (this_run _ _)). unfold on_slot.
    rewrite Hg. cbn [mbind option_bind]. rewrite Hat. cbn [mbind option_bind Datatypes.id]. rewrite Hsend. cbn [mbind option_bind].
    eexists _, _. split; [done|]. split; [done|]. split; [done|]. cbn [mSessionVector]. split.
    + rewrite at_index_insert by done. by rewrite decide_True.
    + intros i Hi. rewrite at_index_insert by done. by rewrite decide_False.
Qed.

(** The constructor gives no value to the two job pointers, which the
    destructor looks at: to destroy a server that was never started, or whose
    [Start] failed at the epolls, is undefined. *)
Theorem destroy_unstarted_undefined raw ep n e rest w :
  server w = Server_construct raw →
  Server_destroy w = None ∧
  (results w = Failed e :: rest →
     ∃ w', Start ep n w = Some (false, w') ∧ Server_destroy w' = None).
Proof.
  intros Hs. split.
  - by apply destroy_indeterminate; rewrite Hs.
  - intros Hr. eexists. split.
    + unfold Start. answer. assigned. by rewrite decide_True.
    + apply destroy_indeterminate; cbn; by rewrite Hs.
Qed.
End Properties.

(** *** Witnesses *)

Definition sample_pool : WorkerThreadPool.Pool JobPtr := pool_start 2.

Definition sample_endpoint : Endpoint.Endpoint :=
  Endpoint.of_text Endpoint.sample_pton Endpoint.IPv4 "127.0.0.1" 7799 (λ _, 0).

Definition sample_raw : Server (WorkerThreadPool.Pool JobPtr) := mkServer 0 0 0 false None None Indeterminate Indeterminate.

Definition sample_world (s : Server (WorkerThreadPool.Pool JobPtr)) (rs : list SysResult) (ws : list WaitAnswer)
    (acs : list AcceptAnswer) : ServerWorld (WorkerThreadPool.Pool JobPtr) :=
  mkServerWorld s (mkOS [] [] [] []) rs ws acs (λ i, 4096 * (i + 1))
    (replicate 5000 (sample_session false [])) 0.

(** A running server with a table of two slots, the first of them in use. *)
Definition sample_running : Server (WorkerThreadPool.Pool JobPtr) :=
  mkServer 5 3 4 true (Some sample_pool)
    (Some (mkSessionGroup 2 [Session_construct 0 7 (sample_session false []); sample_session false []] [1; 2] 1))
    (To JobPoll) (To JobAccept).

Definition quiet_accept (ep : Endpoint.Endpoint) : M (ServerWorld (WorkerThreadPool.Pool JobPtr)) bool := mret true.
Definition quiet_connect (id : SessionID) : M (ServerWorld (WorkerThreadPool.Pool JobPtr)) unit := mret tt.

Lemma Start_listens_witness :
  ∃ p w', Start sample_endpoint 2
      (sample_world (Server_construct sample_raw) [Ret 3; Ret 4; Ret 5; Ret 0; Ret 2; Ret 0; Ret 0] [] []) = Some (true, w') ∧
    waiting p = [JobPoll] ∧ mWorkerThreadPool (server w') = Some p ∧ mListenFD (server w') = 5.
Proof.
  destruct (Start_listens sample_endpoint 2 3 4 5 (Ret 2) [Ret 5; Ret 0; Ret 2; Ret 0; Ret 0] []
    (sample_world (Server_construct sample_raw) [Ret 3; Ret 4; Ret 5; Ret 0; Ret 2; Ret 0; Ret 0] [] []))
    as (p & w' & Hrun & Hs & Hw & _); try done.
  - by exists 0, 0, 0.
  - exists p, w'. by rewrite Hs.
Defined.

Lemma Start_without_socket_witness :
  ∃ w', Start sample_endpoint 2
      (sample_world (Server_construct sample_raw) [Ret 3; Ret 4; Ret 5; Ret 0; Ret 2; Failed (EOTHER 98)] [] []) = Some (true, w') ∧
    mIsRunning (server w') = true ∧ mListenFD (server w') = -1.
Proof.
  destruct (Start_without_socket sample_endpoint 2 3 4 5 [Ret 5; Ret 0; Ret 2; Failed (EOTHER 98)] []
    (sample_world (Server_construct sample_raw) [Ret 3; Ret 4; Ret 5; Ret 0; Ret 2; Failed (EOTHER 98)] [] []))
    as (w' & Hrun & Hr & Hl & _); try done.
  - by constructor.
  - by exists w'.
Defined.

Lemma Stop_closes_once_witness :
  ∃ w', Stop (sample_world sample_running [] [] []) = Some (tt, w') ∧ Stop w' = Some (tt, w') ∧
    calls (sys w') = [CallClose 5; CallClose 3; CallClose 4].
Proof.
  destruct (Stop_closes_once sample_running sample_pool
    (WorkerThreadPool.next_stop 0 (WorkerThreadPool.set_running false sample_pool))
    (sample_world sample_running [] [] [])) as (w' & _ & Hrun & _ & Hc & Hagain & _); try done.
  by exists w'.
Defined.

Lemma Accept_takes_all_witness :
  ∃ w', AcceptJob_Execute quiet_accept quiet_connect (λ _, 0)
      (sample_world sample_running [Ret 2] [] [AcceptError EINTR; Accepted 8 (λ _, 0); AcceptError EAGAIN]) = Some (true, w') ∧
    CallOnConnected (2 ^ 48 + 1) ∈ calls (sys w').
Proof.
  destruct (Accept_takes_all quiet_accept quiet_connect (λ _, true) (λ _, 0)
    [AcceptError EINTR; Accepted 8 (λ _, 0)] [] [2 ^ 48 + 1] [Ret 2] []
    (mkSessionGroup 2 [Session_construct 0 7 (sample_session false []); sample_session false []] [1; 2] 1)
    (mkSessionGroup 2 [Session_construct 0 7 (sample_session false []);
       Session_construct (2 ^ 48 + 1) 8 (sample_session false [])] [2] 2)
    (sample_world sample_running [Ret 2] [] [AcceptError EINTR; Accepted 8 (λ _, 0); AcceptError EAGAIN]))
    as (w' & Hrun & _ & _ & _ & Hc); try done.
  - repeat constructor.
  - exists w'. split; [done|]. rewrite Hc. cbn. set_solver.
Defined.

Lemma PollJob_requeues_witness :
  ∃ p' w', PollJob_Execute (sample_world sample_running [] [Ready [JobRecv 0; JobAccept]] []) = Some (true, w') ∧
    waiting p' = [JobRecv 0; JobAccept; JobPoll] ∧ mWorkerThreadPool (server w') = Some p'.
Proof.
  destruct (PollJob_requeues (Ready [JobRecv 0; JobAccept]) [] sample_pool
    (sample_world sample_running [] [Ready [JobRecv 0; JobAccept]] [])) as (p' & w' & Hrun & Hs & _ & Hw & _).
  - done.
  - cbn. unfold sMAX_EVENTS. lia.
  - done.
  - apply accepting_start.
  - exists p', w'. by rewrite Hs.
Defined.

Lemma Send_routes_witness :
  Send (λ _, mret tt) 1 4096 10 (sample_world sample_running [] [] []) = Some (tt, sample_world sample_running [] [] []).
Proof.
  by apply (Send_routes (λ _, mret tt) 1 4096 10
    (mkSessionGroup 2 [Session_construct 0 7 (sample_session false []); sample_session false []] [1; 2] 1)
    (sample_world sample_running [] [] [])).
Defined.

Lemma destroy_unstarted_undefined_witness :
  Server_destroy (sample_world (Server_construct sample_raw) [] [] []) = None.
Proof.
  by apply (destroy_unstarted_undefined sample_raw sample_endpoint 2 EAGAIN []
    (sample_world (Server_construct sample_raw) [] [] [])).
Defined.
End Server.
