(* ===== verification/EventLoop.v ===== *)
(** * The event loop (lib-core, the server's epoll, queue and workers together)

    The parts of the other files composed: the epoll of [Server::Start] with its
    one-shot events, the queue of the pool, and the workers that run
    [if (job->Execute()) job->Complete()].  A step of the loop is a worker taking
    a job, one [Execute] or [Complete] run through, one turn of the accept loop,
    or a [Server::Send] of some other thread.

    The kernel's side is the interest list of one epoll: what each descriptor
    will queue, and whether its one shot is still to come.  It is computed from
    the calls the handlers log. *)

From S2P Require Import Prelude System RecvBuffer Session SessionGroup Endpoint WorkerThreadPool Server.

Module EventLoop.
Import SessionGroup Server.

(** ** The epoll *)

(** A descriptor's next event: to come, once; come; or to come again and again,
    without [EPOLLONESHOT]. *)
Inductive Shot := Armed | Fired | Repeating.

Definition shot_of (events : Z) : Shot := if Z.land events EPOLLONESHOT =? 0 then Repeating else Armed.

Abbreviation Watch := (gmap SocketFD (JobPtr * Shot)).

(** What a call does to the interest list of [epfd]: [ADD] fails on a
    descriptor that is there, [MOD] on one that is not, and closing a descriptor
    takes it out. *)
Definition kernel_call (epfd : Z) (k : Watch) (c : Call) : Watch :=
  match c with
  | CallEpollCtl e op fd ptr events =>
      if decide (e = epfd) then
        match op, k !! fd with
        | EPOLL_CTL_ADD, None => <[fd := (ptr, shot_of events)]> k
        | EPOLL_CTL_MOD, Some _ => <[fd := (ptr, shot_of events)]> k
        | EPOLL_CTL_DEL, _ => delete fd k
        | _, _ => k
        end
      else k
  | CallClose fd => delete fd k
  | _ => k
  end.

Definition kernel_calls (epfd : Z) (cs : list Call) (k : Watch) : Watch := fold_left (kernel_call epfd) cs k.

(** An event delivered: a one-shot descriptor stays, disarmed. *)
Definition fire (k : Watch) (fd : SocketFD) : Watch := 
  alter (λ '(j, i), (j, match i with Repeating => Repeating | _ => Fired end)) fd k.
Definition fire_all (fds : list SocketFD) (k : Watch) : Watch := fold_left fire fds k.

Lemma kernel_calls_app e cs cs' k : kernel_calls e (cs ++ cs') k = kernel_calls e cs' (kernel_calls e cs k).
Proof. apply fold_left_app. Qed.

Lemma kernel_close e fd k : kernel_calls e [CallEpollCtl e EPOLL_CTL_DEL fd JobNull 0; CallClose fd] k = delete fd k.
Proof. unfold kernel_calls, kernel_call, fold_left. rewrite decide_True by done. apply delete_delete_eq. Qed.

(** Calls the epoll does not see. *)
Definition unseen (c : Call) : Prop := match c with CallEpollCtl _ _ _ _ _ | CallClose _ => False | _ => True end.

Lemma kernel_unseen e cs k : Forall unseen cs → kernel_calls e cs k = k.
Proof. induction 1 as [|c cs Hc _ IH]; [done|]. by destruct c. Qed.

(** Calls that neither the epoll nor the report of a disconnection sees. *)
Definition silent (c : Call) : Prop :=
  match c with CallEpollCtl _ _ _ _ _ | CallClose _ | CallOnDisconnected _ => False | _ => True end.

Lemma kernel_silent e cs k : Forall silent cs → kernel_calls e cs k = k.
Proof. intros Hcs. apply kernel_unseen. eapply Forall_impl; [exact Hcs|]. by intros []. Qed.

Lemma silent_no cs id : Forall silent cs → CallOnDisconnected id ∉ cs.
Proof. rewrite Forall_forall. intros Hcs Hin. by apply Hcs in Hin. Qed.

Lemma kernel_other_epoll e e' op fd j ev k : e' ≠ e → kernel_call e k (CallEpollCtl e' op fd j ev) = k.
Proof. intros He. cbn. by rewrite decide_False. Qed.

(** ** What the methods of a session do

    A [footprint] is the relation between the session before, the calls made and
    the session after; [leaves] says that an action keeps within one. *)

Class Footprint (R : Session → list Call → Session → Prop) : Prop := {
  footprint_none s : R s [] s;
  footprint_app s cs s' cs' s'' : R s cs s' → R s' cs' s'' → R s (cs ++ cs') s''
}.

Section Footprints.
Context (R : Session → list Call → Session → Prop) `{!Footprint R}.

Definition leaves {A} (m : M World A) : Prop :=
  ∀ w a w', m w = Some (a, w') →
    ∃ cs, calls (os w') = calls (os w) ++ cs ∧ R (session w) cs (session w').

Lemma leaves_ret {A} (a : A) : leaves (mret a).
Proof. intros w a' w' [= <- <-]. exists []. rewrite app_nil_r. split; [done|apply footprint_none]. Qed.

Lemma leaves_undefined {A} : leaves (undefined (A := A)).
Proof. done. Qed.

Lemma leaves_bind {A B} (m : M World A) (f : A → M World B) :
  leaves m → (∀ a, leaves (f a)) → leaves (m ≫= f).
Proof.
  intros Hm Hf w b w'' Hrun. unfold mbind, M_bind in Hrun. destruct (m w) as [[a w']|] eqn:Hw; [|done].
  destruct (Hm _ _ _ Hw) as (cs & Hcs & HR), (Hf _ _ _ _ Hrun) as (cs' & Hcs' & HR').
  exists (cs ++ cs'). rewrite Hcs', Hcs, <- app_assoc. split; [done|]. by eapply footprint_app.
Qed.

Lemma leaves_gets {A} (f : World → A) : leaves (gets f).
Proof. intros w a w' [= <- <-]. exists []. rewrite app_nil_r. split; [done|apply footprint_none]. Qed.

Lemma leaves_when b (m : M World unit) : leaves m → leaves (when b m).
Proof. intros Hm. destruct b; [done|]. apply leaves_ret. Qed.

Lemma leaves_forever {A} n (m : M World (option A)) : leaves m → leaves (forever n m).
Proof.
  intros Hm. induction n as [|n IH]; [apply leaves_undefined|]. cbn [forever].
  apply leaves_bind; [done|]. intros [a|]; [apply leaves_ret|done].
Qed.

(** The system's answers are not the session's. *)
Lemma leaves_os f : (∀ o, calls (f o) = calls o) → leaves (modify (on_os f)).
Proof. intros Hf w a w' [= <- <-]. exists []. rewrite app_nil_r. split; [apply Hf|apply footprint_none]. Qed.

Lemma leaves_call c : (∀ s, R s [c] s) → leaves (call c).
Proof. intros Hc w a w' [= <- <-]. exists [c]. split; [done|apply Hc]. Qed.

Lemma leaves_update f : (∀ s, R s [] (f s)) → leaves (update f).
Proof. intros Hf w a w' [= <- <-]. exists []. rewrite app_nil_r. split; [done|apply Hf]. Qed.
End Footprints.

(** Goes through an action down to its calls and updates. *)
Ltac leave :=
  repeat lazymatch goal with
  | |- leaves ?R (_ ≫= _) => apply (leaves_bind R); [|intros ?]
  | |- leaves ?R (mret _) => apply (leaves_ret R)
  | |- leaves ?R (gets _) => apply (leaves_gets R)
  | |- leaves ?R (Session.this _) => apply (leaves_gets R)
  | |- leaves ?R undefined => apply (leaves_undefined R)
  | |- leaves ?R (when _ _) => apply (leaves_when R)
  | |- leaves ?R (forever _ _) => apply (leaves_forever R)
  | |- leaves ?R (modify (on_os _)) => apply (leaves_os R); reflexivity
  | |- leaves _ (match ?x with _ => _ end) => destruct x
  end.

(** *** A session settles

    It keeps its id; its descriptor stays or is given up, and the epoll loses
    exactly the descriptor given up; it never starts to receive again; and a
    disconnection is reported only of itself, no longer receiving. *)
Definition settles (v : ServerView) (s : Session) (cs : list Call) (s' : Session) : Prop :=
  mSessionID s' = mSessionID s ∧
  (mSessionFD s' = mSessionFD s ∨ mSessionFD s ≠ sINVALID_SOCKET_FD ∧ mSessionFD s' = sINVALID_SOCKET_FD) ∧
  (∀ k, kernel_calls (GetEpollFD v) cs k =
          if decide (mSessionFD s' = mSessionFD s) then k else delete (mSessionFD s) k) ∧
  (mIsRecving s = false → mIsRecving s' = false) ∧
  ∀ id, CallOnDisconnected id ∈ cs → id = mSessionID s ∧ mIsRecving s' = false.

#[export] Instance settles_footprint v : Footprint (settles v).
Proof.
  split.
  - intros s. split_and!; [done|by left| |done|set_solver]. intros k. by rewrite decide_True.
  - intros s cs s' cs' s'' (Hid & Hfd & Hk & Hr & Hd) (Hid' & Hfd' & Hk' & Hr' & Hd'). split_and!.
    + congruence.
    + destruct Hfd as [Hfd|[Hfd Hfd1]], Hfd' as [Hfd'|[Hfd' Hfd1']]; rewrite ?Hfd in *; intuition congruence.
    + intros k. rewrite kernel_calls_app, Hk', Hk. repeat case_decide; try done; intuition congruence.
    + auto.
    + intros id [Hin|Hin]%elem_of_app; [destruct (Hd id Hin)|destruct (Hd' id Hin)]; split; auto; congruence.
Qed.

(** *** A session keeps receiving *)
Definition keeps_receiving (s : Session) (cs : list Call) (s' : Session) : Prop :=
  mIsRecving s' = mIsRecving s.

#[export] Instance keeps_receiving_footprint : Footprint keeps_receiving.
Proof. split; [done|]. unfold keeps_receiving. congruence. Qed.

Section Session.
Context (v : ServerView) `{!QuietDisconnect v} (Hpolls : GetSendPollFD v ≠ GetEpollFD v).

(** Calls that are neither an [epoll_ctl] on the server's epoll, a [close] nor
    an [OnDisconnected]; updates of the other members. *)
Definition plain (c : Call) : Prop :=
  (∀ k, kernel_call (GetEpollFD v) k c = k) ∧ ∀ id, c ≠ CallOnDisconnected id.

Lemma settles_call c : plain c → leaves (settles v) (call c).
Proof.
  intros [Hk Hd]. apply (leaves_call (settles v)). intros s. split_and!; [done|by left| |done|].
  - intros k. cbn. rewrite Hk. by rewrite decide_True.
  - intros id Hin. apply list_elem_of_singleton in Hin. by destruct (Hd id).
Qed.

Lemma settles_update f :
  (∀ s, mSessionID (f s) = mSessionID s ∧ mSessionFD (f s) = mSessionFD s ∧ (mIsRecving s = false → mIsRecving (f s) = false)) →
  leaves (settles v) (update f).
Proof.
  intros Hf. apply (leaves_update (settles v)). intros s. destruct (Hf s) as (Hid & Hfd & Hr).
  split_and!; [done|by left| |done|set_solver]. intros k. by rewrite decide_True.
Qed.

Lemma settles_Disconnect : leaves (settles v) (Disconnect v).
Proof.
  intros w [] w' Hrun. rewrite Disconnect_run in Hrun by done. injection Hrun as <-. eexists. split; [done|]. cbn.
  destruct (session w) as [id fd r rj sd sj ps]. unfold disconnect_calls, close_calls. cbn [session on_session os calls log_calls mSessionID mSessionFD mIsRecving set_fd].
  split_and!; [done| | |done|].
  - cbn. destruct (decide (fd = sINVALID_SOCKET_FD)); [by left; congruence|by right].
  - intros k. rewrite kernel_calls_app, (kernel_unseen _ (notify_calls (mkSession id fd r rj sd sj ps))) by (destruct r, sd; repeat constructor).
    case_decide as Hfd; cbn [mSessionFD set_fd].
    + subst. by rewrite decide_True.
    + rewrite kernel_close. by rewrite decide_False by congruence.
  - intros id' Hin. case_decide; destruct r, sd; cbn in Hin; set_solver.
Qed.

Lemma keeps_Disconnect : leaves keeps_receiving (Disconnect v).
Proof. intros w [] w' Hrun. rewrite Disconnect_run in Hrun by done. injection Hrun as <-. by eexists. Qed.

Lemma settles_send_poll op fd j ev : leaves (settles v) (epoll_ctl_ (GetSendPollFD v) op fd j ev).
Proof. apply settles_call. split; [|done]. intros k. by apply kernel_other_epoll. Qed.

Ltac settle :=
  repeat first
    [ progress leave
    | apply settles_Disconnect | apply keeps_Disconnect | apply settles_send_poll
    | apply settles_call; by split
    | apply settles_update; intros []; by cbn
    | apply (leaves_call keeps_receiving); done
    | apply (leaves_update keeps_receiving); done
    | done ].

Lemma settles_add_unsent start ps : leaves (settles v) (add_unsent start ps).
Proof. revert start. induction ps as [|p ps IH]; intros start; cbn [add_unsent]; [settle|]. eapply leaves_bind; [exact _|unfold AddPackets; settle|intros _; apply IH]. Qed.

Lemma keeps_add_unsent start ps : leaves keeps_receiving (add_unsent start ps).
Proof. revert start. induction ps as [|p ps IH]; intros start; cbn [add_unsent]; [settle|]. eapply leaves_bind; [exact _|unfold AddPackets; settle|intros _; apply IH]. Qed.

Lemma settles_DoSend : leaves (settles v) (DoSend v).
Proof.
  unfold DoSend, DoSend_turn, DoSend_answer, DoSend_leftover, writev, SendJob_Reset, arm_send_poll.
  settle; apply settles_add_unsent.
Qed.

Lemma keeps_DoSend : leaves keeps_receiving (DoSend v).
Proof.
  unfold DoSend, DoSend_turn, DoSend_answer, DoSend_leftover, writev, SendJob_Reset, arm_send_poll.
  settle; apply keeps_add_unsent.
Qed.

Lemma settles_Send b n : leaves (settles v) (Session.Send v b n).
Proof. unfold Session.Send, arm_send_poll. settle; apply settles_DoSend. Qed.

Lemma keeps_Send b n : leaves keeps_receiving (Session.Send v b n).
Proof. unfold Session.Send, arm_send_poll. settle; apply keeps_DoSend. Qed.

Lemma settles_RecvJob_Execute : leaves (settles v) (RecvJob_Execute v).
Proof. unfold RecvJob_Execute, RecvJob_turn, stop_receiving, recv_buffer, recv. settle. Qed.

(** [Execute] fails only with the descriptor given up. *)
Definition ensures {A} (m : M World A) (Q : A → World → Prop) : Prop := ∀ w a w', m w = Some (a, w') → Q a w'.

Lemma ensures_bind {A B} (m : M World A) (f : A → M World B) Q : (∀ a, ensures (f a) Q) → ensures (m ≫= f) Q.
Proof. intros Hf w b w'' (a & w' & _ & Hrun)%bind_inv. by eapply Hf. Qed.

Lemma ensures_ret {A} (a : A) (Q : A → World → Prop) : (∀ w, Q a w) → ensures (mret a) Q.
Proof. by intros HQ w a' w' [= <- <-]. Qed.

Lemma RecvJob_turn_false :
  ensures (RecvJob_turn v) (λ r w, r = Some false → mSessionFD (session w) = sINVALID_SOCKET_FD).
Proof.
  assert (ensures (stop_receiving v) (λ r w, r = Some false → mSessionFD (session w) = sINVALID_SOCKET_FD)) as Hstop.
  { intros w r w' Hrun _. unfold stop_receiving in Hrun.
    rewrite (bind_eq (update _) _ _ _ _ eq_refl), (bind_eq _ _ _ _ _ (Disconnect_run v _)) in Hrun. by injection Hrun as _ <-. }
  unfold RecvJob_turn. apply ensures_bind; intros fd. case_decide; [done|].
  apply ensures_bind; intros b. apply ensures_bind; intros [| |[]]; try done.
  - apply ensures_bind; intros b'. apply ensures_bind; intros _. by apply ensures_ret.
  - by apply ensures_ret.
  - by apply ensures_ret.
  - apply ensures_bind; intros _. by apply ensures_ret.
Qed.

Lemma RecvJob_Execute_false w w' :
  RecvJob_Execute v w = Some (false, w') → mSessionFD (session w') = sINVALID_SOCKET_FD.
Proof. intros (n & w0 & _ & Hrun)%bind_inv. destruct (forever_turns _ _ _ _ _ Hrun) as (w1 & _ & Hturn). by apply (RecvJob_turn_false _ _ _ Hturn). Qed.

(** [Complete]: the session settles around the rearming of its descriptor. *)
Lemma RecvJob_Complete_rearms OnRecv w w' :
  (∀ id b n, leaves (settles v) (OnRecv id b n)) →
  RecvJob_Complete v OnRecv w = Some (tt, w') →
  ∃ cs1 s1 cs2, settles v (session w) cs1 s1 ∧ settles v s1 cs2 (session w') ∧
    calls (os w') = calls (os w) ++ cs1 ++
      [CallEpollCtl (GetEpollFD v) EPOLL_CTL_MOD (mSessionFD s1) (JobRecv (mSessionID s1))
         (Z.lor (Z.lor EPOLLONESHOT EPOLLIN) EPOLLET)] ++ cs2.
Proof.
  intros Hrecv (b & w0 & [= <- <-] & Hrun)%bind_inv.
  apply bind_inv in Hrun as ([] & w1 & Hrun & Hrun1).
  assert (∃ cs1, calls (os w1) = calls (os w) ++ cs1 ∧ settles v (session w) cs1 (session w1)) as (cs1 & Hcs1 & Hs1).
  { refine ((_ : leaves (settles v) _) _ _ _ Hrun). settle. }
  apply bind_inv in Hrun1 as (s1 & w1' & [= <- <-] & Hrun1). cbn in Hrun1.
  apply bind_inv in Hrun1 as (r & w2 & Hctl & Hrun2).
  assert (session w2 = session w1 ∧ calls (os w2) = calls (os w1) ++
    [CallEpollCtl (GetEpollFD v) EPOLL_CTL_MOD (mSessionFD (session w1)) (JobRecv (mSessionID (session w1)))
       (Z.lor (Z.lor EPOLLONESHOT EPOLLIN) EPOLLET)]) as [Hs2 Hc2].
  { apply bind_inv in Hctl as ([] & w2' & [= <-] & Hctl). rewrite gets_bind in Hctl. cbn in Hctl.
    destruct (epoll_ctl_answers _); [done|]. by injection Hctl as _ <-. }
  assert (leaves (settles v) (match r with
    | None => mret tt
    | Some _ => fd ← Session.this GetSocketFD;
        if decide (fd = sINVALID_SOCKET_FD) then update (SetReceiveState false);; Disconnect v else call CallPrintln
    end)) as Htail by settle.
  destruct (Htail _ _ _ Hrun2) as (cs2 & Hcs2 & Hs'). rewrite Hs2 in Hs'.
  exists cs1, (session w1), cs2. split; [done|]. split; [done|]. by rewrite Hcs2, Hc2, Hcs1, <- !app_assoc.
Qed.
End Session.

(** ** The loop *)

Section Loop.
Context {P : Type} `{JobPool P}.
Context (OnAccepeted : Endpoint.Endpoint → M (ServerWorld P) bool) (OnConnected : SessionID → M (ServerWorld P) unit).
Context (OnDisconnected : SessionID → M World unit) (OnRecv : ServerView → SessionID → Z → Z → M World Z).

(** The server and the system; the interest list of its epoll; the jobs workers
    are in [Execute] and in [Complete] of. *)
Record Loop := mkLoop {
  world : ServerWorld P;
  watched : Watch;
  executing : list JobPtr;
  completing : list JobPtr
}.

(** A method of a session's job, on the session where it lies. *)
Definition on_session_of {A} (id : SessionID) (m : ServerView → M World A) : M (ServerWorld P) A :=
  s ← this Datatypes.id;
  on_slot (GetIndex id) (m (view OnDisconnected s)).

(** The virtual calls of a worker. *)
Definition Execute (stack : Endpoint.sockaddr) (job : JobPtr) : M (ServerWorld P) bool :=
  match job with
  | JobPoll => PollJob_Execute
  | JobSendPoll => SendPollJob_Execute
  | JobAccept => AcceptJob_Execute OnAccepeted OnConnected stack
  | JobRecv id => on_session_of id RecvJob_Execute
  | JobSend id => on_session_of id SendJob_Execute
  | JobNull => undefined
  end.

(** [IJob::Complete] is empty. *)
Definition Complete (job : JobPtr) : M (ServerWorld P) unit :=
  match job with
  | JobAccept => AcceptJob_Complete
  | JobRecv id => on_session_of id (λ v, RecvJob_Complete v (OnRecv v))
  | JobPoll | JobSendPoll | JobSend _ => mret tt
  | JobNull => undefined
  end.

(** What the system answers to the calls of one handler. *)
Record Answers := mkAnswers {
  to_recv : list RecvAnswer;
  to_writev : list WritevAnswer;
  to_epoll_ctl : list (option Errno);
  to_calls : list SysResult;
  to_epoll_wait : list WaitAnswer;
  to_accept : list AcceptAnswer
}.

Definition give (an : Answers) (w : ServerWorld P) : ServerWorld P :=
  mkServerWorld (server w) (mkOS (to_recv an) (to_writev an) (to_epoll_ctl an) (calls (sys w)))
    (to_calls an) (to_epoll_wait an) (to_accept an) (slot_address w) (fresh_slots w) (idle_unique w).

(** A handler run through: the epoll sees the calls it logged. *)
Definition handle {A} (m : M (ServerWorld P) A) (an : Answers) (l : Loop) : option (A * Loop) :=
  let w := world l in
  '(a, w') ← m (give an w);
  Some (a, mkLoop w' (kernel_calls (mEpollFD (server w)) (drop (length (calls (sys w))) (calls (sys w'))) (watched l))
             (executing l) (completing l)).

(** A session the server has handed out, and its slot. *)
Definition live (s : Server P) (id : SessionID) (session : Session) : Prop :=
  ∃ g, mSessionGroup s = Some g ∧ at_index (mSessionVector g) (GetIndex id) = Some session ∧
    GetIndex id ∉ mSessionIndexPool g ∧ mSessionID session = id.

(** [epoll_wait] gives descriptors that have not fired, each once. *)
Definition delivers (k : Watch) (fds : list SocketFD) (answers : list WaitAnswer) : Prop :=
  NoDup fds ∧
  match answers with
  | Ready ptrs :: _ => Forall2 (λ fd job, ∃ i, k !! fd = Some (job, i) ∧ i ≠ Fired) fds ptrs
  | _ => fds = []
  end.

(** [accept] gives a descriptor that is not open. *)
Definition fresh_fd (k : Watch) (a : AcceptAnswer) : Prop :=
  match a with Accepted fd _ => 0 ≤ fd ∧ k !! fd = None | AcceptError _ => True end.

(** A handler gets just the [epoll_wait] answers it uses; the accept loop goes by
    turns, so that the other workers run in between; and the user sends to the
    ids it was given. *)
Inductive works (l : Loop) : Loop → Prop :=
  | pool_moves p p' :
      mWorkerThreadPool (server (world l)) = Some p → waiting p' = waiting p → accepting p' →
      works l (mkLoop (with_pool p' (world l)) (watched l) (executing l) (completing l))
  | worker_takes p p' job rest :
      mWorkerThreadPool (server (world l)) = Some p → waiting p = job :: rest → waiting p' = rest → accepting p' →
      works l (mkLoop (with_pool p' (world l)) (watched l) (job :: executing l) (completing l))
  | worker_executes job others stack an fds (r : bool) l' :
      executing l ≡ₚ job :: others → job ≠ JobAccept → delivers (watched l) fds (to_epoll_wait an) →
      handle (Execute stack job) an l = Some (r, l') → waits (world l') = [] →
      works l (mkLoop (world l') (fire_all fds (watched l')) others
                (if r then job :: completing l else completing l))
  | worker_accepts others stack an r l' :
      executing l ≡ₚ JobAccept :: others → Forall (fresh_fd (watched l)) (to_accept an) →
      handle (AcceptJob_turn OnAccepeted OnConnected (mListenFD (server (world l))) (mEpollFD (server (world l))) stack)
        an l = Some (r, l') →
      works l (match r with
              | None => l'
              | Some b => mkLoop (world l') (watched l') others
                            (if (b : bool) then JobAccept :: completing l else completing l)
              end)
  | worker_completes job others an l' :
      completing l ≡ₚ job :: others → handle (Complete job) an l = Some (tt, l') →
      works l (mkLoop (world l') (watched l') (executing l) others).

(** The workers, and the user's other threads. *)
Inductive step (l : Loop) : Loop → Prop :=
  | worker_moves l' : works l l' → step l l'
  | user_sends id session buffer size an l' :
      live (server (world l)) id session → handle (Send OnDisconnected id buffer size) an l = Some (tt, l') →
      step l l'.

(** The jobs that wait in the queue or that a worker is at. [PollJob::Complete]
    does nothing, so a worker there is done with the job. *)
Definition queue (s : Server P) : list JobPtr := from_option waiting [] (mWorkerThreadPool s).

Definition held (l : Loop) : list JobPtr :=
  queue (server (world l)) ++ executing l ++ filter (λ job, job ≠ JobPoll) (completing l).

(** What a descriptor of [job] should be: armed, unless the job is held. *)
Definition due (job : JobPtr) (h : list JobPtr) : Shot := if decide (job ∈ h) then Fired else Armed.

(** ** The invariant

    [Inv h s k]: with the jobs [h] queued or at a worker, each job is in one
    place, and every open session, the listening socket and the poll itself are
    looked after. *)
Record Inv (h : list JobPtr) (s : Server P) (k : Watch) : Prop := {
  inv_polls : mSendPollFD s ≠ mEpollFD s;
  inv_table : ∃ g, mSessionGroup s = Some g ∧ Z.of_nat (length (mSessionVector g)) ≤ 65536 ∧ NoDup (mSessionIndexPool g);
  inv_once : NoDup h;
  inv_poll : JobPoll ∈ h;
  inv_known job : job ∈ h → job = JobPoll ∨ job = JobAccept ∨ ∃ id session, job = JobRecv id ∧ live s id session;
  inv_watched fd job b : k !! fd = Some (job, b) →
    job = JobAccept ∧ fd = mListenFD s ∨
    ∃ id session, job = JobRecv id ∧ live s id session ∧ mSessionFD session = fd ∧ fd ≠ sINVALID_SOCKET_FD;
  inv_armed fd job b : k !! fd = Some (job, b) → b = due job h;
  inv_listen : mListenFD s ≠ sINVALID_SOCKET_FD ∧ ∃ b, k !! mListenFD s = Some (JobAccept, b);
  inv_connected id session : live s id session → mSessionFD session ≠ sINVALID_SOCKET_FD →
    ∃ b, k !! mSessionFD session = Some (JobRecv id, b)
}.

Lemma due_iff job h h' : (job ∈ h ↔ job ∈ h') → due job h = due job h'.
Proof. intros Hh. unfold due. repeat case_decide; tauto. Qed.

#[export] Instance Inv_proper : Proper ((≡ₚ) ==> eq ==> eq ==> iff) Inv.
Proof.
  intros h h' Hh s _ <- k _ <-. split; intros [? ? ? ? Hk ? Ha ? ?]; split; try done.
  all: first [by rewrite <- Hh | by rewrite Hh | idtac].
  - intros job Hin. apply Hk. by rewrite Hh.
  - intros fd job b Hfd. rewrite (Ha _ _ _ Hfd). apply due_iff. by rewrite Hh.
  - intros job Hin. apply Hk. by rewrite <- Hh.
  - intros fd job b Hfd. rewrite (Ha _ _ _ Hfd). apply due_iff. by rewrite Hh.
Qed.

Lemma live_det s id session session' : live s id session → live s id session' → session = session'.
Proof. intros (g & Hg & Hs & _) (g' & Hg' & Hs' & _). congruence. Qed.

(** *** One job moves *)

(** A job that no descriptor will queue is forgotten. *)
Lemma Inv_drop h s k job :
  Inv (job :: h) s k → job ≠ JobPoll → (∀ fd b, k !! fd ≠ Some (job, b)) → Inv h s k.
Proof.
  intros [? ? Hnd Hp Hk ? Ha ? ?] Hne Hno. apply NoDup_cons in Hnd as [Hnin Hnd]. split; try done.
  - apply elem_of_cons in Hp as [Hp|Hp]; [by subst|done].
  - intros job' Hin. apply Hk. by right.
  - intros fd job' b Hfd. rewrite (Ha _ _ _ Hfd). assert (job' ≠ job) by (intros ->; by apply (Hno fd b)).
    apply due_iff. set_solver.
Qed.

(** Two descriptors never have the same job. *)
Lemma Inv_fd h s k fd fd' job b b' :
  Inv h s k → k !! fd = Some (job, b) → k !! fd' = Some (job, b') → fd = fd'.
Proof.
  intros HI Hfd Hfd'. destruct (inv_watched _ _ _ HI _ _ _ Hfd) as [[-> ->]|(id & s1 & -> & Hl & <- & _)],
    (inv_watched _ _ _ HI _ _ _ Hfd') as [[Hj ->]|(id' & s2 & Hj & Hl' & <- & _)]; try done.
  injection Hj as <-. by rewrite (live_det _ _ _ _ Hl Hl').
Qed.

(** A descriptor of the job is rearmed and the worker is done with it. *)
Lemma Inv_arm h s k fd job b :
  Inv (job :: h) s k → job ≠ JobPoll → k !! fd = Some (job, b) → Inv h s (<[fd := (job, Armed)]> k).
Proof.
  intros HI Hne Hfd. pose proof (λ fd' b', Inv_fd _ _ _ fd fd' job b b' HI Hfd) as Huniq.
  assert (∀ fd' x, <[fd := (job, Armed)]> k !! fd' = Some x → ∃ b', k !! fd' = Some (x.1, b') ∧
    (fd' = fd ∧ x = (job, Armed) ∨ fd' ≠ fd ∧ x.1 ≠ job ∧ b' = x.2)) as Hk.
  { intros fd' [j' b'] [[<- <-]|[Hn Hl]]%lookup_insert_Some; [exists b; by auto|].
    exists b'. split; [done|right]. split_and!; [done| |done]. cbn. intros ->. apply Hn. by eapply Huniq. }
  destruct HI as [? ? Hnd Hp Hkn Hw Ha Hl Hc]. apply NoDup_cons in Hnd as [Hnin Hnd]. split; try done.
  - set_solver.
  - intros job' Hin. apply Hkn. by right.
  - intros fd' job' b' Hl'. destruct (Hk _ _ Hl') as (b'' & Hb & _). by eapply Hw.
  - intros fd' job' b' Hl'. destruct (Hk _ _ Hl') as (b'' & Hb & [[-> [= -> ->]]|(Hn & Hj & Hbb)]);
      [unfold due; by rewrite decide_False|].
    cbn in *. subst. rewrite (Ha _ _ _ Hb). apply due_iff. set_solver.
  - destruct Hl as [Hl0 [bl Hl]]; split; [done|]. destruct (decide (fd = mListenFD s)) as [Hd|Hn].
    + exists Armed. rewrite <- Hd in *. rewrite lookup_insert_eq. by simplify_eq.
    + exists bl. by rewrite lookup_insert_ne.
  - intros id session Hli Hne'. destruct (Hc _ _ Hli Hne') as [bc Hbc].
    destruct (decide (fd = mSessionFD session)) as [Hd|Hn].
    + exists Armed. rewrite <- Hd in *. rewrite lookup_insert_eq. by simplify_eq.
    + exists bc. by rewrite lookup_insert_ne.
Qed.

(** An event is delivered: its job is queued. *)
Lemma Inv_fire h s k fd job i :
  Inv h s k → k !! fd = Some (job, i) → i ≠ Fired → Inv (job :: h) s (fire k fd).
Proof.
  intros HI Hfd Hi. pose proof (λ fd' b', Inv_fd _ _ _ fd fd' job i b' HI Hfd) as Huniq.
  pose proof (inv_armed _ _ _ HI _ _ _ Hfd) as Hdue. unfold due in Hdue. case_decide as Hnin; [done|]. subst i.
  assert (∀ fd', fire k fd !! fd' = if decide (fd' = fd) then Some (job, Fired) else k !! fd') as Hk.
  { intros fd'. unfold fire. case_decide as Hd; [subst; by rewrite lookup_alter_eq, Hfd|by rewrite lookup_alter_ne]. }
  destruct HI as [? ? Hnd Hp Hkn Hw Ha Hl Hc]. split; try done.
  - by constructor.
  - by right.
  - intros job' [->|Hin]%elem_of_cons; [|auto].
    destruct (Hw _ _ _ Hfd) as [[? _]|(id & session & ? & ? & _)]; [by auto|]. right; right. by exists id, session.
  - intros fd' job' b' Hl'. rewrite Hk in Hl'. case_decide; [simplify_eq; by eapply Hw|by eapply Hw].
  - intros fd' job' b' Hl'. rewrite Hk in Hl'. case_decide as Hd.
    + simplify_eq. unfold due. by rewrite decide_True by (by left).
    + rewrite (Ha _ _ _ Hl'). apply due_iff. assert (job' ≠ job) by (intros ->; apply Hd; symmetry; by eapply Huniq). set_solver.
  - destruct Hl as [Hl0 [bl Hl]]; split; [done|]. rewrite Hk. case_decide as Hd; [|by exists bl]. rewrite Hd in Hl. simplify_eq. by exists Fired.
  - intros id session Hli Hne. destruct (Hc _ _ Hli Hne) as [bc Hbc]. rewrite Hk.
    case_decide as Hd; [|by exists bc]. rewrite Hd in Hbc. simplify_eq. by exists Fired.
Qed.

Lemma Inv_fire_all h s k fds jobs :
  Inv h s k → NoDup fds → Forall2 (λ fd job, ∃ i, k !! fd = Some (job, i) ∧ i ≠ Fired) fds jobs →
  Inv (jobs ++ h) s (fire_all fds k).
Proof.
  intros HI Hnd Hf. revert h k jobs HI Hf. induction Hnd as [|fd fds Hnin Hnd IH]; intros h k jobs HI Hf.
  - by apply Forall2_nil_inv_l in Hf as ->.
  - apply Forall2_cons_inv_l in Hf as (job & jobs' & (i & Hj & Hi) & Hf & ->). cbn [fire_all fold_left].
    change (Inv ((job :: jobs') ++ h) s (fire_all fds (fire k fd))).
    rewrite (Permutation_middle jobs' h job). apply (IH (job :: h)); [by eapply Inv_fire|].
    eapply Forall2_impl_in; [exact Hf|]. cbn. intros fd' job' Hin (i' & Hl & Hi'). exists i'. split; [|done].
    unfold fire. rewrite lookup_alter_ne; [done|]. by intros ->.
Qed.

(** *** A session moves *)

Definition set_slot (id : SessionID) (session : Session) (s : Server P) : Server P :=
  match mSessionGroup s with
  | None => s
  | Some g => set_group (Some (mkSessionGroup (mMaxSession g) (<[Z.to_nat (GetIndex id) := session]> (mSessionVector g))
                (mSessionIndexPool g) (sUniqueNumber g))) s
  end.

Lemma live_set_slot s id session session' :
  live s id session → mSessionID session' = id →
  ∀ id2 session2, live (set_slot id session' s) id2 session2 ↔
    id2 = id ∧ session2 = session' ∨ id2 ≠ id ∧ live s id2 session2.
Proof.
  intros (g & Hg & Hs & Hn & Hid) Hid' id2 session2. unfold live at 1, set_slot. rewrite Hg. cbn.
  pose proof (at_index_bound _ _ _ Hs) as Hb. split.
  - intros (? & [= <-] & Hs2 & Hn2 & Hid2). cbn in *. rewrite at_index_insert in Hs2 by done. case_decide as Hd.
    + simplify_eq. by left.
    + right. split; [by intros ->|]. by exists g.
  - assert (∀ i, at_index (<[Z.to_nat (GetIndex id) := session']> (mSessionVector g)) i =
      if decide (GetIndex id = i) then Some session' else at_index (mSessionVector g) i) as Hat
      by (intros i; by apply at_index_insert).
    intros [[-> ->]|[Hne (g' & Hg' & Hs2 & Hn2 & Hid2)]]; eexists; (split; [done|]); cbn; rewrite Hat.
    + by rewrite decide_True.
    + simplify_eq. rewrite decide_False; [done|]. intros Heq. rewrite Heq in *. congruence.
Qed.

Lemma set_slot_set_slot id session session' s : set_slot id session' (set_slot id session s) = set_slot id session' s.
Proof. unfold set_slot. destruct (mSessionGroup s) as [g|] eqn:Hg; [|by rewrite Hg]. cbn. by rewrite list_insert_insert_eq. Qed.

Lemma set_slot_members id session s :
  mEpollFD (set_slot id session s) = mEpollFD s ∧ mSendPollFD (set_slot id session s) = mSendPollFD s ∧
  mListenFD (set_slot id session s) = mListenFD s ∧ mWorkerThreadPool (set_slot id session s) = mWorkerThreadPool s.
Proof. unfold set_slot. by destruct (mSessionGroup s). Qed.

Lemma Inv_settles h s k id session session' cs v :
  Inv h s k → live s id session → GetEpollFD v = mEpollFD s → settles v session cs session' →
  Inv h (set_slot id session' s) (kernel_calls (mEpollFD s) cs k) ∧ live (set_slot id session' s) id session'.
Proof.
  intros HI Hli Hv (Hid & Hfd & Hk & _). assert (mSessionID session = id) as Hsid by (by destruct Hli as (? & _ & _ & _ & ?)).
  assert (mSessionID session' = id) as Hsid' by congruence.
  pose proof (live_set_slot _ _ _ _ Hli Hsid') as Hl'. rewrite <- Hv, Hk.
  destruct (set_slot_members id session' s) as (He & Hse & Hli' & Hpo).
  assert (∀ fd x, (if decide (mSessionFD session' = mSessionFD session) then k else delete (mSessionFD session) k) !! fd = Some x →
    k !! fd = Some x ∧ (mSessionFD session' = mSessionFD session ∨ fd ≠ mSessionFD session)) as Hsub.
  { intros fd x. case_decide; [by auto|]. intros [? ?]%lookup_delete_Some. auto. }
  assert (∀ fd x, k !! fd = Some x → (mSessionFD session ≠ sINVALID_SOCKET_FD → mSessionFD session ≠ fd) →
    (if decide (mSessionFD session' = mSessionFD session) then k else delete (mSessionFD session) k) !! fd = Some x) as Hsup.
  { intros fd x Hx Hne. case_decide; [done|]. rewrite lookup_delete_ne; [done|]. apply Hne. by destruct Hfd as [|[]]. }
  split; [|apply Hl'; by left]. destruct HI as [Hpp (g & Hg & Hlen & Hpool) Hnd Hp Hkn Hw Ha Hls Hc]. split; try done.
  - by rewrite He, Hse.
  - unfold set_slot. rewrite Hg. cbn. eexists. split; [done|]. cbn. by rewrite length_insert.
  - intros job Hin. destruct (Hkn job Hin) as [?|[?|(id2 & s2 & ? & Hl2)]]; auto. right; right. exists id2.
    destruct (decide (id2 = id)) as [->|]; eexists; (split; [done|]); apply Hl'; by eauto.
  - rewrite Hli'. intros fd job b [Hx Hor]%Hsub. destruct (Hw _ _ _ Hx) as [?|(id2 & s2 & ? & Hl2 & Hf2 & Hfn)]; [by left|].
    right. exists id2. destruct (decide (id2 = id)) as [->|].
    + exists session'. rewrite (live_det _ _ _ _ Hl2 Hli) in Hf2. split_and!; [done|apply Hl'; by left| |done].
      destruct Hor; congruence.
    + exists s2. split_and!; [done|apply Hl'; by right|done..].
  - intros fd job b [Hx _]%Hsub. by eapply Ha.
  - rewrite Hli'. destruct Hls as [Hl0 [b Hb]]; split; [done|]. exists b. apply Hsup; [done|]. intros Hinv Heq.
    destruct (Hc _ _ Hli Hinv) as [b' Hb']. rewrite Heq in Hb'. by simplify_eq.
  - intros id2 s2 [[-> ->]|[Hne Hl2]]%Hl' Hne2.
    + destruct Hfd as [Hfd|[_ ?]]; [|done]. rewrite Hfd in *. rewrite decide_True by done. by apply Hc.
    + destruct (Hc _ _ Hl2 Hne2) as [b2 Hb2]. exists b2. apply Hsup; [done|]. intros Hinv Heq.
      destruct (Hc _ _ Hli Hinv) as [b' Hb']. rewrite Heq in Hb'. simplify_eq.
Qed.

(** *** A client comes in *)

Lemma live_added s g fd id g' :
  mSessionGroup s = Some g → SessionGroup.AddSession fd g = Some (id, g') →
  Z.of_nat (length (mSessionVector g)) ≤ 65536 → NoDup (mSessionIndexPool g) →
  ∃ raw, ∀ id2 session2, live (set_group (Some g') s) id2 session2 ↔
    id2 = id ∧ session2 = Session_construct id fd raw ∨ id2 ≠ id ∧ live s id2 session2.
Proof.
  intros Hg (i & pool & raw & Hp & Hraw & -> & ->)%AddSession_Some Hlen Hnd. exists raw.
  pose proof (at_index_bound _ _ _ Hraw) as Hi. rewrite Hp in Hnd. apply NoDup_cons in Hnd as [Hin Hnd].
  set (id := make_id (sUniqueNumber g) i). assert (GetIndex id = i) as Hidx by (apply GetIndex_make_id; lia).
  assert (∀ j, at_index (<[Z.to_nat i := slot_construct id fd raw]> (mSessionVector g)) j =
    if decide (i = j) then Some (slot_construct id fd raw) else at_index (mSessionVector g) j) as Hat
    by (intros j; by apply at_index_insert).
  intros id2 session2. unfold live. cbn. split.
  - intros (? & [= <-] & Hs & Hn & Hid2). cbn in *. rewrite Hat in Hs. case_decide as Hd.
    + simplify_eq. by left.
    + right. split; [intros ->; congruence|]. exists g. split_and!; [done..| |done]. rewrite Hp. set_solver.
  - intros [[-> ->]|[Hne (g2 & Hg2 & Hs & Hn & Hid2)]]; eexists; (split; [done|]); cbn; rewrite Hat.
    + rewrite Hidx. by rewrite decide_True.
    + simplify_eq. rewrite Hp in Hn. rewrite decide_False by set_solver. set_solver.
Qed.

Lemma added_new s g fd id g' :
  mSessionGroup s = Some g → SessionGroup.AddSession fd g = Some (id, g') →
  Z.of_nat (length (mSessionVector g)) ≤ 65536 → ∀ session, ¬ live s id session.
Proof.
  intros Hg (i & pool & raw & Hp & Hraw & -> & _)%AddSession_Some Hlen session (g2 & Hg2 & _ & Hn & _). simplify_eq.
  apply Hn. apply at_index_bound in Hraw. rewrite GetIndex_make_id, Hp by lia. by left.
Qed.

(** What the server's members the invariant is about say. *)
Lemma Inv_members h s s' k :
  Inv h s k → mSendPollFD s' = mSendPollFD s → mEpollFD s' = mEpollFD s → mListenFD s' = mListenFD s →
  mSessionGroup s' = mSessionGroup s → Inv h s' k.
Proof.
  intros [? ? ? ? Hk Hw ? ? Hc] Hsp He Hl Hg.
  assert (∀ id session, live s' id session ↔ live s id session) as Hli by (intros; unfold live; by rewrite Hg).
  split; rewrite ?Hsp, ?He, ?Hl, ?Hg; try done.
  - intros job Hin. destruct (Hk job Hin) as [?|[?|(id & session & ?)]]; auto. right; right. exists id, session. by rewrite Hli.
  - intros fd job b Hfd. destruct (Hw _ _ _ Hfd) as [?|(id & session & ?)]; auto. right. exists id, session. by rewrite Hli.
  - intros id session. rewrite Hli. apply Hc.
Qed.

Lemma Inv_accept h s k fd g id g' :
  Inv h s k → mSessionGroup s = Some g → SessionGroup.AddSession fd g = Some (id, g') →
  0 ≤ fd → k !! fd = None → Inv h (set_group (Some g') s) (<[fd := (JobRecv id, Armed)]> k).
Proof.
  intros [Hpp (g0 & Hg0 & Hlen & Hnd) Ho Hp Hkn Hw Ha Hls Hc] Hg Hadd Hfd Hk. assert (g0 = g) as -> by congruence.
  destruct (live_added _ _ _ _ _ Hg Hadd Hlen Hnd) as (raw & Hli).
  pose proof (added_new _ _ _ _ _ Hg Hadd Hlen) as Hnew.
  assert (JobRecv id ∉ h) as Hnh.
  { intros [?|[?|(id2 & s2 & [= <-] & Hl2)]]%Hkn; [done..|]. by apply (Hnew s2). }
  split; try done.
  - eexists. split; [done|]. apply AddSession_Some in Hadd as (i & pool & r & Hpool & _ & _ & ->). cbn.
    rewrite length_insert. split; [done|]. rewrite Hpool in Hnd. by apply NoDup_cons in Hnd as [_ Hnd].
  - intros job Hin. destruct (Hkn job Hin) as [?|[?|(id2 & s2 & -> & Hl2)]]; auto. right; right.
    exists id2, s2. split; [done|]. apply Hli. right. split; [|done]. by intros ->.
  - intros fd' job b [[<- [= <- <-]]|[Hne Hx]]%lookup_insert_Some.
    + right. eexists id, _. split_and!; [done|apply Hli; by left|done|unfold sINVALID_SOCKET_FD; lia].
    + destruct (Hw _ _ _ Hx) as [?|(id2 & s2 & -> & Hl2 & ?)]; [by left|]. right. exists id2, s2.
      split_and!; try tauto. apply Hli. right. split; [|done]. intros ->. by apply (Hnew s2).
  - intros fd' job b [[<- [= <- <-]]|[Hne Hx]]%lookup_insert_Some; [|by eapply Ha].
    unfold due. by rewrite decide_False.
  - destruct Hls as [Hl0 [b Hb]]; split; [done|]. exists b. rewrite lookup_insert_ne; [done|]. intros Heq. cbn in Heq. congruence.
  - intros id2 s2 [[-> ->]|[Hne Hl2]]%Hli Hinv.
    + exists Armed. cbn. by rewrite lookup_insert_eq.
    + destruct (Hc _ _ Hl2 Hinv) as [b Hb]. exists b. rewrite lookup_insert_ne; [done|]. congruence.
Qed.

(** *** The handlers *)

Context (admits : Endpoint.Endpoint → bool).
Context (Haccept : quiet_handlers OnAccepeted OnConnected admits).
Context (Hdisconnect : ∀ id w, OnDisconnected id w = Some (tt, w)).
Context (Hrecv : ∀ v id buffer size, QuietDisconnect v → GetSendPollFD v ≠ GetEpollFD v →
  leaves (settles v) (OnRecv v id buffer size)).

#[local] Instance view_quiet (s : Server P) : QuietDisconnect (view OnDisconnected s).
Proof. exact Hdisconnect. Qed.

Lemma handle_run {A} (m : M (ServerWorld P) A) an l a l' :
  handle m an l = Some (a, l') →
  ∃ w', m (give an (world l)) = Some (a, w') ∧ world l' = w' ∧
    executing l' = executing l ∧ completing l' = completing l ∧
    ∀ cs, calls (sys w') = calls (sys (world l)) ++ cs →
      watched l' = kernel_calls (mEpollFD (server (world l))) cs (watched l).
Proof.
  unfold handle. intros ([a' w'] & Hm & Heq)%bind_Some. apply (inj Some), pair_eq in Heq as [<- <-]. exists w'. split_and!; try done.
  intros cs Hcs. cbn. by rewrite Hcs, drop_app_length.
Qed.

Lemma on_session_of_eq {A} id (m : ServerView → M World A) w session0 :
  live (server w) id session0 →
  on_session_of id m w =
    ('(a, w1) ← m (view OnDisconnected (server w)) (mkWorld session0 (sys w) (slot_address w (GetIndex id)));
     Some (a, set_server (set_slot id (session w1) (server w)) (set_sys (os w1) w))).
Proof.
  intros (g & Hg & Hs & _). unfold on_session_of. rewrite (bind_eq _ _ _ _ _ (this_run _ _)).
  unfold on_slot, set_slot. rewrite Hg. cbn [mbind option_bind]. by rewrite Hs.
Qed.

Lemma on_session_of_run {A} id (m : ServerView → M World A) w a w' session0 :
  live (server w) id session0 → on_session_of id m w = Some (a, w') →
  ∃ w1, m (view OnDisconnected (server w)) (mkWorld session0 (sys w) (slot_address w (GetIndex id))) = Some (a, w1) ∧
    server w' = set_slot id (session w1) (server w) ∧ sys w' = os w1 ∧ waits w' = waits w.
Proof.
  intros Hli. rewrite (on_session_of_eq _ _ _ _ Hli). intros ([a' w1] & Hm & Heq)%bind_Some.
  apply (inj Some), pair_eq in Heq as [<- <-]. by exists w1.
Qed.

Lemma Send_eq id buffer size w session0 :
  live (server w) id session0 →
  Send OnDisconnected id buffer size w = on_session_of id (λ v, Session.Send v buffer size) w.
Proof.
  intros (g & Hg & Hs & _ & Hid). unfold Send, on_session_of.
  erewrite (bind_eq (GetSession id)).
  2:{ unfold GetSession. rewrite (bind_eq _ _ _ _ _ (this_run _ _)), Hg. cbn [mbind option_bind].
      rewrite (GetSession_slot _ _ _ Hs). change (slot_id session0) with (mSessionID session0).
      rewrite decide_True by done. reflexivity. }
  done.
Qed.

Lemma Send_handle id buffer size an l session0 :
  live (server (world l)) id session0 →
  handle (Send OnDisconnected id buffer size) an l = handle (on_session_of id (λ v, Session.Send v buffer size)) an l.
Proof. intros Hli. unfold handle. by rewrite (Send_eq _ _ _ (give an (world l)) _ Hli). Qed.

(** [PollJob] queues what is ready, and itself. *)
Definition ready (answers : list WaitAnswer) : list JobPtr :=
  match answers with Ready ptrs :: _ => ptrs | _ => [] end.

Lemma PollJob_run w r w' p :
  mWorkerThreadPool (server w) = Some p → accepting p → PollJob_Execute w = Some (r, w') →
  ∃ p' cs, r = true ∧ server w' = set_pool (Some p') (server w) ∧ accepting p' ∧
    waiting p' = waiting p ++ ready (waits w) ++ [JobPoll] ∧
    Forall silent cs ∧ calls (sys w') = calls (sys w) ++ cs.
Proof.
  intros Hp Hacc Hrun. unfold PollJob_Execute in Hrun. rewrite (bind_eq _ _ _ _ _ (this_run _ _)) in Hrun.
  apply bind_inv in Hrun as (a & w1 & Hwait & Hrun).
  unfold epoll_wait in Hwait. rewrite (bind_eq _ _ _ _ _ (sys_run _ _)) in Hwait. rewrite gets_bind in Hwait.
  change (waits (logged _ w)) with (waits w) in Hwait.
  assert (∀ js cs wx w2 rx, mWorkerThreadPool (server wx) = Some p → server wx = server w →
    calls (sys wx) = calls (sys w) ++ cs → Forall silent cs →
    (AddJobs js;; AddJob JobPoll;; mret true) wx = Some (rx, w2) →
    ∃ p' cs, rx = true ∧ server w2 = set_pool (Some p') (server w) ∧ accepting p' ∧
      waiting p' = waiting p ++ js ++ [JobPoll] ∧ Forall silent cs ∧
      calls (sys w2) = calls (sys w) ++ cs) as Hadd.
  { intros js cs wx w2 rx Hpx Hsx Hcx Hu. rewrite <- AddJobs_snoc.
    destruct (AddJobs_run (js ++ [JobPoll]) wx p Hpx Hacc) as (p' & He & Ha' & Hw').
    rewrite (bind_eq _ _ _ _ _ He). intros [= <- <-]. exists p', cs. cbn. by rewrite Hsx. }
  destruct (waits w) as [|[ptrs|e] rest]; [done| |].
  - case_decide; [|done]. injection Hwait as <- <-.
    eapply (Hadd ptrs [CallEpollWait _]); [..|exact Hrun]; [done..|]. by repeat constructor.
  - injection Hwait as <- <-. cbn [ready].
    destruct e; rewrite ?(bind_eq _ _ _ _ _ (sys_run _ _)) in Hrun;
      (eapply (Hadd [] (CallEpollWait _ :: _)); [..|exact Hrun]; [done|done| |];
        [cbn; rewrite <- ?app_assoc; reflexivity|by repeat constructor]).
Qed.

(** A turn of the accept loop: nothing, a client turned away, or a client with a
    session under the epoll. *)
Inductive accepting_turn (w w' : ServerWorld P) : option bool → list Call → Prop :=
  | no_client r cs : r = None ∨ r = Some true → server w' = server w → Forall silent cs → accepting_turn w w' r cs
  | turned_away fd address rest cs :
      accepts w = Accepted fd address :: rest → server w' = server w → Forall silent cs →
      accepting_turn w w' None (cs ++ [CallClose fd])
  | taken_in fd address rest id g g' cs cs' j ev :
      accepts w = Accepted fd address :: rest → mSessionGroup (server w) = Some g →
      SessionGroup.AddSession fd g = Some (id, g') → server w' = set_group (Some g') (server w) →
      Forall silent cs → Forall silent cs' →
      accepting_turn w w' None
        (cs ++ [CallEpollCtl (mSendPollFD (server w)) EPOLL_CTL_ADD fd j ev;
                CallEpollCtl (mEpollFD (server w)) EPOLL_CTL_ADD fd (JobRecv id) receive_events] ++ cs').

Lemma AcceptJob_turn_needs stack w r w' g fd address rest :
  mSessionGroup (server w) = Some g → accepts w = Accepted fd address :: rest →
  admits (Endpoint.of_sockaddr address stack) = true →
  AcceptJob_turn OnAccepeted OnConnected (mListenFD (server w)) (mEpollFD (server w)) stack w = Some (r, w') →
  ∃ id g' f flags, SessionGroup.AddSession fd g = Some (id, g') ∧ results w = f :: flags.
Proof.
  intros Hg Hacc Hok Hrun. destruct Haccept as [Hqa _].
  unfold AcceptJob_turn in Hrun. rewrite (bind_eq _ _ _ _ _ (accept_run _ _ _ _ Hacc)) in Hrun.
  rewrite (bind_eq _ _ _ _ _ (sys_run _ _)), (bind_eq _ _ _ _ _ (Hqa _ _)), Hok in Hrun. cbn [negb] in Hrun.
  apply bind_inv in Hrun as (id & w1 & Hadd & Hrun). unfold AddSession in Hadd.
  rewrite (bind_eq _ _ _ _ _ (this_run _ _)) in Hadd. change (server (logged _ _)) with (server w) in Hadd.
  rewrite Hg in Hadd. cbn [mbind option_bind] in Hadd.
  destruct (SessionGroup.AddSession fd g) as [[id' g']|]; [|done]. injection Hadd as <- <-.
  exists id', g'. destruct (results w) as [|f flags] eqn:Hres; [|by eauto]. exfalso.
  apply bind_inv in Hrun as (s & w2 & Hget & Hrun). unfold GetSession in Hget.
  rewrite (bind_eq _ _ _ _ _ (this_run _ _)) in Hget. destruct (_ ≫= SessionGroup.GetSession id'); [|done].
  injection Hget as <- <-. destruct o; [|done].
  apply bind_inv in Hrun as ([] & w3 & Hnon & _). apply bind_inv in Hnon as (x & w4 & Hctl & _).
  unfold sys_result in Hctl. rewrite (bind_eq _ _ _ _ _ (sys_run _ _)), gets_bind in Hctl.
  change (results w = []) in Hres. cbn in Hctl. by rewrite Hres in Hctl.
Qed.

Lemma AcceptJob_turn_run stack w r w' g :
  mSessionGroup (server w) = Some g → Z.of_nat (length (mSessionVector g)) ≤ 65536 →
  AcceptJob_turn OnAccepeted OnConnected (mListenFD (server w)) (mEpollFD (server w)) stack w = Some (r, w') →
  ∃ cs, calls (sys w') = calls (sys w) ++ cs ∧ accepting_turn w w' r cs.
Proof.
  intros Hg Hlen Hrun. destruct (accepts w) as [|[fd address|e] rest] eqn:Hacc.
  - unfold AcceptJob_turn, accept in Hrun. apply bind_inv in Hrun as (a & w1 & Ha & _).
    rewrite (bind_eq _ _ _ _ _ (sys_run _ _)), gets_bind in Ha. change (accepts (logged _ w)) with (accepts w) in Ha.
    by rewrite Hacc in Ha.
  - destruct (admits (Endpoint.of_sockaddr address stack)) eqn:Hok.
    + destruct (AcceptJob_turn_needs _ _ _ _ _ _ _ _ Hg Hacc Hok Hrun) as (id & g' & f & flags & Hadd & Hres).
      erewrite (AcceptJob_turn_client OnAccepeted OnConnected admits stack) in Hrun by eassumption.
      injection Hrun as <- <-. eexists. split; [done|].
      eapply (taken_in _ _ _ _ _ _ _ _
        [CallAccept _; CallOnAccepted _; CallFcntlGet _; CallFcntlSet _ _; CallSetSockOpt _ _ _] [CallOnConnected _]);
        [done..|by repeat constructor|by repeat constructor].
    + destruct Haccept as [Hqa _]. unfold AcceptJob_turn in Hrun. rewrite (bind_eq _ _ _ _ _ (accept_run _ _ _ _ Hacc)) in Hrun.
      rewrite (bind_eq _ _ _ _ _ (sys_run _ _)), (bind_eq _ _ _ _ _ (Hqa _ _)), Hok in Hrun. cbn [negb] in Hrun.
      rewrite (bind_eq _ _ _ _ _ (sys_run _ _)) in Hrun. injection Hrun as <- <-.
      exists ([CallAccept (mListenFD (server w)); CallOnAccepted fd] ++ [CallClose fd]).
      split; [cbn; by rewrite <- !app_assoc|]. eapply turned_away; [done..|]. by repeat constructor.
  - unfold AcceptJob_turn in Hrun. rewrite (bind_eq _ _ _ _ _ (accept_run _ _ _ _ Hacc)) in Hrun.
    destruct e; rewrite ?(bind_eq _ _ _ _ _ (sys_run _ _)) in Hrun; injection Hrun as <- <-;
      (eexists; split; [cbn; rewrite <- ?app_assoc; reflexivity|]; apply no_client; [auto|done|by repeat constructor]).
Qed.

(** [AcceptJob::Execute] is turns that go on and one that ends it. *)
Lemma AcceptJob_Execute_turns stack w b w' :
  AcceptJob_Execute OnAccepeted OnConnected stack w = Some (b, w') →
  let turn := AcceptJob_turn OnAccepeted OnConnected (mListenFD (server w)) (mEpollFD (server w)) stack in
  ∃ w1, rtc (λ u v, turn u = Some (None, v)) w w1 ∧ turn w1 = Some (Some b, w').
Proof.
  unfold AcceptJob_Execute. rewrite (bind_eq _ _ _ _ _ (this_run _ _)), (bind_eq _ _ _ _ _ (this_run _ _)), gets_bind.
  apply forever_turns.
Qed.

(** *** Each step keeps the invariant *)

Definition inv (l : Loop) : Prop :=
  Inv (held l) (server (world l)) (watched l) ∧
  ∃ p, mWorkerThreadPool (server (world l)) = Some p ∧ accepting p.

Lemma queue_pool s p : mWorkerThreadPool s = Some p → queue s = waiting p.
Proof. unfold queue. by intros ->. Qed.

(** A method of a session that settles, as a handler. *)
Lemma session_handled {A} id (m : ServerView → M World A) an l a l' session0 :
  live (server (world l)) id session0 →
  leaves (settles (view OnDisconnected (server (world l)))) (m (view OnDisconnected (server (world l)))) →
  handle (on_session_of id m) an l = Some (a, l') →
  ∃ w1 cs, m (view OnDisconnected (server (world l))) (mkWorld session0 (sys (give an (world l)))
      (slot_address (world l) (GetIndex id))) = Some (a, w1) ∧
    settles (view OnDisconnected (server (world l))) session0 cs (session w1) ∧
    server (world l') = set_slot id (session w1) (server (world l)) ∧
    watched l' = kernel_calls (mEpollFD (server (world l))) cs (watched l) ∧
    calls (sys (world l')) = calls (sys (world l)) ++ cs ∧
    executing l' = executing l ∧ completing l' = completing l ∧ waits (world l') = to_epoll_wait an.
Proof.
  intros Hli Hm (w' & Hrun & Hw & He & Hc & Hk)%handle_run.
  destruct (on_session_of_run id m (give an (world l)) a w' session0 Hli Hrun) as (w1 & Hm1 & Hs & Hsys & Hwt).
  destruct (Hm _ _ _ Hm1) as (cs & Hcs & Hst). cbn in Hcs, Hst. rewrite <- Hsys in Hcs.
  exists w1, cs. rewrite (Hk cs) by done. by subst.
Qed.

(** It takes no job from, and gives none to, the queue. *)
Lemma Inv_session_handled {A} h id (m : ServerView → M World A) an l a l' session0 :
  Inv h (server (world l)) (watched l) → live (server (world l)) id session0 →
  leaves (settles (view OnDisconnected (server (world l)))) (m (view OnDisconnected (server (world l)))) →
  handle (on_session_of id m) an l = Some (a, l') →
  Inv h (server (world l')) (watched l') ∧
  mWorkerThreadPool (server (world l')) = mWorkerThreadPool (server (world l)).
Proof.
  intros HI Hli Hm Hrun.
  destruct (session_handled _ _ _ _ _ _ _ Hli Hm Hrun) as (w1 & cs & _ & Hst & Hs & Hk & _).
  rewrite Hs, Hk. split; [|apply set_slot_members].
  by apply (Inv_settles h (server (world l)) (watched l) id session0 (session w1) cs
    (view OnDisconnected (server (world l))) HI Hli eq_refl Hst).
Qed.

Lemma recv_known h s k id : Inv h s k → JobRecv id ∈ h → ∃ session0, live s id session0.
Proof. intros HI Hin. destruct (inv_known _ _ _ HI _ Hin) as [?|[?|(id' & s' & [= <-] & ?)]]; [done..|]. by exists s'. Qed.

(** [Execute] of a session's job. *)
Lemma Inv_recv_execute h id an l r l' :
  Inv (JobRecv id :: h) (server (world l)) (watched l) →
  handle (on_session_of id RecvJob_Execute) an l = Some (r, l') →
  Inv (if r then JobRecv id :: h else h) (server (world l')) (watched l') ∧
  mWorkerThreadPool (server (world l')) = mWorkerThreadPool (server (world l)) ∧
  executing l' = executing l ∧ completing l' = completing l ∧ waits (world l') = to_epoll_wait an.
Proof.
  intros HI Hrun. destruct (recv_known _ _ _ id HI) as [session0 Hli]; [by left|].
  pose proof (settles_RecvJob_Execute (view OnDisconnected (server (world l))) (inv_polls _ _ _ HI)) as Hm.
  destruct (session_handled _ _ _ _ _ _ _ Hli Hm Hrun) as (w1 & cs & Hr & Hst & Hs & Hk & _ & He & Hc & Hwt).
  destruct (Inv_session_handled _ _ _ _ _ _ _ _ HI Hli Hm Hrun) as [HI' Hp].
  split; [|done]. destruct r; [done|]. apply (Inv_drop _ _ _ _ HI'); [done|]. intros fd b Hfd.
  destruct (Inv_settles _ _ _ _ _ _ cs (view OnDisconnected (server (world l))) HI Hli eq_refl Hst) as [_ Hli']. rewrite <- Hs in Hli'.
  destruct (inv_watched _ _ _ HI' _ _ _ Hfd) as [[? _]|(id' & s' & [= <-] & Hl2 & <- & Hne)]; [done|].
  rewrite (live_det _ _ _ _ Hl2 Hli') in Hne. apply Hne. eapply RecvJob_Execute_false; [|exact Hr]. apply view_quiet.
Qed.

(** [Complete] of a session's job: the worker is done with it, and its
    descriptor is armed again if it is still open. *)
Lemma Inv_rearm h s k id session0 ev :
  Inv (JobRecv id :: h) s k → live s id session0 → shot_of ev = Armed →
  Inv h s (kernel_calls (mEpollFD s) [CallEpollCtl (mEpollFD s) EPOLL_CTL_MOD (mSessionFD session0) (JobRecv id) ev] k).
Proof.
  intros HI Hli Hev. unfold kernel_calls, fold_left, kernel_call. rewrite decide_True, Hev by done.
  destruct (decide (mSessionFD session0 = sINVALID_SOCKET_FD)) as [Hinv|Hinv].
  - assert (k !! mSessionFD session0 = None) as ->.
    { destruct (k !! mSessionFD session0) as [[job b]|] eqn:Hk; [|done].
      destruct (inv_watched _ _ _ HI _ _ _ Hk) as [[_ Hl]|(? & ? & _ & _ & _ & ?)]; [|done].
      destruct (inv_listen _ _ _ HI) as [Hl0 _]. congruence. }
    apply (Inv_drop _ _ _ _ HI); [done|]. intros fd b Hfd.
    destruct (inv_watched _ _ _ HI _ _ _ Hfd) as [[? _]|(id' & s' & [= <-] & Hl2 & <- & Hne)]; [done|].
    by rewrite (live_det _ _ _ _ Hl2 Hli) in Hne.
  - destruct (inv_connected _ _ _ HI _ _ Hli Hinv) as [b Hb]. rewrite Hb. by eapply (Inv_arm _ _ _ _ _ _ HI).
Qed.

Lemma Inv_recv_complete h id an l l' :
  Inv (JobRecv id :: h) (server (world l)) (watched l) →
  handle (on_session_of id (λ v, RecvJob_Complete v (OnRecv v))) an l = Some (tt, l') →
  Inv h (server (world l')) (watched l') ∧
  mWorkerThreadPool (server (world l')) = mWorkerThreadPool (server (world l)) ∧
  executing l' = executing l ∧ completing l' = completing l.
Proof.
  intros HI (w' & Hrun & Hw & He & Hc & Hk)%handle_run.
  destruct (recv_known _ _ _ id HI) as [session0 Hli]; [by left|]. set (s := server (world l)) in *.
  destruct (on_session_of_run id _ (give an (world l)) _ w' session0 Hli Hrun) as (w1 & Hm1 & Hs & Hsys & _).
  destruct (RecvJob_Complete_rearms (view OnDisconnected s) (inv_polls _ _ _ HI) (OnRecv (view OnDisconnected s)) _ _
    (λ id b n, Hrecv (view OnDisconnected s) id b n _ (inv_polls _ _ _ HI)) Hm1) as (cs1 & s1 & cs2 & H1 & H2 & Hcs).
  cbn in H1, Hcs. rewrite <- Hsys in Hcs. rewrite Hw, (Hk _ Hcs), !kernel_calls_app, Hs.
  destruct (Inv_settles _ _ _ _ _ _ cs1 (view OnDisconnected s) HI Hli eq_refl H1) as [HI1 Hli1].
  assert (mSessionID s1 = id) as -> by (by destruct Hli1 as (? & _ & _ & _ & ?)).
  destruct (set_slot_members id s1 s) as (Hep & _ & _ & Hpool).
  pose proof (Inv_rearm _ _ _ _ _ (Z.lor (Z.lor EPOLLONESHOT EPOLLIN) EPOLLET) HI1 Hli1 eq_refl) as HI2. rewrite Hep in HI2.
  destruct (Inv_settles _ _ _ _ _ _ cs2 (view OnDisconnected s) HI2 Hli1 (eq_sym Hep) H2) as [HI3 _].
  rewrite set_slot_set_slot, Hep in HI3. split; [exact HI3|]. split; [apply set_slot_members|]. by rewrite He, Hc.
Qed.

(** A turn of the accept loop. *)
Lemma Inv_accept_turn h stack an l r l' :
  Inv h (server (world l)) (watched l) → Forall (fresh_fd (watched l)) (to_accept an) →
  handle (AcceptJob_turn OnAccepeted OnConnected (mListenFD (server (world l))) (mEpollFD (server (world l))) stack) an l = Some (r, l') →
  Inv h (server (world l')) (watched l') ∧ (r = None ∨ r = Some true) ∧
  mWorkerThreadPool (server (world l')) = mWorkerThreadPool (server (world l)) ∧
  executing l' = executing l ∧ completing l' = completing l.
Proof.
  intros HI Hfr (w' & Hrun & Hw & He & Hc & Hk)%handle_run.
  destruct (inv_table _ _ _ HI) as (g & Hg & Hlen & Hnd).
  destruct (AcceptJob_turn_run stack (give an (world l)) r w' g Hg Hlen Hrun) as (cs & Hcs & Hturn).
  rewrite (Hk _ Hcs), Hw. clear Hrun Hcs Hk Hw. rewrite He, Hc.
  destruct Hturn as [r cs Hr Hs Hq|fd address rest cs Ha Hs Hq|fd address rest id g1 g' cs cs' j ev Ha Hg1 Hadd Hs Hq Hq'];
    rewrite Hs; cbn [give server] in *.
  - by rewrite kernel_silent.
  - rewrite kernel_calls_app, (kernel_silent _ cs) by done. cbn. cbn in Ha. rewrite Ha in Hfr.
    apply Forall_cons in Hfr as [[_ Hfr] _]. split; [|by split; [left|]]. by rewrite delete_id.
  - cbn in Ha. rewrite Ha in Hfr. apply Forall_cons in Hfr as [[Hpos Hfr] _].
    rewrite !kernel_calls_app, (kernel_silent _ cs), (kernel_silent _ cs') by done.
    assert (kernel_calls (mEpollFD (server (world l)))
      [CallEpollCtl (mSendPollFD (server (world l))) EPOLL_CTL_ADD fd j ev;
       CallEpollCtl (mEpollFD (server (world l))) EPOLL_CTL_ADD fd (JobRecv id) receive_events] (watched l)
      = <[fd := (JobRecv id, Armed)]> (watched l)) as ->.
    { unfold kernel_calls, fold_left. rewrite (kernel_other_epoll _ (mSendPollFD (server (world l)))) by apply (inv_polls _ _ _ HI).
      unfold kernel_call. rewrite decide_True by done. by rewrite Hfr. }
    split; [|by split; [left|]]. by apply (Inv_accept _ _ _ _ g1).
Qed.

Lemma held_known l job others :
  inv l → executing l ≡ₚ job :: others ∨ completing l ≡ₚ job :: others ∧ job ≠ JobPoll →
  job = JobPoll ∨ job = JobAccept ∨ ∃ id, job = JobRecv id.
Proof.
  intros [HI _] Hor. assert (job ∈ held l) as Hin.
  { unfold held. destruct Hor as [He|[Hc Hne]]; [rewrite He; set_solver|].
    rewrite !elem_of_app, list_elem_of_filter, Hc. set_solver. }
  destruct (inv_known _ _ _ HI _ Hin) as [?|[?|(id & _ & ? & _)]]; eauto.
Qed.

(** The jobs held when a worker leaves [Execute] with [job]. *)
Lemma held_executed l l' job others (r : bool) jobs :
  executing l ≡ₚ job :: others → completing l' = completing l →
  queue (server (world l')) = queue (server (world l)) ++ jobs → job ≠ JobPoll →
  held (mkLoop (world l') (watched l') others (if r then job :: completing l' else completing l')) ≡ₚ
    jobs ++ (if r then held l else queue (server (world l)) ++ others ++ filter (λ j, j ≠ JobPoll) (completing l)).
Proof.
  intros He Hc Hq Hne. unfold held; cbn [world executing completing]. rewrite Hq, Hc. destruct r.
  - rewrite filter_cons_True by done. rewrite He. solve_Permutation.
  - solve_Permutation.
Qed.

Lemma held_head l job others : executing l ≡ₚ job :: others →
  held l ≡ₚ job :: (queue (server (world l)) ++ others ++ filter (λ j, j ≠ JobPoll) (completing l)).
Proof. intros He. unfold held. rewrite He. cbn. by rewrite <- Permutation_middle. Qed.

(** A worker in [Execute] of the poll. *)
Lemma Inv_poll_execute an fds l r l' others :
  inv l → executing l ≡ₚ JobPoll :: others → delivers (watched l) fds (to_epoll_wait an) →
  handle PollJob_Execute an l = Some (r, l') →
  inv (mkLoop (world l') (fire_all fds (watched l')) others (if r then JobPoll :: completing l else completing l)).
Proof.
  intros [HI (p & Hp & Hacc)] He [Hnd Hd] (w' & Hrun & Hw & He' & Hc' & Hk)%handle_run.
  destruct (PollJob_run (give an (world l)) r w' p Hp Hacc Hrun) as (p' & cs & -> & Hs & Ha & Hwt & Hq & Hcs).
  rewrite (Hk _ Hcs), kernel_silent by done. cbn in Hs, Hwt. split; cbn; rewrite Hw, Hs; [|by exists p'].
  eapply (Inv_members _ (server (world l))); [|done..].
  assert (held (mkLoop w' (fire_all fds (watched l)) others (JobPoll :: completing l)) ≡ₚ ready (to_epoll_wait an) ++ held l) as ->.
  { rewrite (held_head _ _ _ He). unfold held, queue. cbn [world server executing completing]. rewrite Hs, Hp. cbn [from_option mWorkerThreadPool set_pool].
    rewrite Hwt.
    rewrite filter_cons_False by (by intros []). solve_Permutation. }
  destruct (to_epoll_wait an) as [|[ptrs|e] rest]; cbn; [by subst| |by subst]. by apply Inv_fire_all.
Qed.

(** A worker in [Execute] of a session's job. *)
Lemma inv_recv_executed id an fds l r l' others :
  inv l → executing l ≡ₚ JobRecv id :: others → delivers (watched l) fds (to_epoll_wait an) →
  handle (on_session_of id RecvJob_Execute) an l = Some (r, l') → waits (world l') = [] →
  inv (mkLoop (world l') (fire_all fds (watched l')) others (if r then JobRecv id :: completing l else completing l)).
Proof.
  intros [HI (p & Hp & Hacc)] He [_ Hd] Hrun Hwt. rewrite (held_head _ _ _ He) in HI.
  destruct (Inv_recv_execute _ id an l r l' HI Hrun) as (HI' & Hp' & He' & Hc' & Hwt').
  rewrite <- Hwt', Hwt in Hd. subst fds. split; cbn [server world]; [|exists p; by rewrite Hp'].
  assert (queue (server (world l')) = queue (server (world l)) ++ []) as Hq by (unfold queue; by rewrite Hp', app_nil_r).
  rewrite <- Hc'. change (held ?x) with (held (mkLoop (world l') (watched l') others (if r then JobRecv id :: completing l' else completing l'))).
  rewrite (held_executed l l' (JobRecv id) others r [] He Hc' Hq) by done.
  destruct r; [|done]. cbn. by rewrite (held_head _ _ _ He).
Qed.

(** A worker in [Complete]. *)
Lemma inv_completed job others an l l' :
  inv l → completing l ≡ₚ job :: others → handle (Complete job) an l = Some (tt, l') →
  inv (mkLoop (world l') (watched l') (executing l) others).
Proof.
  intros Hinv Hc Hrun. destruct (decide (job = JobPoll)) as [->|Hne].
  - apply handle_run in Hrun as (w' & [= <-] & Hw & He' & Hc' & Hk). destruct Hinv as [HI Hp].
    rewrite (Hk []) by (cbn; by rewrite app_nil_r). split; cbn [server world watched]; [|by rewrite Hw].
    assert (held (mkLoop (world l') (watched l) (executing l) others) ≡ₚ held l) as ->; [|by rewrite Hw].
    unfold held. rewrite Hc, Hw. cbn [world executing completing give server]. by rewrite filter_cons_False by (by intros []).
  - pose proof (held_known l job others Hinv (or_intror (conj Hc Hne))) as Hk. destruct Hinv as [HI (p & Hp & Hacc)].
    assert (held l ≡ₚ job :: held (mkLoop (world l) (watched l) (executing l) others)) as Hh.
    { unfold held. rewrite Hc. cbn [world executing completing]. rewrite filter_cons_True by done. solve_Permutation. }
    rewrite Hh in HI.
    enough (Inv (held (mkLoop (world l) (watched l) (executing l) others)) (server (world l')) (watched l') ∧
      mWorkerThreadPool (server (world l')) = mWorkerThreadPool (server (world l))) as [HI' Hp'].
    { split; cbn; [|exists p; by rewrite Hp'].
      replace (held _) with (held (mkLoop (world l) (watched l) (executing l) others)); [done|].
      unfold held, queue. cbn. by rewrite Hp'. }
    destruct Hk as [->|[->|[id ->]]]; [done| |].
    + apply handle_run in Hrun as (w' & Hrun & -> & _ & _ & Hk). cbn [Complete] in Hrun.
      unfold AcceptJob_Complete in Hrun. rewrite (bind_eq _ _ _ _ _ (this_run _ _)), sys_run in Hrun.
      injection Hrun as <-. rewrite (Hk _ eq_refl). split; [|done].
      eapply (Inv_members _ (server (world l))); [|done..].
      destruct (inv_listen _ _ _ HI) as [_ [b Hb]]. unfold kernel_calls, fold_left, kernel_call. cbn [give server id].
      rewrite decide_True by done. unfold Datatypes.id. rewrite Hb. by eapply (Inv_arm _ _ _ _ _ _ HI).
    + by destruct (Inv_recv_complete _ _ _ _ _ HI Hrun) as (? & ? & _).
Qed.

Lemma works_inv l l' : inv l → works l l' → inv l'.
Proof.
  intros Hinv Hstep. destruct Hinv as [HI (p & Hp & Hacc)] eqn:E. clear E.
  destruct Hstep as [p0 p' Hp0 Hw Ha|p0 p' job rest Hp0 Hq Hw Ha|job others stack an fds r l' He Hne Hd Hrun Hwt
    |others stack an r l' He Hfr Hrun|job others an l' Hc Hrun].
  - split; [|by exists p']. eapply (Inv_members _ (server (world l))); [|done..].
    replace (held _) with (held l); [done|]. unfold held, queue. cbn. rewrite Hp0. cbn. by rewrite Hw.
  - split; [|by exists p']. eapply (Inv_members _ (server (world l))); [|done..].
    assert (held l ≡ₚ held (mkLoop (with_pool p' (world l)) (watched l) (job :: executing l) (completing l))) as <-; [|done].
    unfold held, queue. cbn. rewrite Hp0. cbn. rewrite Hq, Hw. cbn. by rewrite Permutation_middle.
  - destruct (held_known l job others Hinv (or_introl He)) as [->|[->|[id ->]]]; [|done|].
    + by eapply Inv_poll_execute.
    + by eapply inv_recv_executed.
  - destruct (Inv_accept_turn _ _ _ _ _ _ HI Hfr Hrun) as (HI' & Hr & Hp' & He' & Hc').
    assert (queue (server (world l')) = queue (server (world l)) ++ []) as Hq by (unfold queue; by rewrite Hp', app_nil_r).
    destruct r as [b|].
    + destruct Hr as [|[= ->]]; [done|]. split; [|by exists p; rewrite <- Hp].
      cbn [world watched server]. rewrite <- Hc'. 
      by rewrite (held_executed l l' JobAccept others true [] He Hc' Hq).
    + split; [|by exists p; rewrite <- Hp].
      replace (held l') with (held l); [done|]. unfold held. by rewrite Hq, He', Hc', app_nil_r.
  - by eapply inv_completed.
Qed.

Lemma step_inv l l' : inv l → step l l' → inv l'.
Proof.
  intros Hinv Hstep. destruct Hstep as [l' Hw|id session0 buffer size an l' Hli Hrun]; [by eapply works_inv|].
  destruct Hinv as [HI (p & Hp & Hacc)].
  rewrite (Send_handle _ _ _ _ _ _ Hli) in Hrun. rename Hrun into Hs.
  pose proof (settles_Send (view OnDisconnected (server (world l))) (inv_polls _ _ _ HI) buffer size) as Hm.
  destruct (session_handled _ _ _ _ _ _ _ Hli Hm Hs) as (_ & _ & _ & _ & _ & _ & _ & He & Hc & _).
  destruct (Inv_session_handled _ _ _ _ _ _ _ _ HI Hli Hm Hs) as [HI' Hp'].
  split; [|exists p; by rewrite Hp'].
  replace (held l') with (held l); [done|]. unfold held, queue. by rewrite Hp', He, Hc.
Qed.

(** *** A session without a descriptor and without a job

    Closed while still receiving, with its job nowhere. *)
Definition stranded (l : Loop) (id : SessionID) : Prop :=
  (JobRecv id ∉ held l) ∧
  ∃ session0, live (server (world l)) id session0 ∧ mSessionFD session0 = sINVALID_SOCKET_FD ∧
    mIsRecving session0 = true.

Definition unreported (l l' : Loop) (id : SessionID) : Prop :=
  ∃ cs, calls (sys (world l')) = calls (sys (world l)) ++ cs ∧ CallOnDisconnected id ∉ cs.

Lemma stranded_unwatched l id : inv l → stranded l id → ∀ fd b, watched l !! fd ≠ Some (JobRecv id, b).
Proof.
  intros [HI _] (_ & s0 & Hli & Hfd & _) fd b Hw.
  destruct (inv_watched _ _ _ HI _ _ _ Hw) as [[? _]|(id' & s' & [= <-] & Hl2 & <- & Hne)]; [done|].
  by rewrite (live_det _ _ _ _ Hl2 Hli) in Hne.
Qed.

(** A step of another session. *)
Lemma stranded_other l l' id id2 session0 session2 :
  stranded l id → live (server (world l)) id2 session0 → mSessionID session2 = id2 → id2 ≠ id →
  server (world l') = set_slot id2 session2 (server (world l)) → (∀ job, job ∈ held l' → job ∈ held l) → stranded l' id.
Proof.
  intros (Hh & s & Hli & Hs) Hl2 Hid Hne Hserver Hsub. split; [by intros ?%Hsub|]. exists s. split; [|done].
  rewrite Hserver. apply (live_set_slot _ _ _ _ Hl2 Hid). by right.
Qed.

(** A step that leaves the sessions alone. *)
Lemma stranded_same l l' id :
  stranded l id → mSessionGroup (server (world l')) = mSessionGroup (server (world l)) →
  JobRecv id ∉ held l' → stranded l' id.
Proof. intros (_ & s & Hli & Hs) Hg Hh. split; [done|]. exists s. split; [|done]. unfold live. by rewrite Hg. Qed.

Lemma unreported_silent l l' cs id :
  calls (sys (world l')) = calls (sys (world l)) ++ cs → Forall silent cs → unreported l l' id.
Proof. intros Hcs Hq. exists cs. split; [done|]. by apply silent_no. Qed.

Lemma settles_unreported v s cs s' id : settles v s cs s' → mSessionID s ≠ id → CallOnDisconnected id ∉ cs.
Proof. intros (_ & _ & _ & _ & Hd) Hne Hin. apply Hd in Hin as [? _]. congruence. Qed.

(** A send, by the session it goes to. *)
Lemma sent l l' id session0 buffer size an :
  inv l → live (server (world l)) id session0 →
  handle (Send OnDisconnected id buffer size) an l = Some (tt, l') →
  ∃ w1 cs, Session.Send (view OnDisconnected (server (world l))) buffer size
      (mkWorld session0 (sys (give an (world l))) (slot_address (world l) (GetIndex id))) = Some (tt, w1) ∧
    settles (view OnDisconnected (server (world l))) session0 cs (session w1) ∧
    mIsRecving (session w1) = mIsRecving session0 ∧ live (server (world l')) id (session w1) ∧
    server (world l') = set_slot id (session w1) (server (world l)) ∧
    calls (sys (world l')) = calls (sys (world l)) ++ cs ∧ held l' = held l.
Proof.
  intros [HI _] Hli Hrun. set (v := view OnDisconnected (server (world l))).
  rewrite (Send_handle _ _ _ _ _ _ Hli) in Hrun.
  pose proof (settles_Send v (inv_polls _ _ _ HI) buffer size) as Hm.
  destruct (session_handled _ _ _ _ _ _ _ Hli Hm Hrun) as (w1 & cs & Hr & Hsets & Hserver & _ & Hcs & He & Hc & _).
  destruct (keeps_Send v buffer size _ _ _ Hr) as (cs0 & _ & Hk).
  destruct (Inv_settles _ _ _ _ _ _ cs v HI Hli eq_refl Hsets) as [_ Hli'].
  exists w1, cs. split_and!; try done; [by rewrite Hserver|].
  unfold held, queue. rewrite He, Hc, Hserver.
  by destruct (set_slot_members id (session w1) (server (world l))) as (_ & _ & _ & ->).
Qed.

Lemma stranded_send l l' id id2 session0 buffer size an :
  inv l → stranded l id → live (server (world l)) id2 session0 →
  handle (Send OnDisconnected id2 buffer size) an l = Some (tt, l') → stranded l' id ∧ unreported l l' id.
Proof.
  intros Hinv Hst Hli Hrun.
  destruct (sent _ _ _ _ _ _ _ Hinv Hli Hrun) as (w1 & cs & _ & Hsets & Hkeep & Hli1 & Hserver & Hcs & Hh).
  assert (mSessionID session0 = id2) as Hid by (by destruct Hli as (? & _ & _ & _ & ?)).
  assert (mSessionID (session w1) = id2) as Hid1 by (destruct Hsets; congruence).
  destruct (decide (id2 = id)) as [->|Hne].
  - destruct Hst as (Hn & s & Hls & Hfd & Hrecving). rewrite <- (live_det _ _ _ _ Hli Hls) in Hfd, Hrecving.
    destruct Hsets as (_ & Hfd' & _ & _ & Hd). split.
    + split; [by rewrite Hh|]. exists (session w1). split; [done|]. split; [|congruence].
      destruct Hfd' as [->|[_ ?]]; done.
    + exists cs. split; [done|]. intros Hin. apply Hd in Hin as [_ ?]. congruence.
  - split; [|exists cs; split; [done|]; eapply settles_unreported; [exact Hsets|congruence]].
    eapply stranded_other; [exact Hst|exact Hli|exact Hid1|done|exact Hserver|]. by rewrite Hh.
Qed.

Lemma held_sub_executed l l' job others (r : bool) :
  executing l ≡ₚ job :: others → completing l' = completing l → job ≠ JobPoll →
  mWorkerThreadPool (server (world l')) = mWorkerThreadPool (server (world l)) →
  ∀ k j, j ∈ held (mkLoop (world l') k others (if r then job :: completing l' else completing l')) → j ∈ held l.
Proof.
  intros He Hc Hne Hp k j. change (held (mkLoop _ k _ _)) with (held (mkLoop (world l') (watched l') others (if r then job :: completing l' else completing l'))).
  assert (queue (server (world l')) = queue (server (world l)) ++ []) as Hq by (unfold queue; by rewrite Hp, app_nil_r).
  rewrite (held_executed l l' job others r [] He Hc Hq Hne). destruct r; [done|].
  rewrite (held_head _ _ _ He). cbn [app]. intros Hin. by right.
Qed.

Lemma stranded_execute job others stack an fds (r : bool) l l' id :
  inv l → stranded l id → executing l ≡ₚ job :: others → job ≠ JobAccept →
  delivers (watched l) fds (to_epoll_wait an) → handle (Execute stack job) an l = Some (r, l') →
  let l'' := mkLoop (world l') (fire_all fds (watched l')) others (if r then job :: completing l else completing l) in
  stranded l'' id ∧ unreported l l'' id.
Proof.
  intros Hinv Hst He Hne Hd Hrun l''. pose proof (stranded_unwatched _ _ Hinv Hst) as Huw.
  destruct (held_known l job others Hinv (or_introl He)) as [->|[->|[id2 ->]]]; [|done|]; destruct Hinv as [HI (p & Hp & Hacc)].
  - apply handle_run in Hrun as (w' & Hrun & Hw & _).
    destruct (PollJob_run (give an (world l)) r w' p Hp Hacc Hrun) as (p' & cs & -> & Hs & _ & Hwt & Hq & Hcs).
    cbn in Hs, Hwt, Hcs. split; [|eapply unreported_silent; [|exact Hq]; cbn; by rewrite Hw].
    eapply stranded_same; [exact Hst|cbn; by rewrite Hw, Hs|]. destruct Hst as [Hn _].
    assert (JobRecv id ∉ ready (to_epoll_wait an)) as Hr.
    { destruct Hd as [_ Hd]. destruct (to_epoll_wait an) as [|[ptrs|e] rest]; cbn; [set_solver| |set_solver].
      intros Hin. apply list_elem_of_lookup in Hin as [i Hi]. destruct (Forall2_lookup_r _ _ _ _ _ Hd Hi) as (fd & _ & Hfd).
      destruct Hfd as (i' & Hfd & _). by apply (Huw fd i'). }
    rewrite (held_head _ _ _ He) in Hn. unfold held, queue in *. cbn [l'' world executing completing]. rewrite Hw, Hs, Hp in *.
    cbn [from_option mWorkerThreadPool set_pool] in *. rewrite Hwt, filter_cons_False by (by intros []).
    rewrite not_elem_of_cons, !not_elem_of_app in Hn. rewrite !not_elem_of_app, not_elem_of_cons. set_solver.
  - assert (JobRecv id2 ∈ held l) as Hin by (rewrite (held_head _ _ _ He); by left).
    destruct (recv_known _ _ _ id2 HI Hin) as [session0 Hli].
    assert (id2 ≠ id) as Hid by (intros ->; by destruct Hst).
    pose proof (settles_RecvJob_Execute (view OnDisconnected (server (world l))) (inv_polls _ _ _ HI)) as Hm.
    destruct (session_handled _ _ _ _ _ _ _ Hli Hm Hrun) as (w1 & cs & _ & Hsets & Hserver & _ & Hcs & _ & Hc & _).
    assert (mSessionID session0 = id2) as Hsid by (by destruct Hli as (? & _ & _ & _ & ?)).
    assert (mSessionID (session w1) = id2) as Hsid1 by (destruct Hsets; congruence).
    split; [|exists cs; split; [done|]; eapply settles_unreported; [exact Hsets|congruence]].
    eapply stranded_other; [exact Hst|exact Hli|exact Hsid1|done|exact Hserver|].
    unfold l''. rewrite <- Hc. eapply (held_sub_executed l l' (JobRecv id2) others); [done..|].
    rewrite Hserver. apply set_slot_members.
Qed.

Lemma stranded_accept others stack an r l l' id :
  inv l → stranded l id → executing l ≡ₚ JobAccept :: others → Forall (fresh_fd (watched l)) (to_accept an) →
  handle (AcceptJob_turn OnAccepeted OnConnected (mListenFD (server (world l))) (mEpollFD (server (world l))) stack)
    an l = Some (r, l') →
  let l'' := match r with
             | None => l'
             | Some b => mkLoop (world l') (watched l') others (if (b : bool) then JobAccept :: completing l else completing l)
             end in
  stranded l'' id ∧ unreported l l'' id.
Proof.
  intros [HI _] Hst He Hfr Hrun l''. destruct (Inv_accept_turn _ _ _ _ _ _ HI Hfr Hrun) as (_ & _ & Hp & He' & Hc').
  assert (world l'' = world l') as Hw by (by destruct r).
  assert (∀ j, j ∈ held l'' → j ∈ held l) as Hsub.
  { unfold l''. destruct r as [b|].
    - rewrite <- Hc'. by apply (held_sub_executed l l' JobAccept others).
    - unfold held, queue. by rewrite Hp, He', Hc'. }
  apply handle_run in Hrun as (w' & Hrun & Hw' & _). destruct (inv_table _ _ _ HI) as (g & Hg & Hlen & Hnd).
  destruct (AcceptJob_turn_run stack (give an (world l)) r w' g Hg Hlen Hrun) as (cs & Hcs & Hturn).
  assert (JobRecv id ∉ held l'') as Hn by (intros ?%Hsub; by destruct Hst).
  split.
  - destruct Hturn as [? ? _ Hs _|? ? ? ? _ Hs _|fd ? ? id2 g1 g' ? ? ? ? _ Hg1 Hadd Hs _ _].
    + eapply stranded_same; [exact Hst|by rewrite Hw, Hw', Hs|done].
    + eapply stranded_same; [exact Hst|by rewrite Hw, Hw', Hs|done].
    + cbn in Hg1, Hs. assert (g1 = g) as -> by congruence. destruct Hst as (_ & s & Hli & Hfd).
      split; [done|]. exists s. split; [|done]. rewrite Hw, Hw', Hs.
      destruct (live_added _ _ _ _ _ Hg Hadd Hlen Hnd) as (raw & Hl). apply Hl. right. split; [|done]. intros ->.
      by apply (added_new _ _ _ _ _ Hg Hadd Hlen s).
  - exists cs. rewrite Hw, Hw'. split; [done|]. destruct Hturn as [? ? _ _ Hq|? ? ? ? _ _ Hq|? ? ? ? ? ? ? ? ? ? _ _ _ _ Hq Hq'].
    + by apply silent_no.
    + intros [Hin|Hin]%elem_of_app; [by apply (silent_no _ _ Hq Hin)|]. apply list_elem_of_singleton in Hin. done.
    + intros [Hin|[Hin|Hin]%elem_of_app]%elem_of_app; [by apply (silent_no _ _ Hq Hin)| |by apply (silent_no _ _ Hq' Hin)].
      apply elem_of_cons in Hin as [?|Hin%list_elem_of_singleton]; done.
Qed.

Lemma stranded_complete job others an l l' id :
  inv l → stranded l id → completing l ≡ₚ job :: others → handle (Complete job) an l = Some (tt, l') →
  let l'' := mkLoop (world l') (watched l') (executing l) others in
  stranded l'' id ∧ unreported l l'' id.
Proof.
  intros Hinv Hst Hc Hrun l''.
  assert (mWorkerThreadPool (server (world l')) = mWorkerThreadPool (server (world l)) →
    ∀ j, j ∈ held l'' → j ∈ held l) as Hsub.
  { intros Hp j. unfold held, queue, l''. cbn [world executing completing]. rewrite Hp, Hc.
    rewrite !elem_of_app, !list_elem_of_filter, elem_of_cons. tauto. }
  destruct (decide (job = JobPoll)) as [->|Hne].
  { apply handle_run in Hrun as (w' & [= <-] & Hw & _). split.
    - eapply stranded_same; [exact Hst|cbn; by rewrite Hw|]. intros Hin. apply Hsub in Hin; [by destruct Hst|by rewrite Hw].
    - apply (unreported_silent _ _ []); [cbn; by rewrite Hw, app_nil_r|done]. }
  destruct (held_known l job others Hinv (or_intror (conj Hc Hne))) as [->|[->|[id2 ->]]]; [done| |].
  - apply handle_run in Hrun as (w' & Hrun & Hw & _). cbn [Complete] in Hrun.
    unfold AcceptJob_Complete in Hrun. rewrite (bind_eq _ _ _ _ _ (this_run _ _)), sys_run in Hrun. injection Hrun as <-.
    split.
    + eapply stranded_same; [exact Hst|cbn; by rewrite Hw|]. intros Hin. apply Hsub in Hin; [by destruct Hst|by rewrite Hw].
    + eexists. split; [cbn; by rewrite Hw|]. by intros Hin%list_elem_of_singleton.
  - destruct Hinv as [HI _]. set (s := server (world l)) in *. set (v := view OnDisconnected s).
    assert (JobRecv id2 ∈ held l) as Hin.
    { unfold held. rewrite !elem_of_app, list_elem_of_filter, Hc. right; right. split; [done|by left]. }
    destruct (recv_known _ _ _ id2 HI Hin) as [session0 Hli]. assert (id2 ≠ id) as Hid by (intros ->; by destruct Hst).
    assert (mSessionID session0 = id2) as Hsid by (by destruct Hli as (? & _ & _ & _ & ?)).
    apply handle_run in Hrun as (w' & Hrun & Hw & _).
    destruct (on_session_of_run id2 _ (give an (world l)) _ w' session0 Hli Hrun) as (w1 & Hm1 & Hserver & Hsys & _).
    destruct (RecvJob_Complete_rearms v (inv_polls _ _ _ HI) (OnRecv v) _ _
      (λ id b n, Hrecv v id b n _ (inv_polls _ _ _ HI)) Hm1) as (cs1 & s1 & cs2 & H1 & H2 & Hcs).
    cbn in H1, Hcs, Hserver. rewrite <- Hsys in Hcs.
    assert (mSessionID s1 = id2) as Hsid1 by (destruct H1; congruence).
    assert (mSessionID (session w1) = id2) as Hsid2 by (destruct H2; congruence). split.
    + eapply stranded_other; [exact Hst|exact Hli|exact Hsid2|done|cbn; by rewrite Hw|].
      apply Hsub. rewrite Hw, Hserver. apply set_slot_members.
    + eexists. split; [cbn; rewrite Hw; exact Hcs|].
      intros [Hx|[Hx|Hx]%elem_of_cons]%elem_of_app.
      * eapply settles_unreported; [exact H1| |exact Hx]. congruence.
      * done.
      * eapply settles_unreported; [exact H2| |exact Hx]. congruence.
Qed.

Lemma stranded_step l l' id : inv l → stranded l id → step l l' → stranded l' id ∧ unreported l l' id.
Proof.
  intros Hinv Hst [l1 Hstep|]; [|by eapply stranded_send].
  destruct Hstep as [p p' Hp Hw _|p p' job rest Hp Hq Hw _| | |].
  - split; [|apply (unreported_silent _ _ []); [cbn; by rewrite app_nil_r|done]].
    eapply stranded_same; [exact Hst|done|]. destruct Hst as [Hn _]. unfold held, queue in *. cbn. rewrite Hp in Hn. by rewrite Hw.
  - split; [|apply (unreported_silent _ _ []); [cbn; by rewrite app_nil_r|done]].
    eapply stranded_same; [exact Hst|done|]. destruct Hst as [Hn _]. unfold held, queue in *. cbn. rewrite Hp in Hn. cbn in Hn.
    rewrite Hq in Hn. rewrite Hw. set_solver.
  - by eapply stranded_execute.
  - by eapply stranded_accept.
  - by eapply stranded_complete.
Qed.

Lemma steps_inv l l' : inv l → rtc step l l' → inv l'.
Proof. intros Hinv Hsteps. induction Hsteps as [|l l1 l' Hs _ IH]; [done|]. apply IH. by eapply step_inv. Qed.

Lemma works_steps l l' : rtc works l l' → rtc step l l'.
Proof. intros Hsteps. eapply rtc_subrel; [|exact Hsteps]. intros x y. by apply worker_moves. Qed.

Lemma stranded_steps l l' id : inv l → stranded l id → rtc step l l' → stranded l' id ∧ unreported l l' id.
Proof.
  intros Hinv Hst Hsteps. induction Hsteps as [l|l l1 l' Hs _ IH].
  - split; [done|]. exists []. rewrite app_nil_r. split; [done|]. set_solver.
  - destruct (stranded_step _ _ _ Hinv Hst Hs) as [Hst1 (cs & Hcs & Hn)].
    destruct (IH (step_inv _ _ Hinv Hs) Hst1) as [Hst' (cs' & Hcs' & Hn')]. split; [done|].
    exists (cs ++ cs'). rewrite Hcs', Hcs, <- app_assoc. split; [done|]. by intros [?|?]%elem_of_app.
Qed.

(** ** Where it starts

    [Start] with everything granted, the two epolls different, and what the
    epoll saw of it. *)
Inductive boots (w : ServerWorld P) : Loop → Prop :=
  | boots_intro ep n e s l f answers rest w' :
      results w = Ret e :: Ret s :: answers ++ rest → e ≠ -1 → s ≠ -1 → l ≠ -1 → e ≠ s →
      granted l f answers → length (fresh_slots w) = 5000%nat → Start ep n w = Some (true, w') →
      boots w (mkLoop w' (kernel_calls e (drop (length (calls (sys w))) (calls (sys w'))) ∅) [] []).

Lemma started_live e s l p w id session0 :
  length (fresh_slots w) = 5000%nat → ¬ live (started e s l p w) id session0.
Proof.
  intros Hlen (g & [= <-] & Hs & Hn & _). cbn in Hs, Hn. apply at_index_bound in Hs. rewrite Hlen in Hs.
  apply Hn, elem_of_seqZ. lia.
Qed.

Lemma boots_inv w l : boots w l → inv l.
Proof.
  intros [ep n e s lfd f answers rest w' Hr He Hs Hl Hes Hg Hlen Hrun].
  set (ls := socket_calls ep ++ setup_calls ep lfd f ++ [CallListen lfd]).
  destruct (Start_run ep n e s lfd ls (answers ++ rest) rest w) as (p & Hw & Ha & Hrun'); try done.
  { intros w1 Hr'. by apply (CreateListenSocket_granted ep lfd f answers). }
  rewrite Hrun in Hrun'. apply (inj Some), pair_eq in Hrun' as [_ ->]. rewrite calls_answered, drop_app_length.
  assert (kernel_calls e (start_calls e lfd ls) ∅ = {[lfd := (JobAccept, Armed)]}) as ->.
  { unfold start_calls. rewrite app_assoc, kernel_calls_app,
      (kernel_silent _ ([CallEpollCreate; CallEpollCreate] ++ ls)) by (by repeat constructor).
    cbn. by rewrite decide_True. }
  set (l0 := mkLoop _ _ _ _). assert (held l0 = [JobPoll]) as Hh by (unfold held, queue; cbn; by rewrite Hw).
  split; [|by exists p]. rewrite Hh. change (server (world l0)) with (started e s lfd p w).
  change (watched l0) with ({[lfd := (JobAccept, Armed)]} : Watch).
  pose proof (λ id session0, started_live e s lfd p w id session0 Hlen) as Hno. split; cbn; try done.
  - eexists. split; [done|]. cbn. rewrite Hlen. split; [done|]. apply NoDup_seqZ.
  - apply NoDup_singleton.
  - by left.
  - intros job ->%list_elem_of_singleton. by left.
  - intros fd job b [<- [= <- <-]]%lookup_singleton_Some. by left.
  - intros fd job b [<- [= <- <-]]%lookup_singleton_Some. unfold due. rewrite decide_False; [done|]. by intros ?%list_elem_of_singleton.
  - split; [done|]. exists Armed. apply lookup_singleton_eq.
  - intros id session0 Hli. by destruct (Hno _ _ Hli).
Qed.

(** *** A full socket *)

Lemma Send_full v `{!QuietDisconnect v} session0 buffer size o ad :
  mSessionFD session0 ≠ sINVALID_SOCKET_FD → mIsSending session0 = false → buffer ≠ 0 → 0 < size →
  writev_answers o = [SendError EAGAIN] →
  ∃ w', Session.Send v buffer size (mkWorld session0 o ad) = Some (tt, w') ∧
    mSessionFD (session w') = sINVALID_SOCKET_FD.
Proof.
  intros Hfd Hs Hb Hn Hw. rewrite Send_idle by done.
  set (ps := mPackets session0 ++ [mkIovec buffer size]).
  set (s := SetSendState true (set_packets ps session0)).
  assert (∃ w1, DoSend v (mkWorld s o ad) = Some (tt, w1) ∧ mSessionFD (session w1) = sINVALID_SOCKET_FD) as (w1 & Hd & Hw1).
  { eexists. split; [|shelve].
    erewrite (DoSend_run v 0 (SendError EAGAIN) [] ps s o ad None); [reflexivity|done| |done|done|].
    - unfold ps. by destruct (mPackets session0).
    - unfold DoSend_answer. rewrite (bind_eq (update _) _ _ _ _ eq_refl), (bind_eq _ _ _ _ _ (Disconnect_run v _)). reflexivity.
    Unshelve. done. }
  rewrite (bind_eq _ _ _ _ _ Hd). by eexists.
Qed.

(** ** Properties *)

(** C5: in every state the started server can reach, however its steps interleave,
    each job is in at most one place: queued or at a worker, once, or due to be
    queued by one armed descriptor.  So no two workers are ever in the receive
    job of one session, in the accept job or in the poll. *)
Theorem one_worker_per_session w l l' :
  boots w l → rtc step l l' →
  NoDup (held l') ∧
  (∀ fd job i, watched l' !! fd = Some (job, i) → i ≠ Fired → job ∉ held l') ∧
  (∀ fd fd' job b b', watched l' !! fd = Some (job, b) → watched l' !! fd' = Some (job, b') → fd = fd').
Proof.
  intros Hb Hsteps. destruct (steps_inv _ _ (boots_inv _ _ Hb) Hsteps) as [HI _]. split_and!.
  - apply (inv_once _ _ _ HI).
  - intros fd job i Hfd Hi. pose proof (inv_armed _ _ _ HI _ _ _ Hfd) as Hdue. unfold due in Hdue. by case_decide.
  - intros fd fd' job b b' Hfd Hfd'. by eapply (Inv_fd _ _ _ _ _ _ _ _ HI).
Qed.

(** C6: as long as no thread but a session's own worker sends to it (in [OnRecv], as
    the test server does), nothing the started server looks after is ever lost: the
    poll is always queued or at a worker; the listening socket, and the descriptor
    of every open session, stay in the epoll with the accept job and the receive
    job of that session; and each such descriptor is armed unless its job is queued
    or at a worker.  (With other senders it can be lost: DescriptorReuse.v.) *)
Theorem no_session_forgotten w l l' :
  boots w l → rtc works l l' →
  JobPoll ∈ held l' ∧
  watched l' !! mListenFD (server (world l')) = Some (JobAccept, if decide (JobAccept ∈ held l') then Fired else Armed) ∧
  (∀ id session0, live (server (world l')) id session0 → mSessionFD session0 ≠ sINVALID_SOCKET_FD →
     watched l' !! mSessionFD session0 = Some (JobRecv id, if decide (JobRecv id ∈ held l') then Fired else Armed)).
Proof.
  intros Hb Hsteps. destruct (steps_inv _ _ (boots_inv _ _ Hb) (works_steps _ _ Hsteps)) as [HI _]. split_and!.
  - apply (inv_poll _ _ _ HI).
  - destruct (inv_listen _ _ _ HI) as [_ [b Hl]]. by rewrite Hl, (inv_armed _ _ _ HI _ _ _ Hl).
  - intros id session0 Hli Hfd. destruct (inv_connected _ _ _ HI _ _ Hli Hfd) as [b Hw].
    by rewrite Hw, (inv_armed _ _ _ HI _ _ _ Hw).
Qed.

(** A session whose receive job waits in the epoll, and to which the user
    sends while the socket is full ([EAGAIN]), is closed by the sender and never
    reported: whatever happens afterwards, its job is neither queued nor
    registered again, it still counts as receiving, and [OnDisconnected] is
    not called for it. *)
Theorem full_socket_strands_session l id session0 buffer size :
  inv l → live (server (world l)) id session0 → mSessionFD session0 ≠ sINVALID_SOCKET_FD →
  mIsRecving session0 = true → mIsSending session0 = false → (JobRecv id ∉ held l) → buffer ≠ 0 → 0 < size →
  ∃ l1, step l l1 ∧ ∀ l2, rtc step l1 l2 →
    (JobRecv id ∉ held l2) ∧ (∀ fd b, watched l2 !! fd ≠ Some (JobRecv id, b)) ∧
    (∃ session2, live (server (world l2)) id session2 ∧ mSessionFD session2 = sINVALID_SOCKET_FD ∧ mIsRecving session2 = true) ∧
    ∃ cs, calls (sys (world l2)) = calls (sys (world l)) ++ cs ∧ CallOnDisconnected id ∉ cs.
Proof.
  intros Hinv Hli Hfd Hr Hs Hn Hb Hsz.
  set (an := mkAnswers [] [SendError EAGAIN] [] [] [] []).
  destruct (Send_full (view OnDisconnected (server (world l))) session0 buffer size (sys (give an (world l)))
    (slot_address (world l) (GetIndex id)) Hfd Hs Hb Hsz eq_refl) as (w1 & Hsend & Hw1).
  assert (∃ l1, handle (Send OnDisconnected id buffer size) an l = Some (tt, l1)) as [l1 Hrun].
  { rewrite (Send_handle _ _ _ _ _ _ Hli). unfold handle. rewrite (on_session_of_eq _ _ (give an (world l)) _ Hli).
    change (server (give an (world l))) with (server (world l)). change (slot_address (give an (world l))) with (slot_address (world l)).
    rewrite Hsend. by eexists. }
  assert (step l l1) as Hstep by (by eapply user_sends). exists l1. split; [done|]. intros l2 Hsteps.
  destruct (sent _ _ _ _ _ _ _ Hinv Hli Hrun) as (w1' & cs & Hsend' & Hsets & Hkeep & Hli1 & _ & Hcs & Hh).
  rewrite Hsend in Hsend'. injection Hsend' as <-.
  assert (stranded l1 id) as Hst.
  { split; [by rewrite Hh|]. exists (session w1). split_and!; [done..|congruence]. }
  pose proof (step_inv _ _ Hinv Hstep) as Hinv1. pose proof (steps_inv _ _ Hinv1 Hsteps) as Hinv2.
  destruct (stranded_steps _ _ _ Hinv1 Hst Hsteps) as [Hst2 (cs2 & Hcs2 & Hn2)].
  split; [apply Hst2|]. split; [by apply stranded_unwatched|]. split; [apply Hst2|].
  exists (cs ++ cs2). split; [by rewrite Hcs2, Hcs, <- app_assoc|].
  intros [Hin|?]%elem_of_app; [|done]. destruct Hsets as (_ & _ & _ & _ & Hd). apply Hd in Hin as [_ ?]. congruence.
Qed.
End Loop.

(** *** Witnesses: the handlers of the test server *)

(** [TestServer::OnRecv], for any server. *)
Definition echo (v : ServerView) (id : SessionID) (buffer inputSize : Z) : M World Z :=
  Session.Send v buffer inputSize;; mret inputSize.

Lemma echo_settles v id buffer size :
  QuietDisconnect v → GetSendPollFD v ≠ GetEpollFD v → leaves (settles v) (echo v id buffer size).
Proof.
  intros Hq Hp. apply (leaves_bind (settles v)); [by apply settles_Send|]. intros _. apply (leaves_ret (settles v)).
Qed.

Definition quiet (id : SessionID) : M World unit := mret tt.

Definition sample_start : ServerWorld (WorkerThreadPool.Pool JobPtr) :=
  sample_world (Server_construct sample_raw) [Ret 3; Ret 4; Ret 5; Ret 0; Ret 2; Ret 0; Ret 0] [] [].

Lemma sample_boots :
  ∃ l p, boots sample_start l ∧ mWorkerThreadPool (server (world l)) = Some p ∧ waiting p = [JobPoll] ∧ executing l = [].
Proof.
  assert (granted 5 (Ret 2) [Ret 5; Ret 0; Ret 2; Ret 0; Ret 0]) as Hg by (by exists 0, 0, 0).
  assert (length (fresh_slots sample_start) = 5000%nat) as Hlen by apply length_replicate.
  destruct (Start_run sample_endpoint 2 3 4 5 _ _ [] sample_start eq_refl (ltac:(lia)) (ltac:(lia)) Hlen
    (λ w' Hr, CreateListenSocket_granted sample_endpoint 5 (Ret 2) _ [] w' (ltac:(done)) Hg Hr)) as (p & Hw & _ & Hrun).
  eexists _, p. split.
  - eapply (boots_intro sample_start sample_endpoint 2 3 4 5 (Ret 2) [Ret 5; Ret 0; Ret 2; Ret 0; Ret 0] []);
      [reflexivity|lia|lia|lia|lia|exact Hg|exact Hlen|exact Hrun].
  - split; [reflexivity|]. by split.
Qed.

(** A worker has taken the poll. *)
Lemma sample_takes_poll :
  ∃ l l', boots sample_start l ∧ rtc (works quiet_accept quiet_connect quiet echo) l l' ∧ executing l' = [JobPoll].
Proof.
  destruct sample_boots as (l & p & Hb & Hp & Hw & He).
  exists l. eexists. split; [done|]. split.
  - apply rtc_once. eapply (worker_takes _ _ _ _ l p sample_pool); [exact Hp|exact Hw|done|apply accepting_start].
  - cbn. by rewrite He.
Qed.

Lemma one_worker_per_session_witness :
  ∃ l l', boots sample_start l ∧ rtc (step quiet_accept quiet_connect quiet echo) l l' ∧
    executing l' = [JobPoll] ∧ NoDup (held l').
Proof.
  destruct sample_takes_poll as (l & l' & Hb & Hs & He). exists l, l'. split_and!; try done; [by apply works_steps|].
  apply (one_worker_per_session quiet_accept quiet_connect quiet echo (λ _, true) (conj (λ _ _, eq_refl) (λ _ _, eq_refl))
    (λ _ _, eq_refl) echo_settles sample_start l l' Hb (works_steps _ _ _ _ _ _ Hs)).
Defined.

Lemma no_session_forgotten_witness :
  ∃ l l', boots sample_start l ∧ rtc (works quiet_accept quiet_connect quiet echo) l l' ∧
    executing l' = [JobPoll] ∧ JobPoll ∈ held l'.
Proof.
  destruct sample_takes_poll as (l & l' & Hb & Hs & He). exists l, l'. split_and!; try done.
  apply (no_session_forgotten quiet_accept quiet_connect quiet echo (λ _, true) (conj (λ _ _, eq_refl) (λ _ _, eq_refl))
    (λ _ _, eq_refl) echo_settles sample_start l l' Hb Hs).
Defined.

(** A running server with one client, which waits in the epoll. *)
Definition sample_client : Session := Session_construct 0 7 (sample_session false []).

Definition sample_loop : Loop :=
  mkLoop (sample_world sample_running [] [] []) {[7 := (JobRecv 0, Armed); 5 := (JobAccept, Armed)]} [JobPoll] [].

Lemma sample_live id session0 : live (server (world sample_loop)) id session0 ↔ id = 0 ∧ session0 = sample_client.
Proof.
  split.
  - intros (g & [= <-] & Hs & Hn & Hid). cbn [mSessionVector mSessionIndexPool] in Hs, Hn.
    pose proof (at_index_bound _ _ _ Hs) as Hb. cbn [length] in Hb.
    assert (GetIndex id = 0) as Hi.
    { assert (GetIndex id ≠ 1) by (intros Hi; apply Hn; rewrite Hi; by left). lia. }
    rewrite Hi in Hs. injection Hs as <-. by split.
  - intros [-> ->]. eexists. split; [done|]. split; [done|]. split; [|done]. by apply (bool_decide_unpack _).
Qed.

Lemma sample_inv : inv sample_loop.
Proof.
  split; [|exists sample_pool; split; [done|apply accepting_start]].
  change (held sample_loop) with [JobPoll].
  assert (∀ fd job b, watched sample_loop !! fd = Some (job, b) →
    fd = 7 ∧ job = JobRecv 0 ∧ b = Armed ∨ fd = 5 ∧ job = JobAccept ∧ b = Armed) as Hw.
  { intros fd job b Hfd. change (watched sample_loop) with ({[7 := (JobRecv 0, Armed); 5 := (JobAccept, Armed)]} : Watch) in Hfd.
    apply lookup_insert_Some in Hfd as [[<- [= <- <-]]|[_ [<- [= <- <-]]%lookup_singleton_Some]]; auto. }
  split; try done.
  - eexists. split; [done|]. split; [done|]. by apply (bool_decide_unpack _).
  - apply NoDup_singleton.
  - by left.
  - intros job ->%list_elem_of_singleton. by left.
  - intros fd job b [(-> & -> & ->)|(-> & -> & ->)]%Hw; [right|by left].
    exists 0, sample_client. split; [done|]. split; [by apply sample_live|done].
  - intros fd job b [(-> & -> & ->)|(-> & -> & ->)]%Hw; unfold due; (rewrite decide_False; [done|]); by intros ?%list_elem_of_singleton.
  - split; [done|]. by exists Armed.
  - intros id session0 [-> ->]%sample_live _. by exists Armed.
Qed.

Lemma full_socket_strands_session_witness :
  ∃ l1, step quiet_accept quiet_connect quiet echo sample_loop l1 ∧
    ∀ l2, rtc (step quiet_accept quiet_connect quiet echo) l1 l2 →
      ∃ cs, calls (sys (world l2)) = calls (sys (world sample_loop)) ++ cs ∧ CallOnDisconnected 0 ∉ cs.
Proof.
  destruct (full_socket_strands_session quiet_accept quiet_connect quiet echo (λ _, true)
    (conj (λ _ _, eq_refl) (λ _ _, eq_refl)) (λ _ _, eq_refl) echo_settles sample_loop 0 sample_client 4096 10)
    as (l1 & Hstep & Hafter); try done.
  - apply sample_inv.
  - by apply sample_live.
  - by intros ?%list_elem_of_singleton.
  - exists l1. split; [done|]. intros l2 Hs. by destruct (Hafter l2 Hs) as (_ & _ & _ & Hcs).
Defined.
End EventLoop.
