(* ===== verification/DescriptorReuse.v ===== *)
(** * A descriptor number in use again (lib-core, Session.cpp, ServerJob.cpp)

    The threads of one session (SessionThreads.v) beside the accept job of its
    server (Server.v), on one system and one epoll: what EventLoop.v takes as whole
    steps is here cut at each access to the session.  [RecvJob::Complete] reads the
    descriptor and then rearms it; in between, a [Send] of another thread can close
    it, and [accept] give the number to the next client, whose socket is then
    rearmed with the job of the session that is gone. *)

From S2P Require Import Prelude System RecvBuffer Session SessionThreads SessionRaces SessionGroup Endpoint WorkerThreadPool Server EventLoop.

Module DescriptorReuse.
Import RecvBuffer SessionGroup Server EventLoop.

Section Reuse.
Context {P : Type} `{JobPool P}.
Context (OnAccepeted : Endpoint.Endpoint → M (ServerWorld P) bool) (OnConnected : SessionID → M (ServerWorld P) unit).
Context (OnDisconnected : SessionID → M World unit) (OnRecv : SessionID → Z → Z → list iovec * Z).

(** The server and the system, the threads at the session [id], the interest list
    of the server's epoll. *)
Record State := mkState {
  world : ServerWorld P;
  threads : list (list SessionThreads.Frame);
  watched : Watch
}.

(** The epoll after the calls that took the world from [w] to [w']. *)
Definition epoll_after (w w' : ServerWorld P) (k : Watch) : Watch :=
  kernel_calls (mEpollFD (server w)) (drop (length (calls (sys w))) (calls (sys w'))) k.

(** The accesses of the session's threads, on the session in its slot. *)
Definition on_slot (id : SessionID) (st : SessionThreads.State) (w : ServerWorld P) : ServerWorld P :=
  let sw := SessionThreads.world st in
  set_server (set_slot id (session sw) (server w)) (set_sys (os sw) w).

(** The threads of the session make some accesses, or the worker in the accept job
    a turn of its loop; [accept] gives no number that is open. *)
Inductive step (id : SessionID) : State → State → Prop :=
  | accesses w ts k session0 st :
      live (server w) id session0 →
      rtc (SessionThreads.step (view OnDisconnected (server w)) OnRecv)
        (SessionThreads.mkState (mkWorld session0 (sys w) (slot_address w (GetIndex id))) ts) st →
      step id (mkState w ts k) (mkState (on_slot id st w) (SessionThreads.threads st) (epoll_after w (on_slot id st w) k))
  | accepts_client w ts k a rest stack r w' :
      accepts w = a :: rest → fresh_fd k a →
      AcceptJob_turn OnAccepeted OnConnected (mListenFD (server w)) (mEpollFD (server w)) stack w = Some (r, w') →
      step id (mkState w ts k) (mkState w' ts (epoll_after w w' k)).

(** ** Facts *)

Lemma epoll_after_calls w w' k cs :
  calls (sys w') = calls (sys w) ++ cs → epoll_after w w' k = kernel_calls (mEpollFD (server w)) cs k.
Proof. intros Hcs. unfold epoll_after. by rewrite Hcs, drop_app_length. Qed.

(** The table with the session [id] changed in its slot, and a session added. *)
Lemma add_beside (s : Server P) g id session0 session1 fd index pool raw :
  mSessionGroup s = Some g → live s id session0 → mSessionIndexPool g = index :: pool →
  at_index (mSessionVector g) index = Some raw →
  ∃ g1 g2, mSessionGroup (set_slot id session1 s) = Some g1 ∧ length (mSessionVector g1) = length (mSessionVector g) ∧
    mSessionIndexPool g1 = mSessionIndexPool g ∧
    SessionGroup.AddSession fd g1 = Some (make_id (sUniqueNumber g) index, g2) ∧ GetIndex id ≠ index.
Proof.
  intros Hg (g' & Hg' & Hs & Hn & Hid) Hp Hraw. assert (g' = g) as -> by congruence.
  assert (GetIndex id ≠ index) as Hne by (intros <-; apply Hn; rewrite Hp; by left).
  unfold set_slot. rewrite Hg. eexists _, _. cbn. split; [done|]. split; [apply length_insert|]. split; [done|].
  split; [|done]. apply AddSession_Some. exists index, pool, raw. split_and!; [done| |done|done].
  cbn. rewrite at_index_insert; [|by eapply at_index_bound]. by rewrite decide_False.
Qed.

Context (admits : Endpoint.Endpoint → bool).
Context (Haccept : quiet_handlers OnAccepeted OnConnected admits).

(** What the epoll makes of the calls of a client's arrival. *)
Lemma client_watched (s : Server P) fd id f l k :
  mSendPollFD s ≠ mEpollFD s → k !! fd = None →
  kernel_calls (mEpollFD s) ([CallAccept l; CallOnAccepted fd] ++ client_calls s fd id f) k =
    <[fd := (JobRecv id, Armed)]> k.
Proof.
  intros Hne Hk. unfold client_calls, kernel_calls. cbn [app fold_left].
  rewrite (kernel_other_epoll _ (mSendPollFD s)) by done. cbn. by rewrite decide_True, Hk.
Qed.

(** ** The race *)

Section Race.
Context (id : SessionID) (fd : SocketFD) (rj : RecvJob) (sj : SendJob) (p : iovec).
Context (Hfd : 0 ≤ fd) (Hempty : GetUsedSize (mRecvBuffer rj) = 0).
Context (Hp : iov_base p ≠ 0) (Hlp : packet_ok p).

(** C39: the rearming of a session can hit the socket of another client.  A receive
    job that has emptied its socket reads the descriptor to rearm it; the [writev] of
    another thread's [Send] to the session answers [EAGAIN], so that it closes the
    descriptor; [accept] gives the number to a new client, who is put under the
    epoll; and the rearming then puts the job of the closed session in the place of
    the new one's.  The new session is open, and nothing in the epoll will ever
    queue its receive job. *)
Theorem rearm_hits_new_client w k g index pool raw address rest f flags ra wa ea :
  let id' := make_id (sUniqueNumber g) index in
  let e := mEpollFD (server w) in
  live (server w) id (SessionRaces.quiet_session id fd rj sj) → mSendPollFD (server w) ≠ e →
  sys w = mkOS (RecvError EAGAIN :: ra) (SendError EAGAIN :: wa) (None :: ea) (calls (sys w)) →
  mSessionGroup (server w) = Some g → mSessionIndexPool g = index :: pool → NoDup (mSessionIndexPool g) →
  at_index (mSessionVector g) index = Some raw → Z.of_nat (length (mSessionVector g)) ≤ 65536 →
  accepts w = Accepted fd address :: rest → results w = f :: flags →
  admits (Endpoint.of_sockaddr address (λ _, 0)) = true →
  k !! fd = Some (JobRecv id, Fired) → (∀ fd' b, k !! fd' ≠ Some (JobRecv id', b)) →
  ∃ w', rtc (step id) (mkState w [SessionThreads.Send_frames p; [SessionThreads.Recv_check]] k)
      (mkState w' [[]; []] (<[fd := (JobRecv id, Armed)]> k)) ∧
    id' ≠ id ∧ (∃ session', live (server w') id' session' ∧ mSessionFD session' = fd ∧ mIsRecving session' = true) ∧
    (∃ session0, live (server w') id session0 ∧ mSessionFD session0 = sINVALID_SOCKET_FD) ∧
    (∀ fd' b, <[fd := (JobRecv id, Armed)]> k !! fd' ≠ Some (JobRecv id', b)) ∧
    CallOnDisconnected id' ∉ drop (length (calls (sys w))) (calls (sys w')).
Proof.
  intros id' e Hli Hpolls Hsys Hg Hpool Hnd Hraw Hlen Hacc Hres Hok Hk Hnew.
  set (s := server w) in *. set (cs := calls (sys w)) in *.
  assert (fd ≠ sINVALID_SOCKET_FD) as Hfd' by (unfold sINVALID_SOCKET_FD; lia).
  set (closed := SessionRaces.closed_session id rj sj).
  set (v := view OnDisconnected s).
  (* the sender closes the descriptor *)
  pose proof (SessionRaces.closed_before_rearm v OnRecv id fd rj sj (slot_address w (GetIndex id)) Hfd' p Hp Hlp
    ra wa (None :: ea) cs Hempty) as Hrun1.
  set (st1 := SessionThreads.mkState _ (SessionRaces.stale_threads fd)) in Hrun1.
  set (w1 := on_slot id st1 w).
  set (cs1 := [CallRecv fd _; _; _; _]) in st1.
  assert (calls (sys w1) = cs ++ cs1) as Hcs1 by done.
  assert (step id (mkState w [SessionThreads.Send_frames p; [SessionThreads.Recv_check]] k)
            (mkState w1 (SessionRaces.stale_threads fd) (delete fd k))) as Hstep1.
  { assert (delete fd k = epoll_after w w1 k) as ->.
    { rewrite (epoll_after_calls w w1 k cs1 Hcs1). cbn. rewrite decide_True by done. by rewrite delete_delete_eq. }
    eapply (accesses id w _ k _ st1 Hli). rewrite Hsys. exact Hrun1. }
  (* the accept job takes the new client *)
  destruct (add_beside s g id _ closed fd index pool raw Hg Hli Hpool Hraw) as (g1 & g2 & Hg1 & Hlen1 & Hpool1 & Hadd & Hidx).
  fold id' in Hadd.
  pose proof (AcceptJob_turn_client OnAccepeted OnConnected admits (λ _, 0) fd address rest f flags id' g1 g2 w1
    Haccept Hacc Hres Hok Hg1 Hadd ltac:(by rewrite Hlen1)) as Hturn.
  set (w2 := accepted _ _ _ _ _) in Hturn.
  set (cs2 := [CallAccept _; _] ++ _) in w2.
  destruct (set_slot_members id closed s) as (He1 & Hs1 & _ & _).
  assert (calls (sys w2) = calls (sys w1) ++ cs2) as Hcs2 by done.
  assert (step id (mkState w1 (SessionRaces.stale_threads fd) (delete fd k))
            (mkState w2 (SessionRaces.stale_threads fd) (<[fd := (JobRecv id', Armed)]> k))) as Hstep2.
  { assert (<[fd := (JobRecv id', Armed)]> k = epoll_after w1 w2 (delete fd k)) as ->.
    { rewrite (epoll_after_calls w1 w2 _ cs2 Hcs2). unfold cs2. change (server w1) with (set_slot id closed s).
      rewrite client_watched; [by rewrite insert_delete_eq|by rewrite He1, Hs1|apply lookup_delete_eq]. }
    eapply (accepts_client id w1 _ _ _ _ _ _ w2 Hacc); [|exact Hturn].
    split; [done|apply lookup_delete_eq]. }
  (* the sessions then *)
  assert (∀ id2 session2, live (server w1) id2 session2 ↔ id2 = id ∧ session2 = closed ∨ id2 ≠ id ∧ live s id2 session2) as Hl1
    by (by apply live_set_slot with (session := SessionRaces.quiet_session id fd rj sj)).
  destruct (live_added OnConnected OnDisconnected (server w1) g1 fd id' g2 Hg1 Hadd ltac:(by rewrite Hlen1) ltac:(by rewrite Hpool1)) as (raw' & Hl2).
  assert (id' ≠ id) as Hid.
  { intros Heq. apply Hidx. rewrite <- Heq. apply GetIndex_make_id. apply at_index_bound in Hraw. lia. }
  assert (live (server w2) id closed) as Hclosed by (apply Hl2; right; split; [done|apply Hl1; by left]).
  assert (live (server w2) id' (Session_construct id' fd raw')) as Hopen by (apply Hl2; by left).
  (* the stale rearming *)
  pose proof (SessionRaces.stale_rearm v OnRecv id fd rj sj (slot_address w (GetIndex id)) ra wa ea (calls (sys w2))) as Hrun3.
  set (st3 := SessionThreads.mkState _ [[]; []]) in Hrun3.
  set (cs3 := [CallEpollCtl _ _ _ _ _; _]) in st3.
  set (w3 := on_slot id st3 w2).
  assert (calls (sys w3) = calls (sys w2) ++ cs3) as Hcs3 by done.
  assert (mEpollFD (server w2) = e ∧ mSendPollFD (server w2) = mSendPollFD s) as [He2 Hs2] by done.
  assert (step id (mkState w2 (SessionRaces.stale_threads fd) (<[fd := (JobRecv id', Armed)]> k))
            (mkState w3 [[]; []] (<[fd := (JobRecv id, Armed)]> k))) as Hstep3.
  { assert (<[fd := (JobRecv id, Armed)]> k = epoll_after w2 w3 (<[fd := (JobRecv id', Armed)]> k)) as ->.
    { rewrite (epoll_after_calls w2 w3 _ cs3 Hcs3), He2. unfold cs3, kernel_calls. cbn [fold_left].
      rewrite (kernel_other_epoll _ (GetSendPollFD v)) by done. cbn [kernel_call].
      rewrite decide_True, lookup_insert_eq by done. by rewrite insert_insert_eq. }
    eapply (accesses id w2 _ _ _ st3 Hclosed).
    assert (view OnDisconnected (server w2) = v) as -> by (unfold view; by rewrite He2, Hs2). exact Hrun3. }
  assert (∀ id2 session2, live (server w3) id2 session2 ↔ id2 = id ∧ session2 = closed ∨ id2 ≠ id ∧ live (server w2) id2 session2) as Hl3
    by (by apply live_set_slot with (session := closed)).
  exists w3. split; [|split_and!].
  - eapply rtc_l; [exact Hstep1|]. eapply rtc_l; [exact Hstep2|]. by apply rtc_once.
  - done.
  - eexists. split; [apply Hl3; right; split; [done|exact Hopen]|done].
  - exists closed. split; [apply Hl3; by left|done].
  - intros fd' b [[_ Heq]|[_ Hin]]%lookup_insert_Some; [congruence|by apply (Hnew fd' b)].
  - rewrite Hcs3, Hcs2, Hcs1, <- !app_assoc, drop_app_length. unfold cs1, cs2, cs3, client_calls. clear. set_solver.
Qed.
End Race.
End Reuse.
(** *** Witness *)

(** The running server of Server.v: its client 0, of whom no byte waits, is on the
    descriptor 7, which a new client gets. *)
Definition sample_raw_session : Session := set_recv_buffer (Reset sample_buffer) (sample_session false []).

Definition sample_table : SessionGroup Session :=
  mkSessionGroup 2 [Session_construct 0 7 sample_raw_session; sample_session false []] [1; 2] 1.

Definition sample_reuse : ServerWorld (WorkerThreadPool.Pool JobPtr) :=
  mkServerWorld (set_group (Some sample_table) sample_running) (mkOS [RecvError EAGAIN] [SendError EAGAIN] [None] []) [Ret 2] []
    [Accepted 7 (λ _, 0)] (λ i, 4096 * (i + 1)) [] 0.

Definition sample_watch : Watch := {[7 := (JobRecv 0, Fired); 5 := (JobAccept, Fired)]}.

Lemma rearm_hits_new_client_witness :
  ∃ w', rtc (step quiet_accept quiet_connect quiet SessionThreads.echoing 0)
      (mkState sample_reuse [SessionThreads.Send_frames sample_packet; [SessionThreads.Recv_check]] sample_watch)
      (mkState w' [[]; []] (<[7 := (JobRecv 0, Armed)]> sample_watch)) ∧
    ∃ session', live (server w') (make_id 1 1) session' ∧ mSessionFD session' = 7.
Proof.
  destruct (rearm_hits_new_client quiet_accept quiet_connect quiet SessionThreads.echoing (λ _, true)
    (conj (λ _ _, eq_refl) (λ _ _, eq_refl)) 0 7 (mkRecvJob (Reset sample_buffer)) (mkSendJob []) sample_packet
    ltac:(lia) eq_refl ltac:(done) sample_packet_ok sample_reuse sample_watch
    sample_table 1 [2] (sample_session false []) (λ _, 0)
    [] (Ret 2) [] [] [] []) as (w' & Hrun & _ & (session' & Hl & Hf & _) & _).
  - exists sample_table. split; [done|]. split; [done|]. split; [|done]. by apply (bool_decide_unpack _).
  - done.
  - done.
  - done.
  - done.
  - by apply (bool_decide_unpack _).
  - done.
  - done.
  - done.
  - done.
  - done.
  - done.
  - intros fd' b Hw.
    change (({[7 := (JobRecv 0, Fired); 5 := (JobAccept, Fired)]} : Watch) !! fd' = Some (JobRecv (make_id 1 1), b)) in Hw.
    apply lookup_insert_Some in Hw as [[_ [=]]|[_ [_ [=]]%lookup_singleton_Some]].
  - exists w'. split; [exact Hrun|]. by exists session'.
Defined.
End DescriptorReuse.
