(* ===== verification/TestServer.v ===== *)
(** * The test server (tests/performance/test_server.cpp)

    [TestServer] fills in the four handlers: it admits everyone, sends back what it
    receives and prints; [main] starts it with twelve workers and sleeps.  What
    is printed is left out.  The theorems put the library together: what [main]
    leaves running, and that a session echoes. *)

From S2P Require Import Prelude System RecvBuffer Session SessionGroup Endpoint Server EventLoop.

Module TestServer.
Import RecvBuffer Server EventLoop.

(** ** The handlers *)

Section Handlers.
Context {P : Type}.

Definition OnAccepeted (clientEndpoint : Endpoint.Endpoint) : M (ServerWorld P) bool := mret true.
Definition OnConnected (sessionID : SessionID) : M (ServerWorld P) unit := mret tt.
End Handlers.

Definition OnDisconnected (sessionID : SessionID) : M World unit := mret tt.

(** [Send(sessionID, ...)] is to the session whose receive job calls [OnRecv]. *)
Definition OnRecv (v : ServerView) (sessionID : SessionID) (buffer inputSize : Z) : M World Z :=
  Session.Send v buffer inputSize;; mret inputSize.

(** ** [main] *)

(** [main] returns, or sleeps for good. *)
Inductive Ending := Returns (code : Z) | Sleeps.

Section Main.
Context {P : Type} `{JobPool P}.
Context (inet_pton : Z → string → option (list Byte)).

(** [raw] is the memory of [server], [stack] that of [serverEndpoint]. *)
Definition main (raw : Server P) (stack : Endpoint.sockaddr) : M (ServerWorld P) Ending :=
  assign (λ _, Server_construct raw);;
  let serverEndpoint := Endpoint.of_text inet_pton Endpoint.IPv4 "0.0.0.0" 7799 stack in
  started ← Start serverEndpoint 12;
  if (started : bool) then mret Sleeps
  else sys_ CallPrintln;; Server_destroy;; mret (Returns (-1)).

(** *** The event loop that [main] leaves *)

Lemma OnRecv_settles v id buffer size :
  QuietDisconnect v → GetSendPollFD v ≠ GetEpollFD v → leaves (settles v) (OnRecv v id buffer size).
Proof. apply echo_settles. Qed.

Lemma handlers_quiet : quiet_handlers (P := P) OnAccepeted OnConnected (λ _, true).
Proof. by split. Qed.

Abbreviation runs := (rtc (step (P := P) OnAccepeted OnConnected OnDisconnected OnRecv)).

(** C11: when the system grants everything, [main] starts the server and sleeps; from
    then on, whatever the workers, the clients and the system do, the poll is queued or
    at a worker, the listening socket and every open session are watched for
    their own jobs, and no job is at two workers.  (The steps also allow other threads
    to send, each [Send] as a whole; in this program only [OnRecv] does, on the
    session's own worker.) *)
Theorem main_serves raw stack e s l f answers rest w :
  results w = Ret e :: Ret s :: answers ++ rest → e ≠ -1 → s ≠ -1 → l ≠ -1 → e ≠ s →
  granted l f answers → length (fresh_slots w) = 5000%nat →
  ∃ w1 loop, main raw stack w = Some (Sleeps, w1) ∧
    world loop = w1 ∧ boots (set_server (Server_construct raw) w) loop ∧
    ∀ loop', runs loop loop' →
      JobPoll ∈ held loop' ∧ NoDup (held loop') ∧
      (∃ i, watched loop' !! mListenFD (server (world loop')) = Some (JobAccept, i)) ∧
      (∀ id session0, live (server (world loop')) id session0 → mSessionFD session0 ≠ sINVALID_SOCKET_FD →
         ∃ i, watched loop' !! mSessionFD session0 = Some (JobRecv id, i)).
Proof.
  intros Hr He Hs Hl Hes Hg Hlen. set (ep := Endpoint.of_text inet_pton Endpoint.IPv4 "0.0.0.0" 7799 stack).
  set (w0 := set_server (Server_construct raw) w).
  destruct (Start_run ep 12 e s l _ _ rest w0 Hr He Hs Hlen
    (λ w' Hr', CreateListenSocket_granted ep l f answers rest w' Hl Hg Hr')) as (p & _ & _ & Hstart).
  revert Hstart. set (w1 := answered _ _ _). intros Hstart.
  assert (boots w0 (mkLoop w1 (kernel_calls e (drop (length (calls (sys w0))) (calls (sys w1))) ∅) [] [])) as Hboots
    by (by econstructor).
  exists w1. eexists. split; [|split; [|split; [exact Hboots|]]]; [|done|].
  - unfold main. erewrite (bind_eq (assign _)) by reflexivity. by rewrite (bind_eq _ _ _ _ _ Hstart).
  - intros loop' Hruns.
    assert (inv loop') as [HI _].
    { eapply (steps_inv OnAccepeted OnConnected OnDisconnected OnRecv (λ _, true) handlers_quiet (λ _ _, eq_refl) OnRecv_settles);
        [|exact Hruns]. by apply (boots_inv w0). }
    split_and!.
    + apply (inv_poll _ _ _ HI).
    + apply (inv_once _ _ _ HI).
    + apply (inv_listen _ _ _ HI).
    + apply (inv_connected _ _ _ HI).
Qed.

(** If an epoll cannot be made, [main] does not get to return its -1: the
    destructor of the server looks at the job pointers that nothing has set. *)
Theorem main_fails_undefined raw stack w e rest (failed : list SysResult) :
  failed = [Failed e] ∨ (∃ n, n ≠ -1 ∧ failed = [Ret n; Failed e]) → results w = failed ++ rest → main raw stack w = None.
Proof.
  intros Hf Hr. unfold main. erewrite (bind_eq (assign _)) by reflexivity.
  set (w0 := set_server (Server_construct raw) w). change (results w) with (results w0) in Hr.
  set (ep := Endpoint.of_text inet_pton Endpoint.IPv4 "0.0.0.0" 7799 stack).
  assert (∃ w1, Start ep 12 w0 = Some (false, w1) ∧ mIsRunning (server w1) = false ∧ mPollJob (server w1) = Indeterminate)
    as (w1 & Hstart & Hrun & Hjob).
  { destruct Hf as [->|(n & Hn & ->)]; eexists; (split; [|shelve]); unfold Start; answer; assigned.
    - by rewrite decide_True.
    - rewrite decide_False by done. answer. assigned. by rewrite decide_True.
    Unshelve. all: done. }
  cbv zeta. rewrite (bind_eq _ _ _ _ _ Hstart), (bind_eq _ _ _ _ _ (sys_run _ _)).
  unfold mbind at 1, M_bind. by rewrite destroy_indeterminate.
Qed.
End Main.

(** ** The echo *)

(** A worker's run of a session's receive job. *)
Definition receive_job (v : ServerView) : M World unit :=
  b ← RecvJob_Execute v;
  if (b : bool) then RecvJob_Complete v (OnRecv v) else mret tt.

(** An open session with nothing to send and nothing unread. *)
Record resting (s : Session) : Prop := {
  resting_open : mSessionFD s ≠ sINVALID_SOCKET_FD;
  resting_flag : mIsSending s = false;
  resting_queue : mPackets s = [];
  resting_front : mFront (mRecvBuffer (mRecvJob s)) = 0;
  resting_rear : mRear (mRecvBuffer (mRecvJob s)) = 0
}.

(** One message: the pieces in which it arrives, and how often the write of its echo
    is interrupted. *)
Record Message := mkMessage { pieces : list RecvAnswer; interruptions : nat }.

Definition text (m : Message) : list Byte := received (pieces m).
Definition size (m : Message) : Z := Z.of_nat (length (text m)).
Definition message_ok (m : Message) : Prop := Forall goes_on (pieces m) ∧ 0 < size m < BUFFER_SIZE.

(** What the system answers to the runs of the receive job for the messages [ms]. *)
Definition arriving (ms : list Message) : list RecvAnswer := ms ≫= (λ m, pieces m ++ [RecvError EAGAIN]).
Definition accepted (ms : list Message) : list WritevAnswer :=
  ms ≫= (λ m, replicate (interruptions m) (SendError EINTR) ++ [Sent (size m)]).

(** The calls of the run for [m]: some receives, the user, and the write of the
    packet [p] until it is not interrupted. *)
Definition echo_calls (v : ServerView) (s : Session) (m : Message) (lens : list Z) (p : iovec) : list Call :=
  (CallRecv (mSessionFD s) <$> lens) ++
  [CallOnRecv (mSessionID s) (iov_base p) (iov_len p)] ++
  replicate (S (interruptions m)) (CallWritev (mSessionFD s) [p]) ++
  [CallEpollCtl (GetSendPollFD v) EPOLL_CTL_MOD (mSessionFD s) (JobSend (mSessionID s)) (Z.lor EPOLLOUT EPOLLONESHOT);
   CallEpollCtl (GetEpollFD v) EPOLL_CTL_MOD (mSessionFD s) (JobRecv (mSessionID s))
     (Z.lor (Z.lor EPOLLONESHOT EPOLLIN) EPOLLET)].

(** The session serves the messages [ms]: each run of the receive job shows the user
    one packet, whose bytes are the message, and writes that packet. *)
Inductive echoes (v : ServerView) : World → list Message → World → Prop :=
  | echoes_none w : echoes v w [] w
  | echoes_next w w1 w' m ms p lens :
      receive_job v w = Some (tt, w1) →
      calls (os w1) = calls (os w) ++ echo_calls v (session w) m lens p →
      packet_bytes w1 p = text m → echoes v w1 ms w' → echoes v w (m :: ms) w'.

Section Echo.
Context (v : ServerView) `{!QuietDisconnect v}.

(** A packet that [writev] takes whole leaves an idle session as it was. *)
Lemma Send_whole k rest p s o ad :
  mSessionFD s ≠ sINVALID_SOCKET_FD → mIsSending s = false → mPackets s = [] → iov_base p ≠ 0 → packet_ok p →
  writev_answers o = replicate k (SendError EINTR) ++ Sent (iov_len p) :: rest →
  Session.Send v (iov_base p) (iov_len p) (mkWorld s o ad) =
    Some (tt, mkWorld s (log_call (CallEpollCtl (GetSendPollFD v) EPOLL_CTL_MOD (mSessionFD s) (JobSend (mSessionID s))
      (Z.lor EPOLLOUT EPOLLONESHOT)) (after_writev (S k) (mSessionFD s) [p] rest o)) ad).
Proof.
  intros Hfd Hs Hps Hb Hp Ho. pose proof Hp as [Hp1 Hp2]. rewrite Send_idle by done. rewrite Hps.
  erewrite bind_eq.
  2:{ apply (DoSend_all v k rest [p]); cbn [sum_len]; rewrite ?Z.add_0_r; try done.
      - by destruct p.
      - by apply Forall_singleton. }
  destruct s; cbn in *; by subst.
Qed.

Lemma read_from_start (b : RecvBuffer Byte) :
  wf b → mFront b = 0 → GetDIrectReadSize b = used b ∧ segment (mBuffer b) 0 (used b) = contents b.
Proof.
  intros Hwf Hf. pose proof (used_eq b Hwf) as Hu.
  assert (GetDIrectReadSize b = GetUsedSize b ∧ GetUsedSize b = mRear b) as [Hd Hm].
  { clear Hu. unfold wf in Hwf. unfold GetDIrectReadSize, GetUsedSize. rewrite Hf in *. unfold BUFFER_SIZE in Hwf.
    rewrite (proj2 (Z.leb_le 0 (mRear b))) by lia. unwrap. lia. }
  split; [by rewrite Hd|]. rewrite <- Hu, Hm. unfold contents. rewrite Hf.
  rewrite (proj2 (Z.leb_le 0 (mRear b))) by apply Hwf. by rewrite Z.sub_0_r.
Qed.

Lemma echo_one m rest writevs s o ad :
  resting s → ad ≠ 0 → message_ok m →
  recv_answers o = pieces m ++ RecvError EAGAIN :: rest →
  writev_answers o = replicate (interruptions m) (SendError EINTR) ++ Sent (size m) :: writevs →
  head (epoll_ctl_answers o) = Some None →
  ∃ b lens, receive_job v (mkWorld s o ad) = Some (tt, mkWorld (set_recv_buffer b s)
      (mkOS rest writevs (tail (epoll_ctl_answers o)) (calls o ++ echo_calls v s m lens (mkIovec ad (size m)))) ad) ∧
    mFront b = 0 ∧ mRear b = 0 ∧ segment (mBuffer b) 0 (size m) = text m.
Proof.
  intros [Hfd Hs Hps Hfront Hrear] Had [Hgo Hsize] Hr Hw Hep.
  set (b0 := mRecvBuffer (mRecvJob s)) in *.
  assert (wf b0) as Hwf0 by (unfold wf; rewrite Hfront, Hrear; by split).
  assert (contents b0 = []) as Hc0 by (unfold contents; rewrite Hfront, Hrear; reflexivity).
  assert (GetDirectWriteSize b0 = BUFFER_SIZE - 1) as Hd0
    by (rewrite direct_write_eq, Hfront, Hrear by done; reflexivity).
  destruct (Execute_run v (pieces m) rest s o ad) as (b & lens & He & Hwf & Hc & Hf); fold b0; try done; [rewrite Hd0; unfold size, text in *; lia|].
  fold b0 in Hc, Hf. rewrite Hc0 in Hc. rewrite Hfront in Hf. cbn [app] in Hc. fold (text m) in Hc.
  destruct (read_from_start b Hwf Hf) as [Hread Hseg].
  assert (used b = size m) as Hused by (unfold used; by rewrite Hc). rewrite Hused in *.
  assert (packet_ok (mkIovec ad (size m))) as Hok by (split; cbn [iov_len]; unfold BUFFER_SIZE in *; lia).
  set (s1 := set_recv_buffer b s) in *. set (o1 := after_recv (mSessionFD s) lens rest o) in *.
  set (o2 := log_call (CallOnRecv (mSessionID s) ad (size m)) o1).
  set (o3 := log_call (CallEpollCtl (GetSendPollFD v) EPOLL_CTL_MOD (mSessionFD s) (JobSend (mSessionID s))
    (Z.lor EPOLLOUT EPOLLONESHOT)) (after_writev (S (interruptions m)) (mSessionFD s) [mkIovec ad (size m)] writevs o2)).
  assert (OnRecv v (mSessionID s1) (ad + mFront b) (GetDIrectReadSize b)
    (mkWorld s1 (log_call (CallOnRecv (mSessionID s1) (ad + mFront b) (GetDIrectReadSize b)) o1) ad)
      = Some (size m, mkWorld s1 o3 ad)) as Huser.
  { rewrite Hread, Hf, Z.add_0_r. unfold OnRecv.
    pose proof (Send_whole (interruptions m) writevs (mkIovec ad (size m)) s1 o2 ad Hfd Hs Hps Had Hok Hw) as Hsend.
    by rewrite (bind_eq _ _ _ _ _ Hsend). }
  exists (consumed b (size m)), lens. split.
  - unfold receive_job. rewrite (bind_eq _ _ _ _ _ He).
    rewrite (Complete_run v (OnRecv v) s1 o1 ad s1 o3 (size m)); try done; [|change (0 < used b); lia].
    assert (calls (rearmed v s1 o3) = calls o ++ echo_calls v s m lens (mkIovec ad (size m))) as Hcalls.
    { unfold echo_calls. cbn [rearmed o3 o2 o1 log_call set_epoll_ctl_answers after_writev after_recv calls].
      by rewrite <- !app_assoc. }
    rewrite <- Hcalls. reflexivity.
  - unfold consumed. rewrite (proj2 (Z.ltb_lt _ _) (proj1 Hsize)), (used_eq b Hwf), Hused, Z.eqb_refl. by rewrite <- Hc.
Qed.

(** C3: the test server echoes.  A session at rest, however the messages of its
    client are cut up and its writes interrupted, runs its receive job once for each
    message, shows the user the whole of it and writes the very bytes back, in
    order; afterwards it is at rest again. *)
Theorem server_echoes ms w :
  resting (session w) → buffer_address w ≠ 0 → Forall message_ok ms →
  recv_answers (os w) = arriving ms → writev_answers (os w) = accepted ms →
  epoll_ctl_answers (os w) = replicate (length ms) None →
  ∃ w', echoes v w ms w' ∧ resting (session w').
Proof.
  intros Hrest Had Hok. revert w Hrest Had. induction Hok as [|m ms Hm _ IH]; intros [s o ad] Hrest Had Hr Hw Hep.
  - eexists. split; [constructor|done].
  - cbn [session os buffer_address] in *.
    destruct (echo_one m (arriving ms) (accepted ms) s o ad) as (b & lens & Hrun & Hf & Hre & Hseg); try done.
    { rewrite Hr. unfold arriving. cbn. by rewrite <- app_assoc. }
    { rewrite Hw. unfold accepted. cbn. by rewrite <- app_assoc. }
    { by rewrite Hep. }
    edestruct (IH (mkWorld (set_recv_buffer b s) (mkOS (arriving ms) (accepted ms) (tail (epoll_ctl_answers o))
      (calls o ++ echo_calls v s m lens (mkIovec ad (size m)))) ad)) as (w' & Hechoes & Hrest'); try done.
    { destruct Hrest. by split. }
    { cbn. by rewrite Hep. }
    exists w'. split; [|done]. eapply echoes_next; [exact Hrun|done| |exact Hechoes].
    unfold packet_bytes. cbn. by rewrite Z.sub_diag.
Qed.
End Echo.

(** *** Witnesses *)

Definition hello : Message := mkMessage [RecvData [104; 101]; RecvError EINTR; RecvData [108; 108; 111]] 1.
Definition bye : Message := mkMessage [RecvData [98; 121; 101]] 0.

Definition fresh_session : Session := mkSession 7 3 true (mkRecvJob (mkRecvBuffer 0 0 (λ _, 0))) false (mkSendJob []) [].

Lemma server_echoes_witness :
  ∃ w', echoes test_server (mkWorld fresh_session
      (mkOS (arriving [hello; bye]) (accepted [hello; bye]) [None; None] []) 4096) [hello; bye] w' ∧ resting (session w').
Proof.
  apply (server_echoes test_server [hello; bye]); [by split|done| |done..].
  repeat constructor; done.
Defined.

Lemma main_serves_witness :
  ∃ w1 loop, main Endpoint.sample_pton sample_raw (λ _, 0) sample_start = Some (Sleeps, w1) ∧ world loop = w1 ∧
    JobPoll ∈ held loop.
Proof.
  assert (granted 5 (Ret 2) [Ret 5; Ret 0; Ret 2; Ret 0; Ret 0]) as Hg by (by exists 0, 0, 0).
  assert (length (fresh_slots sample_start) = 5000%nat) as Hlen by apply length_replicate.
  destruct (main_serves Endpoint.sample_pton sample_raw (λ _, 0) 3 4 5 (Ret 2) [Ret 5; Ret 0; Ret 2; Ret 0; Ret 0] []
    sample_start eq_refl ltac:(lia) ltac:(lia) ltac:(lia) ltac:(lia) Hg Hlen) as (w1 & loop & Hmain & Hw & _ & Hruns).
  exists w1, loop. split; [done|]. split; [done|]. apply (Hruns loop). apply rtc_refl.
Defined.
End TestServer.
