(* ===== verification/Logger.v ===== *)
(** * The logger (lib-core, Logger.{hpp,cpp})

    Loggers, their level, and the console and file sinks they share.  A message
    arrives formatted by [fmt], whose formats of a time and of a number are
    parameters, as is the [localtime_r] of the system; the readings of the clock
    and the results of [fopen] come from the environment.  What the code
    writes is the list of the library calls it makes.  The file mutex makes a
    [FileSink::Write] one action. *)

From Stdlib Require Import Ascii.
From S2P Require Import Prelude.

Module Logger.

Inductive eLogLevel := Trace | Debug | Info | Warn | Error | Critical | Off.

#[global] Instance eLogLevel_eq_dec : EqDecision eLogLevel.
Proof. solve_decision. Defined.

(** The value of the [UInt8] enumerator. *)
Definition level_value (level : eLogLevel) : Z :=
  match level with
  | Trace => 0 | Debug => 1 | Info => 2 | Warn => 3 | Error => 4 | Critical => 5 | Off => 6
  end.

Definition ToLevelName (level : eLogLevel) : string :=
  match level with
  | Trace => "TRACE" | Debug => "DEBUG" | Info => "INFO" | Warn => "WARN"
  | Error => "ERROR" | Critical => "CRITICAL" | Off => "OFF"
  end.

Definition LevelToString (level : eLogLevel) : string := ToLevelName level.

(** [ConsoleSink], or the [FileSink] at an index of the store: sinks are held by
    shared pointers, and loggers can share them. *)
Inductive Sink := ConsoleSink | FileSinkAt (i : nat).

Record FileSink := mkFileSink { mFilePath : string; mAppend : bool; mFileHandle : option Z }.

Record Logger := mkLogger { mName : string; mLevel : eLogLevel; mSinks : list Sink }.

Inductive Stream := Stdout | Stderr | File (handle : Z).

Inductive LogCall :=
  | Mkdir (dir : string)
  | Fopen (path mode : string)
  | Println (stream : Stream) (line : string)
  | Fflush (handle : Z).

Record LogWorld := mkLogWorld {
  file_sinks : list FileSink;
  fopen_answers : list (option Z);
  clock : list Z;                    (* what [system_clock::now] reads, in ns *)
  log_calls : list LogCall
}.

Definition set_file_sinks (l : list FileSink) (w : LogWorld) : LogWorld :=
  mkLogWorld l (fopen_answers w) (clock w) (log_calls w).
Definition set_fopen_answers (l : list (option Z)) (w : LogWorld) : LogWorld :=
  mkLogWorld (file_sinks w) l (clock w) (log_calls w).
Definition set_clock (l : list Z) (w : LogWorld) : LogWorld :=
  mkLogWorld (file_sinks w) (fopen_answers w) l (log_calls w).
Definition add_calls (cs : list LogCall) (w : LogWorld) : LogWorld :=
  mkLogWorld (file_sinks w) (fopen_answers w) (clock w) (log_calls w ++ cs).

Definition call (c : LogCall) : M LogWorld unit := modify (add_calls [c]).

Definition Logger_construct (name : string) (sinks : list Sink) : Logger := mkLogger name Info sinks.
Definition FileSink_construct (filePath : string) (append : bool) : FileSink := mkFileSink filePath append None.

Definition SetLevel (level : eLogLevel) (l : Logger) : Logger := mkLogger (mName l) level (mSinks l).
Definition GetLevel (l : Logger) : eLogLevel := mLevel l.

(** The formats ["[{}] [{}] {}"] and ["[{}] [{}] [{}] {}"]. *)
Definition line (level : eLogLevel) (timestamp loggerName message : string) : string :=
  (if decide (loggerName = "")
   then "[" +:+ timestamp +:+ "] [" +:+ ToLevelName level +:+ "] " +:+ message
   else "[" +:+ timestamp +:+ "] [" +:+ ToLevelName level +:+ "] [" +:+ loggerName +:+ "] " +:+ message)%string.

Definition ConsoleSink_Write (level : eLogLevel) (timestamp loggerName message : string) : M LogWorld unit :=
  call (Println (if level_value Error <=? level_value level then Stderr else Stdout)
          (line level timestamp loggerName message)).

(** [path.substr(0, path.find_last_of('/'))], when there is a slash. *)
Fixpoint parent_directory (path : string) : option string :=
  match path with
  | EmptyString => None
  | String c rest =>
      match parent_directory rest with
      | Some dir => Some (String c dir)
      | None => if decide (c = "/"%char) then Some EmptyString else None
      end
  end.

Definition file_sink (i : nat) : M LogWorld FileSink := λ w,
  s ← file_sinks w !! i; Some (s, w).

Definition set_handle (i : nat) (h : option Z) : M LogWorld unit := λ w,
  s ← file_sinks w !! i;
  Some (tt, set_file_sinks (<[i := mkFileSink (mFilePath s) (mAppend s) h]> (file_sinks w)) w).

Definition fopen (path mode : string) : M LogWorld (option Z) :=
  call (Fopen path mode);;
  l ← gets fopen_answers;
  match l with [] => undefined | a :: rest => modify (set_fopen_answers rest);; mret a end.

Definition EnsureFileOpen (i : nat) : M LogWorld unit :=
  s ← file_sink i;
  match mFileHandle s with
  | Some _ => mret tt
  | None =>
      match parent_directory (mFilePath s) with
      | Some dir => call (Mkdir dir)
      | None => mret tt
      end;;
      h ← fopen (mFilePath s) (if mAppend s then "a" else "w");
      set_handle i h
  end.

Definition FileSink_Write (i : nat) (level : eLogLevel) (timestamp loggerName message : string) : M LogWorld unit :=
  EnsureFileOpen i;;
  s ← file_sink i;
  match mFileHandle s with
  | None => mret tt
  | Some h => call (Println (File h) (line level timestamp loggerName message));; call (Fflush h)
  end.

Definition Sink_Write (sink : Sink) : eLogLevel → string → string → string → M LogWorld unit :=
  match sink with ConsoleSink => ConsoleSink_Write | FileSinkAt i => FileSink_Write i end.

(** [system_clock::now()]: nanoseconds since the epoch. *)
Definition now : M LogWorld Z :=
  l ← gets clock;
  match l with [] => undefined | t :: rest => modify (set_clock rest);; mret t end.

(** [duration_cast] rounds towards zero, as [to_time_t] does. *)
Definition to_time_t (ns : Z) : Z := ns `quot` 1000000000.
Definition milliseconds (ns : Z) : Z := ns `quot` 1000000.

Section Time.
Context {tm : Type} (localtime_r : Z → tm) (format_tm : tm → string) (format_03d : Z → string).

(** ["{:%Y-%m-%dT%H:%M:%S}.{:03d}"] *)
Definition timestamp_of (ns : Z) : string :=
  (format_tm (localtime_r (to_time_t ns)) +:+ "." +:+ format_03d (i32 (milliseconds ns `rem` 1000)))%string.

Definition NowIso8601 : M LogWorld string :=
  nowTimePoint ← now;
  mret (timestamp_of nowTimePoint).

Fixpoint Emit_sinks (sinks : list Sink) (level : eLogLevel) (timestamp loggerName message : string) : M LogWorld unit :=
  match sinks with
  | [] => mret tt
  | sink :: sinks =>
      Sink_Write sink level timestamp loggerName message;;
      Emit_sinks sinks level timestamp loggerName message
  end.

Definition Emit (l : Logger) (level : eLogLevel) (message : string) : M LogWorld unit :=
  timestamp ← NowIso8601;
  Emit_sinks (mSinks l) level timestamp (mName l) message.

Definition Log (l : Logger) (level : eLogLevel) (message : string) : M LogWorld unit :=
  if (level_value level <? level_value (mLevel l)) || bool_decide (mLevel l = Off) then mret tt
  else Emit l level message.

(** The level methods, on the formatted message. *)
Definition Logger_Trace (l : Logger) (message : string) : M LogWorld unit := Log l Trace message.
Definition Logger_Debug (l : Logger) (message : string) : M LogWorld unit := Log l Debug message.
Definition Logger_Info (l : Logger) (message : string) : M LogWorld unit := Log l Info message.
Definition Logger_Warn (l : Logger) (message : string) : M LogWorld unit := Log l Warn message.
Definition Logger_Error (l : Logger) (message : string) : M LogWorld unit := Log l Error message.
Definition Logger_Critical (l : Logger) (message : string) : M LogWorld unit := Log l Critical message.

Fixpoint Logs (l : Logger) (messages : list (eLogLevel * string)) : M LogWorld unit :=
  match messages with
  | [] => mret tt
  | (level, message) :: messages => Log l level message;; Logs l messages
  end.

(** ** Facts *)

(** The two numbers of a timestamp are the parts of the reading, to the
    millisecond. *)
Lemma timestamp_parts ns :
  0 ≤ ns → 0 ≤ milliseconds ns `rem` 1000 < 1000 ∧ milliseconds ns = 1000 * to_time_t ns + milliseconds ns `rem` 1000.
Proof.
  intros Hns. unfold milliseconds, to_time_t. change 1000000000 with (1000000 * 1000).
  rewrite <- Z.quot_quot by lia. rewrite !Z.quot_div_nonneg by lia.
  assert (0 ≤ ns `div` 1000000) by (by apply Z.div_pos).
  rewrite Z.quot_div_nonneg, Z.rem_mod_nonneg by lia.
  pose proof (Z.mod_pos_bound (ns `div` 1000000) 1000). pose proof (Z.div_mod (ns `div` 1000000) 1000). lia.
Qed.

(** The messages a logger lets through, with the time each is given. *)
Definition enabled (l : Logger) (level : eLogLevel) : bool :=
  negb (bool_decide (mLevel l = Off)) && (level_value (mLevel l) <=? level_value level).

Fixpoint stamped (l : Logger) (messages : list (eLogLevel * string)) (times : list Z) :
    list (eLogLevel * string * string) :=
  match messages with
  | [] => []
  | (level, message) :: rest =>
      if enabled l level then
        match times with t :: times => (level, timestamp_of t, message) :: stamped l rest times | [] => [] end
      else stamped l rest times
  end.

Definition count_enabled (l : Logger) (messages : list (eLogLevel * string)) : nat :=
  length (filter (λ m, enabled l m.1 = true) messages).

(** What each sink does with a line, the files being open. *)
Definition sink_calls (handles : nat → Z) (level : eLogLevel) (text : string) (sink : Sink) : list LogCall :=
  match sink with
  | ConsoleSink => [Println (if level_value Error <=? level_value level then Stderr else Stdout) text]
  | FileSinkAt i => [Println (File (handles i)) text; Fflush (handles i)]
  end.

Definition message_calls (handles : nat → Z) (l : Logger) (m : eLogLevel * string * string) : list LogCall :=
  let '(level, timestamp, message) := m in
  mjoin (sink_calls handles level (line level timestamp (mName l) message) <$> mSinks l).

Definition open_sinks (handles : nat → Z) (l : Logger) (w : LogWorld) : Prop :=
  ∀ i, FileSinkAt i ∈ mSinks l →
    ∃ path append, file_sinks w !! i = Some (mkFileSink path append (Some (handles i))).

Lemma add_calls_app cs cs' w : add_calls cs' (add_calls cs w) = add_calls (cs ++ cs') w.
Proof. unfold add_calls; cbn. by rewrite app_assoc. Qed.

Lemma add_calls_nil w : add_calls [] w = w.
Proof. destruct w. unfold add_calls; cbn. by rewrite app_nil_r. Qed.

Lemma EnsureFileOpen_open i w s h :
  file_sinks w !! i = Some s → mFileHandle s = Some h → EnsureFileOpen i w = Some (tt, w).
Proof. intros Hs Hh. unfold EnsureFileOpen, file_sink. run. rewrite Hs. cbn. by rewrite Hh. Qed.

Lemma Sink_Write_open handles sink level t name message w :
  (∀ i, sink = FileSinkAt i → ∃ path append, file_sinks w !! i = Some (mkFileSink path append (Some (handles i)))) →
  Sink_Write sink level t name message w =
    Some (tt, add_calls (sink_calls handles level (line level t name message) sink) w).
Proof.
  intros Hopen. destruct sink as [|i]; [done|].
  destruct (Hopen i eq_refl) as (path & append & Hs). cbn [Sink_Write]. unfold FileSink_Write.
  rewrite (bind_eq _ _ _ _ _ (EnsureFileOpen_open i w _ (handles i) Hs eq_refl)).
  unfold file_sink. unfold mbind at 1, M_bind at 1. rewrite Hs. cbn [mbind option_bind mFileHandle].
  unfold call. erewrite bind_eq by reflexivity. cbn [sink_calls].
  unfold modify. by rewrite add_calls_app.
Qed.

Lemma Emit_sinks_open handles sinks level t name message w :
  (∀ i, FileSinkAt i ∈ sinks → ∃ path append, file_sinks w !! i = Some (mkFileSink path append (Some (handles i)))) →
  Emit_sinks sinks level t name message w =
    Some (tt, add_calls (mjoin (sink_calls handles level (line level t name message) <$> sinks)) w).
Proof.
  revert w. induction sinks as [|sink sinks IH]; intros w Hopen; cbn [Emit_sinks].
  - cbn. by rewrite add_calls_nil.
  - assert (Sink_Write sink level t name message w =
      Some (tt, add_calls (sink_calls handles level (line level t name message) sink) w)) as Hw.
    { apply Sink_Write_open. intros i ->. apply Hopen. set_solver. }
    rewrite (bind_eq _ _ _ _ _ Hw), IH by (intros i Hi; apply Hopen; set_solver).
    by rewrite add_calls_app.
Qed.

Lemma Log_cases l level message w :
  Log l level message w = if enabled l level then Emit l level message w else Some (tt, w).
Proof.
  unfold Log, enabled. case_bool_decide; cbn; [by rewrite orb_true_r|]. rewrite orb_false_r.
  rewrite Z.leb_antisym. by destruct (level_value level <? level_value (mLevel l)).
Qed.

Lemma count_enabled_cons l level message messages :
  count_enabled l ((level, message) :: messages) =
    ((if enabled l level then 1 else 0) + count_enabled l messages)%nat.
Proof.
  unfold count_enabled. rewrite filter_cons. cbn. destruct (enabled l level); by case_decide.
Qed.

Lemma stamped_off l messages times : mLevel l = Off → stamped l messages times = [].
Proof.
  intros Hoff. induction messages as [|[level message] messages IH]; [done|].
  cbn [stamped]. unfold enabled. by rewrite bool_decide_true.
Qed.

Lemma Logs_run handles l messages times rest w :
  open_sinks handles l w → clock w = times ++ rest → length times = count_enabled l messages →
  Logs l messages w =
    Some (tt, add_calls (mjoin (message_calls handles l <$> stamped l messages times)) (set_clock rest w)).
Proof.
  revert times w. induction messages as [|[level message] messages IH]; intros times w Hopen Hclock Hlen.
  - destruct times; [|done]. cbn in *. rewrite <- Hclock. rewrite add_calls_nil. by destruct w.
  - rewrite count_enabled_cons in Hlen. cbn [Logs stamped].
    assert (Log l level message w = if enabled l level then Emit l level message w else Some (tt, w)) as Hlog
      by apply Log_cases.
    destruct (enabled l level).
    + destruct times as [|t times]; [done|].
      assert (Emit l level message w =
        Some (tt, add_calls (message_calls handles l (level, timestamp_of t, message)) (set_clock (times ++ rest) w))) as He.
      { unfold Emit. assert (NowIso8601 w = Some (timestamp_of t, set_clock (times ++ rest) w)) as Hnow.
        { unfold NowIso8601, now. run. by rewrite Hclock. }
        rewrite (bind_eq _ _ _ _ _ Hnow). by apply Emit_sinks_open. }
      rewrite He in Hlog. rewrite (bind_eq _ _ _ _ _ Hlog).
      rewrite (IH times) by (done || by injection Hlen). cbn. rewrite <- add_calls_app. done.
    + rewrite (bind_eq _ _ _ _ _ Hlog). by apply IH.
Qed.

(** ** Properties *)

(** C34: with its files open, a logger writes each message at or above its
    level, and no other, once to each of its sinks: in the order logged, stamped
    with one time for all the sinks, on the console to the error stream from
    [Error] up, in a file followed by a flush; a logger that is off writes
    nothing. *)
Theorem Logs_reach_every_sink handles l messages times rest w :
  open_sinks handles l w → clock w = times ++ rest → length times = count_enabled l messages →
  ∃ w', Logs l messages w = Some (tt, w') ∧ file_sinks w' = file_sinks w ∧ clock w' = rest ∧
    log_calls w' = log_calls w ++ mjoin (message_calls handles l <$> stamped l messages times) ∧
    (mLevel l = Off → log_calls w' = log_calls w).
Proof.
  intros Hopen Hclock Hlen. eexists. split; [by apply (Logs_run handles l messages times rest)|].
  split_and!; [done..|]. intros Hoff. cbn. by rewrite stamped_off, app_nil_r.
Qed.

End Time.

(** The first write to a file sink makes the parent directory, opens the
    file once, to append or to truncate as it was told, and writes the line; when
    the file cannot be opened the line is dropped without an error, and the next
    write tries again. *)
Theorem first_write_opens i path append answer rest level t name message w :
  file_sinks w !! i = Some (FileSink_construct path append) → fopen_answers w = answer :: rest →
  let text := line level t name message in
  let opening := match parent_directory path with Some dir => [Mkdir dir] | None => [] end ++
    [Fopen path (if append then "a" else "w")] in
  ∃ w', FileSink_Write i level t name message w = Some (tt, w') ∧
    file_sinks w' !! i = Some (mkFileSink path append answer) ∧ fopen_answers w' = rest ∧
    log_calls w' = log_calls w ++ opening ++
      match answer with Some h => [Println (File h) text; Fflush h] | None => [] end ∧
    ∀ h, answer = Some h → FileSink_Write i level t name message w' =
      Some (tt, add_calls [Println (File h) text; Fflush h] w').
Proof.
  intros Hs Ha text opening.
  set (w1 := set_file_sinks (<[i := mkFileSink path append answer]> (file_sinks w))
               (add_calls opening (set_fopen_answers rest w))).
  assert (file_sinks w1 !! i = Some (mkFileSink path append answer)) as Hs1
    by (apply list_lookup_insert_eq; by eapply lookup_lt_Some).
  assert (EnsureFileOpen i w = Some (tt, w1)) as Hopen.
  { unfold EnsureFileOpen, file_sink, fopen, set_handle, call. destruct w as [fs fa ck cs]; cbn in Hs, Ha; subst fa.
    run. rewrite Hs. run. unfold w1, opening, add_calls. cbn.
    destruct (parent_directory path); run; rewrite Hs; cbn; [by rewrite <- app_assoc|done]. }
  exists (add_calls match answer with Some h => [Println (File h) text; Fflush h] | None => [] end w1).
  assert (FileSink_Write i level t name message w =
    (s ← file_sink i; match mFileHandle s with
     | None => mret tt
     | Some h => call (Println (File h) text);; call (Fflush h) end) w1) as Hw
    by (unfold FileSink_Write; by rewrite (bind_eq _ _ _ _ _ Hopen)).
  assert (file_sink i w1 = Some (mkFileSink path append answer, w1)) as Hget by (unfold file_sink; by rewrite Hs1).
  rewrite (bind_eq _ _ _ _ _ Hget) in Hw. split; [|split; [done|split; [done|split]]].
  - rewrite Hw. destruct answer as [h|]; cbn [mFileHandle]; [|by rewrite add_calls_nil].
    unfold call. erewrite bind_eq by reflexivity. unfold modify. by rewrite add_calls_app.
  - cbn. by rewrite <- app_assoc.
  - intros h ->. apply (Sink_Write_open (λ _, h) (FileSinkAt i)). intros j [= <-]. by exists path, append.
Qed.

(** *** Witnesses *)

Definition sample_logger : Logger := mkLogger "app" Info [ConsoleSink; FileSinkAt 0].

(** A clock an hour before noon, and [{:03d}] of two milliseconds. *)
Definition sample_format (t : Z) : string := if t =? 39600 then "1970-01-01T11:00:00" else "1970-01-01T11:00:01".
Definition sample_03d (n : Z) : string := if n =? 5 then "005" else "250".

Lemma Logs_reach_every_sink_witness :
  ∃ w', Logs (λ t, t) sample_format sample_03d sample_logger [(Debug, "a"); (Info, "b"); (Error, "c")]
      (mkLogWorld [mkFileSink "logs/app.log" true (Some 9)] [] [39600005999999; 39601250000000] []) = Some (tt, w') ∧
    log_calls w' =
      [Println Stdout "[1970-01-01T11:00:00.005] [INFO] [app] b";
       Println (File 9) "[1970-01-01T11:00:00.005] [INFO] [app] b"; Fflush 9;
       Println Stderr "[1970-01-01T11:00:01.250] [ERROR] [app] c";
       Println (File 9) "[1970-01-01T11:00:01.250] [ERROR] [app] c"; Fflush 9].
Proof.
  destruct (Logs_reach_every_sink (λ t, t) sample_format sample_03d (λ _, 9) sample_logger
    [(Debug, "a"%string); (Info, "b"%string); (Error, "c"%string)] [39600005999999; 39601250000000] []
    (mkLogWorld [mkFileSink "logs/app.log" true (Some 9)] [] [39600005999999; 39601250000000] []))
    as (w' & Hrun & _ & _ & Hc & _).
  - intros i Hi. assert (i = 0%nat) as -> by set_solver. by eexists _, _.
  - done.
  - done.
  - exists w'. split; [exact Hrun|]. rewrite Hc. vm_compute. reflexivity.
Defined.

Lemma first_write_opens_witness :
  ∃ w', FileSink_Write 0 Warn "t" "" "m" (mkLogWorld [FileSink_construct "logs/app.log" true] [Some 9] [] []) = Some (tt, w') ∧
    log_calls w' = [Mkdir "logs"; Fopen "logs/app.log" "a"; Println (File 9) "[t] [WARN] m"; Fflush 9].
Proof.
  destruct (first_write_opens 0 "logs/app.log" true (Some 9) [] Warn "t" "" "m"
    (mkLogWorld [FileSink_construct "logs/app.log" true] [Some 9] [] [])) as (w' & Hrun & _ & _ & Hc & _);
    [reflexivity|reflexivity|].
  exists w'. split; [exact Hrun|]. rewrite Hc. vm_compute. reflexivity.
Defined.
End Logger.
