(* ===== verification/RingBuffer.v ===== *)
(** * The stress client's ring buffer (exe-StressTest, RingBuffer.hpp)

    [test::RingBuffer], the copy of [core::RecvBuffer] on [char] with a
    constructor that resets: its methods, and what any sequence of calls makes of
    it from construction on, split writes included, whatever memory it was built
    on. *)

From S2P Require Import Prelude RecvBuffer.

Open Scope cpp_scope.

Module RingBuffer.

Definition BUFFER_SIZE : Z := 1024 * 1024.

Section Ring.
Context {A : Type}.

(** The members are those of the record [RecvBuffer]. *)
Definition RingBuffer : Type := RecvBuffer.RecvBuffer A.

Implicit Types (b : RingBuffer).

Definition mFront b : Z := RecvBuffer.mFront b.
Definition mRear b : Z := RecvBuffer.mRear b.
Definition mBuffer b : Z → A := RecvBuffer.mBuffer b.
Definition members (front rear : Z) (buffer : Z → A) : RingBuffer := RecvBuffer.mkRecvBuffer front rear buffer.

Definition Reset b : RingBuffer := members 0 0 (mBuffer b).

(** [RingBuffer() { Reset(); }] on the memory [raw]. *)
Definition construct (raw : RingBuffer) : RingBuffer := Reset raw.

Definition GetBufferPtr b : Z := 0.
Definition GetFrontBufferPtr b : Z := mFront b.
Definition GetRearBufferPtr b : Z := mRear b.

Definition GetDirectWriteSize b : Z :=
  if mFront b <=? mRear b then BUFFER_SIZE ⊖ mRear b ⊖ 1
  else mFront b ⊖ mRear b ⊖ 1.

Definition GetDIrectReadSize b : Z :=
  if mFront b <=? mRear b then mRear b ⊖ mFront b else BUFFER_SIZE ⊖ mFront b.

Definition GetUsedSize b : Z :=
  if mFront b <=? mRear b then mRear b ⊖ mFront b
  else BUFFER_SIZE ⊖ mFront b ⊕ mRear b.

Definition GetRemainSize b : Z := BUFFER_SIZE ⊖ 1 ⊖ GetUsedSize b.

Definition Write b (inputBuffer : list A) (size : Z) : option (bool * RingBuffer) :=
  let remainSize := GetRemainSize b in
  if remainSize <? size then Some (false, b)
  else
    let directWriteSize := GetDirectWriteSize b in
    buf ← (if size <=? directWriteSize
           then RecvBuffer.memcpy_to (mBuffer b) (mRear b) inputBuffer 0 size
           else
             buf ← RecvBuffer.memcpy_to (mBuffer b) (mRear b) inputBuffer 0 directWriteSize;
             RecvBuffer.memcpy_to buf 0 inputBuffer directWriteSize (size ⊖ directWriteSize));
    Some (true, members (mFront b) ((mRear b ⊕ size) `rem` BUFFER_SIZE) buf).

Definition Peek b (readBuffer : list A) (size : Z) : option (Z * list A) :=
  let usedSize := GetUsedSize b in
  let peekSize := if usedSize <=? size then usedSize else size in
  let directReadSize := GetDIrectReadSize b in
  out ← (if peekSize <=? directReadSize
         then RecvBuffer.memcpy_from (mBuffer b) readBuffer 0 (mFront b) peekSize
         else
           out ← RecvBuffer.memcpy_from (mBuffer b) readBuffer 0 (mFront b) directReadSize;
           RecvBuffer.memcpy_from (mBuffer b) out directReadSize 0 (peekSize ⊖ directReadSize));
  Some (peekSize, out).

Definition Read b (readBuffer : list A) (size : Z) : option (Z * list A * RingBuffer) :=
  '(peekSize, out) ← Peek b readBuffer size;
  Some (peekSize, out, members ((mFront b ⊕ peekSize) `rem` BUFFER_SIZE) (mRear b) (mBuffer b)).

Definition MoveReadOffset b (moveSize : Z) : RingBuffer :=
  members ((mFront b ⊕ moveSize) `rem` BUFFER_SIZE) (mRear b) (mBuffer b).

Definition MoveWriteOffset b (moveSize : Z) : RingBuffer :=
  members (mFront b) ((mRear b ⊕ moveSize) `rem` BUFFER_SIZE) (mBuffer b).

(** [recv] storing [data] at the rear, then [MoveWriteOffset]. *)
Definition recv_into b (data : list A) : RingBuffer :=
  MoveWriteOffset (members (mFront b) (mRear b) (store (mBuffer b) (GetRearBufferPtr b) data))
    (Z.of_nat (length data)).

(** One call, with the replies of the abstract queue. *)
Definition exec (o : RecvBuffer.Queue.op A) b : option (RecvBuffer.Queue.reply A * RingBuffer) :=
  match o with
  | RecvBuffer.Queue.OpWrite data =>
      '(ok, b) ← Write b data (Z.of_nat (length data)); Some (RecvBuffer.Queue.RWrite ok, b)
  | RecvBuffer.Queue.OpRead out =>
      '(n, out', b) ← Read b out (Z.of_nat (length out));
      Some (RecvBuffer.Queue.RRead (take (Z.to_nat n) out'), b)
  | RecvBuffer.Queue.OpPeek out =>
      '(n, out') ← Peek b out (Z.of_nat (length out));
      Some (RecvBuffer.Queue.RRead (take (Z.to_nat n) out'), b)
  | RecvBuffer.Queue.OpRecv data => Some (RecvBuffer.Queue.RNone, recv_into b data)
  | RecvBuffer.Queue.OpReset => Some (RecvBuffer.Queue.RNone, Reset b)
  end.

Fixpoint execs (os : list (RecvBuffer.Queue.op A)) b : option (list (RecvBuffer.Queue.reply A) * RingBuffer) :=
  match os with
  | [] => Some ([], b)
  | o :: os => '(r, b) ← exec o b; '(rs, b) ← execs os b; Some (r :: rs, b)
  end.

(** What a [Write] of [data] that is not refused stores: the data, or, when it has to be split at the
    end of the array, its first [GetDirectWriteSize] elements, the stale one of
    the last cell, and the rest without the last element. *)
Definition stored b (data : list A) : list A :=
  let direct := Z.to_nat (GetDirectWriteSize b) in
  if (Z.of_nat (length data) <=? GetDirectWriteSize b) || (GetRemainSize b <? Z.of_nat (length data)) then data
  else take direct data ++ mBuffer b (BUFFER_SIZE - 1)
       :: take (length data - direct - 1) (drop direct data).

(** The calls [os] with each write handing over what is stored. *)
Fixpoint as_stored (os : list (RecvBuffer.Queue.op A)) b : list (RecvBuffer.Queue.op A) :=
  match os with
  | [] => []
  | o :: os =>
      match o with RecvBuffer.Queue.OpWrite data => RecvBuffer.Queue.OpWrite (stored b data) | _ => o end
      :: match exec o b with Some (_, b) => as_stored os b | None => [] end
  end.

(** Every receive of [os] stores at most [GetDirectWriteSize] bytes, the size
    the sockets pass to [recv]; [P] holds of every write and the buffer it meets. *)
Fixpoint calls_fit (P : list A → RingBuffer → Prop) (os : list (RecvBuffer.Queue.op A)) b : Prop :=
  match os with
  | [] => True
  | o :: os =>
      match o with
      | RecvBuffer.Queue.OpRecv data => Z.of_nat (length data) ≤ GetDirectWriteSize b
      | RecvBuffer.Queue.OpWrite data => P data b
      | _ => True
      end ∧ ∀ r b', exec o b = Some (r, b') → calls_fit P os b'
  end.

Definition any_write (data : list A) b : Prop := True.
Definition whole_write (data : list A) b : Prop :=
  Z.of_nat (length data) ≤ GetDirectWriteSize b ∨ GetRemainSize b < Z.of_nat (length data).
End Ring.

Arguments RingBuffer : clear implicits.

(** ** Facts *)

Section Facts.
Context {A : Type}.
Implicit Types (b : RingBuffer A).

Lemma exec_original o b : exec o b = RecvBuffer.Queue.exec o b.
Proof. by destruct o. Qed.

Lemma stored_eq b data :
  RecvBuffer.wf b → Z.of_nat (length data) ≤ GetRemainSize b →
  stored b data = RecvBuffer.written b data (Z.of_nat (length data)).
Proof.
  intros Hwf Hrem. pose proof (RecvBuffer.direct_write_le_remain b Hwf) as Hd.
  change (RecvBuffer.GetDirectWriteSize b) with (GetDirectWriteSize b) in Hd.
  unfold stored, RecvBuffer.written. rewrite (proj2 (Z.ltb_ge _ _) Hrem), orb_false_r. change (RecvBuffer.GetDirectWriteSize b) with (GetDirectWriteSize b).
  destruct (Z.leb_spec (Z.of_nat (length data)) (GetDirectWriteSize b)) as [H|H].
  - by rewrite Nat2Z.id, firstn_all.
  - do 3 f_equal. lia.
Qed.

Lemma stored_length b data : RecvBuffer.wf b → length (stored b data) = length data.
Proof.
  intros Hwf. pose proof (RecvBuffer.direct_write_le_remain b Hwf) as Hd.
  change (RecvBuffer.GetDirectWriteSize b) with (GetDirectWriteSize b) in Hd.
  unfold stored. destruct (Z.leb_spec (Z.of_nat (length data)) (GetDirectWriteSize b)); [done|].
  destruct (GetRemainSize b <? Z.of_nat (length data)); [done|]. cbn [orb]. rewrite length_app. cbn [length]. rewrite !length_take, length_drop. lia.
Qed.

(** A write, split or not, is the queue's write of what it stores. *)
Lemma write_stores b data :
  RecvBuffer.wf b →
  ∃ r b', exec (RecvBuffer.Queue.OpWrite data) b = Some (r, b') ∧ RecvBuffer.wf b' ∧
    RecvBuffer.Queue.step (RecvBuffer.Queue.OpWrite (stored b data)) (RecvBuffer.contents b)
      = (r, RecvBuffer.contents b').
Proof.
  intros Hwf. rewrite exec_original. cbn [RecvBuffer.Queue.exec RecvBuffer.Queue.step].
  destruct (RecvBuffer.Write_spec b data (Z.of_nat (length data)) Hwf) as (ok & b' & -> & Hwf' & Hok & Hno & Hyes);
    [lia|]. change (RecvBuffer.GetRemainSize b) with (GetRemainSize b) in Hok.
  assert (ok = true → stored b data = RecvBuffer.written b data (Z.of_nat (length data))) as Hst
    by (rewrite Hok; intros Hle%Z.leb_le; by apply stored_eq).
  change (GetRemainSize b) with (RecvBuffer.GetRemainSize b) in Hok.
  rewrite RecvBuffer.remain_eq in Hok by done. unfold RecvBuffer.used in Hok.
  exists (RecvBuffer.Queue.RWrite ok), b'. split; [done|]. split; [done|].
  rewrite stored_length by done. unfold RecvBuffer.Queue.capacity.
  destruct (Z.ltb_spec (RecvBuffer.BUFFER_SIZE - 1) (Z.of_nat (length (RecvBuffer.contents b) + length data)));
    destruct (Z.leb_spec (Z.of_nat (length data))
      (RecvBuffer.BUFFER_SIZE - 1 - Z.of_nat (length (RecvBuffer.contents b)))); subst ok; try lia.
  - by rewrite Hno.
  - by rewrite Hyes, Hst.
Qed.

Lemma as_stored_run P os b :
  RecvBuffer.wf b → calls_fit P os b →
  ∃ rs b', execs os b = Some (rs, b') ∧ RecvBuffer.wf b' ∧
    RecvBuffer.Queue.steps (as_stored os b) (RecvBuffer.contents b) = (rs, RecvBuffer.contents b').
Proof.
  revert b. induction os as [|o os IH]; intros b Hwf Hfit; [by exists [], b|].
  destruct Hfit as [Ho Hos].
  set (o' := match o with RecvBuffer.Queue.OpWrite data => RecvBuffer.Queue.OpWrite (stored b data) | _ => o end).
  assert (∃ r b1, exec o b = Some (r, b1) ∧ RecvBuffer.wf b1 ∧
            RecvBuffer.Queue.step o' (RecvBuffer.contents b) = (r, RecvBuffer.contents b1))
    as (r & b1 & He & Hwf1 & Hs).
  { unfold o'. destruct o as [data| | | |]; [by apply write_stores| | | |]; rewrite exec_original;
      by apply RecvBuffer.Queue.exec_refines. }
  destruct (IH b1 Hwf1 (Hos _ _ He)) as (rs & b2 & He2 & Hwf2 & Hs2).
  exists (r :: rs), b2. cbn [execs as_stored RecvBuffer.Queue.steps]. fold o'.
  rewrite He, Hs. cbn [mbind option_bind]. by rewrite He2, Hs2.
Qed.

Lemma whole_writes_stored os b :
  calls_fit whole_write os b → is_Some (execs os b) → as_stored os b = os.
Proof.
  revert b. induction os as [|o os IH]; intros b Hfit [res Hrun]; [done|].
  destruct Hfit as [Ho Hos]. cbn [as_stored execs] in *.
  destruct (exec o b) as [[r b1]|] eqn:He; [|done]. cbn [mbind option_bind] in Hrun.
  rewrite (IH b1 (Hos _ _ eq_refl)) by (destruct (execs os b1); [eauto|done]).
  destruct o as [data| | | |]; try done. unfold stored.
  destruct Ho as [Ho|Ho]; [by rewrite (proj2 (Z.leb_le _ _) Ho)|].
  by rewrite (proj2 (Z.ltb_lt _ _) Ho), orb_true_r.
Qed.

Lemma calls_fit_mono (P Q : list A → RingBuffer A → Prop) os b :
  (∀ data b, P data b → Q data b) → calls_fit P os b → calls_fit Q os b.
Proof.
  intros HPQ. revert b. induction os as [|o os IH]; intros b Hfit; [done|].
  destruct Hfit as [Ho Hos]. split; [destruct o; eauto|]. eauto.
Qed.
End Facts.

(** ** Properties *)

Section Properties.
Context {A : Type}.

(** C29: whatever memory the stress client's buffer is built on, every sequence
    of [Write], [Read], [Peek], receive-and-[MoveWriteOffset] and [Reset] calls
    from its construction on (each receive within [GetDirectWriteSize], as the
    sockets make them; writes of any size) is defined and answers as the empty
    queue bounded by [BUFFER_SIZE - 1] does to the same calls with every [Write]
    handing over what it stores: its data, or, when it is split at the end of
    the array, the data with the stale last cell put in at the split and the
    last element lost.  When no write is split, that is the calls themselves. *)
Theorem calls_from_construction os (raw : RingBuffer A) :
  calls_fit any_write os (construct raw) →
  ∃ rs b', execs os (construct raw) = Some (rs, b') ∧ RecvBuffer.wf b' ∧
    RecvBuffer.Queue.steps (as_stored os (construct raw)) [] = (rs, RecvBuffer.contents b') ∧
    (calls_fit whole_write os (construct raw) → as_stored os (construct raw) = os).
Proof.
  intros Hfit. destruct (RecvBuffer.Reset_spec raw) as [Hwf Hc].
  destruct (as_stored_run any_write os (construct raw) Hwf Hfit) as (rs & b' & Hrun & Hwf' & Hs).
  exists rs, b'. rewrite <- Hc. split_and!; [done|done|done|].
  intros Hw. apply whole_writes_stored; [done|]. by rewrite Hrun.
Qed.
End Properties.

(** *** Witnesses *)

Definition sample_calls : list (RecvBuffer.Queue.op Z) :=
  [RecvBuffer.Queue.OpWrite [1; 2; 3]; RecvBuffer.Queue.OpRead [0; 0]; RecvBuffer.Queue.OpRecv [4];
   RecvBuffer.Queue.OpPeek [0; 0; 0]].

Lemma calls_from_construction_witness :
  ∃ rs b', execs sample_calls (construct (RecvBuffer.mkRecvBuffer 77 (-3) (λ _, 7))) = Some (rs, b') ∧
    rs = [RecvBuffer.Queue.RWrite true; RecvBuffer.Queue.RRead [1; 2]; RecvBuffer.Queue.RNone;
          RecvBuffer.Queue.RRead [3; 4]] ∧
    RecvBuffer.contents b' = [3; 4].
Proof.
  destruct (calls_from_construction sample_calls (RecvBuffer.mkRecvBuffer 77 (-3) (λ _, 7)))
    as (rs & b' & Hrun & _ & Hs & Hw).
  - split; [done|]. intros r1 b1 [= _ <-]. split; [done|]. intros r2 b2 [= _ <-].
    split; [vm_compute; discriminate|]. intros r3 b3 [= _ <-]. by split.
  - rewrite Hw in Hs.
    + exists rs, b'. split; [done|]. by injection Hs as <- <-.
    + split; [left; vm_compute; discriminate|]. intros r1 b1 [= _ <-]. split; [done|]. intros r2 b2 [= _ <-].
      split; [vm_compute; discriminate|]. intros r3 b3 [= _ <-]. by split.
Defined.
End RingBuffer.
