(* ===== verification/StressSession.v ===== *)
(** * The stress client's sessions (exe-StressTest, Session.{hpp,cpp})

    [test::Session]: a socket, two ring buffers and the PING packets that go
    round between the client and the server.  The time stamps are those of
    [QueryPerformanceCounter], a stream; [recv] and [send] answer from lists.
    [ndebug] tells whether the build drops [assert]. *)

From S2P Require Import Prelude System RecvBuffer RingBuffer.

Module StressSession.
Import RingBuffer.

(** ** The packets, as they lie in memory *)

Definition sizeof_PacketHeader : Z := 4.
Definition sizeof_PingPacket : Z := 8.
Definition sPACKET_HEADER_SIZE : Z := sizeof_PacketHeader.
Definition sPING_PACKET_SIZE : Z := sizeof_PacketHeader + sizeof_PingPacket.
Definition PING : Z := 0.

(** [struct PacketHeader { unsigned short mSize; ePacketID mID; }]. *)
Definition PacketHeader (mSize mID : Z) : list Byte := to_bytes 2 mSize ++ to_bytes 2 mID.
Definition mSize (header : list Byte) : Z := of_bytes (take 2 header).
Definition mID (header : list Byte) : Z := of_bytes (take 2 (drop 2 header)).

(** [struct PingPacket { LARGE_INTEGER mSendTick; }]. *)
Definition PingPacket (mSendTick : Z) : list Byte := to_bytes 8 mSendTick.
Definition mSendTick (packet : list Byte) : Z := i64 (of_bytes packet).

(** ** State *)

Record Session := mkSession {
  mSocket : Z;
  mRecvBuffer : RingBuffer Byte;
  mSendBuffer : RingBuffer Byte
}.

Inductive ClientCall :=
  | Recv (socket len : Z)
  | Send (socket : Z) (bytes : list Byte)
  | CloseSocket (socket : Z)
  | Print
  | GetSockOpt (socket : Z)
  | OpenSocket
  | SetMode (socket mode : Z)
  | Connect (socket : Z)
  | WSAPoll (fds : list (Z * Z))
  | BeginThread
  | WaitThread (handle : Z)
  | Startup
  | Sleep (milliseconds : Z)
  | Cleanup.

#[export] Instance ClientCall_eq_dec : EqDecision ClientCall.
Proof. solve_decision. Defined.

(** The thread: its counters, the clock, the network's answers. *)
Record Thread := mkThread {
  sMAX_RTT : Z;
  clock : nat → Z;
  recvs : list RecvAnswer;
  sends : list WritevAnswer;
  client_calls : list ClientCall
}.

Record World := mkWorld { session : Session; thread : Thread }.

Definition set_recv_buffer (b : RingBuffer Byte) (w : World) : World :=
  mkWorld (mkSession (mSocket (session w)) b (mSendBuffer (session w))) (thread w).
Definition set_send_buffer (b : RingBuffer Byte) (w : World) : World :=
  mkWorld (mkSession (mSocket (session w)) (mRecvBuffer (session w)) b) (thread w).
Definition on_thread (f : Thread → Thread) (w : World) : World := mkWorld (session w) (f (thread w)).

Definition set_max_rtt (z : Z) (t : Thread) : Thread := mkThread z (clock t) (recvs t) (sends t) (client_calls t).
Definition set_clock (c : nat → Z) (t : Thread) : Thread := mkThread (sMAX_RTT t) c (recvs t) (sends t) (client_calls t).
Definition set_recvs (l : list RecvAnswer) (t : Thread) : Thread := mkThread (sMAX_RTT t) (clock t) l (sends t) (client_calls t).
Definition set_sends (l : list WritevAnswer) (t : Thread) : Thread := mkThread (sMAX_RTT t) (clock t) (recvs t) l (client_calls t).
Definition log (cs : list ClientCall) (t : Thread) : Thread := mkThread (sMAX_RTT t) (clock t) (recvs t) (sends t) (client_calls t ++ cs).

Definition call (c : ClientCall) : M World unit := modify (on_thread (log [c])).

(** A result that must be there: a [memcpy] in bounds. *)
Definition lift {A} (o : option A) : M World A := λ w, a ← o; Some (a, w).

Definition QueryPerformanceCounter : M World Z := λ w,
  Some (clock (thread w) 0%nat, on_thread (set_clock (λ n, clock (thread w) (S n))) w).

Section Methods.
Context (ndebug : bool) (header_memory packet_memory : list Byte).

Definition assert_ (c : bool) : M World unit := if ndebug || c then mret tt else undefined.

(** [mSendBuffer.Write(bytes, size)], the result dropped. *)
Definition Write_send (bytes : list Byte) (size : Z) : M World unit :=
  b ← gets (λ w, mSendBuffer (session w));
  '(_, b') ← lift (Write b bytes size);
  modify (set_send_buffer b').

(** The constructor, the buffers on the memory of [raw]. *)
Definition Session_construct (clientFD : Z) : M World unit :=
  modify (λ w, mkWorld (mkSession clientFD (construct (mRecvBuffer (session w)))
                          (construct (mSendBuffer (session w)))) (thread w));;
  tick ← QueryPerformanceCounter;
  Write_send (PacketHeader sPING_PACKET_SIZE PING) sPACKET_HEADER_SIZE;;
  Write_send (PingPacket tick) sizeof_PingPacket.

(** One turn of the loop of [DoRecv]: [None] goes round again. *)
Definition DoRecv_turn : M World (option unit) :=
  b ← gets (λ w, mRecvBuffer (session w));
  let bufferUsedSize := GetUsedSize b in
  if bufferUsedSize <? sPACKET_HEADER_SIZE then mret (Some tt)
  else
    '(peekSize, header) ← lift (Peek b header_memory sPACKET_HEADER_SIZE);
    assert_ (peekSize =? sPACKET_HEADER_SIZE);;
    assert_ (mID header =? PING);;
    assert_ (mSize header =? sPING_PACKET_SIZE);;
    if bufferUsedSize <? mSize header then mret (Some tt)
    else
      '(readSize, packet, b') ← lift (Read (MoveReadOffset b sPACKET_HEADER_SIZE) packet_memory sizeof_PingPacket);
      modify (set_recv_buffer b');;
      assert_ (readSize =? sizeof_PingPacket);;
      curTick ← QueryPerformanceCounter;
      let interval := i64 (curTick - mSendTick packet) in
      modify (on_thread (λ t, set_max_rtt (sMAX_RTT t `max` interval) t));;
      Write_send header sPACKET_HEADER_SIZE;;
      Write_send (PingPacket curTick) sizeof_PingPacket;;
      mret None.

(** [recv] at the rear of the receive buffer. *)
Definition recv (socket len : Z) : M World RecvAnswer :=
  call (Recv socket len);;
  l ← gets (λ w, recvs (thread w));
  match l with
  | [] => undefined
  | a :: rest =>
      modify (on_thread (set_recvs rest));;
      match a with
      | RecvData bytes =>
          if (0 <? Z.of_nat (length bytes)) && (Z.of_nat (length bytes) <=? len) then
            modify (λ w, let b := mRecvBuffer (session w) in
              set_recv_buffer (members (mFront b) (mRear b) (store (mBuffer b) (GetRearBufferPtr b) bytes)) w);;
            mret a
          else undefined
      | _ => mret a
      end
  end.

(** What [DoRecv] does with the bytes it has.  Each turn takes at least a header
    out of the buffer, so as many turns as there are bytes, and one more, are
    enough. *)
Definition DoRecv_packets : M World bool :=
  turns ← gets (λ w, S (Z.to_nat (GetUsedSize (mRecvBuffer (session w)))));
  forever turns DoRecv_turn;;
  b ← gets (λ w, mRecvBuffer (session w));
  when (GetUsedSize b =? 0) (modify (set_recv_buffer (Reset b)));;
  mret true.

Definition DoRecv : M World bool :=
  s ← gets session;
  a ← recv (mSocket s) (GetDirectWriteSize (mRecvBuffer s));
  match a with
  | RecvClosed => call (CloseSocket (mSocket s));; call Print;; mret false
  | RecvError _ => call Print;; call (CloseSocket (mSocket s));; mret false
  | RecvData bytes =>
      modify (λ w, set_recv_buffer (MoveWriteOffset (mRecvBuffer (session w)) (Z.of_nat (length bytes))) w);;
      DoRecv_packets
  end.

(** [send] of the bytes at the front of the send buffer. *)
Definition send (socket : Z) (bytes : list Byte) : M World WritevAnswer :=
  call (Send socket bytes);;
  l ← gets (λ w, sends (thread w));
  match l with
  | [] => undefined
  | Sent n :: rest =>
      if (0 <=? n) && (n <=? Z.of_nat (length bytes))
      then modify (on_thread (set_sends rest));; mret (Sent n)
      else undefined
  | a :: rest => modify (on_thread (set_sends rest));; mret a
  end.

Definition DoSend : M World bool :=
  s ← gets session;
  let b := mSendBuffer s in
  if GetUsedSize b =? 0 then mret false
  else
    a ← send (mSocket s) (segment (mBuffer b) (GetFrontBufferPtr b) (GetDIrectReadSize b));
    match a with
    | SendError _ => call Print;; call (CloseSocket (mSocket s));; mret false
    | Sent n =>
        if n =? 0 then call Print;; mret false
        else
          modify (set_send_buffer (MoveReadOffset b n));;
          b' ← gets (λ w, mSendBuffer (session w));
          when (GetUsedSize b' =? 0) (modify (set_send_buffer (Reset b')));;
          mret true
    end.

Definition Session_destroy : M World unit :=
  modify (λ w, set_recv_buffer (Reset (mRecvBuffer (session w))) w);;
  modify (λ w, set_send_buffer (Reset (mSendBuffer (session w))) w).
End Methods.

(** ** What the exchange of PINGs should be *)

(** A whole PING packet. *)
Definition ping (tick : Z) : list Byte := PacketHeader sPING_PACKET_SIZE PING ++ PingPacket tick.

(** The clock after [k] readings. *)
Fixpoint later (k : nat) (c : nat → Z) : nat → Z :=
  match k with
  | O => c
  | S k => later k (λ n, c (S n))
  end.

(** The answers to [n] packets on the clock [c]: one PING for each, stamped
    with the reading made for it. *)
Fixpoint answers (c : nat → Z) (n : nat) : list Byte :=
  match n with
  | O => []
  | S n => ping (c 0%nat) ++ answers (later 1 c) n
  end.

(** The longest round trip of packets stamped [ticks], each measured by its own
    reading of the clock. *)
Fixpoint longest (m : Z) (c : nat → Z) (ticks : list Z) : Z :=
  match ticks with
  | [] => m
  | t :: ticks => longest (m `max` i64 (c 0%nat - i64 t)) (later 1 c) ticks
  end.

Definition buffers_wf (w : World) : Prop :=
  RecvBuffer.wf (mRecvBuffer (session w)) ∧ RecvBuffer.wf (mSendBuffer (session w)).

(** The beginning of a packet that has not all arrived. *)
Definition partial_ping (l : list Byte) : Prop := ∃ t, l `prefix_of` ping t ∧ Z.of_nat (length l) < 12.

(** [w'] is [w] after the packets [ticks] were answered and [rest] was left. *)
Record pings_answered (ticks : list Z) (rest : list Byte) (w w' : World) : Prop := {
  pa_wf : buffers_wf w';
  pa_recv : RecvBuffer.contents (mRecvBuffer (session w')) = rest;
  pa_send : RecvBuffer.contents (mSendBuffer (session w')) =
    RecvBuffer.contents (mSendBuffer (session w)) ++ answers (clock (thread w)) (length ticks);
  pa_front : mFront (mSendBuffer (session w')) = mFront (mSendBuffer (session w));
  pa_socket : mSocket (session w') = mSocket (session w);
  pa_thread : thread w' = mkThread (longest (sMAX_RTT (thread w)) (clock (thread w)) ticks)
    (later (length ticks) (clock (thread w))) (recvs (thread w)) (sends (thread w)) (client_calls (thread w))
}.

(** ** Facts *)

Lemma length_PacketHeader s i : length (PacketHeader s i) = 4%nat.
Proof. done. Qed.
Lemma length_PingPacket t : length (PingPacket t) = 8%nat.
Proof. done. Qed.
Lemma length_ping t : length (ping t) = 12%nat.
Proof. done. Qed.

#[local] Hint Rewrite length_PacketHeader length_PingPacket length_ping : lens.

Lemma length_pings ticks : length (mjoin (ping <$> ticks)) = (12 * length ticks)%nat.
Proof.
  induction ticks as [|t ticks IH]; [done|].
  change (length (ping t ++ mjoin (ping <$> ticks)) = (12 * S (length ticks))%nat).
  rewrite length_app, IH, length_ping. lia.
Qed.

Lemma mSendTick_PingPacket t : mSendTick (PingPacket t) = i64 t.
Proof. unfold mSendTick, PingPacket. rewrite of_to_bytes. by apply (wrap_mod 64). Qed.

Lemma later_S k c : later 1 (later k c) = later (S k) c.
Proof. revert c. induction k as [|k IH]; intros c; [done|apply IH]. Qed.

Lemma lift_eq {A} (o : option A) a w : o = Some a → lift o w = Some (a, w).
Proof. by intros ->. Qed.

Lemma later_at k c n : later k c n = c (k + n)%nat.
Proof. revert c. induction k as [|k IH]; intros c; cbn [later]; [done|by rewrite IH]. Qed.

Lemma QueryPerformanceCounter_run w :
  QueryPerformanceCounter w =
    Some (clock (thread w) 0%nat, on_thread (set_clock (later 1 (clock (thread w)))) w).
Proof. done. Qed.

(** [w'] differs from [w] in the buffers, the clock and [sMAX_RTT] only, and has
    no less to send. *)
Record quiet (w w' : World) : Prop := {
  q_socket : mSocket (session w') = mSocket (session w);
  q_recvs : recvs (thread w') = recvs (thread w);
  q_sends : sends (thread w') = sends (thread w);
  q_calls : client_calls (thread w') = client_calls (thread w);
  q_grows : GetDIrectReadSize (mSendBuffer (session w)) ≤ GetDIrectReadSize (mSendBuffer (session w'))
}.

#[export] Instance quiet_preorder : PreOrder quiet.
Proof.
  split; [by split|]. intros w1 w2 w3 [H1 H2 H3 H4 H5] [H1' H2' H3' H4' H5'].
  split; [congruence..|by etrans].
Qed.

(** What waits at the front only grows by a write. *)
Lemma Write_grows (b b' : RingBuffer Byte) l n r :
  RecvBuffer.wf b → 0 ≤ n → Write b l n = Some (r, b') → GetDIrectReadSize b ≤ GetDIrectReadSize b'.
Proof.
  intros Hwf Hn. unfold Write. destruct (Z.ltb_spec (GetRemainSize b) n) as [Hlt|Hge]; [by intros [= _ <-]|].
  intros Hw. assert (RecvBuffer.GetDIrectReadSize b ≤ RecvBuffer.GetDIrectReadSize
    (RecvBuffer.mkRecvBuffer (mFront b) ((mRear b ⊕ n) `rem` RecvBuffer.BUFFER_SIZE) (mBuffer b'))) as Hle.
  { change (n ≤ RecvBuffer.GetRemainSize b) in Hge. destruct b as [f r0 m].
    unfold mFront, mRear. cbn [RecvBuffer.mFront RecvBuffer.mRear] in *.
    assert (n ≤ RecvBuffer.BUFFER_SIZE) by (revert Hge; RecvBuffer.ring_lia).
    rewrite RecvBuffer.advance_index by (RecvBuffer.ring_unfold; lia).
    revert Hge. RecvBuffer.ring_lia. }
  destruct (if n <=? GetDirectWriteSize b then _ else _) as [buf|]; [|done].
  injection Hw as _ <-. exact Hle.
Qed.

Section Facts.
Context (ndebug : bool) (header_memory packet_memory : list Byte).
Hypothesis (Hheader : length header_memory = 4%nat) (Hpacket : length packet_memory = 8%nat).

Lemma assert_holds c w : c = true → assert_ ndebug c w = Some (tt, w).
Proof. intros ->. unfold assert_. by rewrite orb_true_r. Qed.

Lemma Write_send_fits l n w :
  n = Z.of_nat (length l) → RecvBuffer.wf (mSendBuffer (session w)) →
  n ≤ GetDirectWriteSize (mSendBuffer (session w)) →
  Write_send l n w = Some (tt, set_send_buffer (RecvBuffer.recv_into (mSendBuffer (session w)) l) w).
Proof.
  intros -> Hwf Hl. pose proof (RecvBuffer.Write_direct (mSendBuffer (session w)) l Hwf Hl) as Hw.
  unfold Write_send. rewrite (bind_eq _ _ _ _ w eq_refl).
  by rewrite (bind_eq _ _ _ _ _ (lift_eq _ _ w Hw)).
Qed.

(** Whatever there is room for, a write leaves a well-formed buffer. *)
Lemma Write_send_wf l n w :
  0 ≤ n ≤ Z.of_nat (length l) → RecvBuffer.wf (mSendBuffer (session w)) →
  ∃ b, Write_send l n w = Some (tt, set_send_buffer b w) ∧ RecvBuffer.wf b ∧
    GetDIrectReadSize (mSendBuffer (session w)) ≤ GetDIrectReadSize b.
Proof.
  intros Hn Hwf. unfold Write_send. rewrite (bind_eq _ _ _ _ w eq_refl).
  destruct (Z.leb_spec n (GetRemainSize (mSendBuffer (session w)))) as [Hle|Hgt].
  - destruct (RecvBuffer.Write_ok (mSendBuffer (session w)) l n Hwf Hn Hle) as (b & Hw & Hb & _).
    exists b. rewrite (bind_eq _ _ _ _ _ (lift_eq _ _ w Hw)). split; [done|]. split; [done|].
    apply (Write_grows _ _ l n true Hwf); [lia|exact Hw].
  - exists (mSendBuffer (session w)). split; [|done].
    assert (Write (mSendBuffer (session w)) l n = Some (false, mSendBuffer (session w))) as Hw
      by (unfold Write; by rewrite (proj2 (Z.ltb_lt _ _) Hgt)).
    by rewrite (bind_eq _ _ _ _ _ (lift_eq _ _ w Hw)).
Qed.

(** The first four waiting bytes, as [Peek] finds them. *)
Lemma Peek_header b h rest :
  RecvBuffer.wf b → RecvBuffer.contents b = h ++ rest → length h = 4%nat →
  Peek b header_memory 4 = Some (4, h).
Proof.
  intros Hwf Hc Hh. pose proof (RecvBuffer.Peek_ok b header_memory 4 Hwf) as Hp.
  assert (RecvBuffer.used b `min` 4 = 4) as Hu by (unfold RecvBuffer.used; rewrite Hc; len_lia).
  rewrite Hu, Hc, take_app_length', drop_ge, app_nil_r in Hp by (rewrite ?Hh, ?Hheader; done).
  apply Hp. rewrite Hheader. lia.
Qed.

(** The state after a whole PING [t] was answered. *)
Definition answered (t : Z) (w : World) : World :=
  let c := clock (thread w) 0%nat in
  mkWorld
    (mkSession (mSocket (session w))
      (RecvBuffer.MoveReadOffset (RecvBuffer.MoveReadOffset (mRecvBuffer (session w)) 4) 8)
      (RecvBuffer.recv_into
        (RecvBuffer.recv_into (mSendBuffer (session w)) (PacketHeader sPING_PACKET_SIZE PING)) (PingPacket c)))
    (mkThread (sMAX_RTT (thread w) `max` i64 (c - i64 t)) (later 1 (clock (thread w)))
      (recvs (thread w)) (sends (thread w)) (client_calls (thread w))).

Lemma answered_buffers t rest w :
  buffers_wf w → RecvBuffer.contents (mRecvBuffer (session w)) = ping t ++ rest →
  12 ≤ GetDirectWriteSize (mSendBuffer (session w)) →
  buffers_wf (answered t w) ∧
  RecvBuffer.contents (mRecvBuffer (session (answered t w))) = rest ∧
  RecvBuffer.contents (mSendBuffer (session (answered t w))) =
    RecvBuffer.contents (mSendBuffer (session w)) ++ ping (clock (thread w) 0%nat) ∧
  GetDirectWriteSize (mSendBuffer (session (answered t w))) =
    GetDirectWriteSize (mSendBuffer (session w)) - 12.
Proof.
  intros [Hr Hs] Hc Hroom. cbn [answered session mRecvBuffer mSendBuffer].
  set (c := clock _ _). set (b := mRecvBuffer (session w)) in *. set (sb := mSendBuffer (session w)) in *.
  assert (RecvBuffer.used b = 12 + Z.of_nat (length rest)) as Hu
    by (unfold RecvBuffer.used; rewrite Hc; len_lia).
  destruct (RecvBuffer.contents_advance b 4 Hr) as [Hr4 Hc4]; [lia|].
  assert (RecvBuffer.used (RecvBuffer.MoveReadOffset b 4) = 8 + Z.of_nat (length rest)) as Hu4
    by (unfold RecvBuffer.used; rewrite Hc4, Hc; len_lia).
  destruct (RecvBuffer.contents_advance (RecvBuffer.MoveReadOffset b 4) 8 Hr4) as [Hr12 Hc12]; [lia|].
  set (h := PacketHeader sPING_PACKET_SIZE PING).
  assert (Z.of_nat (length h) ≤ RecvBuffer.GetDirectWriteSize sb) as Hl1 by (etrans; [|exact Hroom]; done).
  destruct (RecvBuffer.recv_into_spec sb h Hs Hl1) as [Hs1 Hcs1].
  pose proof (RecvBuffer.direct_after_recv sb h Hs Hl1) as Hd1.
  assert (Z.of_nat (length (PingPacket c)) ≤ RecvBuffer.GetDirectWriteSize (RecvBuffer.recv_into sb h)) as Hl2
    by (rewrite Hd1; unfold h; change (12 ≤ RecvBuffer.GetDirectWriteSize sb) in Hroom; len_lia).
  destruct (RecvBuffer.recv_into_spec _ (PingPacket c) Hs1 Hl2) as [Hs2 Hcs2].
  pose proof (RecvBuffer.direct_after_recv _ (PingPacket c) Hs1 Hl2) as Hd2.
  split; [by split|]. split; [etrans; [exact Hc12|]; rewrite Hc4, Hc; done|].
  split; [rewrite Hcs2, Hcs1, <- app_assoc; done|].
  etrans; [exact Hd2|]. rewrite Hd1. unfold h. autorewrite with lens.
  change (RecvBuffer.GetDirectWriteSize sb) with (GetDirectWriteSize sb). lia.
Qed.

Lemma turn_answers t rest w :
  buffers_wf w → RecvBuffer.contents (mRecvBuffer (session w)) = ping t ++ rest →
  12 ≤ GetDirectWriteSize (mSendBuffer (session w)) →
  DoRecv_turn ndebug header_memory packet_memory w = Some (None, answered t w).
Proof.
  intros [Hr Hs] Hc Hroom. set (b := mRecvBuffer (session w)) in *.
  assert (RecvBuffer.used b = 12 + Z.of_nat (length rest)) as Hu
    by (unfold RecvBuffer.used; rewrite Hc; len_lia).
  set (h := PacketHeader sPING_PACKET_SIZE PING).
  assert (Peek b header_memory sPACKET_HEADER_SIZE = Some (4, h)) as Hpeek.
  { apply (Peek_header b h (PingPacket t ++ rest)); [done| |done]. rewrite Hc. by rewrite app_assoc. }
  destruct (RecvBuffer.contents_advance b 4 Hr) as [Hr4 Hc4]; [lia|].
  assert (RecvBuffer.used (RecvBuffer.MoveReadOffset b 4) = 8 + Z.of_nat (length rest)) as Hu4
    by (unfold RecvBuffer.used; rewrite Hc4, Hc; len_lia).
  assert (Read (MoveReadOffset b sPACKET_HEADER_SIZE) packet_memory sizeof_PingPacket =
    Some (8, PingPacket t, RecvBuffer.MoveReadOffset (RecvBuffer.MoveReadOffset b 4) 8)) as Hread.
  { pose proof (RecvBuffer.Read_ok (RecvBuffer.MoveReadOffset b 4) packet_memory 8 Hr4) as Hread.
    rewrite Hu4, Hc4, Hc, Hpacket in Hread.
    replace ((8 + Z.of_nat (length rest)) `min` 8) with 8 in Hread by lia.
    rewrite (drop_ge packet_memory) in Hread by (rewrite Hpacket; done). apply Hread. lia. }
  assert (GetUsedSize b = 12 + Z.of_nat (length rest)) as Hused
    by (etrans; [exact (RecvBuffer.used_eq b Hr)|done]).
  unfold DoRecv_turn. rewrite (bind_eq _ _ _ _ w eq_refl). fold b. rewrite Hused.
  rewrite (proj2 (Z.ltb_ge _ _)) by (unfold sPACKET_HEADER_SIZE, sizeof_PacketHeader; lia).
  rewrite (bind_eq _ _ _ _ _ (lift_eq _ _ w Hpeek)).
  do 3 rewrite (bind_eq _ _ _ _ _ (assert_holds _ w eq_refl)).
  rewrite (proj2 (Z.ltb_ge _ _)) by (change (mSize h) with 12; lia).
  rewrite (bind_eq _ _ _ _ _ (lift_eq _ _ w Hread)).
  set (w1 := set_recv_buffer (RecvBuffer.MoveReadOffset (RecvBuffer.MoveReadOffset b 4) 8) w).
  rewrite modify_bind. fold w1.
  rewrite (bind_eq _ _ _ _ _ (assert_holds _ w1 eq_refl)).
  rewrite (bind_eq _ _ _ _ _ (QueryPerformanceCounter_run w1)). rewrite mSendTick_PingPacket.
  set (c := clock (thread w1) 0%nat).
  rewrite modify_bind.
  set (w2 := on_thread (λ _, _) _).
  rewrite (bind_eq _ _ _ _ _ (Write_send_fits h 4 w2 eq_refl Hs ltac:(etrans; [|exact Hroom]; lia))).
  assert (Z.of_nat (length h) ≤ RecvBuffer.GetDirectWriteSize (mSendBuffer (session w))) as Hl
    by (etrans; [|exact Hroom]; done).
  destruct (RecvBuffer.recv_into_spec (mSendBuffer (session w)) h Hs Hl) as [Hs1 _].
  pose proof (RecvBuffer.direct_after_recv (mSendBuffer (session w)) h Hs Hl) as Hd.
  set (w3 := set_send_buffer _ _).
  assert (8 ≤ GetDirectWriteSize (mSendBuffer (session w3))) as Hl3.
  { etrans; [|apply Z.eq_le_incl; symmetry; exact Hd].
    apply (Z.le_trans _ (12 - 4)); [done|]. by apply Z.sub_le_mono. }
  rewrite (bind_eq _ _ _ _ _ (Write_send_fits (PingPacket c) 8 w3 eq_refl Hs1 Hl3)).
  done.
Qed.

Lemma turn_stops w :
  RecvBuffer.wf (mRecvBuffer (session w)) → partial_ping (RecvBuffer.contents (mRecvBuffer (session w))) →
  DoRecv_turn ndebug header_memory packet_memory w = Some (Some tt, w).
Proof.
  intros Hr (t & [rest Hp] & Hlt). set (b := mRecvBuffer (session w)) in *.
  set (h := PacketHeader sPING_PACKET_SIZE PING).
  assert (GetUsedSize b = Z.of_nat (length (RecvBuffer.contents b))) as Hused
    by exact (RecvBuffer.used_eq b Hr).
  unfold DoRecv_turn. rewrite gets_bind. fold b. rewrite Hused. unfold sPACKET_HEADER_SIZE, sizeof_PacketHeader.
  destruct (Z.ltb_spec (Z.of_nat (length (RecvBuffer.contents b))) 4) as [Hlt4|Hge4]; [done|].
  assert (∃ k, RecvBuffer.contents b = h ++ k) as [k Hk].
  { exists (drop 4 (RecvBuffer.contents b)). rewrite <- (take_drop 4 (RecvBuffer.contents b)) at 1. f_equal.
    apply (f_equal (take 4)) in Hp. rewrite take_app_le in Hp by lia. by rewrite <- Hp. }
  assert (Peek b header_memory 4 = Some (4, h)) as Hpeek by (by apply (Peek_header b h k)).
  rewrite (bind_eq _ _ _ _ _ (lift_eq _ _ w Hpeek)).
  do 3 rewrite (bind_eq _ _ _ _ _ (assert_holds _ w eq_refl)).
  by rewrite (proj2 (Z.ltb_lt _ _)) by (change (mSize h) with 12; lia).
Qed.

(** The loop of [DoRecv] on whole packets and the beginning of one. *)
Lemma loop_answers ticks rest fuel w :
  buffers_wf w → RecvBuffer.contents (mRecvBuffer (session w)) = mjoin (ping <$> ticks) ++ rest →
  partial_ping rest → 12 * Z.of_nat (length ticks) ≤ GetDirectWriteSize (mSendBuffer (session w)) →
  (length ticks < fuel)%nat →
  ∃ w', forever fuel (DoRecv_turn ndebug header_memory packet_memory) w = Some (tt, w') ∧
    pings_answered ticks rest w w'.
Proof.
  revert fuel w. induction ticks as [|t ticks IH]; intros fuel w Hwf Hc Hrest Hroom Hfuel.
  all: destruct fuel as [|fuel]; [cbn in Hfuel; lia|].
  - exists w. split; [|split; [done|done|by rewrite app_nil_r|done|done|by destruct (thread w)]].
    apply forever_stop, turn_stops; [apply Hwf|]. by rewrite Hc.
  - assert (RecvBuffer.contents (mRecvBuffer (session w)) = ping t ++ (mjoin (ping <$> ticks) ++ rest)) as Hc'
      by (rewrite Hc, app_assoc; done).
    assert (12 ≤ GetDirectWriteSize (mSendBuffer (session w))) as Hroom1 by (cbn [length] in Hroom; lia).
    rewrite (forever_again _ _ _ _ (turn_answers t _ w Hwf Hc' Hroom1)).
    destruct (answered_buffers t _ w Hwf Hc' Hroom1) as (Hwf1 & Hr1 & Hs1 & Hd1).
    destruct (IH fuel (answered t w) Hwf1 Hr1 Hrest) as (w' & Hrun & [? ? Hs' ? ? Ht']);
      [rewrite Hd1; cbn [length] in Hroom; lia|cbn [length] in Hfuel; lia|].
    exists w'. split; [exact Hrun|]. split; [done|done| |done|done|exact Ht'].
    rewrite Hs', Hs1, <- app_assoc. done.
Qed.

(** The state once [bytes] are in the receive buffer. *)
Definition received (bytes : list Byte) (tl : list RecvAnswer) (w : World) : World :=
  mkWorld
    (mkSession (mSocket (session w)) (RecvBuffer.recv_into (mRecvBuffer (session w)) bytes) (mSendBuffer (session w)))
    (set_recvs tl (log [Recv (mSocket (session w)) (GetDirectWriteSize (mRecvBuffer (session w)))] (thread w))).

Lemma DoRecv_data bytes tl w :
  recvs (thread w) = RecvData bytes :: tl →
  0 < Z.of_nat (length bytes) ≤ GetDirectWriteSize (mRecvBuffer (session w)) →
  DoRecv ndebug header_memory packet_memory w =
    DoRecv_packets ndebug header_memory packet_memory (received bytes tl w).
Proof.
  intros Hr [Hpos Hle]. unfold DoRecv. rewrite gets_bind.
  set (len := GetDirectWriteSize _) in *.
  set (w1 := set_recv_buffer (members (mFront (mRecvBuffer (session w))) (mRear (mRecvBuffer (session w)))
    (store (mBuffer (mRecvBuffer (session w))) (GetRearBufferPtr (mRecvBuffer (session w))) bytes))
    (on_thread (λ t, set_recvs tl (log [Recv (mSocket (session w)) len] t)) w)).
  assert (recv (mSocket (session w)) len w = Some (RecvData bytes, w1)) as Hrecv.
  { unfold recv, call. rewrite modify_bind, gets_bind.
    change (recvs (thread (on_thread (log [Recv (mSocket (session w)) len]) w))) with (recvs (thread w)).
    rewrite Hr, modify_bind, (proj2 (Z.ltb_lt _ _) Hpos), (proj2 (Z.leb_le _ _) Hle).
    done. }
  rewrite (bind_eq _ _ _ _ _ Hrecv). by rewrite modify_bind.
Qed.

(** After the loop, an empty buffer is reset. *)
Lemma packets_end fuel w w' :
  fuel = S (Z.to_nat (GetUsedSize (mRecvBuffer (session w)))) →
  forever fuel (DoRecv_turn ndebug header_memory packet_memory) w = Some (tt, w') →
  RecvBuffer.wf (mRecvBuffer (session w')) →
  DoRecv_packets ndebug header_memory packet_memory w =
    Some (true, if decide (RecvBuffer.contents (mRecvBuffer (session w')) = [])
                then set_recv_buffer (Reset (mRecvBuffer (session w'))) w' else w').
Proof.
  intros -> Hrun Hwf. clear Hheader Hpacket. unfold DoRecv_packets. rewrite gets_bind, (bind_eq _ _ _ _ _ Hrun), gets_bind.
  assert (GetUsedSize (mRecvBuffer (session w')) = Z.of_nat (length (RecvBuffer.contents (mRecvBuffer (session w')))))
    as -> by exact (RecvBuffer.used_eq _ Hwf).
  case_decide as He.
  - rewrite He. done.
  - rewrite (proj2 (Z.eqb_neq _ _)); [done|]. intros Hz. apply He, length_zero_iff_nil. lia.
Qed.

(** No whole packet is waiting: fewer bytes than a header, or than the header
    announces. *)
Definition no_packet (l : list Byte) : Prop :=
  Z.of_nat (length l) < 4 ∨ Z.of_nat (length l) < mSize (take 4 l).

(** A turn without assertions, on any bytes. *)
Lemma turn_total w :
  ndebug = true → buffers_wf w →
  DoRecv_turn ndebug header_memory packet_memory w = Some (Some tt, w) ∧
    no_packet (RecvBuffer.contents (mRecvBuffer (session w))) ∨
  ∃ w', DoRecv_turn ndebug header_memory packet_memory w = Some (None, w') ∧ buffers_wf w' ∧ quiet w w' ∧
    RecvBuffer.used (mRecvBuffer (session w')) + 4 ≤ RecvBuffer.used (mRecvBuffer (session w)).
Proof.
  intros Hnd [Hr Hs]. set (b := mRecvBuffer (session w)) in *.
  assert (∀ c w, assert_ ndebug c w = Some (tt, w)) as Hassert by (intros; unfold assert_; by rewrite Hnd).
  assert (GetUsedSize b = RecvBuffer.used b) as Hused by exact (RecvBuffer.used_eq b Hr).
  unfold DoRecv_turn. rewrite gets_bind. fold b. rewrite Hused.
  unfold sPACKET_HEADER_SIZE, sizeof_PacketHeader, sizeof_PingPacket.
  destruct (Z.ltb_spec (RecvBuffer.used b) 4) as [Hlt4|Hge4]; [by left; split; [|left]|].
  set (h := take 4 (RecvBuffer.contents b)).
  assert (length h = 4%nat) as Hh by (unfold h; unfold RecvBuffer.used in *; len_lia).
  rewrite (bind_eq _ _ _ _ _ (lift_eq _ _ w
    (Peek_header b h (drop 4 (RecvBuffer.contents b)) Hr (eq_sym (take_drop 4 _)) Hh))).
  do 3 rewrite (bind_eq _ _ _ _ _ (Hassert _ w)).
  destruct (Z.ltb_spec (RecvBuffer.used b) (mSize h)) as [Hlt|Hge]; [by left; split; [|right]|].
  right. destruct (RecvBuffer.contents_advance b 4 Hr) as [Hr4 Hc4]; [lia|].
  assert (RecvBuffer.used (RecvBuffer.MoveReadOffset b 4) = RecvBuffer.used b - 4) as Hu4
    by (unfold RecvBuffer.used in *; rewrite Hc4; len_lia).
  set (n := (RecvBuffer.used b - 4) `min` 8).
  destruct (RecvBuffer.contents_advance (RecvBuffer.MoveReadOffset b 4) n Hr4) as [Hrn Hcn]; [lia|].
  pose proof (RecvBuffer.Read_ok (RecvBuffer.MoveReadOffset b 4) packet_memory 8 Hr4
    ltac:(rewrite Hpacket; lia)) as Hread. rewrite Hu4 in Hread. fold n in Hread.
  rewrite (bind_eq _ _ _ _ _ (lift_eq (Read (MoveReadOffset b 4) packet_memory 8) _ w Hread)).
  rewrite modify_bind, (bind_eq _ _ _ _ _ (Hassert _ _)), (bind_eq _ _ _ _ _ (QueryPerformanceCounter_run _)),
    modify_bind.
  set (w2 := on_thread (λ _, _) _).
  destruct (Write_send_wf h 4 w2) as (sb & Hw & Hsb & Hg); [rewrite Hh; lia|done|].
  rewrite (bind_eq _ _ _ _ _ Hw). set (c := clock _ _).
  destruct (Write_send_wf (PingPacket c) 8 (set_send_buffer sb w2)) as (sb' & Hw' & Hsb' & Hg'); [len_lia|done|].
  rewrite (bind_eq _ _ _ _ _ Hw'). eexists. split; [done|]. split; [by split|].
  split; [split; [done..|exact (Z.le_trans _ _ _ Hg Hg')]|].
  change (RecvBuffer.used (RecvBuffer.MoveReadOffset (RecvBuffer.MoveReadOffset b 4) n) + 4 ≤ RecvBuffer.used b).
  unfold RecvBuffer.used in *. rewrite Hcn. autorewrite with lens. lia.
Qed.

Lemma loop_total fuel w :
  ndebug = true → buffers_wf w → (Z.to_nat (RecvBuffer.used (mRecvBuffer (session w))) < fuel)%nat →
  ∃ w', forever fuel (DoRecv_turn ndebug header_memory packet_memory) w = Some (tt, w') ∧ buffers_wf w' ∧
    no_packet (RecvBuffer.contents (mRecvBuffer (session w'))) ∧ quiet w w'.
Proof.
  revert w. induction fuel as [|fuel IH]; intros w Hnd Hwf Hfuel; [lia|].
  destruct (turn_total w Hnd Hwf) as [[Ht Hn]|(w1 & Ht & Hwf1 & Hq & Hu)].
  - exists w. by rewrite (forever_stop _ _ _ _ _ Ht).
  - destruct (IH w1 Hnd Hwf1) as (w' & Hrun & Hwf' & Hn & Hq').
    { pose proof (RecvBuffer.used_bounds (mRecvBuffer (session w1)) (proj1 Hwf1)). lia. }
    exists w'. rewrite (forever_again _ _ _ _ Ht). do 3 (split; [done|]). by etrans.
Qed.
End Facts.

(** What [DoSend] leaves once the system took [n] bytes. *)
Definition sent (n : Z) (tl : list WritevAnswer) (w : World) : World :=
  let b := mSendBuffer (session w) in
  let b' := RecvBuffer.MoveReadOffset b n in
  mkWorld
    (mkSession (mSocket (session w)) (mRecvBuffer (session w))
      (if decide (RecvBuffer.contents b' = []) then Reset b' else b'))
    (set_sends tl (log [Send (mSocket (session w))
      (segment (mBuffer b) (GetFrontBufferPtr b) (GetDIrectReadSize b))] (thread w))).

Lemma DoSend_sent n tl w :
  let b := mSendBuffer (session w) in
  RecvBuffer.wf b → RecvBuffer.contents b ≠ [] → sends (thread w) = Sent n :: tl →
  0 < n ≤ GetDIrectReadSize b → DoSend w = Some (true, sent n tl w).
Proof.
  intros b Hwf Hne Hs [Hpos Hle].
  assert (GetUsedSize b = Z.of_nat (length (RecvBuffer.contents b))) as Hused by exact (RecvBuffer.used_eq b Hwf).
  pose proof (RecvBuffer.direct_read_le_used b Hwf) as Hdr.
  assert (0 ≤ n ≤ RecvBuffer.used b) as Hn.
  { rewrite <- RecvBuffer.used_eq by done. split; [lia|]. etrans; [exact Hle|apply Hdr]. }
  destruct (RecvBuffer.contents_advance b n Hwf Hn) as [Hwf' _].
  unfold DoSend. rewrite gets_bind. fold b. rewrite Hused.
  rewrite (proj2 (Z.eqb_neq _ 0)) by (intros Hz; apply Hne, length_zero_iff_nil; lia).
  set (bytes := segment _ _ _).
  set (w1 := on_thread (λ t, set_sends tl (log [Send (mSocket (session w)) bytes] t)) w).
  assert (send (mSocket (session w)) bytes w = Some (Sent n, w1)) as Hsend.
  { unfold send, call. rewrite modify_bind, gets_bind.
    change (sends (thread (on_thread (log [Send (mSocket (session w)) bytes]) w))) with (sends (thread w)).
    rewrite Hs, (proj2 (Z.leb_le 0 n)) by lia.
    rewrite (proj2 (Z.leb_le _ _)); [done|]. unfold bytes. rewrite length_segment. lia. }
  rewrite (bind_eq _ _ _ _ _ Hsend), (proj2 (Z.eqb_neq _ 0)) by lia.
  rewrite modify_bind, gets_bind. unfold sent. fold b.
  set (b' := RecvBuffer.MoveReadOffset b n) in *.
  assert (GetUsedSize (mSendBuffer (session (set_send_buffer (MoveReadOffset b n) w1))) =
    Z.of_nat (length (RecvBuffer.contents b'))) as -> by exact (RecvBuffer.used_eq b' Hwf').
  case_decide as He.
  - rewrite He. done.
  - rewrite (proj2 (Z.eqb_neq _ _)); [done|]. intros Hz. apply He, length_zero_iff_nil. lia.
Qed.
(** ** One round of the exchange, and the echoing peer *)

Definition round (ndebug : bool) (header_memory packet_memory : list Byte) : M World bool :=
  sent ← DoSend;
  got ← DoRecv ndebug header_memory packet_memory;
  mret (sent && got).

Fixpoint rounds (ndebug : bool) (header_memory packet_memory : list Byte) (n : nat) : M World bool :=
  match n with
  | O => mret true
  | S n =>
      r ← round ndebug header_memory packet_memory;
      rs ← rounds ndebug header_memory packet_memory n;
      mret (r && rs)
  end.

(** A session at rest with one PING, stamped [t], to send. *)
Record in_flight (t : Z) (w : World) : Prop := {
  if_recv : mFront (mRecvBuffer (session w)) = 0 ∧ mRear (mRecvBuffer (session w)) = 0;
  if_wf : RecvBuffer.wf (mSendBuffer (session w));
  if_front : mFront (mSendBuffer (session w)) = 0;
  if_send : RecvBuffer.contents (mSendBuffer (session w)) = ping t
}.

(** ** Properties *)

Section Properties.
Context (ndebug : bool) (header_memory packet_memory : list Byte).
Hypothesis (Hheader : length header_memory = 4%nat) (Hpacket : length packet_memory = 8%nat).

Lemma direct_write_reset (b : RingBuffer Byte) :
  mFront b = 0 → mRear b = 0 → GetDirectWriteSize b = BUFFER_SIZE - 1.
Proof. intros Hf Hr. unfold GetDirectWriteSize. by rewrite Hf, Hr. Qed.

Lemma contents_reset (b : RingBuffer Byte) :
  mFront b = 0 → mRear b = 0 → RecvBuffer.wf b ∧ RecvBuffer.contents b = [].
Proof.
  destruct b as [f r m]. unfold mFront, mRear. cbn. intros -> ->.
  apply (RecvBuffer.Reset_spec (RecvBuffer.mkRecvBuffer 0 0 m)).
Qed.

Lemma DoRecv_pings bytes tl ticks rest w :
  buffers_wf w → recvs (thread w) = RecvData bytes :: tl →
  0 < Z.of_nat (length bytes) ≤ GetDirectWriteSize (mRecvBuffer (session w)) →
  RecvBuffer.contents (mRecvBuffer (session w)) ++ bytes = mjoin (ping <$> ticks) ++ rest →
  partial_ping rest → 12 * Z.of_nat (length ticks) ≤ GetDirectWriteSize (mSendBuffer (session w)) →
  ∃ w', DoRecv ndebug header_memory packet_memory w = Some (true, w') ∧
    pings_answered ticks rest (received bytes tl w) w' ∧
    (rest = [] → mFront (mRecvBuffer (session w')) = 0 ∧ mRear (mRecvBuffer (session w')) = 0).
Proof.
  intros [Hr Hs] Hans Hlen Hc Hrest Hroom. rewrite (DoRecv_data _ _ _ bytes tl) by done.
  destruct (RecvBuffer.recv_into_spec (mRecvBuffer (session w)) bytes Hr (proj2 Hlen)) as [Hr1 Hc1].
  set (w1 := received bytes tl w).
  assert (RecvBuffer.contents (mRecvBuffer (session w1)) = mjoin (ping <$> ticks) ++ rest) as Hcw
    by (etrans; [exact Hc1|done]).
  assert (GetUsedSize (mRecvBuffer (session w1)) = 12 * Z.of_nat (length ticks) + Z.of_nat (length rest)) as Hused.
  { etrans; [exact (RecvBuffer.used_eq (mRecvBuffer (session w1)) Hr1)|].
    unfold RecvBuffer.used. rewrite Hcw. rewrite length_app, length_pings. lia. }
  destruct (loop_answers ndebug header_memory packet_memory Hheader Hpacket ticks rest
    (S (Z.to_nat (GetUsedSize (mRecvBuffer (session w1))))) w1) as (w' & Hrun & Hpa); [by split|done|done|done|lia|].
  rewrite (packets_end _ _ _ _ w1 w' eq_refl Hrun (proj1 (pa_wf _ _ _ _ Hpa))), (pa_recv _ _ _ _ Hpa).
  eexists. split; [done|]. case_decide as He; [subst rest|by split].
  destruct Hpa as [[_ ?] ? ? ? ? ?]. split; [|done]. split; [split; [apply RecvBuffer.Reset_spec|]|..]; done.
Qed.

(** A connection that is over: the socket is closed, the buffers stay. *)
Lemma DoRecv_ends a tl w :
  recvs (thread w) = a :: tl → (∀ bytes, a ≠ RecvData bytes) →
  DoRecv ndebug header_memory packet_memory w =
    Some (false, on_thread (λ t, set_recvs tl (log
      (Recv (mSocket (session w)) (GetDirectWriteSize (mRecvBuffer (session w))) ::
       (if match a with RecvClosed => true | _ => false end then [CloseSocket (mSocket (session w)); Print]
        else [Print; CloseSocket (mSocket (session w))])) t)) w).
Proof using Type.
  intros Hr Ha. destruct w as [s [m c rs ss cs]]. cbn [thread recvs] in Hr. subst rs.
  destruct a as [bytes| |e]; [by destruct (Ha bytes)| |].
  all: unfold DoRecv, recv, call, on_thread, log, set_recvs; run; by rewrite <- !app_assoc.
Qed.

(** [DoRecv] on a stream of PING packets: whatever was waiting and whatever
    arrives, cut anywhere, every whole packet is answered, in order, by one PING
    stamped with its own reading of the clock, the beginning of the next packet
    stays, and [sMAX_RTT] becomes the longest of the old one and the round trips;
    an emptied buffer is reset.  No assertion fails.  It takes room in the send
    buffer for the answers. *)
Theorem DoRecv_answers_pings bytes tl ticks rest w :
  buffers_wf w → recvs (thread w) = RecvData bytes :: tl →
  0 < Z.of_nat (length bytes) ≤ GetDirectWriteSize (mRecvBuffer (session w)) →
  RecvBuffer.contents (mRecvBuffer (session w)) ++ bytes = mjoin (ping <$> ticks) ++ rest →
  partial_ping rest → 12 * Z.of_nat (length ticks) ≤ GetDirectWriteSize (mSendBuffer (session w)) →
  ∃ w', DoRecv ndebug header_memory packet_memory w = Some (true, w') ∧
    pings_answered ticks rest (received bytes tl w) w' ∧
    (rest = [] → mFront (mRecvBuffer (session w')) = 0 ∧ mRear (mRecvBuffer (session w')) = 0).
Proof. apply DoRecv_pings. Qed.

(** What can be said of [DoRecv] in any state: the answer [a] decides the
    result and the calls. *)
Definition legal_recv (a : RecvAnswer) (b : RingBuffer Byte) : Prop :=
  match a with
  | RecvData bytes => 0 < Z.of_nat (length bytes) ≤ GetDirectWriteSize b
  | _ => True
  end.

Definition recv_calls (a : RecvAnswer) (w : World) : list ClientCall :=
  Recv (mSocket (session w)) (GetDirectWriteSize (mRecvBuffer (session w))) ::
  match a with
  | RecvData _ => []
  | RecvClosed => [CloseSocket (mSocket (session w)); Print]
  | RecvError _ => [Print; CloseSocket (mSocket (session w))]
  end.

Definition is_data (a : RecvAnswer) : bool := match a with RecvData _ => true | _ => false end.

Record recv_done (a : RecvAnswer) (tl : list RecvAnswer) (w w' : World) : Prop := {
  rd_wf : buffers_wf w';
  rd_rest : is_data a = true → no_packet (RecvBuffer.contents (mRecvBuffer (session w')));
  rd_socket : mSocket (session w') = mSocket (session w);
  rd_recvs : recvs (thread w') = tl;
  rd_sends : sends (thread w') = sends (thread w);
  rd_calls : client_calls (thread w') = client_calls (thread w) ++ recv_calls a w;
  rd_grows : GetDIrectReadSize (mSendBuffer (session w)) ≤ GetDIrectReadSize (mSendBuffer (session w'))
}.

Lemma DoRecv_outcome a tl w :
  ndebug = true → buffers_wf w → recvs (thread w) = a :: tl → legal_recv a (mRecvBuffer (session w)) →
  ∃ w', DoRecv ndebug header_memory packet_memory w = Some (is_data a, w') ∧ recv_done a tl w w'.
Proof.
  intros Hnd Hwf Hans Hlen. destruct a as [bytes| |e].
  - cbn [legal_recv] in Hlen. rewrite (DoRecv_data _ _ _ bytes tl) by done.
    destruct (RecvBuffer.recv_into_spec (mRecvBuffer (session w)) bytes (proj1 Hwf) (proj2 Hlen)) as [Hr1 _].
    set (w1 := received bytes tl w).
    assert (buffers_wf w1) as Hwf1 by (split; [done|apply Hwf]).
    assert (GetUsedSize (mRecvBuffer (session w1)) = RecvBuffer.used (mRecvBuffer (session w1))) as Hu
      by exact (RecvBuffer.used_eq _ Hr1).
    destruct (loop_total ndebug header_memory packet_memory Hheader Hpacket
      (S (Z.to_nat (GetUsedSize (mRecvBuffer (session w1))))) w1 Hnd Hwf1) as (w' & Hrun & Hwf' & Hn & [? ? ? ? ?]); [lia|].
    rewrite (packets_end _ _ _ _ w1 w' eq_refl Hrun (proj1 Hwf')).
    eexists. split; [done|]. case_decide as He; [|by split].
    split; [split; [apply RecvBuffer.Reset_spec|apply Hwf']|by left|assumption..].
  - rewrite (DoRecv_ends RecvClosed tl) by done. eexists. split; [done|]. by split.
  - rewrite (DoRecv_ends (RecvError e) tl) by done. eexists. split; [done|]. by split.
Qed.

(** The same of [DoSend], with something to send. *)
Definition legal_send (a : WritevAnswer) (b : RingBuffer Byte) : Prop :=
  0 < GetDIrectReadSize b ∧ match a with Sent n => 0 ≤ n ≤ GetDIrectReadSize b | SendError _ => True end.

Definition is_sent (a : WritevAnswer) : bool := match a with Sent n => negb (n =? 0) | SendError _ => false end.

Definition send_calls (a : WritevAnswer) (w : World) : list ClientCall :=
  let b := mSendBuffer (session w) in
  Send (mSocket (session w)) (segment (mBuffer b) (GetFrontBufferPtr b) (GetDIrectReadSize b)) ::
  match a with
  | Sent n => if n =? 0 then [Print] else []
  | SendError _ => [Print; CloseSocket (mSocket (session w))]
  end.

Record send_done (a : WritevAnswer) (tl : list WritevAnswer) (w w' : World) : Prop := {
  sd_wf : buffers_wf w';
  sd_socket : mSocket (session w') = mSocket (session w);
  sd_recvs : recvs (thread w') = recvs (thread w);
  sd_sends : sends (thread w') = tl;
  sd_calls : client_calls (thread w') = client_calls (thread w) ++ send_calls a w
}.

Lemma DoSend_outcome a tl w :
  buffers_wf w → sends (thread w) = a :: tl → legal_send a (mSendBuffer (session w)) →
  ∃ w', DoSend w = Some (is_sent a, w') ∧ send_done a tl w w'.
Proof.
  clear Hheader Hpacket. intros [Hr Hwf] Hs [Hpos Ha]. set (b := mSendBuffer (session w)) in *.
  assert (GetUsedSize b = RecvBuffer.used b) as Hused by exact (RecvBuffer.used_eq b Hwf).
  assert (0 ≤ GetDIrectReadSize b ≤ RecvBuffer.used b) as Hdr
    by (rewrite <- Hused; exact (RecvBuffer.direct_read_le_used b Hwf)).
  destruct (decide (is_sent a = true)) as [Hsent|Hsent].
  - destruct a as [n|e]; [|done]. cbn in Hsent. apply negb_true_iff, Z.eqb_neq in Hsent.
    assert (RecvBuffer.contents b ≠ []) as Hne
      by (intros He; unfold RecvBuffer.used in Hdr; rewrite He in Hdr; cbn in Hdr; lia).
    exists (sent n tl w). cbn [is_sent]. rewrite (proj2 (Z.eqb_neq _ _) Hsent).
    split; [apply DoSend_sent; [done..|unfold b in *; lia]|]. unfold sent. fold b.
    destruct (RecvBuffer.contents_advance b n Hwf) as [Hwf' _]; [lia|].
    split; try done.
    + split; [done|]. cbn [session mSendBuffer]. case_decide; [apply RecvBuffer.Reset_spec|done].
    + unfold send_calls. fold b. by rewrite (proj2 (Z.eqb_neq _ _) Hsent).
  - assert (send (mSocket (session w)) (segment (mBuffer b) (GetFrontBufferPtr b) (GetDIrectReadSize b)) w = Some (a,
      on_thread (λ t, set_sends tl (log [Send (mSocket (session w))
        (segment (mBuffer b) (GetFrontBufferPtr b) (GetDIrectReadSize b))] t)) w)) as Hsend.
    { unfold send, call. rewrite modify_bind, gets_bind.
      match goal with |- context [sends (thread (on_thread ?f ?x))] =>
        change (sends (thread (on_thread f x))) with (sends (thread x)) end.
      rewrite Hs. destruct a as [n|e]; [|done]. cbn in Hsent.
      rewrite (proj2 (Z.leb_le 0 n)) by lia. rewrite (proj2 (Z.leb_le _ _)); [done|].
      rewrite length_segment. lia. }
    unfold DoSend. rewrite gets_bind. fold b. rewrite Hused, (proj2 (Z.eqb_neq _ 0)) by lia.
    rewrite (bind_eq _ _ _ _ _ Hsend).
    destruct a as [n|e]; cbn in Hsent.
    + assert (n = 0) as -> by (destruct (Z.eqb_spec n 0); done).
      eexists. split; [done|]. split; [done..|]. unfold send_calls. fold b. cbn. by rewrite <- app_assoc.
    + eexists. split; [done|]. split; [done..|]. unfold send_calls. fold b. cbn. by rewrite <- !app_assoc.
Qed.

(** C23: with [assert] compiled out, [DoRecv] ends on any bytes whatever: it
    returns, in bounds, with both buffers well-formed, true exactly when data
    came, having closed the socket once if none did; and no packet is left that
    its header says is complete. *)
Theorem DoRecv_total a tl w :
  ndebug = true → buffers_wf w → recvs (thread w) = a :: tl → legal_recv a (mRecvBuffer (session w)) →
  ∃ r w', DoRecv ndebug header_memory packet_memory w = Some (r, w') ∧ buffers_wf w' ∧
    (r = true ↔ ∃ bytes, a = RecvData bytes) ∧
    client_calls (thread w') = client_calls (thread w) ++ recv_calls a w ∧
    (r = true → no_packet (RecvBuffer.contents (mRecvBuffer (session w')))).
Proof.
  intros Hnd Hwf Hans Hlen. destruct (DoRecv_outcome a tl w Hnd Hwf Hans Hlen) as (w' & Hrun & [? ? _ _ _ ? _]).
  exists (is_data a), w'. split; [done|]. split; [done|]. split; [|done].
  destruct a; cbn; split; try done; [by eexists|by intros [? [=]]..].
Qed.

Lemma round_pings t rl sl w :
  in_flight t w → recvs (thread w) = RecvData (ping t) :: rl → sends (thread w) = Sent 12 :: sl →
  ∃ w', round ndebug header_memory packet_memory w = Some (true, w') ∧
    in_flight (clock (thread w) 0%nat) w' ∧ mSocket (session w') = mSocket (session w) ∧
    thread w' = mkThread (sMAX_RTT (thread w) `max` i64 (clock (thread w) 0%nat - i64 t))
      (later 1 (clock (thread w))) rl sl
      (client_calls (thread w) ++ [Send (mSocket (session w)) (ping t); Recv (mSocket (session w)) (BUFFER_SIZE - 1)]).
Proof.
  intros [[Hf Hr] Hwf Hfs Hc] Hrl Hsl. set (b := mSendBuffer (session w)) in *.
  destruct (contents_reset _ Hf Hr) as [Hrwf Hrc].
  assert (GetDIrectReadSize b = 12) as Hd.
  { pose proof (RecvBuffer.used_eq b Hwf) as Hu. unfold RecvBuffer.used in Hu. rewrite Hc in Hu.
    assert ((mFront b <=? mRear b) = true) as Hle by (rewrite Hfs; apply Z.leb_le, Hwf).
    etrans; [|exact Hu]. unfold GetDIrectReadSize. rewrite Hle.
    change (GetUsedSize b) with (RecvBuffer.GetUsedSize b) in *. symmetry.
    change (GetUsedSize b = mRear b ⊖ mFront b). unfold GetUsedSize. by rewrite Hle. }
  assert (segment (mBuffer b) (GetFrontBufferPtr b) (GetDIrectReadSize b) = ping t) as Hbytes.
  { etrans; [exact (RecvBuffer.direct_read_prefix b Hwf)|]. rewrite Hc.
    change (RecvBuffer.GetDIrectReadSize b) with (GetDIrectReadSize b). by rewrite Hd. }
  assert (RecvBuffer.contents b ≠ []) as Hne by (by rewrite Hc).
  assert (0 < 12 ≤ GetDIrectReadSize b) as H12 by (by rewrite Hd).
  unfold round. rewrite (bind_eq _ _ _ _ _ (DoSend_sent 12 sl w Hwf Hne Hsl H12)).
  assert (sent 12 sl w = mkWorld
    (mkSession (mSocket (session w)) (mRecvBuffer (session w)) (Reset (RecvBuffer.MoveReadOffset b 12)))
    (set_sends sl (log [Send (mSocket (session w)) (ping t)] (thread w)))) as ->.
  { unfold sent. fold b. rewrite Hbytes, decide_True; [done|].
    destruct (RecvBuffer.contents_advance b 12 Hwf) as [_ ->]; [unfold RecvBuffer.used; by rewrite Hc|].
    by rewrite Hc. }
  set (w1 := mkWorld _ _).
  destruct (DoRecv_pings (ping t) rl [t] [] w1) as (w' & Hrun & [Hwf' _ Hs' Hf' Hm Ht] & Hz).
  - split; [done|apply RecvBuffer.Reset_spec].
  - done.
  - change (0 < 12 ≤ GetDirectWriteSize (mRecvBuffer (session w))). by rewrite direct_write_reset.
  - change (RecvBuffer.contents (mRecvBuffer (session w)) ++ ping t = mjoin (ping <$> [t]) ++ []).
    rewrite Hrc. by rewrite app_nil_r.
  - exists 0. split; [apply prefix_nil|done].
  - done.
  - exists w'. rewrite (bind_eq _ _ _ _ _ Hrun). split; [done|].
    split; [split; [by apply Hz|apply Hwf'|by rewrite Hf'|]|split; [by rewrite Hm|]].
    + rewrite Hs'. etrans; [exact (f_equal (λ l, l ++ _) (proj2 (RecvBuffer.Reset_spec _)))|]. done.
    + rewrite Ht. cbn [thread received w1 set_recvs log set_sends sMAX_RTT clock recvs sends client_calls session mSocket mRecvBuffer].
      rewrite direct_write_reset by done. by rewrite <- app_assoc.
Qed.

(** A new session, whatever memory it is built on. *)
Lemma construct_pings fd w :
  ∃ w', Session_construct fd w = Some (tt, w') ∧ in_flight (clock (thread w) 0%nat) w' ∧
    mSocket (session w') = fd ∧ thread w' = set_clock (later 1 (clock (thread w))) (thread w).
Proof.
  unfold Session_construct. rewrite modify_bind.
  set (w1 := mkWorld _ _). rewrite (bind_eq _ _ _ _ _ (QueryPerformanceCounter_run w1)).
  set (w2 := on_thread _ w1). set (c := clock (thread w1) 0%nat).
  set (h := PacketHeader sPING_PACKET_SIZE PING). set (b := mSendBuffer (session w2)).
  destruct (RecvBuffer.Reset_spec (mSendBuffer (session w))) as [Hwf Hc].
  assert (GetDirectWriteSize b = BUFFER_SIZE - 1) as Hd by done.
  rewrite (bind_eq _ _ _ _ _ (Write_send_fits h 4 w2 eq_refl Hwf ltac:(by vm_compute))).
  destruct (RecvBuffer.recv_into_spec b h Hwf ltac:(by vm_compute)) as [Hwf1 Hc1].
  pose proof (RecvBuffer.direct_after_recv b h Hwf ltac:(by vm_compute)) as Hd1.
  set (w3 := set_send_buffer _ w2).
  assert (8 ≤ GetDirectWriteSize (mSendBuffer (session w3))) as Hl3
    by (etrans; [|apply Z.eq_le_incl; symmetry; exact Hd1]; by vm_compute).
  pose proof (Write_send_fits (PingPacket c) 8 w3 eq_refl Hwf1 Hl3) as Hw3.
  destruct (RecvBuffer.recv_into_spec (mSendBuffer (session w3)) (PingPacket c) Hwf1 Hl3) as [Hwf2 Hc2].
  eexists. split; [exact Hw3|]. split; [|done]. split; [done|exact Hwf2|done|].
  etrans; [exact Hc2|]. etrans; [exact (f_equal (λ l, l ++ _) Hc1)|].
  exact (f_equal (λ l, (l ++ h) ++ PingPacket c) Hc).
Qed.

Lemma rounds_pings n k c w :
  in_flight (c k) w → clock (thread w) = later (S k) c →
  recvs (thread w) = (λ i, RecvData (ping (c i))) <$> seq k n →
  sends (thread w) = replicate n (Sent 12) →
  ∃ w', rounds ndebug header_memory packet_memory n w = Some (true, w') ∧ in_flight (c (k + n)%nat) w' ∧
    sMAX_RTT (thread w') = foldl Z.max (sMAX_RTT (thread w)) ((λ i, i64 (c (S i) - i64 (c i))) <$> seq k n) ∧
    client_calls (thread w') = client_calls (thread w) ++
      (seq k n ≫= λ i, [Send (mSocket (session w)) (ping (c i)); Recv (mSocket (session w)) (BUFFER_SIZE - 1)]).
Proof.
  revert k w. induction n as [|n IH]; intros k w Hin Hclk Hr Hs.
  - exists w. rewrite Nat.add_0_r. by rewrite app_nil_r.
  - destruct (round_pings (c k) _ _ w Hin Hr Hs) as (w1 & Hrun & Hin1 & Hm1 & Ht1).
    rewrite Hclk, later_at, Nat.add_0_r in Hin1, Ht1.
    destruct (IH (S k) w1 Hin1) as (w' & Hruns & Hin' & Hrtt & Hcalls);
      [rewrite Ht1; apply later_S|by rewrite Ht1|by rewrite Ht1|].
    exists w'. cbn [rounds]. rewrite (bind_eq _ _ _ _ _ Hrun), (bind_eq _ _ _ _ _ Hruns).
    split; [done|]. rewrite <- Nat.add_succ_comm. split; [done|]. split.
    + by rewrite Hrtt, Ht1.
    + rewrite Hcalls, Ht1, Hm1. cbn [client_calls]. by rewrite <- app_assoc.
Qed.

(** C22: a session against a peer that echoes.  Built on any memory, it sends a
    PING, gets it back, and so on, [n] times: each round offers the system exactly
    the twelve bytes of one packet, stamped with the last reading of the clock, and
    then asks for as much as the emptied receive buffer holds; every call succeeds
    and no assertion fails.  At any time one PING is in flight, and [sMAX_RTT] is
    the longest of its old value and the differences of successive readings. *)
Theorem ping_pong n fd c w :
  clock (thread w) = c →
  recvs (thread w) = (λ i, RecvData (ping (c i))) <$> seq 0 n →
  sends (thread w) = replicate n (Sent 12) →
  ∃ w', (Session_construct fd;; rounds ndebug header_memory packet_memory n) w = Some (true, w') ∧
    in_flight (c n) w' ∧
    sMAX_RTT (thread w') = foldl Z.max (sMAX_RTT (thread w)) ((λ i, i64 (c (S i) - i64 (c i))) <$> seq 0 n) ∧
    client_calls (thread w') = client_calls (thread w) ++
      (seq 0 n ≫= λ i, [Send fd (ping (c i)); Recv fd (BUFFER_SIZE - 1)]).
Proof.
  intros <- Hr Hs. destruct (construct_pings fd w) as (w1 & Hrun & Hin & Hfd & Ht).
  rewrite (bind_eq _ _ _ _ _ Hrun).
  destruct (rounds_pings n 0 (clock (thread w)) w1 Hin) as (w' & Hruns & Hin' & Hrtt & Hcalls);
    [by rewrite Ht..|].
  exists w'. split; [done|]. split; [done|]. rewrite Hrtt, Hcalls, Hfd, Ht. done.
Qed.
End Properties.

(** *** Witnesses *)

Definition sample_memory : RingBuffer Byte := members 77 (-3) (λ i, i).
Definition sample_clock (n : nat) : Z := 100 + 10 * Z.of_nat n.
Definition sample_world (rs : list RecvAnswer) (ss : list WritevAnswer) : World :=
  mkWorld (mkSession 9 (Reset sample_memory) (Reset sample_memory)) (mkThread 0 sample_clock rs ss []).

Lemma sample_buffers_wf rs ss : buffers_wf (sample_world rs ss).
Proof. by repeat split. Qed.

Lemma DoRecv_answers_pings_witness :
  let w := sample_world [RecvData (ping 95 ++ ping 70 ++ [12; 0; 0])] [] in
  ∃ w', DoRecv false (replicate 4 0) (replicate 8 0) w = Some (true, w') ∧
    RecvBuffer.contents (mRecvBuffer (session w')) = [12; 0; 0] ∧
    RecvBuffer.contents (mSendBuffer (session w')) = ping 100 ++ ping 110 ∧ sMAX_RTT (thread w') = 40.
Proof.
  intros w.
  destruct (DoRecv_answers_pings false (replicate 4 0) (replicate 8 0) eq_refl eq_refl
    (ping 95 ++ ping 70 ++ [12; 0; 0]) [] [95; 70] [12; 0; 0] w) as (w' & Hrun & [Hwf Hr Hs _ _ Ht] & _).
  - apply sample_buffers_wf.
  - done.
  - by vm_compute.
  - done.
  - exists 0. split; [|done]. by exists (drop 3 (ping 0)).
  - by vm_compute.
  - exists w'. split; [done|]. split; [done|]. split; [rewrite Hs|rewrite Ht]; done.
Defined.

Lemma DoRecv_total_witness :
  ∃ r w', DoRecv true (replicate 4 0) (replicate 8 0) (sample_world [RecvData [5; 0; 1; 0; 7; 200; 0; 0; 0]] []) =
    Some (r, w') ∧ r = true ∧ no_packet (RecvBuffer.contents (mRecvBuffer (session w'))).
Proof.
  destruct (DoRecv_total true (replicate 4 0) (replicate 8 0) eq_refl eq_refl
    (RecvData [5; 0; 1; 0; 7; 200; 0; 0; 0]) [] (sample_world [RecvData [5; 0; 1; 0; 7; 200; 0; 0; 0]] []))
    as (r & w' & Hrun & _ & Hr & _ & Hn).
  - done.
  - apply sample_buffers_wf.
  - done.
  - by vm_compute.
  - assert (r = true) as Ht by (apply Hr; by eexists).
    exists r, w'. split; [done|]. split; [done|by apply Hn].
Defined.

Lemma ping_pong_witness :
  ∃ w', (Session_construct 4;; rounds false (replicate 4 0) (replicate 8 0) 2)
      (mkWorld (mkSession 9 sample_memory sample_memory)
        (mkThread 0 sample_clock [RecvData (ping 100); RecvData (ping 110)] [Sent 12; Sent 12] [])) = Some (true, w') ∧
    in_flight 120 w' ∧ sMAX_RTT (thread w') = 10.
Proof.
  destruct (ping_pong false (replicate 4 0) (replicate 8 0) eq_refl eq_refl 2 4 sample_clock
    (mkWorld (mkSession 9 sample_memory sample_memory)
      (mkThread 0 sample_clock [RecvData (ping 100); RecvData (ping 110)] [Sent 12; Sent 12] [])))
    as (w' & Hrun & Hin & Hrtt & _); [done..|].
  exists w'. split; [done|]. split; [done|]. by rewrite Hrtt.
Defined.
End StressSession.
