(* ===== verification/PollThread.v ===== *)
(** * The stress client's poll thread (exe-StressTest, PollThread.{hpp,cpp})

    [test::PollThread]: it connects clients, then serves their sessions round by
    round with [WSAPoll].  A [Session] is reached only through its entry of
    [mPollFDs], so the entry holds the object, and [live] counts the objects
    constructed and not deleted.  The order in which the hash table is walked is
    a parameter. *)

From S2P Require Import Prelude System RecvBuffer RingBuffer StressSession.

Module PollThread.
Import StressSession.

(** ** WinSock *)

Definition POLLERR : Z := 0x0001.
Definition POLLWRNORM : Z := 0x0010.
Definition POLLRDNORM : Z := 0x0100.
Definition POLLRDBAND : Z := 0x0200.
Definition POLLIN : Z := Z.lor POLLRDNORM POLLRDBAND.
Definition POLLOUT : Z := POLLWRNORM.
Definition INVALID_SOCKET : Z := 2 ^ 64 - 1.

Definition has (revents flag : Z) : bool := negb (Z.land revents flag =? 0).

(** [SOCKET_ERROR], or the [revents] of each entry; [connect]: done, pending
    ([WSAEWOULDBLOCK], [WSAEINPROGRESS]) or failed. *)
Inductive PollAnswer := PollError | Ready (revents : list Z).
Inductive ConnectAnswer := Connected | WouldBlock | ConnectError.

(** The number of entries that are ready, which [WSAPoll] returns. *)
Definition poll_result (revents : list Z) : Z := countb (λ r, negb (r =? 0)) revents.

(** ** State *)

Record PollThread := mkPollThread {
  mIsRunning : bool;
  mMaxClientCount : Z;
  mCurrentClientCount : Z;
  mThreadHandle : Z;
  mPollFDs : gmap Z Session
}.

Record World := mkWorld {
  poller : PollThread;
  env : Thread;
  sRECV_COUNT : Z;
  sSEND_COUNT : Z;
  live : Z;
  polls : list PollAnswer;
  sockets : list (option Z);
  connects : list ConnectAnswer;
  so_errors : list Z;
  readings : list bool               (* what [mIsRunning] reads as, in turn *)
}.

Definition set_poller (p : PollThread) (w : World) : World :=
  mkWorld p (env w) (sRECV_COUNT w) (sSEND_COUNT w) (live w) (polls w) (sockets w) (connects w) (so_errors w) (readings w).
Definition set_env (t : Thread) (w : World) : World :=
  mkWorld (poller w) t (sRECV_COUNT w) (sSEND_COUNT w) (live w) (polls w) (sockets w) (connects w) (so_errors w) (readings w).
Definition set_counts (r s : Z) (w : World) : World :=
  mkWorld (poller w) (env w) r s (live w) (polls w) (sockets w) (connects w) (so_errors w) (readings w).
Definition set_live (n : Z) (w : World) : World :=
  mkWorld (poller w) (env w) (sRECV_COUNT w) (sSEND_COUNT w) n (polls w) (sockets w) (connects w) (so_errors w) (readings w).
Definition set_polls (l : list PollAnswer) (w : World) : World :=
  mkWorld (poller w) (env w) (sRECV_COUNT w) (sSEND_COUNT w) (live w) l (sockets w) (connects w) (so_errors w) (readings w).
Definition set_sockets (l : list (option Z)) (w : World) : World :=
  mkWorld (poller w) (env w) (sRECV_COUNT w) (sSEND_COUNT w) (live w) (polls w) l (connects w) (so_errors w) (readings w).
Definition set_connects (l : list ConnectAnswer) (w : World) : World :=
  mkWorld (poller w) (env w) (sRECV_COUNT w) (sSEND_COUNT w) (live w) (polls w) (sockets w) l (so_errors w) (readings w).
Definition set_so_errors (l : list Z) (w : World) : World :=
  mkWorld (poller w) (env w) (sRECV_COUNT w) (sSEND_COUNT w) (live w) (polls w) (sockets w) (connects w) l (readings w).
Definition set_readings (l : list bool) (w : World) : World :=
  mkWorld (poller w) (env w) (sRECV_COUNT w) (sSEND_COUNT w) (live w) (polls w) (sockets w) (connects w) (so_errors w) l.

Definition set_clients (m : gmap Z Session) (w : World) : World :=
  let p := poller w in
  set_poller (mkPollThread (mIsRunning p) (mMaxClientCount p) (mCurrentClientCount p) (mThreadHandle p) m) w.
Definition clients (w : World) : gmap Z Session := mPollFDs (poller w).
Definition set_current (n : Z) (w : World) : World :=
  let p := poller w in
  set_poller (mkPollThread (mIsRunning p) (mMaxClientCount p) n (mThreadHandle p) (mPollFDs p)) w.

(** ** Calls *)

Definition sys (c : ClientCall) : M World unit := modify (λ w, set_env (log [c] (env w)) w).

(** The next answer of a list; the computation does not return without one. *)
Definition next {A} (get : World → list A) (set : list A → World → World) : M World A :=
  l ← gets get;
  match l with
  | [] => undefined
  | a :: l => modify (set l);; mret a
  end.

Definition getsockopt (fd : Z) : M World Z := sys (GetSockOpt fd);; next so_errors set_so_errors.

Definition HandleError : M World unit := sys Print.

(** A method of the session [*iter], run in place. *)
Definition on_entry {A} (fd : Z) (m : M StressSession.World A) : M World A := λ w,
  s ← clients w !! fd;
  '(a, sw) ← m (StressSession.mkWorld s (env w));
  Some (a, set_env (thread sw) (set_clients (<[fd := session sw]> (clients w)) w)).

Section Methods.
Context (ndebug : bool) (header_memory packet_memory : list Byte).
Context (memory : Session) (iteration : gmap Z Session → list (Z * Session)).

Definition assert_ (c : bool) : M World unit := if ndebug || c then mret tt else undefined.

(** [WSAPoll] on [fds]: one [revents] for each entry. *)
Definition WSAPoll (fds : list (Z * Z)) : M World PollAnswer :=
  sys (StressSession.WSAPoll fds);;
  a ← next polls set_polls;
  match a with
  | PollError => mret a
  | Ready revents => if bool_decide (length revents = length fds) then mret a else undefined
  end.

(** [mPollFDs.insert(make_pair(fd, new Session(fd)))]: an entry that is there
    keeps its session. *)
Definition insert_session (fd : Z) : M World unit :=
  '(s, t) ← (λ w, '(_, sw) ← Session_construct fd (StressSession.mkWorld memory (env w)); Some ((session sw, thread sw), w));
  modify (λ w, set_env t (set_live (live w + 1)
    (set_clients (match clients w !! fd with Some _ => clients w | None => <[fd := s]> (clients w) end) w))).

(** [delete iter->second; mPollFDs.erase(iter);]. *)
Definition delete_session (fd : Z) : M World unit :=
  on_entry fd Session_destroy;;
  modify (λ w, set_live (live w - 1) (set_clients (delete fd (clients w)) w)).

(** ** Methods *)

Definition PollThread_construct (maxClientCount : Z) (handle : Z) : M World unit :=
  modify (set_poller (mkPollThread true maxClientCount 0 handle ∅));;
  assert_ (0 <? maxClientCount).

Definition PollThread_destroy : M World unit :=
  p ← gets poller;
  sys (WaitThread (mThreadHandle p)).

Definition Create (handle : Z) : M World unit :=
  sys BeginThread;;
  modify (λ w, let p := poller w in
    set_poller (mkPollThread (mIsRunning p) (mMaxClientCount p) (mCurrentClientCount p) handle (mPollFDs p)) w);;
  sys Print.

(** The entry [Loop] makes for a session. *)
Definition pollFD (session : Z * Session) : Z * Z :=
  (fst session, if 0 <? RingBuffer.GetUsedSize (mSendBuffer (snd session)) then Z.lor POLLIN POLLOUT else POLLIN).

(** The second loop of [Loop], on one client. *)
Definition Loop_client (client : Z * Z) : M World unit :=
  let '(fd, revents) := client in
  found ← gets (λ w, bool_decide (is_Some (clients w !! fd)));
  assert_ found;;
  recvResult ← (if has revents POLLRDNORM then
    r ← on_entry fd (DoRecv ndebug header_memory packet_memory);
    modify (λ w, set_counts (i64 (sRECV_COUNT w + 1)) (sSEND_COUNT w) w);;
    mret r else mret true);
  sendResult ← (if has revents POLLWRNORM then
    r ← on_entry fd DoSend;
    modify (λ w, set_counts (sRECV_COUNT w) (i64 (sSEND_COUNT w + 1)) w);;
    mret r else mret true);
  if has revents POLLERR then
    err ← getsockopt fd;
    sys Print;;
    sys (CloseSocket fd);;
    delete_session fd
  else when (negb sendResult || negb recvResult) (delete_session fd).

Fixpoint Loop_clients (l : list (Z * Z)) : M World unit :=
  match l with
  | [] => mret tt
  | client :: l => Loop_client client;; Loop_clients l
  end.

Definition Loop : M World unit :=
  pollFDs ← gets (λ w, pollFD <$> iteration (clients w));
  a ← WSAPoll pollFDs;
  match a with
  | PollError => HandleError
  | Ready revents =>
      assert_ (negb (poll_result revents =? 0));;
      Loop_clients (zip pollFDs.*1 revents);;
      sys Print
  end.

(** The loop of [Clear], on one entry. *)
Fixpoint Clear_entries (l : list (Z * Session)) : M World unit :=
  match l with
  | [] => mret tt
  | (fd, _) :: l =>
      (if fd =? INVALID_SOCKET then mret tt
       else
         on_entry fd Session_destroy;;
         modify (λ w, set_live (live w - 1) w);;
         sys (CloseSocket fd));;
      Clear_entries l
  end.

Definition Clear : M World unit :=
  entries ← gets (λ w, iteration (clients w));
  Clear_entries entries;;
  modify (set_clients ∅).

Definition Stop : M World unit := modify (λ w, let p := poller w in
  set_poller (mkPollThread false (mMaxClientCount p) (mCurrentClientCount p) (mThreadHandle p) (mPollFDs p)) w).

(** The first loop of [ConnectClients]: the entries pending and their number. *)
Fixpoint connect_loop (count : nat) (connectPollFDs : list (Z * Z)) (blockCount : Z) : M World (list (Z * Z) * Z) :=
  match count with
  | O => mret (connectPollFDs, blockCount)
  | S count =>
      sys OpenSocket;;
      clientSocket ← next sockets set_sockets;
      match clientSocket with
      | None => HandleError;; connect_loop count connectPollFDs blockCount
      | Some clientSocket =>
          sys (SetMode clientSocket 0);;
          sys (Connect clientSocket);;
          result ← next connects set_connects;
          match result with
          | WouldBlock => connect_loop count (connectPollFDs ++ [(clientSocket, POLLOUT)]) (blockCount ⊕ 1)%cpp
          | ConnectError => HandleError;; connect_loop count connectPollFDs blockCount
          | Connected =>
              insert_session clientSocket;;
              modify (λ w, set_current (mCurrentClientCount (poller w) ⊕ 1)%cpp w);;
              connect_loop count connectPollFDs blockCount
          end
      end
  end.

(** The last loop of [ConnectClients], over the entries. *)
Fixpoint connected_loop (l : list (Z * Z)) : M World unit :=
  match l with
  | [] => mret tt
  | (fd, revents) :: l =>
      (if has revents POLLOUT then
         err ← getsockopt fd;
         if err =? 0 then
           modify (λ w, set_current (mCurrentClientCount (poller w) ⊕ 1)%cpp w);;
           insert_session fd
         else sys Print
       else mret tt);;
      connected_loop l
  end.

(** [for (; connectResult != blockCount && loopCount <= 5;)]. *)
Fixpoint poll_loop (fuel : nat) (connectPollFDs : list (Z * Z)) (blockCount connectResult loopCount : Z) : M World unit :=
  if negb (connectResult =? blockCount) && (loopCount <=? 5) then
    match fuel with
    | O => undefined
    | S fuel =>
        a ← WSAPoll connectPollFDs;
        match a with
        | PollError => HandleError;; poll_loop fuel connectPollFDs blockCount connectResult (loopCount + 1)
        | Ready revents =>
            if poll_result revents =? 0 then
              sys Print;; poll_loop fuel connectPollFDs blockCount connectResult (loopCount + 1)
            else
              connected_loop (zip connectPollFDs.*1 revents);;
              poll_loop fuel connectPollFDs blockCount (connectResult ⊕ poll_result revents)%cpp (loopCount + 1)
        end
    end
  else mret tt.

Definition ConnectClients : M World unit :=
  max ← gets (λ w, mMaxClientCount (poller w));
  '(connectPollFDs, blockCount) ← connect_loop (Z.to_nat max) [] 0;
  if blockCount =? 0 then mret tt
  else poll_loop 6 connectPollFDs blockCount 0 0.

(** [while (mIsRunning) Loop();], the reads of the flag being [readings]. *)
Definition Run_turn : M World (option unit) :=
  running ← next readings set_readings;
  if (running : bool) then Loop;; mret None else mret (Some tt).

Definition Run : M World unit :=
  ConnectClients;;
  sys Print;;
  same ← gets (λ w, mCurrentClientCount (poller w) =? Z.of_nat (size (clients w)));
  assert_ same;;
  turns ← gets (λ w, S (length (readings w)));
  forever turns Run_turn;;
  Clear.
End Methods.

(** ** What one round should do *)

(** What happens to one client in a round. *)
Record Event := mkEvent {
  revents : Z;
  got : option RecvAnswer;
  took : option WritevAnswer;
  so_error : Z
}.

(** The system answers [recv] and [send] exactly when it announced them, within
    what it was offered. *)
Definition legal_event (s : Session) (e : Event) : Prop :=
  match got e with
  | Some a => has (revents e) POLLRDNORM = true ∧ legal_recv a (mRecvBuffer s)
  | None => has (revents e) POLLRDNORM = false
  end ∧
  match took e with
  | Some a => has (revents e) POLLWRNORM = true ∧ legal_send a (mSendBuffer s)
  | None => has (revents e) POLLWRNORM = false
  end.

Definition got_data (e : Event) : bool := match got e with Some a => is_data a | None => true end.
Definition took_data (e : Event) : bool := match took e with Some a => is_sent a | None => true end.
Definition failed (e : Event) : bool := has (revents e) POLLERR.
Definition healthy (e : Event) : bool := negb (failed e) && (took_data e && got_data e).

(** How often the client's socket is closed. *)
Definition closes (e : Event) : Z :=
  (if got_data e then 0 else 1) +
  match took e with Some (SendError _) => 1 | _ => 0 end +
  (if failed e then 1 else 0).

Definition error_of (e : Event) : option Z := if failed e then Some (so_error e) else None.

(** The session of the socket [fd]. *)
Definition session_ok (fd : Z) (s : Session) : Prop :=
  mSocket s = fd ∧ RecvBuffer.wf (mRecvBuffer s) ∧ RecvBuffer.wf (mSendBuffer s).

Definition closing (fd : Z) (c : ClientCall) : bool := bool_decide (c = CloseSocket fd).
Definition closings (fd : Z) (w : World) : Z := countb (closing fd) (client_calls (env w)).

(** ** Facts *)

Lemma next_run {A} (get : World → list A) set w a l :
  get w = a :: l → next get set w = Some (a, set l w).
Proof. intros H. unfold next. by rewrite gets_bind, H. Qed.

Lemma sys_bind {A} c (f : unit → M World A) w : (sys c ≫= f) w = f tt (set_env (log [c] (env w)) w).
Proof. done. Qed.

Lemma getsockopt_run fd err errs w :
  so_errors w = err :: errs →
  getsockopt fd w = Some (err, set_so_errors errs (set_env (log [GetSockOpt fd] (env w)) w)).
Proof. intros H. unfold getsockopt. rewrite sys_bind. by apply next_run. Qed.

(** The assertions of a release build. *)
Lemma assert_bind {A} b (f : unit → M World A) w : (assert_ true b ≫= f) w = f tt w.
Proof. done. Qed.

Lemma omap_option_list {A B} (f : A → option B) x l : omap f (x :: l) = option_list (f x) ++ omap f l.
Proof. cbn. by destruct (f x). Qed.

(** Takes the next answer, which [H] gives. *)
Ltac take_next H :=
  match goal with |- context [(next ?g ?s ≫= ?f) ?x] => rewrite (bind_eq _ f x _ _ (next_run g s x _ _ H)) end.

Lemma on_entry_run {A} fd (m : M StressSession.World A) w s a sw :
  clients w !! fd = Some s → m (StressSession.mkWorld s (env w)) = Some (a, sw) →
  on_entry fd m w = Some (a, set_env (thread sw) (set_clients (<[fd := session sw]> (clients w)) w)).
Proof. intros Hs Hm. unfold on_entry. by rewrite Hs; cbn; rewrite Hm. Qed.

Lemma closings_calls fd w w' cs :
  client_calls (env w') = client_calls (env w) ++ cs →
  closings fd w' = closings fd w + countb (closing fd) cs.
Proof. intros Hc. unfold closings. by rewrite Hc, countb_app. Qed.

Lemma closing_eq fd fd' : closing fd' (CloseSocket fd) = bool_decide (fd' = fd).
Proof. unfold closing. apply bool_decide_ext. split; congruence. Qed.

Lemma countb_recv_calls fd a (w : StressSession.World) :
  countb (closing fd) (recv_calls a w) =
    if decide (fd = mSocket (session w)) then (if is_data a then 0 else 1) else 0.
Proof.
  destruct a; unfold recv_calls; cbn [countb is_data]; rewrite ?closing_eq; unfold closing.
  all: repeat case_bool_decide; case_decide; simplify_eq; lia.
Qed.

Lemma countb_send_calls fd a (w : StressSession.World) :
  countb (closing fd) (send_calls a w) =
    if decide (fd = mSocket (session w)) then match a with SendError _ => 1 | _ => 0 end else 0.
Proof.
  destruct a as [n|]; unfold send_calls; [destruct (n =? 0)|]; cbn [countb]; rewrite ?closing_eq; unfold closing.
  all: repeat case_bool_decide; case_decide; simplify_eq; lia.
Qed.

(** The part of the state a client's turn leaves alone. *)
Record same_frame (w w' : World) : Prop := {
  sf_polls : polls w' = polls w;
  sf_sockets : sockets w' = sockets w;
  sf_connects : connects w' = connects w;
  sf_readings : readings w' = readings w;
  sf_running : mIsRunning (poller w') = mIsRunning (poller w);
  sf_current : mCurrentClientCount (poller w') = mCurrentClientCount (poller w);
  sf_calls : client_calls (env w) `prefix_of` client_calls (env w')
}.

#[export] Instance same_frame_preorder : PreOrder same_frame.
Proof.
  split; [by split|]. intros w1 w2 w3 [H1 H2 H3 H4 H5 H6 H7] [H1' H2' H3' H4' H5' H6' H7'].
  split; [congruence..|by etrans].
Qed.

(** What a method of one session does to the whole. *)
Record stepped (fd : Z) (s' : Session) (n : Z) (w w' : World) : Prop := {
  st_frame : same_frame w w';
  st_clients : clients w' = <[fd := s']> (clients w);
  st_live : live w' = live w;
  st_errors : so_errors w' = so_errors w;
  st_closings : ∀ fd', closings fd' w' = closings fd' w + (if decide (fd' = fd) then n else 0)
}.

Section Facts.
Context (header_memory packet_memory : list Byte).
Hypothesis (Hheader : length header_memory = 4%nat) (Hpacket : length packet_memory = 8%nat).

Lemma recv_step fd s e rs w :
  clients w !! fd = Some s → session_ok fd s → legal_event s e →
  recvs (env w) = option_list (got e) ++ rs →
  ∃ s' w', (if has (revents e) POLLRDNORM then
      r ← on_entry fd (DoRecv true header_memory packet_memory);
      modify (λ w, set_counts (i64 (sRECV_COUNT w + 1)) (sSEND_COUNT w) w);;
      mret r else mret true) w = Some (got_data e, w') ∧
    session_ok fd s' ∧ RingBuffer.GetDIrectReadSize (mSendBuffer s) ≤ RingBuffer.GetDIrectReadSize (mSendBuffer s') ∧
    recvs (env w') = rs ∧ sends (env w') = sends (env w) ∧
    stepped fd s' (if got_data e then 0 else 1) w w'.
Proof.
  intros Hs [Hfd [Hr Hsb]] [Hg _] Hrecvs. unfold got_data in *. destruct (got e) as [a|].
  - destruct Hg as [-> Ha].
    destruct (DoRecv_outcome true header_memory packet_memory Hheader Hpacket a rs
      (StressSession.mkWorld s (env w)) eq_refl (conj Hr Hsb) Hrecvs Ha) as (sw & Hrun & [[? ?] _ Hm Hrs Hss Hc Hgr]).
    rewrite (bind_eq _ _ _ _ _ (on_entry_run fd _ w s _ _ Hs Hrun)), modify_bind.
    exists (session sw). eexists. split; [done|]. split; [split; [by rewrite Hm|done]|].
    split; [done|]. split; [done|]. split; [done|].
    split; [split; [done..|by eexists]|done|done|done|].
    intros fd'. etrans; [by apply (closings_calls fd' w); exact Hc|]. rewrite countb_recv_calls. cbn [session mSocket].
    by rewrite Hfd.
  - rewrite Hg. exists s, w. split; [done|]. split; [done|]. split; [done|]. split; [done|]. split; [done|].
    split; [done|by rewrite insert_id|done|done|]. intros fd'. case_decide; lia.
Qed.

Lemma send_step fd s e ss w :
  clients w !! fd = Some s → session_ok fd s →
  match took e with
  | Some a => has (revents e) POLLWRNORM = true ∧ legal_send a (mSendBuffer s)
  | None => has (revents e) POLLWRNORM = false
  end →
  sends (env w) = option_list (took e) ++ ss →
  ∃ s' w', (if has (revents e) POLLWRNORM then
      r ← on_entry fd DoSend;
      modify (λ w, set_counts (sRECV_COUNT w) (i64 (sSEND_COUNT w + 1)) w);;
      mret r else mret true) w = Some (took_data e, w') ∧
    session_ok fd s' ∧ recvs (env w') = recvs (env w) ∧ sends (env w') = ss ∧
    stepped fd s' (match took e with Some (SendError _) => 1 | _ => 0 end) w w'.
Proof.
  intros Hs [Hfd [Hr Hsb]] Hg Hsends. unfold took_data in *. destruct (took e) as [a|].
  - destruct Hg as [-> Ha].
    destruct (DoSend_outcome a ss (StressSession.mkWorld s (env w)) (conj Hr Hsb) Hsends Ha)
      as (sw & Hrun & [[? ?] Hm Hrs Hss Hc]).
    rewrite (bind_eq _ _ _ _ _ (on_entry_run fd _ w s _ _ Hs Hrun)), modify_bind.
    exists (session sw). eexists. split; [done|]. split; [split; [by rewrite Hm|done]|].
    split; [done|]. split; [done|].
    split; [split; [done..|by eexists]|done|done|done|].
    intros fd'. etrans; [by apply (closings_calls fd' w); exact Hc|]. rewrite countb_send_calls. cbn [session mSocket].
    by rewrite Hfd.
  - rewrite Hg. exists s, w. split; [done|]. split; [done|]. split; [done|]. split; [done|].
    split; [done|by rewrite insert_id|done|done|]. intros fd'. case_decide; lia.
Qed.

(** What one client's turn leaves. *)
Record served (fd : Z) (e : Event) (rs : list RecvAnswer) (ss : list WritevAnswer) (errs : list Z) (w w' : World) : Prop := {
  sv_frame : same_frame w w';
  sv_clients : ∃ s', session_ok fd s' ∧
    clients w' = if healthy e then <[fd := s']> (clients w) else delete fd (clients w);
  sv_live : live w' = live w - (if healthy e then 0 else 1);
  sv_recvs : recvs (env w') = rs;
  sv_sends : sends (env w') = ss;
  sv_errors : so_errors w' = errs;
  sv_closings : ∀ fd', closings fd' w' = closings fd' w + (if decide (fd' = fd) then closes e else 0)
}.

Lemma delete_session_run fd s w :
  clients w !! fd = Some s →
  ∃ w', delete_session fd w = Some (tt, w') ∧ clients w' = delete fd (clients w) ∧ live w' = live w - 1 ∧
    env w' = env w ∧ so_errors w' = so_errors w ∧ same_frame w w'.
Proof.
  intros Hs. unfold delete_session.
  rewrite (bind_eq _ _ _ _ _ (on_entry_run fd Session_destroy w s tt
    (StressSession.mkWorld (mkSession (mSocket s) (RingBuffer.Reset (mRecvBuffer s)) (RingBuffer.Reset (mSendBuffer s))) (env w))
    Hs eq_refl)).
  eexists. split; [done|]. split; [apply delete_insert_eq|]. by repeat split.
Qed.

Lemma client_served fd s e rs ss errs w :
  clients w !! fd = Some s → session_ok fd s → legal_event s e →
  recvs (env w) = option_list (got e) ++ rs → sends (env w) = option_list (took e) ++ ss →
  so_errors w = option_list (error_of e) ++ errs →
  ∃ w', Loop_client true header_memory packet_memory (fd, revents e) w = Some (tt, w') ∧ served fd e rs ss errs w w'.
Proof.
  intros Hs Hok Hlegal Hrecvs Hsends Herrs.
  destruct (recv_step fd s e rs w Hs Hok Hlegal Hrecvs) as (s1 & w1 & Hrun1 & Hok1 & Hgr & Hr1 & Hs1 & [F1 C1 L1 E1 K1]).
  assert (match took e with
    | Some a => has (revents e) POLLWRNORM = true ∧ legal_send a (mSendBuffer s1)
    | None => has (revents e) POLLWRNORM = false end) as Hlegal1.
  { destruct Hlegal as [_ Hl]. destruct (took e) as [a|]; [|done]. destruct Hl as [? [? Hl]].
    split; [done|]. split; [lia|]. destruct a; [lia|done]. }
  assert (clients w1 !! fd = Some s1) as Hl1 by (rewrite C1; apply lookup_insert_eq).
  destruct (send_step fd s1 e ss w1 Hl1 Hok1 Hlegal1) as (s2 & w2 & Hrun2 & Hok2 & Hr2 & Hs2 & [F2 C2 L2 E2 K2]);
    [by rewrite Hs1|].
  unfold Loop_client. rewrite gets_bind. rewrite assert_bind.
  rewrite (bind_eq _ _ _ _ _ Hrun1), (bind_eq _ _ _ _ _ Hrun2).
  assert (clients w2 !! fd = Some s2) as Hl2 by (rewrite C2; apply lookup_insert_eq).
  assert (clients w2 = <[fd := s2]> (clients w)) as C12 by (rewrite C2, C1; apply insert_insert_eq).
  assert (∀ fd', closings fd' w2 = closings fd' w + (if decide (fd' = fd) then closes e - (if failed e then 1 else 0) else 0)) as K12
    by (intros fd'; rewrite K2, K1; unfold closes; case_decide; lia).
  destruct (failed e) eqn:Hfail.
  - unfold error_of in Herrs. rewrite Hfail in Herrs. rewrite <- E1, <- E2 in Herrs.
    unfold failed in Hfail. rewrite Hfail, (bind_eq _ _ _ _ _ (getsockopt_run fd _ _ w2 Herrs)), !sys_bind.
    set (w3 := set_env _ _).
    destruct (delete_session_run fd s2 w3 Hl2) as (w' & Hrun & C' & L' & N' & E' & F').
    exists w'. split; [done|].
    assert (healthy e = false) as Hh by (unfold healthy, failed; by rewrite Hfail).
    split; rewrite ?Hh.
    + transitivity w1; [done|]. transitivity w2; [done|]. transitivity w3; [|done].
      split; [done..|]. cbn. rewrite <- !app_assoc. by eexists.
    + exists s2. split; [done|]. rewrite C'. change (clients w3) with (clients w2). rewrite C12. apply delete_insert_eq.
    + rewrite L'. change (live w3) with (live w2). lia.
    + rewrite N'. change (recvs (env w2) = rs). by rewrite Hr2.
    + rewrite N'. exact Hs2.
    + by rewrite E'.
    + intros fd'. rewrite (closings_calls fd' w2 w' [GetSockOpt fd; Print; CloseSocket fd])
        by (rewrite N'; cbn; by rewrite <- !app_assoc).
      rewrite K12. cbn [countb]. rewrite closing_eq. unfold closing.
      repeat case_bool_decide; case_decide; simplify_eq; lia.
  - assert (healthy e = took_data e && got_data e) as Hh by (unfold healthy; by rewrite Hfail).
    unfold error_of in Herrs. rewrite Hfail in Herrs. unfold failed in Hfail. rewrite Hfail.
    replace (negb (took_data e) || negb (got_data e)) with (negb (healthy e)) by (rewrite Hh; apply negb_andb).
    destruct (healthy e) eqn:Hhe; cbn [negb when].
    + exists w2. split; [done|]. split; rewrite ?Hhe; try done.
      * by transitivity w1.
      * by exists s2.
      * lia.
      * by rewrite Hr2.
      * by rewrite E2, E1, Herrs.
      * intros fd'. rewrite K12. case_decide; lia.
    + destruct (delete_session_run fd s2 w2 Hl2) as (w' & Hrun & C' & L' & N' & E' & F').
      exists w'. split; [done|]. split; rewrite ?Hhe.
      * transitivity w1; [done|]. by transitivity w2.
      * exists s2. split; [done|]. rewrite C', C12. apply delete_insert_eq.
      * lia.
      * by rewrite N', Hr2.
      * by rewrite N'.
      * by rewrite E', E2, E1, Herrs.
      * intros fd'. rewrite (closings_calls fd' w2 w' []) by (by rewrite N', app_nil_r).
        rewrite K12. cbn [countb]. case_decide; lia.
Qed.

(** What a round leaves, the clients [cs] having had the events [es]. *)
Record round_done (cs : list (Z * Session)) (es : list Event) (w w' : World) : Prop := {
  dn_frame : same_frame w w';
  dn_ok : map_Forall session_ok (clients w');
  dn_others : ∀ fd, fd ∉ cs.*1 → clients w' !! fd = clients w !! fd ∧ closings fd w' = closings fd w;
  dn_each : ∀ i fd s e, cs !! i = Some (fd, s) → es !! i = Some e →
    (is_Some (clients w' !! fd) ↔ healthy e = true) ∧ closings fd w' = closings fd w + closes e;
  dn_live : live w' - Z.of_nat (size (clients w')) = live w - Z.of_nat (size (clients w))
}.

Lemma served_size fd s e rs ss errs w w' :
  clients w !! fd = Some s → served fd e rs ss errs w w' →
  live w' - Z.of_nat (size (clients w')) = live w - Z.of_nat (size (clients w)).
Proof.
  intros Hs [_ (s' & _ & ->) -> _ _ _ _]. destruct (healthy e).
  - rewrite map_size_insert_Some by (by eexists). lia.
  - rewrite map_size_delete_Some by (by eexists).
    assert (size (clients w) ≠ 0%nat) by (eapply (map_size_ne_0_lookup_2 _ fd); by eexists). lia.
Qed.

Lemma clients_served cs es rs ss errs w :
  NoDup cs.*1 → Forall2 (λ c e, legal_event (snd c) e) cs es →
  (∀ fd s, (fd, s) ∈ cs → clients w !! fd = Some s) → map_Forall session_ok (clients w) →
  recvs (env w) = omap got es ++ rs → sends (env w) = omap took es ++ ss → so_errors w = omap error_of es ++ errs →
  ∃ w', Loop_clients true header_memory packet_memory (zip cs.*1 (revents <$> es)) w = Some (tt, w') ∧
    round_done cs es w w' ∧ recvs (env w') = rs ∧ sends (env w') = ss ∧ so_errors w' = errs.
Proof.
  intros Hnd Hl. revert w Hnd. induction Hl as [|[fd s] e cs es Hle Hl IH]; intros w Hnd Hin Hok Hr Hs He.
  - exists w. by split; [|split; [split|]].
  - cbn in Hnd. apply NoDup_cons in Hnd as [Hnew Hnd]. cbn [snd] in Hle.
    assert (clients w !! fd = Some s) as Hfd by (apply Hin; left).
    rewrite omap_option_list, <- app_assoc in Hr. rewrite omap_option_list, <- app_assoc in Hs.
    rewrite omap_option_list, <- app_assoc in He.
    destruct (client_served fd s e _ _ _ w Hfd (Hok fd s Hfd) Hle Hr Hs He) as (w1 & Hrun & Hsv).
    pose proof (served_size _ _ _ _ _ _ _ _ Hfd Hsv) as Hsize.
    destruct Hsv as [F1 (s1 & Hok1 & C1) L1 R1 S1 E1 K1].
    assert (∀ fd', fd' ≠ fd → clients w1 !! fd' = clients w !! fd') as Hother.
    { intros fd' Hne. rewrite C1. destruct (healthy e); [by rewrite lookup_insert_ne|by rewrite lookup_delete_ne]. }
    assert (is_Some (clients w1 !! fd) ↔ healthy e = true) as Hself.
    { rewrite C1. destruct (healthy e); [rewrite lookup_insert_eq|rewrite lookup_delete_eq]; by split. }
    destruct (IH w1 Hnd) as (w' & Hrun' & [F2 O2 N2 B2 L2] & R2 & S2 & E2).
    + intros fd' s' Hc. rewrite Hother; [apply Hin; by right|]. intros ->. apply Hnew.
      apply list_elem_of_fmap. by exists (fd, s').
    + intros fd' s' Hc. destruct (decide (fd' = fd)) as [->|Hne].
      * rewrite C1 in Hc. destruct (healthy e); [rewrite lookup_insert_eq in Hc; by simplify_eq|
          by rewrite lookup_delete_eq in Hc].
      * rewrite Hother in Hc by done. by apply Hok.
    + done.
    + done.
    + done.
    + exists w'. cbn [fmap list_fmap zip_with Loop_clients fst]. rewrite (bind_eq _ _ _ _ _ Hrun).
      split; [done|]. split; [|done]. split.
      * by transitivity w1.
      * done.
      * intros fd' Hn. apply not_elem_of_cons in Hn as [Hne Hn]. destruct (N2 fd' Hn) as [-> ->].
        rewrite Hother, K1, decide_False by done. split; [done|lia].
      * intros [|i] fd' s' e' Hc He'; cbn in Hc, He'; simplify_eq.
        -- destruct (N2 fd' Hnew) as [-> ->]. split; [done|]. by rewrite K1, decide_True.
        -- destruct (B2 i fd' s' e' Hc He') as [? ->]. split; [done|].
           rewrite K1, decide_False; [lia|]. intros ->. apply Hnew.
           apply list_elem_of_fmap. exists (fd, s'). split; [done|]. by eapply list_elem_of_lookup_2.
      * lia.
Qed.
End Facts.

Lemma WSAPoll_run fds rs ps w :
  polls w = Ready rs :: ps → length rs = length fds →
  WSAPoll fds w = Some (Ready rs, set_polls ps (set_env (log [StressSession.WSAPoll fds] (env w)) w)).
Proof.
  intros Hp Hl. unfold WSAPoll. rewrite sys_bind.
  take_next Hp.
  by rewrite bool_decide_true.
Qed.

(** ** Connecting *)

(** The sockets whose [connect] is done at once, and those it leaves pending. *)
Fixpoint with_answer (a : ConnectAnswer → bool) (socks : list (option Z)) (conns : list ConnectAnswer) : list Z :=
  match socks, conns with
  | Some fd :: socks, c :: conns => (if a c then [fd] else []) ++ with_answer a socks conns
  | None :: socks, conns => with_answer a socks conns
  | _, _ => []
  end.

Definition connected_of : list (option Z) → list ConnectAnswer → list Z :=
  with_answer (λ c, match c with Connected => true | _ => false end).
Definition pending_of : list (option Z) → list ConnectAnswer → list Z :=
  with_answer (λ c, match c with WouldBlock => true | _ => false end).

Lemma length_with_answer a socks conns : (length (with_answer a socks conns) ≤ length socks)%nat.
Proof.
  revert conns. induction socks as [|[fd|] socks IH]; intros [|c conns]; cbn [with_answer length]; try lia.
  - rewrite length_app. specialize (IH conns). destruct (a c); cbn [length]; lia.
  - specialize (IH []). lia.
  - specialize (IH (c :: conns)). lia.
Qed.

(** A session as its constructor leaves it: its first PING waits. *)
Definition fresh (fd : Z) (s : Session) : Prop :=
  mSocket s = fd ∧ ∃ t, ∀ th, in_flight t (StressSession.mkWorld s th).

(** [w'] is [w] after a new session was made for each of [fds], in turn. *)
Record joined (fds : list Z) (w w' : World) : Prop := {
  jn_dom : dom (clients w') = dom (clients w) ∪ list_to_set fds;
  jn_each : ∀ fd s, clients w' !! fd = Some s → clients w !! fd = Some s ∨ fd ∈ fds ∧ fresh fd s;
  jn_live : live w' = live w + Z.of_nat (length fds);
  jn_current : i32 (mCurrentClientCount (poller w)) = mCurrentClientCount (poller w) →
    mCurrentClientCount (poller w') = i32 (mCurrentClientCount (poller w) + Z.of_nat (length fds));
  jn_readings : readings w' = readings w
}.

Lemma joined_app l1 l2 w w1 w2 : joined l1 w w1 → joined l2 w1 w2 → joined (l1 ++ l2) w w2.
Proof.
  intros [D1 E1 L1 C1 R1] [D2 E2 L2 C2 R2]. split.
  - rewrite D2, D1. set_solver.
  - intros fd s Hs. destruct (E2 fd s Hs) as [Hs1|[? ?]]; [|right; set_solver].
    destruct (E1 fd s Hs1) as [?|[? ?]]; [by left|right; set_solver].
  - rewrite L2, L1, length_app. lia.
  - intros Hi. rewrite C2; rewrite C1 by done; [|apply i32_idemp]. rewrite i32_add_l, length_app. f_equal. lia.
  - congruence.
Qed.

Lemma joined_nil w w' :
  clients w' = clients w → live w' = live w → mCurrentClientCount (poller w') = mCurrentClientCount (poller w) →
  readings w' = readings w → joined [] w w'.
Proof.
  intros Hc Hl Hn Hr. split; [rewrite Hc; set_solver|by left; rewrite <- Hc|cbn; lia|
    intros Hi; by rewrite Hn, Z.add_0_r|done].
Qed.

(** *** What the polls say

    The entries of one call of [WSAPoll] reported writable, the number it
    returns, and over several calls: the sockets asked for their error, in order,
    and the sum of the numbers.  The answers to [getsockopt] come in that order;
    a socket is found connected at each answer that is 0. *)
Definition writable (l : list (Z * Z)) : list Z := (filter (λ e, has e.2 POLLOUT = true) l).*1.

Definition asked_by (fds : list Z) (a : PollAnswer) : list Z :=
  match a with PollError => [] | Ready revents => writable (zip fds revents) end.

Definition reported_by (a : PollAnswer) : Z :=
  match a with PollError => 0 | Ready revents => poll_result revents end.

Definition asked (fds : list Z) (answers : list PollAnswer) : list Z := mjoin (asked_by fds <$> answers).
Definition reported (answers : list PollAnswer) : Z := foldr Z.add 0 (reported_by <$> answers).

Definition without_error (fds errors : list Z) : list Z := (filter (λ e, e.2 = 0) (zip fds errors)).*1.

(** [k] is the number of polls, of at most [most], made until the number
    reported, [cr] at first, is [bc] as an [int]. *)
Record last_poll (most : nat) (cr bc : Z) (answers : list PollAnswer) (k : nat) : Prop := {
  lp_most : (k ≤ most)%nat;
  lp_before : ∀ j, (j < k)%nat → i32 (cr + reported (take j answers)) ≠ bc;
  lp_at : k = most ∨ i32 (cr + reported (take k answers)) = bc
}.

Lemma writable_cons fd r l :
  writable ((fd, r) :: l) = if has r POLLOUT then fd :: writable l else writable l.
Proof. unfold writable. rewrite filter_cons. cbn. by destruct (has r POLLOUT). Qed.

Lemma without_error_cons fd fds err errors :
  without_error (fd :: fds) (err :: errors) = (if err =? 0 then [fd] else []) ++ without_error fds errors.
Proof.
  unfold without_error. cbn [zip_with]. rewrite filter_cons. cbn.
  destruct (Z.eqb_spec err 0); [by rewrite decide_True|by rewrite decide_False].
Qed.

Lemma without_error_app fds1 fds2 errors :
  without_error (fds1 ++ fds2) errors =
    without_error fds1 errors ++ without_error fds2 (drop (length fds1) errors).
Proof.
  revert errors. induction fds1 as [|fd fds1 IH]; intros errors; [done|].
  destruct errors as [|err errors]; [by destruct fds2|].
  cbn [app length]. by rewrite !without_error_cons, IH, app_assoc.
Qed.

Lemma writable_length l : (length (writable l) ≤ length l)%nat.
Proof.
  induction l as [|[fd r] l IH]; [done|]. rewrite writable_cons. destruct (has r POLLOUT); cbn; lia.
Qed.

Lemma asked_by_length fds a : (length (asked_by fds a) ≤ length fds)%nat.
Proof.
  destruct a as [|rs]; cbn; [lia|]. pose proof (writable_length (zip fds rs)) as H.
  rewrite length_zip_with in H. etrans; [exact H|]. apply Nat.le_min_l.
Qed.

(** A [WSAPoll] that returns 0 reports nothing. *)
Lemma no_report_none_writable fds rs : poll_result rs = 0 → writable (zip fds rs) = [].
Proof.
  unfold poll_result. revert fds. induction rs as [|r rs IH]; intros [|fd fds] Hz; try done.
  cbn [countb] in Hz. pose proof (countb_nonneg (λ r, negb (r =? 0)) rs) as Hc.
  destruct (Z.eqb_spec r 0) as [->|Hr]; cbn in Hz; [|lia].
  cbn [zip_with]. rewrite writable_cons. change (has 0 POLLOUT) with false. apply IH. lia.
Qed.

Lemma asked_cons fds a answers : asked fds (a :: answers) = asked_by fds a ++ asked fds answers.
Proof. done. Qed.

Lemma last_poll_cons most cr bc a answers k :
  i32 cr = cr → cr ≠ bc → last_poll most (i32 (cr + reported_by a)) bc answers k →
  last_poll (S most) cr bc (a :: answers) (S k).
Proof.
  intros Hcr Hbc [Hm Hb Hat].
  assert (∀ j, i32 (cr + reported (take (S j) (a :: answers)))
             = i32 (i32 (cr + reported_by a) + reported (take j answers))) as Hsum.
  { intros j. rewrite i32_add_l. unfold reported. rewrite firstn_cons, fmap_cons. cbn [foldr]. f_equal. lia. }
  split; [lia| |destruct Hat as [-> |Hat]; [by left|right; by rewrite Hsum]].
  intros [|j] Hj; [cbn; by rewrite Z.add_0_r, Hcr|]. rewrite Hsum. apply Hb. lia.
Qed.

Section Connecting.
Context (memory : Session).

(** Making a session and counting it. *)
Lemma insert_session_run fd w :
  ∃ w', insert_session memory fd w = Some (tt, w') ∧ live w' = live w + 1 ∧
    dom (clients w') = dom (clients w) ∪ {[fd]} ∧
    (∀ fd' s, clients w' !! fd' = Some s → clients w !! fd' = Some s ∨ fd' = fd ∧ fresh fd s) ∧
    mCurrentClientCount (poller w') = mCurrentClientCount (poller w) ∧ readings w' = readings w ∧
    polls w' = polls w ∧ sockets w' = sockets w ∧ connects w' = connects w ∧ so_errors w' = so_errors w.
Proof.
  destruct (construct_pings fd (StressSession.mkWorld memory (env w))) as (sw & Hrun & Hin & Hfd & _).
  unfold insert_session.
  rewrite (bind_eq _ _ w (session sw, thread sw) w) by (by rewrite Hrun).
  eexists. split; [done|]. split; [done|]. split; [|split; [|by repeat split]].
  - cbn. destruct (clients w !! fd) eqn:Hl; cbn.
    + apply elem_of_dom_2 in Hl. clear - Hl. set_solver.
    + rewrite dom_insert_L. apply union_comm_L.
  - intros fd' s Hs. cbn in Hs. destruct (clients w !! fd) eqn:Hl; [by left|].
    apply lookup_insert_Some in Hs as [[<- <-]|[? ?]]; [|by left]. right. split; [done|]. split; [done|].
    eexists. intros th. destruct Hin as [? ? ? ?]. by split.
Qed.

Definition count_client : M World unit :=
  modify (λ w, set_current (mCurrentClientCount (poller w) ⊕ 1)%cpp w).

(** The two orders in which the code does it. *)
Lemma join_session fd w :
  ∃ w' w'', (∀ A (f : M World A), (insert_session memory fd;; count_client;; f) w = f w') ∧
    (∀ A (f : M World A), (count_client;; insert_session memory fd;; f) w = f w'') ∧
    joined [fd] w w' ∧ joined [fd] w w'' ∧
    (polls w' = polls w ∧ sockets w' = sockets w ∧ connects w' = connects w ∧ so_errors w' = so_errors w) ∧
    (polls w'' = polls w ∧ sockets w'' = sockets w ∧ connects w'' = connects w ∧ so_errors w'' = so_errors w).
Proof.
  set (n := i32 (mCurrentClientCount (poller w) + 1)).
  destruct (insert_session_run fd w) as (w1 & H1 & L1 & D1 & E1 & C1 & R1 & F1).
  destruct (insert_session_run fd (set_current n w)) as (w2 & H2 & L2 & D2 & E2 & C2 & R2 & F2).
  exists (set_current (i32 (mCurrentClientCount (poller w1) + 1)) w1), w2.
  split; [intros A f; by rewrite (bind_eq _ _ _ _ _ H1)|].
  split; [intros A f; unfold count_client; rewrite modify_bind; fold n; by rewrite (bind_eq _ _ _ _ _ H2)|].
  split; [|split; [|split; [exact F1|exact F2]]].
  - split; [|intros fd' s Hs; destruct (E1 fd' s Hs) as [?|[-> ?]]; [by left|right; by split; [left|]]| |
      intros _; cbn; by rewrite C1|done].
    + change (dom (clients w1) = dom (clients w) ∪ list_to_set [fd]). by rewrite D1, list_to_set_singleton_L.
    + cbn. lia.
  - split; [|intros fd' s Hs; destruct (E2 fd' s Hs) as [?|[-> ?]]; [by left|right; by split; [left|]]| |
      intros _; by rewrite C2|done].
    + by rewrite D2, list_to_set_singleton_L.
    + rewrite L2. done.
Qed.

Lemma connect_loop_run socks conns ss cs fds bc w :
  sockets w = socks ++ ss → connects w = conns ++ cs → length conns = length (omap id socks) →
  0 ≤ bc → bc + Z.of_nat (length socks) < 2147483648 →
  ∃ w', connect_loop memory (length socks) fds bc w =
      Some ((fds ++ ((λ fd, (fd, POLLOUT)) <$> pending_of socks conns), bc + Z.of_nat (length (pending_of socks conns))), w') ∧
    joined (connected_of socks conns) w w' ∧ sockets w' = ss ∧ connects w' = cs ∧
    polls w' = polls w ∧ so_errors w' = so_errors w.
Proof.
  revert conns fds bc w. induction socks as [|[fd|] socks IH]; intros conns fds bc w Hs Hc Hl Hbc Hb.
  - destruct conns; [|done]. exists w. cbn. rewrite app_nil_r, Z.add_0_r.
    split; [done|]. split; [by apply joined_nil|done].
  - destruct conns as [|c conns]; [done|]. cbn [length] in Hl, Hb. cbn [omap list_omap id length] in Hl.
    cbn [connect_loop length]. rewrite sys_bind.
    take_next Hs. rewrite !sys_bind. take_next Hc.
    match goal with |- context [match c with _ => _ end ?x] => set (w1 := x) end.
    assert (joined [] w w1) as J1 by (by apply joined_nil).
    destruct c.
    + destruct (join_session fd w1) as (w2 & _ & Hrun & _ & J2 & _ & (P2 & S2 & C2 & E2) & _).
      unfold count_client in Hrun. rewrite Hrun.
      destruct (IH conns fds bc w2) as (w' & Hrun' & J3 & S3 & C3 & P3 & E3); [by rewrite S2|by rewrite C2|lia..|].
      exists w'. split; [exact Hrun'|]. split; [|by rewrite S3, C3, P3, P2, E3, E2].
      apply (joined_app [] _ _ w1); [done|]. by apply (joined_app [fd] _ _ w2).
    + assert (i32 (bc + 1) = bc + 1) as -> by (apply i32_small; lia).
      destruct (IH conns (fds ++ [(fd, POLLOUT)]) (bc + 1) w1) as (w' & Hrun' & J3 & F3); [done|done|lia..|].
      exists w'. rewrite Hrun'. split; [|split; [by apply (joined_app [] _ _ w1)|exact F3]].
      do 2 f_equal. cbn [pending_of with_answer app fmap list_fmap length]. rewrite <- app_assoc.
      f_equal. unfold pending_of. lia.
    + unfold HandleError. rewrite sys_bind.
      destruct (IH conns fds bc (set_env (log [Print] (env w1)) w1)) as (w' & Hrun' & J3 & F3); [done|done|lia..|].
      exists w'. split; [exact Hrun'|]. split; [|exact F3].
      apply (joined_app [] _ _ (set_env (log [Print] (env w1)) w1)); [by apply joined_nil|done].
  - cbn [length] in Hb. cbn [connect_loop length]. rewrite sys_bind.
    take_next Hs. unfold HandleError. rewrite sys_bind.
    match goal with |- context [connect_loop _ _ _ _ ?x] => set (w1 := x) end.
    destruct (IH conns fds bc w1) as (w' & Hrun' & J3 & F3); [done|done|done|lia..|].
    exists w'. split; [exact Hrun'|]. split; [|exact F3].
    apply (joined_app [] _ _ w1); [by apply joined_nil|done].
Qed.

Lemma connected_loop_run l w :
  (length l ≤ length (so_errors w))%nat →
  ∃ w', connected_loop memory l w = Some (tt, w') ∧
    joined (without_error (writable l) (so_errors w)) w w' ∧ polls w' = polls w ∧
    so_errors w' = drop (length (writable l)) (so_errors w).
Proof.
  revert w. induction l as [|[fd r] l IH]; intros w Hlen.
  - exists w. split; [done|]. by split; [apply joined_nil|].
  - cbn [length] in Hlen. cbn [connected_loop]. rewrite writable_cons. destruct (has r POLLOUT).
    + destruct (so_errors w) as [|err errs] eqn:He; [cbn in Hlen; lia|]. cbn [length] in Hlen.
      assert (∃ w1, (err ← getsockopt fd;
          if err =? 0 then count_client;; insert_session memory fd else sys Print) w = Some (tt, w1) ∧
        joined (if err =? 0 then [fd] else []) w w1 ∧ polls w1 = polls w ∧ so_errors w1 = errs)
        as (w1 & Hrun1 & J1 & P1 & E1).
      { rewrite (bind_eq _ _ _ _ _ (getsockopt_run fd err errs w He)). set (w0 := set_so_errors _ _).
        assert (joined [] w w0) by (by apply joined_nil). destruct (err =? 0).
        - destruct (join_session fd w0) as (_ & w1 & _ & Hrun & _ & J & _ & (P & _ & _ & E)).
          exists w1. specialize (Hrun _ (mret tt)).
          split; [|split; [by apply (joined_app [] _ _ w0)|done]].
          etrans; [|exact Hrun]. unfold mbind, M_bind. destruct (count_client w0) as [[[] x]|]; [|done].
          by destruct (insert_session memory fd x) as [[[] y]|].
        - exists (set_env (log [Print] (env w0)) w0). split; [done|]. by split; [apply joined_nil|]. }
      unfold count_client in Hrun1. rewrite (bind_eq _ _ _ _ _ Hrun1).
      destruct (IH w1) as (w' & Hrun & J & P & E); [rewrite E1; lia|]. rewrite E1 in J, E.
      exists w'. split; [done|]. rewrite without_error_cons. split; [by apply (joined_app _ _ _ w1)|].
      by rewrite P, E.
    + by apply IH; lia.
Qed.

(** [WSAPoll] answers for as many entries as it was given. *)
Definition legal_poll (n : nat) (a : PollAnswer) : Prop :=
  match a with
  | PollError => True
  | Ready revents => length revents = n
  end.

Lemma poll_loop_run fuel fds bc cr w :
  (fuel ≤ 6)%nat → i32 cr = cr → Forall (legal_poll (length fds)) (polls w) → (fuel ≤ length (polls w))%nat →
  (fuel * length fds ≤ length (so_errors w))%nat →
  ∃ w' k, poll_loop memory fuel fds bc cr (6 - Z.of_nat fuel) w = Some (tt, w') ∧
    joined (without_error (asked fds.*1 (take k (polls w))) (so_errors w)) w w' ∧
    polls w' = drop k (polls w) ∧
    so_errors w' = drop (length (asked fds.*1 (take k (polls w)))) (so_errors w) ∧
    last_poll fuel cr bc (polls w) k.
Proof.
  revert cr w. induction fuel as [|fuel IH]; intros cr w Hf Hcr Hp Hn He.
  - exists w, 0%nat. split; [|split; [by apply joined_nil|split_and!; [done|done|split; [lia|lia|by left]]]].
    cbn [poll_loop]. rewrite (proj2 (Z.leb_gt _ _)) by lia. by rewrite andb_false_r.
  - cbn [poll_loop]. rewrite (proj2 (Z.leb_le (6 - Z.of_nat (S fuel)) 5)), andb_true_r by lia.
    destruct (Z.eqb_spec cr bc) as [Hbc|Hbc]; cbn [negb].
    { exists w, 0%nat. split; [done|]. split; [by apply joined_nil|]. split_and!; [done|done|].
      split; [lia|lia|]. right. cbn. by rewrite Z.add_0_r, Hcr. }
    destruct (polls w) as [|a ps] eqn:Hps; [cbn in Hn; lia|]. cbn [length] in Hn.
    apply Forall_cons in Hp as [Ha Hp].
    assert (6 - Z.of_nat (S fuel) + 1 = 6 - Z.of_nat fuel) as -> by lia.
    set (w0 := set_polls ps (set_env (log [StressSession.WSAPoll fds] (env w)) w)).
    assert (WSAPoll fds w = Some (a, w0)) as Hpoll.
    { destruct a as [|rs]; [unfold WSAPoll; rewrite sys_bind; by take_next Hps|by apply WSAPoll_run]. }
    rewrite (bind_eq _ _ _ _ _ Hpoll).
    assert (joined [] w w0) as J0 by (by apply joined_nil).
    (* the rest of the loop, from the state [w1] the answer [a] leads to *)
    assert (∀ w1, joined (without_error (asked_by fds.*1 a) (so_errors w)) w w1 → polls w1 = ps →
      so_errors w1 = drop (length (asked_by fds.*1 a)) (so_errors w) →
      ∃ w' k, poll_loop memory fuel fds bc (i32 (cr + reported_by a)) (6 - Z.of_nat fuel) w1 = Some (tt, w') ∧
        joined (without_error (asked fds.*1 (take k (a :: ps))) (so_errors w)) w w' ∧
        polls w' = drop k (a :: ps) ∧
        so_errors w' = drop (length (asked fds.*1 (take k (a :: ps)))) (so_errors w) ∧
        last_poll (S fuel) cr bc (a :: ps) k) as Hrest.
    { intros w1 J1 P1 E1. pose proof (asked_by_length fds.*1 a) as Hask. rewrite length_fmap in Hask.
      destruct (IH (i32 (cr + reported_by a)) w1) as (w' & k & Hrun & J & P & E & Hlast);
        [lia|apply i32_idemp|by rewrite P1|rewrite P1; lia|rewrite E1, length_drop; cbn in He; lia|].
      exists w', (S k). rewrite P1, E1 in *. split; [done|]. rewrite firstn_cons, asked_cons, without_error_app.
      split; [by apply (joined_app _ _ _ w1)|]. split; [done|].
      split; [by rewrite E, drop_drop, length_app|by apply last_poll_cons]. }
    destruct a as [|rs].
    + destruct (Hrest (set_env (log [Print] (env w0)) w0)) as (w' & k & Hrun & Hdone); [|done|done|].
      * by apply joined_nil.
      * exists w', k. cbn [reported_by] in Hrun. rewrite Z.add_0_r, Hcr in Hrun. done.
    + cbn [legal_poll] in Ha. cbn [reported_by asked_by] in Hrest.
      destruct (Z.eqb_spec (poll_result rs) 0) as [Hz|Hz].
      * rewrite (no_report_none_writable fds.*1 rs Hz), Hz, Z.add_0_r, Hcr in Hrest.
        destruct (Hrest (set_env (log [Print] (env w0)) w0)) as (w' & k & Hrun & Hdone); [|done|done|].
        -- by apply joined_nil.
        -- by exists w', k.
      * assert (length (zip fds.*1 rs) = length fds) as Hl by (rewrite length_zip_with_l_eq; rewrite length_fmap; done).
        destruct (connected_loop_run (zip fds.*1 rs) w0) as (w2 & Hrun2 & J2 & P2 & E2);
          [rewrite Hl; cbn; cbn in He; lia|].
        rewrite (bind_eq _ _ _ _ _ Hrun2).
        destruct (Hrest w2) as (w' & k & Hrun & Hdone); [by apply (joined_app [] _ _ w0)|done|done|].
        by exists w', k.
Qed.
End Connecting.

(** ** Properties *)

Section Properties.
Context (header_memory packet_memory : list Byte) (memory : Session).
Context (iteration : gmap Z Session → list (Z * Session)).
Hypothesis (Hheader : length header_memory = 4%nat) (Hpacket : length packet_memory = 8%nat).
Hypothesis (Hiteration : ∀ m, iteration m ≡ₚ map_to_list m).

Lemma iteration_lookup m fd s : (fd, s) ∈ iteration m ↔ m !! fd = Some s.
Proof. by rewrite Hiteration, elem_of_map_to_list. Qed.

Lemma iteration_NoDup m : NoDup (iteration m).*1.
Proof. rewrite Hiteration. apply NoDup_fst_map_to_list. Qed.

(** A round, with what it leaves of each client. *)
Lemma Loop_round es rs ss errs ps w :
  let cs := iteration (clients w) in
  map_Forall session_ok (clients w) → Forall2 (λ c e, legal_event (snd c) e) cs es →
  polls w = Ready (revents <$> es) :: ps →
  recvs (env w) = omap got es ++ rs → sends (env w) = omap took es ++ ss → so_errors w = omap error_of es ++ errs →
  ∃ w', Loop true header_memory packet_memory iteration w = Some (tt, w') ∧
    polls w' = ps ∧ recvs (env w') = rs ∧ sends (env w') = ss ∧ so_errors w' = errs ∧
    sockets w' = sockets w ∧ readings w' = readings w ∧
    client_calls (env w) ++ [StressSession.WSAPoll (pollFD <$> cs)] `prefix_of` client_calls (env w') ∧
    map_Forall session_ok (clients w') ∧
    (∀ i fd s e, cs !! i = Some (fd, s) → es !! i = Some e →
      (is_Some (clients w' !! fd) ↔ healthy e = true) ∧ closings fd w' = closings fd w + closes e) ∧
    (∀ fd, clients w !! fd = None → clients w' !! fd = None ∧ closings fd w' = closings fd w) ∧
    live w' - Z.of_nat (size (clients w')) = live w - Z.of_nat (size (clients w)).
Proof.
  intros cs Hok Hl Hp Hr Hs He. pose proof (Forall2_length _ _ _ Hl) as Hlen.
  unfold Loop. rewrite gets_bind. fold cs.
  assert (length (revents <$> es) = length (pollFD <$> cs)) as Hlen' by (rewrite !length_fmap; done).
  rewrite (bind_eq _ _ _ _ _ (WSAPoll_run _ _ ps w Hp Hlen')).
  set (w1 := set_polls _ _). rewrite assert_bind.
  assert ((pollFD <$> cs).*1 = cs.*1) as -> by (rewrite <- list_fmap_compose; done).
  destruct (clients_served header_memory packet_memory Hheader Hpacket cs es rs ss errs w1)
    as (w2 & Hrun & [F O N B L] & R & S & E); try done.
  - apply iteration_NoDup.
  - intros fd s Hc. by apply iteration_lookup.
  - rewrite (bind_eq _ _ _ _ _ Hrun). eexists. split; [done|].
    assert (∀ fd, closings fd w1 = closings fd w) as K1.
    { intros fd. rewrite (closings_calls fd w w1 _ eq_refl). cbn [countb]. unfold closing. case_bool_decide; [done|lia]. }
    assert (∀ fd, closings fd (set_env (log [Print] (env w2)) w2) = closings fd w2) as K2.
    { intros fd. rewrite (closings_calls fd w2 (set_env (log [Print] (env w2)) w2) [Print] eq_refl). cbn [countb]. unfold closing.
      case_bool_decide; [done|lia]. }
    split; [apply F|]. do 3 (split; [done|]). split; [apply F|]. split; [apply F|].
    split; [etrans; [exact (sf_calls _ _ F)|by apply prefix_app_r]|]. split; [done|].
    split; [|split].
    + intros i fd s e Hc He'. rewrite K2. destruct (B i fd s e Hc He') as [? ->]. by rewrite K1.
    + intros fd Hfd. rewrite K2. change (clients w2 !! fd = None ∧ closings fd w2 = closings fd w).
      rewrite <- K1. destruct (N fd) as [-> ->]; [|done].
      intros Hc. apply list_elem_of_fmap in Hc as ((fd', s) & -> & Hc). apply iteration_lookup in Hc.
      cbn in Hfd. congruence.
    + exact L.
Qed.

(** C24: one round of [Loop] over well-formed sessions, whatever the system
    reports of each and answers.  It asks for input on every client, and for output
    exactly on those with bytes to send; it returns; a client stays, with a
    well-formed session, exactly if its [recv] gave data, its [send] took some, and
    no error was reported; the others are deleted, each once.  The socket of a client
    is closed once for each of: a [recv] without data, a failed [send], a reported
    error; so a client whose [send] took 0 bytes is dropped with its socket open, and
    one with two failures is closed twice. *)
Theorem Loop_serves es rs ss errs ps w :
  let cs := iteration (clients w) in
  map_Forall session_ok (clients w) → Forall2 (λ c e, legal_event (snd c) e) cs es →
  polls w = Ready (revents <$> es) :: ps →
  recvs (env w) = omap got es ++ rs → sends (env w) = omap took es ++ ss → so_errors w = omap error_of es ++ errs →
  ∃ w', Loop true header_memory packet_memory iteration w = Some (tt, w') ∧
    polls w' = ps ∧ recvs (env w') = rs ∧ sends (env w') = ss ∧ so_errors w' = errs ∧
    map_Forall session_ok (clients w') ∧
    client_calls (env w) ++ [StressSession.WSAPoll (pollFD <$> cs)] `prefix_of` client_calls (env w') ∧
    (∀ i fd s e, cs !! i = Some (fd, s) → es !! i = Some e →
      (is_Some (clients w' !! fd) ↔ healthy e = true) ∧ closings fd w' = closings fd w + closes e) ∧
    (∀ fd, clients w !! fd = None → clients w' !! fd = None) ∧
    live w' - Z.of_nat (size (clients w')) = live w - Z.of_nat (size (clients w)).
Proof.
  intros cs Hok Hl Hp Hr Hs He.
  destruct (Loop_round es rs ss errs ps w Hok Hl Hp Hr Hs He)
    as (w' & Hrun & P & R & S & E & _ & _ & Hcalls & O & B & N & L).
  exists w'. do 7 (split; [done|]). split; [done|]. split; [|done]. intros fd Hfd. by apply N.
Qed.

(** C26: [ConnectClients] returns whatever the system answers to its calls, the fuel
    of [poll_loop] being enough, as long as [mMaxClientCount] fits [int].  It calls
    [WSAPoll] until the numbers returned add up to that of the pending sockets, six
    times at most and not at all with none pending; after each call it asks each
    entry with [POLLOUT] for its error, in order.  It makes a new session, with its
    first PING waiting, for each socket whose [connect] was done at once, and each
    time the error of a pending one was 0.  The counter and the number of sessions
    made grow by the number of times, but the table by the number of different
    sockets. *)
Theorem ConnectClients_returns socks conns ss cs w :
  sockets w = socks ++ ss → connects w = conns ++ cs → length conns = length (omap id socks) →
  mMaxClientCount (poller w) = Z.of_nat (length socks) → Z.of_nat (length socks) < 2147483648 →
  i32 (mCurrentClientCount (poller w)) = mCurrentClientCount (poller w) →
  Forall (legal_poll (length (pending_of socks conns))) (polls w) → (6 ≤ length (polls w))%nat →
  (6 * length socks ≤ length (so_errors w))%nat →
  ∃ w' k, ConnectClients memory w = Some (tt, w') ∧
    last_poll 6 0 (Z.of_nat (length (pending_of socks conns))) (polls w) k ∧ polls w' = drop k (polls w) ∧
    let asked := asked (pending_of socks conns) (take k (polls w)) in
    let joins := connected_of socks conns ++ without_error asked (so_errors w) in
    so_errors w' = drop (length asked) (so_errors w) ∧
    dom (clients w') = dom (clients w) ∪ list_to_set joins ∧
    (∀ fd s, clients w' !! fd = Some s → clients w !! fd = Some s ∨ fd ∈ joins ∧ fresh fd s) ∧
    live w' = live w + Z.of_nat (length joins) ∧
    mCurrentClientCount (poller w') = i32 (mCurrentClientCount (poller w) + Z.of_nat (length joins)).
Proof.
  clear Hheader Hpacket Hiteration. intros Hs Hc Hl Hmax Hmax' Hint Hpolls H6 Herrs. unfold ConnectClients. rewrite gets_bind, Hmax, Nat2Z.id.
  destruct (connect_loop_run memory socks conns ss cs [] 0 w Hs Hc Hl) as (w1 & Hrun & J1 & _ & _ & P1 & E1); [lia..|].
  rewrite (bind_eq _ _ _ _ _ Hrun). rewrite Z.add_0_l. cbn [app].
  pose proof (length_with_answer (λ c, match c with WouldBlock => true | _ => false end) socks conns) as Hpend.
  change (length (pending_of socks conns) ≤ length socks)%nat in Hpend.
  destruct (Z.eqb_spec (Z.of_nat (length (pending_of socks conns))) 0) as [Hz|Hz].
  - exists w1, 0%nat. destruct J1 as [D E L C R]. split; [done|]. split; [by split; [lia|lia|right]|].
    split; [by rewrite P1|]. cbn [asked take mjoin fmap list_fmap list_join without_error zip_with filter list_filter].
    rewrite app_nil_r. split_and!; [by rewrite E1|done|done|done|by apply C].
  - destruct (poll_loop_run memory 6 ((λ fd, (fd, POLLOUT)) <$> pending_of socks conns)
      (Z.of_nat (length (pending_of socks conns))) 0 w1) as (w' & k & Hrun' & J2 & P2 & E2 & Hlast).
    + done.
    + done.
    + by rewrite P1, length_fmap.
    + by rewrite P1.
    + rewrite E1, length_fmap. lia.
    + exists w', k. rewrite <- list_fmap_compose, list_fmap_id, P1, E1 in *.
      pose proof (joined_app _ _ _ _ _ J1 J2) as [D E L C R].
      split; [exact Hrun'|]. split; [done|]. split; [done|]. split; [done|]. split; [done|].
      split; [done|]. split; [done|by apply C].
Qed.

Lemma Clear_entries_run l w :
  NoDup l.*1 → INVALID_SOCKET ∉ l.*1 → (∀ fd s, (fd, s) ∈ l → is_Some (clients w !! fd)) →
  ∃ w', Clear_entries l w = Some (tt, w') ∧ dom (clients w') = dom (clients w) ∧
    live w' = live w - Z.of_nat (length l) ∧ same_frame w w' ∧
    ∀ fd, closings fd w' = closings fd w + (if decide (fd ∈ l.*1) then 1 else 0).
Proof.
  clear Hheader Hpacket. revert w. induction l as [|[fd s] l IH]; intros w Hnd Hinv Hin.
  - exists w. split; [done|]. split; [done|]. split; [cbn; lia|]. split; [done|]. intros fd.
    rewrite decide_False by (cbn; set_solver). lia.
  - cbn in Hnd, Hinv. apply NoDup_cons in Hnd as [Hnew Hnd]. cbn [Clear_entries].
    rewrite (proj2 (Z.eqb_neq _ _)) by (intros ->; set_solver).
    destruct (Hin fd s) as [s' Hs']; [left|].
    set (w1 := set_env (log [CloseSocket fd] (env w)) (set_live (live w - 1) (set_clients (<[fd :=
      mkSession (mSocket s') (RingBuffer.Reset (mRecvBuffer s')) (RingBuffer.Reset (mSendBuffer s'))]> (clients w)) w))).
    assert ((on_entry fd Session_destroy;; modify (λ w, set_live (live w - 1) w);; sys (CloseSocket fd)) w = Some (tt, w1)) as Hrun1.
    { by rewrite (bind_eq _ _ _ _ _ (on_entry_run fd Session_destroy w s' tt
        (StressSession.mkWorld (mkSession (mSocket s') (RingBuffer.Reset (mRecvBuffer s')) (RingBuffer.Reset (mSendBuffer s'))) (env w))
        Hs' eq_refl)). }
    assert (dom (clients w1) = dom (clients w)) as Hd1 by (cbn; apply dom_insert_lookup_L; by eexists).
    destruct (IH w1) as (w' & Hrun & D & L & F & K); [done|set_solver| |].
    { intros fd' s2 Hc. apply elem_of_dom. rewrite Hd1. apply elem_of_dom, (Hin fd' s2). by right. }
    exists w'. rewrite (bind_eq _ _ _ _ _ Hrun1). split; [done|]. split; [by rewrite D|].
    split; [rewrite L; cbn [length live w1 set_env set_live]; lia|].
    split; [transitivity w1; [by split; try done; eexists|done]|].
    intros fd'. rewrite K, (closings_calls fd' w w1 [CloseSocket fd] eq_refl). cbn [countb]. rewrite closing_eq. cbn [fmap list_fmap fst].
    case_bool_decide as Hfd; [subst fd'|].
    + rewrite decide_False by done. rewrite decide_True by (by left). lia.
    + destruct (decide (fd' ∈ l.*1)); [rewrite decide_True by (by right); lia|].
      rewrite decide_False; [lia|]. by apply not_elem_of_cons.
Qed.

(** [Clear] deletes every session left, once, closes the socket of each once
    and of no one else, and leaves the table empty. *)
Theorem Clear_closes_all w :
  clients w !! INVALID_SOCKET = None →
  ∃ w', Clear iteration w = Some (tt, w') ∧ clients w' = ∅ ∧ live w' = live w - Z.of_nat (size (clients w)) ∧
    ∀ fd, closings fd w' = closings fd w + (if decide (is_Some (clients w !! fd)) then 1 else 0).
Proof.
  clear Hheader Hpacket. intros Hinv. set (l := iteration (clients w)).
  assert (∀ fd, fd ∈ l.*1 ↔ is_Some (clients w !! fd)) as Hl.
  { intros fd. rewrite list_elem_of_fmap. split.
    - intros ([fd' s] & -> & Hc). apply iteration_lookup in Hc. by exists s.
    - intros [s Hs]. exists (fd, s). split; [done|]. by apply iteration_lookup. }
  destruct (Clear_entries_run l w) as (w' & Hrun & _ & L & F & K).
  - apply iteration_NoDup.
  - rewrite Hl, Hinv. by intros [? ?].
  - intros fd s Hc. apply iteration_lookup in Hc. by exists s.
  - unfold Clear. rewrite gets_bind. fold l. rewrite (bind_eq _ _ _ _ _ Hrun). eexists. split; [done|].
    split; [done|]. split.
    + change (live w' = live w - Z.of_nat (size (clients w))). rewrite L. do 2 f_equal.
      unfold l. by rewrite (Permutation_length (Hiteration _)), length_map_to_list.
    + intros fd. change (closings fd w' = closings fd w + (if decide (is_Some (clients w !! fd)) then 1 else 0)).
      rewrite K. apply Z.add_cancel_l. by apply decide_ext.
Qed.
End Properties.

(** *** Samples *)

Definition sample_session (fd : Z) : Session := mkSession fd (RingBuffer.Reset sample_memory) (RingBuffer.Reset sample_memory).

Definition sample_thread (rs : list RecvAnswer) (ss : list WritevAnswer) : Thread := mkThread 0 sample_clock rs ss [].

(** [max] clients to connect. *)
Definition sample_start (max : Z) (socks : list (option Z)) (conns : list ConnectAnswer) (ps : list PollAnswer) : World :=
  mkWorld (mkPollThread true max 0 0 ∅) (sample_thread [] []) 0 0 0 ps socks conns (replicate 20 0) [].

(** Of two pending clients the first is reported connected, then both, as
    [WSAPoll] does for a socket that stays writable.  The number of reports passes
    that of the pending clients without meeting it, the six polls are used up, and
    the two clients are counted eleven times, with eleven sessions made, nine of them
    lost; the assertion of [Run] would fail. *)
Theorem ConnectClients_counts_twice :
  ∃ w', ConnectClients (sample_session 0)
      (sample_start 2 [Some 5; Some 6] [WouldBlock; WouldBlock]
        (Ready [POLLOUT; 0] :: replicate 5 (Ready [POLLOUT; POLLOUT]))) = Some (tt, w') ∧
    mCurrentClientCount (poller w') = 11 ∧ live w' = 11 ∧ size (clients w') = 2%nat.
Proof.
  assert ((λ '(_, w), (mCurrentClientCount (poller w), live w, size (clients w))) <$>
    ConnectClients (sample_session 0) (sample_start 2 [Some 5; Some 6] [WouldBlock; WouldBlock]
      (Ready [POLLOUT; 0] :: replicate 5 (Ready [POLLOUT; POLLOUT]))) = Some (11, 11, 2%nat)) as Hv by (by vm_compute).
  apply fmap_Some in Hv as ([[] w'] & Hrun & Heq). injection Heq as H1 H2 H3.
  exists w'. split; [exact Hrun|]. split; [exact (eq_sym H1)|]. split; [exact (eq_sym H2)|exact (eq_sym H3)].
Qed.

(** *** Witnesses *)

Lemma sample_session_ok fd : session_ok fd (sample_session fd).
Proof. split; [done|]. exact (sample_buffers_wf [] []). Qed.

Lemma ConnectClients_returns_witness :
  ∃ w', ConnectClients (sample_session 0)
      (sample_start 3 [Some 5; None; Some 6] [Connected; WouldBlock]
        (Ready [0] :: PollError :: replicate 6 (Ready [POLLOUT]))) = Some (tt, w') ∧
    polls w' = replicate 5 (Ready [POLLOUT]) ∧ dom (clients w') = {[5; 6]} ∧ live w' = 2.
Proof.
  destruct (ConnectClients_returns (sample_session 0) [Some 5; None; Some 6] [Connected; WouldBlock] [] []
    (sample_start 3 [Some 5; None; Some 6] [Connected; WouldBlock]
      (Ready [0] :: PollError :: replicate 6 (Ready [POLLOUT]))))
    as (w' & k & Hrun & Hk & P & _ & D & _ & L & _).
  - done.
  - done.
  - done.
  - done.
  - done.
  - done.
  - by repeat constructor.
  - cbn. lia.
  - cbn. lia.
  - assert (k = 3%nat) as ->.
    { destruct Hk as [Hm Hb Hat]. do 3 (destruct k as [|k]; [by destruct Hat as [Hat|Hat]|]).
      destruct k as [|k]; [done|]. by destruct (Hb 3%nat); [lia|]. }
    exists w'. split; [done|]. split; [done|]. split; [rewrite D; by vm_compute|by rewrite L].
Defined.

Definition sample_round : World :=
  mkWorld (mkPollThread true 2 2 0 {[5 := sample_session 5; 6 := sample_session 6]})
    (sample_thread [RecvData (ping 95); RecvClosed] []) 0 0 2
    [Ready [POLLRDNORM; Z.lor POLLRDNORM POLLERR]] [] [] [0] [].

Definition sample_events : list Event :=
  [mkEvent POLLRDNORM (Some (RecvData (ping 95))) None 0; mkEvent (Z.lor POLLRDNORM POLLERR) (Some RecvClosed) None 0].

Lemma Loop_serves_witness :
  ∃ w', Loop true (replicate 4 0) (replicate 8 0) map_to_list sample_round = Some (tt, w') ∧
    is_Some (clients w' !! 5) ∧ closings 6 w' = 2 ∧ live w' - Z.of_nat (size (clients w')) = 0.
Proof.
  assert (map_to_list (clients sample_round) = [(5, sample_session 5); (6, sample_session 6)]) as Hl by reflexivity.
  destruct (Loop_serves (replicate 4 0) (replicate 8 0) map_to_list eq_refl eq_refl (λ m, reflexivity _)
    sample_events [] [] [] [] sample_round) as (w' & Hrun & _ & _ & _ & _ & _ & _ & Heach & _ & Hlive).
  - intros fd s Hs. apply elem_of_map_to_list in Hs. rewrite Hl in Hs.
    apply elem_of_cons in Hs as [Hs|Hs]; [injection Hs as -> ->; apply sample_session_ok|].
    apply list_elem_of_singleton in Hs. injection Hs as -> ->. apply sample_session_ok.
  - rewrite Hl. repeat constructor; by vm_compute.
  - done.
  - done.
  - done.
  - done.
  - exists w'. split; [done|]. rewrite Hl in Heach.
    destruct (Heach 0%nat 5 _ _ eq_refl eq_refl) as [H5 _]. destruct (Heach 1%nat 6 _ _ eq_refl eq_refl) as [_ H6].
    split; [by apply H5|]. split; [by rewrite H6|]. by rewrite Hlive.
Defined.

Lemma Clear_closes_all_witness :
  ∃ w', Clear map_to_list sample_round = Some (tt, w') ∧ clients w' = ∅ ∧ live w' = 0 ∧ closings 6 w' = 1.
Proof.
  destruct (Clear_closes_all map_to_list (λ m, reflexivity _) sample_round eq_refl) as (w' & Hrun & Hc & Hl & Hk).
  exists w'. split; [done|]. split; [done|]. split; [by rewrite Hl|by rewrite Hk].
Defined.
End PollThread.
