(* ===== verification/StressClient.v ===== *)
(** * The stress client's program (exe-StressTest, main.cpp and PollThread::PollThreadFunction)

    [main] starts WinSock, makes a [PollThread] of 500 clients, sleeps, stops it,
    and waits for it in its destructor.  The theorem follows a whole run of the
    client: connecting, any number of rounds, clearing. *)

From S2P Require Import Prelude System RecvBuffer RingBuffer StressSession PollThread.

Module StressClient.
Import StressSession PollThread.

(** [MAKEWORD(2, 2)] and the arguments of [main]. *)
Definition maxClientCount : Z := 500.
Definition sleep_time : Z := 30000.

Section Program.
Context (ndebug : bool) (header_memory packet_memory : list Byte).
Context (memory : Session) (iteration : gmap Z Session → list (Z * Session)).

(** The entry point of the thread; [arg] is the [PollThread]. *)
Definition PollThreadFunction : M World Z :=
  Run ndebug header_memory packet_memory memory iteration;; mret 0.

(** [startup] is the result of [WSAStartup], [raw] what [mThreadHandle] holds before
    [Create], [handle] the handle of the thread.  The thread runs between its
    creation and the end of the wait in the destructor, and shares with [main] only
    [mIsRunning], whose values at its reads are [readings]; so its work stands where
    [main] waits for it. *)
Definition main (startup raw handle : Z) : M World Z :=
  sys Startup;;
  if negb (startup =? 0) then sys Print;; mret 1
  else
    PollThread_construct ndebug maxClientCount raw;;
    Create handle;;
    sys (Sleep sleep_time);;
    Stop;;
    PollThreadFunction;;
    PollThread_destroy;;
    sys Cleanup;;
    mret 0.
End Program.

(** ** Computations that close no socket and ask the network for nothing *)

Definition harmless {A} (m : M World A) : Prop := ∀ w a w', m w = Some (a, w') →
  recvs (env w') = recvs (env w) ∧ sends (env w') = sends (env w) ∧ ∀ fd, closings fd w' = closings fd w.

Lemma harmless_bind {A B} (m : M World A) (f : A → M World B) :
  harmless m → (∀ a, harmless (f a)) → harmless (m ≫= f).
Proof.
  intros Hm Hf w b w' (a & w1 & H1 & H2)%bind_inv.
  apply Hm in H1 as (R1 & S1 & K1). apply Hf in H2 as (R2 & S2 & K2).
  rewrite R2, R1, S2, S1. split_and!; [done..|]. intros fd. by rewrite K2, K1.
Qed.

Lemma harmless_env {A} (m : M World A) : (∀ w a w', m w = Some (a, w') → env w' = env w) → harmless m.
Proof. intros Hm w a w' H. unfold closings. by rewrite (Hm _ _ _ H). Qed.

Lemma harmless_sys c : (∀ fd, closing fd c = false) → harmless (sys c).
Proof.
  intros Hc w a w' [= <- <-]. split_and!; [done..|]. intros fd.
  rewrite (closings_calls fd w _ [c]) by done. cbn [countb]. rewrite Hc. lia.
Qed.

Lemma harmless_next {A} (get : World → list A) set : (∀ l w, env (set l w) = env w) → harmless (next get set).
Proof. intros Hset. apply harmless_env. intros w a w'. unfold next. run. destruct (get w); [done|]. by intros [= <- <-]. Qed.

Lemma harmless_insert memory fd : harmless (insert_session memory fd).
Proof.
  intros w a w'. destruct (construct_pings fd (StressSession.mkWorld memory (env w))) as (sw & Hrun & _ & _ & Ht).
  unfold insert_session. rewrite (bind_eq _ _ w (session sw, thread sw) w) by (by rewrite Hrun).
  intros [= <- <-]. unfold closings. cbn. by rewrite Ht.
Qed.

Ltac harmlessly :=
  repeat first
    [ apply harmless_insert | by apply harmless_next | by apply harmless_sys; intros ?; apply bool_decide_false
    | apply harmless_bind; [|intros ?] | by apply harmless_env; intros ??? [= <- <-] | case_match ].

Lemma harmless_connect_loop memory count fds bc : harmless (connect_loop memory count fds bc).
Proof. revert fds bc. induction count as [|count IH]; intros fds bc; cbn [connect_loop]; unfold HandleError; harmlessly; apply IH. Qed.

(** ** Connecting *)

Lemma fresh_ok fd s : fresh fd s → session_ok fd s.
Proof.
  intros (Hfd & t & Hin). destruct (Hin (mkThread 0 (λ _, 0) [] [] [])) as [[Hf Hr] Hwf _ _]. cbn in *.
  split; [done|]. split; [|done]. unfold RingBuffer.mFront, RingBuffer.mRear in *.
  unfold RecvBuffer.wf. by rewrite Hf, Hr.
Qed.

Lemma ConnectClients_at_once memory socks conns ss cs w :
  sockets w = socks ++ ss → connects w = conns ++ cs → length conns = length (omap id socks) →
  mMaxClientCount (poller w) = Z.of_nat (length socks) → Z.of_nat (length socks) < 2147483648 →
  pending_of socks conns = [] →
  ∃ w', ConnectClients memory w = Some (tt, w') ∧ joined (connected_of socks conns) w w' ∧
    polls w' = polls w ∧ so_errors w' = so_errors w ∧ recvs (env w') = recvs (env w) ∧ sends (env w') = sends (env w) ∧
    ∀ fd, closings fd w' = closings fd w.
Proof.
  intros Hs Hc Hl Hmax Hmax' Hpend. unfold ConnectClients. rewrite gets_bind, Hmax, Nat2Z.id.
  destruct (connect_loop_run memory socks conns ss cs [] 0 w Hs Hc Hl) as (w1 & Hrun & J & _ & _ & P & E); [lia..|].
  pose proof (harmless_connect_loop _ _ _ _ _ _ _ Hrun) as Hnet.
  rewrite (bind_eq _ _ _ _ _ Hrun), Hpend. by exists w1.
Qed.

(** [main] up to the start of the thread's work, and up to its first round. *)
Definition preparing (raw handle : Z) : M World unit :=
  sys Startup;;
  PollThread_construct true maxClientCount raw;;
  Create handle;;
  sys (Sleep sleep_time);;
  Stop.

Definition connecting (memory : Session) (raw handle : Z) : M World unit :=
  preparing raw handle;; ConnectClients memory;; sys Print.

(** The world in which the thread starts. *)
Definition begun (raw handle : Z) (w : World) : World :=
  match preparing raw handle w with Some (_, w') => w' | None => w end.

Lemma closings_begun fd raw handle w : closings fd (begun raw handle w) = closings fd w.
Proof.
  assert (client_calls (env (begun raw handle w)) =
    (((client_calls (env w) ++ [Startup]) ++ [BeginThread]) ++ [Print]) ++ [Sleep sleep_time]) as Hcalls by reflexivity.
  rewrite <- !app_assoc in Hcalls. rewrite (closings_calls fd w (begun raw handle w) _ Hcalls).
  cbn [countb app]. unfold closing. repeat case_bool_decide; done || lia.
Qed.

Lemma begun_same raw handle w :
  clients (begun raw handle w) = ∅ ∧ mMaxClientCount (poller (begun raw handle w)) = maxClientCount ∧
  sockets (begun raw handle w) = sockets w ∧ connects (begun raw handle w) = connects w ∧
  readings (begun raw handle w) = readings w ∧ polls (begun raw handle w) = polls w ∧
  recvs (env (begun raw handle w)) = recvs (env w) ∧ sends (env (begun raw handle w)) = sends (env w) ∧
  so_errors (begun raw handle w) = so_errors w ∧ live (begun raw handle w) = live w.
Proof. by split_and!. Qed.

Lemma connecting_begun memory raw handle w :
  connecting memory raw handle w = (ConnectClients memory;; sys Print) (begun raw handle w).
Proof. unfold connecting. by generalize (ConnectClients memory;; sys Print). Qed.

(** ** A run *)

(** What happens in a round: [WSAPoll] fails, or each client has its event. *)
Definition Round : Type := option (list Event).

Definition polled (r : Round) : PollAnswer := match r with None => PollError | Some es => Ready (revents <$> es) end.
Definition events (rounds : list Round) : list Event := rounds ≫= default [].

Section Rounds.
Context (header_memory packet_memory : list Byte) (iteration : gmap Z Session → list (Z * Session)).
Hypothesis (Hheader : length header_memory = 4%nat) (Hpacket : length packet_memory = 8%nat).
Hypothesis (Hiteration : ∀ m, iteration m ≡ₚ map_to_list m).

Abbreviation Loop := (Loop true header_memory packet_memory iteration).

(** In every round the system answers what it can answer to the sessions there are. *)
Fixpoint fits (rounds : list Round) (w : World) : Prop :=
  match rounds with
  | [] => True
  | r :: rounds =>
      match r with
      | Some es => Forall2 (λ c e, legal_event (snd c) e) (iteration (clients w)) es
      | None => True
      end ∧ ∀ w', Run_turn true header_memory packet_memory iteration w = Some (None, w') → fits rounds w'
  end.

(** An event that closes the socket exactly if it drops the client. *)
Definition tidy (e : Event) : Prop := closes e = if healthy e then 0 else 1.

(** How often a socket is closed, once more if it is still to be closed. *)
Definition due (fd : Z) (w : World) : Z := closings fd w + (if decide (is_Some (clients w !! fd)) then 1 else 0).

(** What the rounds keep. *)
Record kept (es : list Event) (w w' : World) : Prop := {
  kp_ok : map_Forall session_ok (clients w');
  kp_dom : ∀ fd, clients w !! fd = None → clients w' !! fd = None;
  kp_live : live w' - Z.of_nat (size (clients w')) = live w - Z.of_nat (size (clients w));
  kp_due : Forall tidy es → ∀ fd, due fd w' = due fd w
}.

Lemma kept_trans es es' w1 w2 w3 : kept es w1 w2 → kept es' w2 w3 → kept (es ++ es') w1 w3.
Proof.
  intros [O1 D1 L1 U1] [O2 D2 L2 U2]. split; [done|by auto|by rewrite L2|].
  intros [H1 H2]%Forall_app fd. by rewrite U2, U1.
Qed.

(** One round, whatever it is. *)
Lemma one_round r rs ss errs ps w :
  map_Forall session_ok (clients w) →
  match r with Some es => Forall2 (λ c e, legal_event (snd c) e) (iteration (clients w)) es | None => True end →
  polls w = polled r :: ps → recvs (env w) = omap got (default [] r) ++ rs →
  sends (env w) = omap took (default [] r) ++ ss → so_errors w = omap error_of (default [] r) ++ errs →
  ∃ w', Loop w = Some (tt, w') ∧ polls w' = ps ∧ recvs (env w') = rs ∧ sends (env w') = ss ∧ so_errors w' = errs ∧
    readings w' = readings w ∧ kept (default [] r) w w'.
Proof.
  intros Hok Hl Hp Hr Hs He. destruct r as [es|]; cbn [default polled] in *.
  - destruct (Loop_round header_memory packet_memory iteration Hheader Hpacket Hiteration es rs ss errs ps w Hok Hl Hp Hr Hs He)
      as (w' & Hrun & P & R & S & E & _ & Hread & _ & O & B & N & L).
    exists w'. do 6 (split; [done|]). split; [done|by apply N|done|]. intros Htidy fd. unfold due.
    destruct (clients w !! fd) as [s|] eqn:Hfd.
    + assert ((fd, s) ∈ iteration (clients w)) as Hin by (by rewrite Hiteration, elem_of_map_to_list).
      apply list_elem_of_lookup in Hin as [i Hi]. destruct (Forall2_lookup_l _ _ _ _ _ Hl Hi) as (e & He' & _).
      destruct (B i fd s e Hi He') as [Hstays ->]. rewrite (decide_True (P := is_Some (Some s))) by done.
      assert (tidy e) as -> by (by eapply (proj1 (Forall_lookup _ _) Htidy)).
      destruct (healthy e); [rewrite decide_True by (by apply Hstays); lia|rewrite decide_False; [lia|]].
      intros Hx. by apply Hstays in Hx.
    + destruct (N fd Hfd) as [-> ->]. done.
  - set (fds := pollFD <$> iteration (clients w)).
    set (w1 := set_polls ps (set_env (log [StressSession.WSAPoll fds] (env w)) w)).
    assert (WSAPoll fds w = Some (PollError, w1)) as Hpoll by (unfold WSAPoll; rewrite sys_bind; by take_next Hp).
    set (w2 := set_env (log [Print] (env w1)) w1). exists w2. split; [|do 5 (split; [done|])].
    + unfold PollThread.Loop. rewrite gets_bind. fold fds. by rewrite (bind_eq _ _ _ _ _ Hpoll).
    + split; [done..|]. intros _ fd. unfold due. change (clients w2) with (clients w).
      rewrite (closings_calls fd w w2 [StressSession.WSAPoll fds; Print]) by (cbn; by rewrite <- app_assoc).
      cbn [countb]. unfold closing. repeat case_bool_decide; done || lia.
Qed.

Lemma rounds_run rounds k rs ss errs ps w :
  map_Forall session_ok (clients w) → fits rounds w →
  readings w = replicate (length rounds) true ++ [false] → polls w = (polled <$> rounds) ++ ps →
  recvs (env w) = omap got (events rounds) ++ rs → sends (env w) = omap took (events rounds) ++ ss →
  so_errors w = omap error_of (events rounds) ++ errs →
  ∃ w', forever (length rounds + S k) (Run_turn true header_memory packet_memory iteration) w = Some (tt, w') ∧
    kept (events rounds) w w'.
Proof.
  revert w. induction rounds as [|r rounds IH]; intros w Hok Hfits Hread Hp Hr Hs He.
  - cbn in Hread. exists (set_readings [] w). split; [|by split].
    apply forever_stop. unfold Run_turn. by take_next Hread.
  - destruct Hfits as [Hr0 Hfits]. cbn [length replicate app] in Hread.
    assert (∀ A (f : Event → option A), omap f (events (r :: rounds)) = omap f (default [] r) ++ omap f (events rounds)) as Hev
      by (intros A f; unfold events; by rewrite bind_cons, omap_app).
    rewrite Hev, <- app_assoc in Hr, Hs, He.
    set (w0 := set_readings (replicate (length rounds) true ++ [false]) w).
    destruct (one_round r _ _ _ _ w0 Hok Hr0 Hp Hr Hs He)
      as (w1 & Hrun & P & R & S & E & Hread1 & K1).
    assert (Run_turn true header_memory packet_memory iteration w = Some (None, w1)) as Hturn
      by (unfold Run_turn; take_next Hread; by rewrite (bind_eq _ _ _ _ _ Hrun)).
    destruct (IH w1) as (w' & Hrun' & K2); try done; [apply K1|by apply Hfits|].
    exists w'. cbn [length Nat.add]. split; [by rewrite (forever_again _ _ _ _ Hturn)|].
    unfold events. rewrite bind_cons. apply (kept_trans _ _ _ w1); [|exact K2]. by destruct K1; split.
Qed.

(** The thread's work, from the world [w0] in which it starts: the sessions it makes
    are those of the sockets connected, and what it leaves. *)
Lemma Run_clears memory socks conns ss cs rounds rs sends' errs ps w0 :
  let fds := connected_of socks conns in
  clients w0 = ∅ → mMaxClientCount (poller w0) = Z.of_nat (length socks) → Z.of_nat (length socks) < 2147483648 →
  length conns = length (omap id socks) → sockets w0 = socks ++ ss → connects w0 = conns ++ cs →
  pending_of socks conns = [] → NoDup fds → INVALID_SOCKET ∉ fds →
  readings w0 = replicate (length rounds) true ++ [false] → polls w0 = (polled <$> rounds) ++ ps →
  recvs (env w0) = omap got (events rounds) ++ rs → sends (env w0) = omap took (events rounds) ++ sends' →
  so_errors w0 = omap error_of (events rounds) ++ errs →
  (∀ w1, (ConnectClients memory;; sys Print) w0 = Some (tt, w1) → fits rounds w1) →
  ∃ w', Run true header_memory packet_memory memory iteration w0 = Some (tt, w') ∧
    clients w' = ∅ ∧ live w' = live w0 ∧
    (Forall tidy (events rounds) → ∀ fd, closings fd w' = closings fd w0 + (if decide (fd ∈ fds) then 1 else 0)).
Proof.
  intros fds Hempty0 Hmax Hmax' Hl Hs Hc Hpend Hnd Hinv Hread Hp Hr Hsd He Hfits.
  destruct (ConnectClients_at_once memory socks conns ss cs w0 Hs Hc Hl Hmax Hmax' Hpend)
    as (w1 & Hrun & [Dom Each Live _ Read] & P1 & E1 & R1 & S1 & K1). fold fds in Dom, Each, Live.
  rewrite Hempty0 in Dom, Each. rewrite dom_empty_L, union_empty_l_L in Dom.
  set (w2 := set_env (log [Print] (env w1)) w1).
  assert (∀ fd, closings fd w2 = closings fd w0) as K2.
  { intros fd. rewrite (closings_calls fd w1 w2 [Print] eq_refl), K1.
    cbn [countb]. unfold closing. case_bool_decide; done || lia. }
  assert (∀ fd, is_Some (clients w2 !! fd) ↔ fd ∈ fds) as Hin.
  { intros fd. change (clients w2) with (clients w1). rewrite <- elem_of_dom, Dom. apply elem_of_list_to_set. }
  destruct (rounds_run rounds 1 rs sends' errs ps w2) as (w3 & Hrounds & [Hok Hdom Hlive Hdue]);
    [| |by (etrans; [exact Read|])|by (etrans; [exact P1|])|by (etrans; [exact R1|])|by (etrans; [exact S1|])|
     by (etrans; [exact E1|])|].
  { intros fd s Hfd. destruct (Each fd s Hfd) as [Hx|[_ Hf]]; [by rewrite lookup_empty in Hx|by apply fresh_ok]. }
  { apply Hfits. by rewrite (bind_eq _ _ _ _ _ Hrun). }
  destruct (Clear_closes_all iteration Hiteration w3) as (w4 & Hclear & Hempty & Hlive4 & K4).
  { apply Hdom, eq_None_not_Some. by rewrite Hin. }
  exists w4. split; [|split; [done|split]].
  - unfold Run. rewrite (bind_eq _ _ _ _ _ Hrun), sys_bind, gets_bind, assert_bind, gets_bind. fold w2.
    assert (readings w2 = replicate (length rounds) true ++ [false]) as -> by (etrans; [exact Read|done]).
    replace (S (length (replicate (length rounds) true ++ [false]))) with (length rounds + 2)%nat
      by (rewrite length_app, length_replicate; cbn; lia).
    by rewrite (bind_eq _ _ _ _ _ Hrounds).
  - assert (size (clients w2) = length fds) as Hsize.
    { change (clients w2) with (clients w1). rewrite <- size_dom, Dom. by apply size_list_to_set. }
    change (live w2) with (live w1) in Hlive. lia.
  - intros Htidy fd. rewrite K4. change (due fd w3 = closings fd w0 + (if decide (fd ∈ fds) then 1 else 0)).
    rewrite (Hdue Htidy fd). unfold due. rewrite K2. f_equal. apply decide_ext, Hin.
Qed.

(** [main] is the thread's work between that and the end. *)
Lemma main_begun memory raw handle w :
  main true header_memory packet_memory memory iteration 0 raw handle w =
    (PollThreadFunction true header_memory packet_memory memory iteration;; PollThread_destroy;; sys Cleanup;; mret 0)
      (begun raw handle w).
Proof. unfold main. by generalize (PollThreadFunction true header_memory packet_memory memory iteration). Qed.

(** C25: a whole run of the stress client, over blocking sockets as it makes them
    ([connect] is done at once or fails), whatever happens in the rounds until it
    is stopped: [main] returns 0; every session that was made has been deleted, once,
    and the table is empty; and if no client has two failures in a round or a [send]
    of 0 bytes, every socket that was connected has been closed once and no other
    one, those of which [connect] failed staying open.  If WinSock does not start,
    [main] returns 1 and has made nothing. *)
Theorem main_clears memory raw handle socks conns ss cs rounds rs sends' errs ps w :
  let started := connecting memory raw handle in
  length socks = Z.to_nat maxClientCount → length conns = length (omap id socks) →
  sockets w = socks ++ ss → connects w = conns ++ cs →
  pending_of socks conns = [] → NoDup (connected_of socks conns) → INVALID_SOCKET ∉ connected_of socks conns →
  readings w = replicate (length rounds) true ++ [false] → polls w = (polled <$> rounds) ++ ps →
  recvs (env w) = omap got (events rounds) ++ rs → sends (env w) = omap took (events rounds) ++ sends' →
  so_errors w = omap error_of (events rounds) ++ errs →
  (∀ w1, started w = Some (tt, w1) → fits rounds w1) →
  (∃ w', main true header_memory packet_memory memory iteration 0 raw handle w = Some (0, w') ∧
     clients w' = ∅ ∧ live w' = live w ∧
     (Forall tidy (events rounds) →
        ∀ fd, closings fd w' = closings fd w + (if decide (fd ∈ connected_of socks conns) then 1 else 0))) ∧
  ∀ startup, startup ≠ 0 → ∃ w',
    main true header_memory packet_memory memory iteration startup raw handle w = Some (1, w') ∧ poller w' = poller w.
Proof.
  intros started Hlen Hl Hs Hc Hpend Hnd Hinv Hread Hp Hr Hsd He Hfits. split.
  - destruct (begun_same raw handle w) as (B1 & B2 & B3 & B4 & B5 & B6 & B7 & B8 & B9 & B10).
    destruct (Run_clears memory socks conns ss cs rounds rs sends' errs ps (begun raw handle w))
      as (w' & Hrun & Hempty & Hlive & K); [congruence| | |congruence..| |].
    { rewrite B2, Hlen. unfold maxClientCount. lia. }
    { rewrite Hlen. unfold maxClientCount. lia. }
    { intros w1 Hw1. apply Hfits. unfold started. by rewrite connecting_begun. }
    set (w1 := set_env (log [WaitThread (mThreadHandle (poller w'))] (env w')) w').
    set (w2 := set_env (log [Cleanup] (env w1)) w1). exists w2.
    split; [|split; [exact Hempty|split; [etrans; [exact Hlive|exact B10]|]]].
    + rewrite main_begun.
      assert (PollThreadFunction true header_memory packet_memory memory iteration (begun raw handle w) = Some (0, w')) as Hthread
        by (unfold PollThreadFunction; by rewrite (bind_eq _ _ _ _ _ Hrun)).
      by rewrite (bind_eq _ _ _ _ _ Hthread).
    + intros Htidy fd. rewrite (closings_calls fd w1 w2 [Cleanup] eq_refl), (closings_calls fd w' w1 [_] eq_refl).
      rewrite (K Htidy), closings_begun. cbn [countb]. unfold closing. repeat case_bool_decide; done || lia.
  - intros startup Hn. unfold main. rewrite sys_bind, (proj2 (Z.eqb_neq _ _) Hn). by eexists.
Qed.
End Rounds.

(** *** Witness *)

(** Of 500 clients one is connected and one is refused; in the first round the one
    sends its PING, in the second [WSAPoll] fails. *)
Definition sample_sockets : list (option Z) := Some 5 :: Some 6 :: replicate 498 None.
Definition sample_rounds : list Round := [Some [mkEvent POLLWRNORM None (Some (Sent 12)) 0]; None].
Definition sample_world : World :=
  mkWorld (mkPollThread false 0 0 0 ∅) (sample_thread [] [Sent 12]) 0 0 0 (polled <$> sample_rounds) sample_sockets
    [Connected; ConnectError] [] [true; true; false].

Lemma fresh_readable fd s : fresh fd s → RingBuffer.GetDIrectReadSize (mSendBuffer s) = 12.
Proof.
  intros (_ & t & Hin). destruct (Hin (mkThread 0 (λ _, 0) [] [] [])) as [_ Hwf Hf Hc].
  change (RecvBuffer.wf (mSendBuffer s)) in Hwf. change (RingBuffer.mFront (mSendBuffer s) = 0) in Hf.
  assert (RingBuffer.GetUsedSize (mSendBuffer s) = 12) as <-.
  { etrans; [exact (RecvBuffer.used_eq (mSendBuffer s) Hwf)|]. etrans; [exact (f_equal (λ l, Z.of_nat (length l)) Hc)|]. by rewrite length_ping. }
  unfold RingBuffer.GetDIrectReadSize, RingBuffer.GetUsedSize. rewrite Hf.
  by rewrite (proj2 (Z.leb_le _ _)) by apply Hwf.
Qed.

Lemma sample_fits w1 :
  connecting (sample_session 0) 0 1 sample_world = Some (tt, w1) →
  fits (replicate 4 0) (replicate 8 0) map_to_list sample_rounds w1.
Proof.
  rewrite connecting_begun. set (w0 := begun 0 1 sample_world). intros ([] & w2 & Hrun & Hprint)%bind_inv.
  injection Hprint as <-.
  destruct (ConnectClients_at_once (sample_session 0) sample_sockets [Connected; ConnectError] [] [] w0)
    as (w' & Hrun' & [Dom Each _ _ _] & _); [by rewrite app_nil_r|done|by vm_compute..|].
  rewrite Hrun in Hrun'. injection Hrun' as <-.
  assert (dom (clients w2) = {[5]}) as Hdom by (rewrite Dom; set_solver).
  apply dom_singleton_inv_L in Hdom as [s Hs]. split; [|by split].
  change (clients (set_env _ w2)) with (clients w2). rewrite Hs, map_to_list_singleton. constructor; [|constructor].
  destruct (Each 5 s) as [Hx|[_ Hfresh]]; [rewrite Hs; apply lookup_insert_eq| |].
  { change (clients w0) with (∅ : gmap Z Session) in Hx. by rewrite lookup_empty in Hx. }
  split; [done|]. cbn [took]. split; [done|]. unfold legal_send. cbn [snd]. rewrite (fresh_readable _ _ Hfresh). lia.
Qed.

Lemma sample_connected : connected_of sample_sockets [Connected; ConnectError] = [5].
Proof. by vm_compute. Qed.

Lemma main_clears_witness :
  ∃ w', main true (replicate 4 0) (replicate 8 0) (sample_session 0) map_to_list 0 0 1 sample_world = Some (0, w') ∧
    clients w' = ∅ ∧ live w' = 0 ∧ closings 5 w' = 1 ∧ closings 6 w' = 0.
Proof.
  destruct (main_clears (replicate 4 0) (replicate 8 0) map_to_list eq_refl eq_refl (λ m, reflexivity _)
    (sample_session 0) 0 1 sample_sockets [Connected; ConnectError] [] [] sample_rounds [] [] [] [] sample_world)
    as [(w' & Hrun & Hempty & Hlive & K) _].
  - by vm_compute.
  - by vm_compute.
  - by rewrite app_nil_r.
  - reflexivity.
  - by vm_compute.
  - rewrite sample_connected. apply NoDup_singleton.
  - rewrite sample_connected. by intros ?%list_elem_of_singleton.
  - reflexivity.
  - reflexivity.
  - reflexivity.
  - reflexivity.
  - reflexivity.
  - apply sample_fits.
  - assert (Forall tidy (events sample_rounds)) as Htidy by (by repeat constructor).
    rewrite sample_connected in K. exists w'. split; [exact Hrun|]. split; [exact Hempty|]. split; [exact Hlive|].
    split; rewrite (K Htidy); reflexivity.
Defined.
End StressClient.
