(* ===== verification/Input.v ===== *)
(** * The keyboard of the game (exe-game, Base/Input.{hpp,cpp})

    [game::Input]: a state for each of the 256 key codes, changed by [KeyDown] and
    [KeyUp] and aged once a frame by [PostUpdate].  What the states mean is said
    over the sequence of the calls made. *)

From S2P Require Import Prelude.

Module Input.

Inductive eKeyState := NONE | DOWN | PRESS | UP.

#[export] Instance eKeyState_eq_dec : EqDecision eKeyState.
Proof. solve_decision. Defined.

(** [eKeyState mKeyStates[256]]. *)
Record Input := mkInput { mKeyStates : list eKeyState }.

Definition KEYS : nat := 256.

(** [unsigned char keyCode] as an index: never out of bounds. *)
Definition index (keyCode : Z) : nat := Z.to_nat (u8 keyCode).

Definition key (i : nat) (x : Input) : eKeyState := default NONE (mKeyStates x !! i).
Definition set_key (i : nat) (s : eKeyState) (x : Input) : Input := mkInput (<[i := s]> (mKeyStates x)).

(** The constructor, on the array [raw]. *)
Definition Input_construct (raw : Input) : Input := foldl (λ x i, set_key i NONE x) raw (seq 0 KEYS).

Definition KeyDown (keyCode : Z) (x : Input) : Input :=
  match key (index keyCode) x with
  | DOWN => set_key (index keyCode) PRESS x
  | PRESS => x
  | _ => set_key (index keyCode) DOWN x
  end.

Definition KeyUp (keyCode : Z) (x : Input) : Input := set_key (index keyCode) UP x.

Definition GetKeyState (keyCode : Z) (x : Input) : eKeyState := key (index keyCode) x.

(** The body of the loop of [PostUpdate]. *)
Definition age (x : Input) (i : nat) : Input :=
  if decide (key i x = UP) then set_key i NONE x
  else if decide (key i x = DOWN) then set_key i PRESS x
  else x.

Definition PostUpdate (x : Input) : Input := foldl age x (seq 0 KEYS).

(** ** The calls, and what the states mean *)

Inductive op := OpDown (keyCode : Z) | OpUp (keyCode : Z) | OpFrame.

Definition exec (x : Input) (o : op) : Input :=
  match o with
  | OpDown k => KeyDown k x
  | OpUp k => KeyUp k x
  | OpFrame => PostUpdate x
  end.

(** The call is about the key. *)
Definition about (k : Z) (o : op) : bool :=
  match o with
  | OpDown k' | OpUp k' => bool_decide (u8 k' = u8 k)
  | OpFrame => false
  end.

(** There is a call, after the calls [os1], such that [P], and only calls such that
    [Q] after it. *)
Definition latest (P : list op → op → Prop) (Q : op → Prop) (os : list op) : Prop :=
  ∃ os1 o os2, os = os1 ++ o :: os2 ∧ P os1 o ∧ Forall Q os2.

Definition is_down (k : Z) (o : op) : Prop := ∃ k', o = OpDown k' ∧ u8 k' = u8 k.
Definition is_up (k : Z) (o : op) : Prop := ∃ k', o = OpUp k' ∧ u8 k' = u8 k.

(** The key is held: the last call about it is a press. *)
Definition held (k : Z) : list op → Prop := latest (λ _, is_down k) (λ o, about k o = false).

(** The last call about the key is a release, made in this frame. *)
Definition released (k : Z) : list op → Prop := latest (λ _, is_up k) (λ o, about k o = false ∧ o ≠ OpFrame).

(** The last call about the key is a press, made in this frame on a key that was
    not held. *)
Definition pressed (k : Z) : list op → Prop :=
  latest (λ os1 o, is_down k o ∧ ¬ held k os1) (λ o, about k o = false ∧ o ≠ OpFrame).

(** ** Facts *)

Definition wf (x : Input) : Prop := length (mKeyStates x) = KEYS.

Lemma index_bound k : (index k < KEYS)%nat.
Proof. unfold index, u8, uwrap, KEYS. pose proof (Z.mod_pos_bound k (2 ^ 8)). lia. Qed.

Lemma index_eq k k' : index k = index k' ↔ u8 k = u8 k'.
Proof.
  unfold index. split; [|congruence]. unfold u8, uwrap.
  pose proof (Z.mod_pos_bound k (2 ^ 8)). pose proof (Z.mod_pos_bound k' (2 ^ 8)). lia.
Qed.

Lemma set_key_wf i s x : wf x → wf (set_key i s x).
Proof. unfold wf. cbn. by rewrite length_insert. Qed.

Lemma key_set i j s x : wf x → (j < KEYS)%nat → key i (set_key j s x) = if decide (i = j) then s else key i x.
Proof.
  intros Hwf Hj. unfold key. cbn. case_decide as Hij.
  - subst i. by rewrite list_lookup_insert_eq by (rewrite Hwf; done).
  - by rewrite list_lookup_insert_ne.
Qed.

Definition aged (s : eKeyState) : eKeyState :=
  match s with
  | UP => NONE
  | DOWN => PRESS
  | s => s
  end.

Lemma age_eq x i : age x i = set_key i (aged (key i x)) x ∨ age x i = x ∧ aged (key i x) = key i x.
Proof. unfold age. destruct (key i x) eqn:He; cbn; auto. Qed.

Lemma age_key x i j : wf x → (i < KEYS)%nat → wf (age x i) ∧ key j (age x i) = if decide (j = i) then aged (key j x) else key j x.
Proof.
  intros Hwf Hi. destruct (age_eq x i) as [->|[-> He]].
  - split; [by apply set_key_wf|]. rewrite key_set by done. case_decide; by subst.
  - split; [done|]. case_decide; by subst.
Qed.

Lemma foldl_keys (f : Input → nat → Input) (g : eKeyState → eKeyState) n x :
  (∀ x i j, wf x → (i < KEYS)%nat →
    wf (f x i) ∧ key j (f x i) = if decide (j = i) then g (key j x) else key j x) →
  wf x → (n ≤ KEYS)%nat →
  wf (foldl f x (seq 0 n)) ∧
  ∀ j, key j (foldl f x (seq 0 n)) = if decide (j < n)%nat then g (key j x) else key j x.
Proof.
  intros Hf Hwf Hn. induction n as [|n IH]; [by split|].
  rewrite seq_S, foldl_app, Nat.add_0_l. cbn [foldl]. destruct IH as [Hwf' Hkey]; [lia|].
  destruct (Hf (foldl f x (seq 0 n)) n 0%nat Hwf') as [Hw _]; [lia|]. split; [done|].
  intros j. destruct (Hf (foldl f x (seq 0 n)) n j Hwf') as [_ ->]; [lia|]. rewrite Hkey.
  repeat case_decide; try done; lia.
Qed.

Lemma PostUpdate_key x j : wf x → (j < KEYS)%nat → wf (PostUpdate x) ∧ key j (PostUpdate x) = aged (key j x).
Proof.
  intros Hwf Hj. destruct (foldl_keys age aged KEYS x) as [Hw Hk]; [intros; by apply age_key|done|done|].
  split; [done|]. unfold PostUpdate. by rewrite Hk, decide_True.
Qed.

Lemma construct_key raw j : wf raw → (j < KEYS)%nat → wf (Input_construct raw) ∧ key j (Input_construct raw) = NONE.
Proof.
  intros Hwf Hj. destruct (foldl_keys (λ x i, set_key i NONE x) (λ _, NONE) KEYS raw) as [Hw Hk].
  - intros x i k Hx Hi. split; [by apply set_key_wf|]. by apply key_set.
  - done.
  - done.
  - split; [done|]. unfold Input_construct. by rewrite Hk, decide_True.
Qed.

Lemma KeyDown_key k x j : wf x → wf (KeyDown k x) ∧ key j (KeyDown k x) =
  if decide (j = index k) then match key j x with DOWN | PRESS => PRESS | _ => DOWN end else key j x.
Proof.
  intros Hwf. pose proof (index_bound k). unfold KeyDown. case_decide as Hj; [subst j|].
  - destruct (key (index k) x) eqn:He; (split; [by try apply set_key_wf|]);
      try rewrite key_set by done; rewrite ?decide_True by done; done.
  - destruct (key (index k) x) eqn:He; (split; [by try apply set_key_wf|]);
      try rewrite key_set by done; rewrite ?decide_False by done; done.
Qed.

(** The state of a key follows an automaton of its own. *)
Definition follow (k : Z) (s : eKeyState) (o : op) : eKeyState :=
  match o with
  | OpDown k' => if decide (u8 k' = u8 k) then match s with DOWN | PRESS => PRESS | _ => DOWN end else s
  | OpUp k' => if decide (u8 k' = u8 k) then UP else s
  | OpFrame => aged s
  end.

Lemma exec_follow k x o : wf x → wf (exec x o) ∧ GetKeyState k (exec x o) = follow k (GetKeyState k x) o.
Proof.
  intros Hwf. unfold GetKeyState. pose proof (index_bound k). destruct o as [k'|k'|]; cbn [exec follow].
  - destruct (KeyDown_key k' x (index k) Hwf) as [? ->]. split; [done|].
    apply decide_ext. rewrite index_eq. split; congruence.
  - split; [by apply set_key_wf|]. unfold KeyUp. rewrite key_set by (done || apply index_bound).
    apply decide_ext. rewrite index_eq. split; congruence.
  - by apply PostUpdate_key.
Qed.

Lemma exec_all_follow k x os :
  wf x → wf (foldl exec x os) ∧ GetKeyState k (foldl exec x os) = foldl (follow k) (GetKeyState k x) os.
Proof.
  revert x. induction os as [|o os IH]; intros x Hwf; [done|]. cbn [foldl].
  destruct (exec_follow k x o Hwf) as [Hwf' <-]. by apply IH.
Qed.

Lemma latest_nil P Q : ¬ latest P Q [].
Proof. intros (os1 & o & os2 & He & _). by destruct os1. Qed.

Lemma latest_snoc P Q os o : latest P Q (os ++ [o]) ↔ P os o ∨ Q o ∧ latest P Q os.
Proof.
  split.
  - intros (os1 & o' & os2 & He & HP & HQ). destruct os2 as [|o2 os2 _] using rev_ind.
    + apply app_inj_tail in He as [-> ->]. by left.
    + rewrite app_comm_cons, app_assoc in He. apply app_inj_tail in He as [-> ->].
      apply Forall_app in HQ as [HQ Ho]. right. split; [by inversion Ho|].
      by exists os1, o', os2.
  - intros [HP|[Ho (os1 & o' & os2 & -> & HP & HQ)]].
    + by exists os, o, [].
    + exists os1, o', (os2 ++ [o]). split; [by rewrite <- app_assoc|]. split; [done|].
      apply Forall_app. by repeat constructor.
Qed.

(** What the state of a key says of the calls made. *)
Definition means (k : Z) (os : list op) (s : eKeyState) : Prop :=
  match s with
  | NONE => ¬ held k os ∧ ¬ released k os ∧ ¬ pressed k os
  | DOWN => held k os ∧ ¬ released k os ∧ pressed k os
  | PRESS => held k os ∧ ¬ released k os ∧ ¬ pressed k os
  | UP => ¬ held k os ∧ released k os ∧ ¬ pressed k os
  end.

Lemma means_snoc k os s o : means k os s → means k (os ++ [o]) (follow k s o).
Proof.
  intros Hs.
  assert (held k (os ++ [o]) ↔ is_down k o ∨ about k o = false ∧ held k os) as Hh by apply latest_snoc.
  assert (released k (os ++ [o]) ↔ is_up k o ∨ (about k o = false ∧ o ≠ OpFrame) ∧ released k os) as Hr
    by apply latest_snoc.
  assert (pressed k (os ++ [o]) ↔ (is_down k o ∧ ¬ held k os) ∨ (about k o = false ∧ o ≠ OpFrame) ∧ pressed k os) as Hp
    by apply latest_snoc.
  destruct o as [k'|k'|]; cbn [follow about] in *.
  - destruct (decide (u8 k' = u8 k)) as [He|He].
    + assert (is_down k (OpDown k')) by (by exists k'). assert (¬ is_up k (OpDown k')) by (by intros [? [? _]]).
      rewrite bool_decide_true in Hh, Hr, Hp by done. destruct s; cbn in *; naive_solver.
    + assert (¬ is_down k (OpDown k')) by (intros [? [[= ->] ?]]; done).
      assert (¬ is_up k (OpDown k')) by (by intros [? [? _]]).
      rewrite bool_decide_false in Hh, Hr, Hp by done. destruct s; cbn in *; naive_solver.
  - assert (¬ is_down k (OpUp k')) by (by intros [? [? _]]). destruct (decide (u8 k' = u8 k)) as [He|He].
    + assert (is_up k (OpUp k')) by (by exists k').
      rewrite bool_decide_true in Hh, Hr, Hp by done. destruct s; cbn in *; naive_solver.
    + assert (¬ is_up k (OpUp k')) by (intros [? [[= ->] ?]]; done).
      rewrite bool_decide_false in Hh, Hr, Hp by done. destruct s; cbn in *; naive_solver.
  - assert (¬ is_down k OpFrame) by (by intros [? [? _]]). assert (¬ is_up k OpFrame) by (by intros [? [? _]]).
    destruct s; cbn in *; naive_solver.
Qed.

Lemma exec_means raw os k : wf raw → means k os (GetKeyState k (foldl exec (Input_construct raw) os)).
Proof.
  intros Hwf. destruct (construct_key raw (index k) Hwf (index_bound k)) as [Hw0 Hk0].
  destruct (exec_all_follow k (Input_construct raw) os Hw0) as [_ ->]. unfold GetKeyState. rewrite Hk0.
  clear. induction os as [|o os IH] using rev_ind.
  - split; [|split]; apply latest_nil.
  - rewrite foldl_app. by apply means_snoc.
Qed.

(** Without releases nothing is released, and what was pressed is held. *)
Definition no_release (o : op) : Prop := ∀ k, o ≠ OpUp k.

Lemma presses_released k os : Forall no_release os → ¬ released k os.
Proof.
  induction os as [|o os IH] using rev_ind; intros Hos; [apply latest_nil|].
  apply Forall_app in Hos as [Hos Ho]. inversion Ho as [|? ? Hn _]; subst.
  unfold released. rewrite latest_snoc. intros [[k' [-> _]]|[_ Hr]]; [by apply (Hn k')|by apply IH].
Qed.

Lemma presses_held k os : Forall no_release os → Exists (is_down k) os → held k os.
Proof.
  induction os as [|o os IH] using rev_ind; intros Hos Hd; [by inversion Hd|].
  apply Forall_app in Hos as [Hos Ho]. inversion Ho as [|? ? Hn _]; subst.
  unfold held. apply latest_snoc. apply Exists_app in Hd as [Hd|Hd].
  - destruct (about k o) eqn:Ha; [|right; by split; [|apply IH]]. left. destruct o as [k'|k'|]; cbn in Ha; [|by destruct (Hn k')|done].
    apply bool_decide_eq_true in Ha. by exists k'.
  - left. by inversion Hd as [? ? ?|? ? Hd']; [|inversion Hd'].
Qed.

Lemma presses_state raw os k :
  wf raw → Forall no_release os →
  let s := GetKeyState k (foldl exec (Input_construct raw) os) in
  s ≠ UP ∧ (Exists (is_down k) os → s = DOWN ∨ s = PRESS).
Proof.
  intros Hwf Hos s. pose proof (exec_means raw os k Hwf) as Hm. fold s in Hm.
  pose proof (presses_released k os Hos). pose proof (presses_held k os Hos).
  destruct s; cbn in Hm; naive_solver.
Qed.

(** ** Properties *)

(** C28: what a key's state means, after any sequence of [KeyDown], [KeyUp] and
    [PostUpdate] on a new [Input]: the key is DOWN or PRESS exactly if the last call
    about it was a press; DOWN exactly if that press came in this frame, to a key
    not held; UP exactly if its last call was a release in this frame; calls about
    other keys, and the contents of the array before, have no effect. *)
Theorem key_states_mean raw os k :
  wf raw →
  let s := GetKeyState k (foldl exec (Input_construct raw) os) in
  (s = DOWN ∨ s = PRESS ↔ held k os) ∧ (s = DOWN ↔ pressed k os) ∧ (s = UP ↔ released k os) ∧
  wf (foldl exec (Input_construct raw) os).
Proof.
  intros Hwf s. destruct (construct_key raw (index k) Hwf (index_bound k)) as [Hw0 Hk0].
  destruct (exec_all_follow k (Input_construct raw) os Hw0) as [Hw _].
  pose proof (exec_means raw os k Hwf) as Hm. fold s in Hm. destruct s; cbn in Hm; naive_solver.
Qed.

Lemma key_states_mean_witness :
  GetKeyState 65 (foldl exec (Input_construct (mkInput (replicate 256 UP)))
    [OpDown 65; OpDown 66; OpFrame; OpUp 65]) = UP.
Proof.
  apply (key_states_mean (mkInput (replicate 256 UP)) [OpDown 65; OpDown 66; OpFrame; OpUp 65] 65).
  - by vm_compute.
  - exists [OpDown 65; OpDown 66; OpFrame], (OpUp 65), []. split; [done|]. split; [by exists 65|constructor].
Defined.
End Input.
