(* ===== verification/Renderer.v ===== *)
(** * The GDI renderer of the game (exe-game, Base/Render/GDI)

    [gdi::Renderer] and [gdi::Texture]: the device contexts, the back buffer and
    the table of textures.  GDI answers with handles, 0 for none; the log of the
    calls keeps what was made and deleted.  The window drawn on is a parameter. *)

From S2P Require Import Prelude.

Module Renderer.

(** ** GDI *)

Inductive GdiCall :=
  | GetDC (hwnd dc : Z)
  | CreateCompatibleDC (dc made : Z)
  | CreateCompatibleBitmap (dc : Z) (size : Z * Z) (made : Z)
  | LoadImageA (fileName : string) (made : Z)
  | SelectObject (dc object old : Z)
  | GetObjectA (bitmap : Z)
  | DeleteObject (object : Z)
  | DeleteDC (dc : Z)
  | ReleaseDC (hwnd dc : Z)
  | Rectangle (dc : Z) (size : Z * Z)
  | StretchBlt (dst x y width height src srcWidth srcHeight : Z)
  | BitBlt (dst : Z) (size : Z * Z) (src : Z).

(** The handles and bitmap sizes to be answered, and the calls made. *)
Record GDI := mkGDI {
  handles : list Z;
  bitmap_sizes : list (Z * Z);
  gdi_calls : list GdiCall
}.

(** ** State *)

Record Texture := mkTexture {
  mID : Z;
  Texture_mDC : Z;
  mTextureBitmap : Z;
  mSize : Z * Z
}.

Definition GetID (t : Texture) : Z := mID t.

Record Renderer := mkRenderer {
  mDC : Z;
  mMemDC : Z;
  mBitmap : Z;
  mTextureIDCache : list Z;          (* a stack, its top first *)
  mTextures : list Texture
}.

(** [mWindow]: what a renderer asks of its window. *)
Record WindowView := mkWindowView { GetWindowHandle : Z; Window_GetSize : Z * Z }.

Record World := mkWorld { renderer : Renderer; gdi : GDI }.

Definition set_renderer (r : Renderer) (w : World) : World := mkWorld r (gdi w).
Definition log (cs : list GdiCall) (w : World) : World :=
  mkWorld (renderer w) (mkGDI (handles (gdi w)) (bitmap_sizes (gdi w)) (gdi_calls (gdi w) ++ cs)).

Definition call (c : GdiCall) : M World unit := modify (log [c]).

(** A call that answers with a handle. *)
Definition call_handle (c : Z → GdiCall) : M World Z := λ w,
  match handles (gdi w) with
  | [] => None
  | h :: hs => Some (h, log [c h] (mkWorld (renderer w) (mkGDI hs (bitmap_sizes (gdi w)) (gdi_calls (gdi w)))))
  end.

Definition GetObject_size (bitmap : Z) : M World (Z * Z) := λ w,
  match bitmap_sizes (gdi w) with
  | [] => None
  | s :: ss => Some (s, log [GetObjectA bitmap] (mkWorld (renderer w) (mkGDI (handles (gdi w)) ss (gdi_calls (gdi w)))))
  end.

Section Methods.
Context (ndebug : bool) (window : WindowView) (texture_memory : Texture).

Definition assert_ (c : bool) : M World unit := if ndebug || c then mret tt else undefined.

(** [mTextures[textureID]]: the index is not checked. *)
Definition texture_at (textureID : Z) : M World Texture := λ w,
  if 0 <=? textureID then t ← mTextures (renderer w) !! Z.to_nat textureID; Some (t, w) else None.

Definition Resize : M World unit :=
  r ← gets renderer;
  let windowSize := Window_GetSize window in
  hBitmap ← call_handle (CreateCompatibleBitmap (mDC r) windowSize);
  hOldBitmap ← call_handle (SelectObject (mMemDC r) hBitmap);
  call (DeleteObject hOldBitmap);;
  modify (λ w, let r := renderer w in
    set_renderer (mkRenderer (mDC r) (mMemDC r) hBitmap (mTextureIDCache r) (mTextures r)) w).

(** The constructor, on the memory of the record. *)
Definition Renderer_construct : M World unit :=
  dc ← call_handle (GetDC (GetWindowHandle window));
  memDC ← call_handle (CreateCompatibleDC dc);
  modify (λ w, set_renderer (mkRenderer dc memDC (mBitmap (renderer w)) [] []) w);;
  Resize.

Definition Renderer_destroy : M World unit :=
  r ← gets renderer;
  when (negb (mBitmap r =? 0)) (call (DeleteObject (mBitmap r)));;
  when (negb (mMemDC r =? 0)) (call (DeleteDC (mMemDC r)));;
  call (ReleaseDC (GetWindowHandle window) (mDC r));;
  modify (set_renderer (mkRenderer (mDC r) 0 0 (mTextureIDCache r) (mTextures r))).

Definition set_textures (cache : list Z) (ts : list Texture) (w : World) : World :=
  let r := renderer w in set_renderer (mkRenderer (mDC r) (mMemDC r) (mBitmap r) cache ts) w.

Definition LoadTexture (fileName : string) : M World Z :=
  hBitmap ← call_handle (LoadImageA fileName);
  if hBitmap =? 0 then mret (-1)
  else
    r ← gets renderer;
    hDC ← call_handle (CreateCompatibleDC (mDC r));
    hOldBitmap ← call_handle (SelectObject hDC hBitmap);
    call (DeleteObject hOldBitmap);;
    bitmapInfo ← GetObject_size hBitmap;
    textureID ← (match mTextureIDCache r with
      | [] =>
          modify (set_textures [] (mTextures r ++ [texture_memory]));;
          mret (Z.of_nat (length (mTextures r ++ [texture_memory])) - 1)
      | top :: rest => modify (set_textures rest (mTextures r));; mret top
      end);
    _ ← texture_at textureID;
    modify (λ w, set_textures (mTextureIDCache (renderer w))
      (<[Z.to_nat textureID := mkTexture textureID hDC hBitmap bitmapInfo]> (mTextures (renderer w))) w);;
    mret textureID.

Definition GetSize : M World (Z * Z) := mret (Window_GetSize window).

Definition Clear : M World unit :=
  r ← gets renderer;
  call (Rectangle (mMemDC r) (Window_GetSize window)).

(** [Texture::Render]. *)
Definition Texture_Render (t : Texture) (pos : Z * Z) (xFlip : bool) : M World unit :=
  r ← gets renderer;
  let destX := if xFlip then (fst pos ⊕ fst (mSize t))%cpp else fst pos in
  let destWidth := if xFlip then i32 (- fst (mSize t)) else fst (mSize t) in
  call (StretchBlt (mMemDC r) destX (snd pos) destWidth (snd (mSize t)) (Texture_mDC t) (fst (mSize t)) (snd (mSize t))).

Definition RenderTexture (textureID : Z) (pos : Z * Z) : M World unit :=
  assert_ (negb (textureID =? -1));;
  texture ← texture_at textureID;
  assert_ (GetID texture =? textureID);;
  Texture_Render texture pos false.

Definition Swap : M World unit :=
  r ← gets renderer;
  windowSize ← GetSize;
  call (BitBlt (mDC r) windowSize (mMemDC r)).
End Methods.

(** ** Facts *)

(** Every texture knows its place, and no place is free. *)
Definition textures_ok (r : Renderer) : Prop :=
  mTextureIDCache r = [] ∧ ∀ i t, mTextures r !! i = Some t → mID t = Z.of_nat i.

Lemma call_handle_run c h hs w :
  handles (gdi w) = h :: hs →
  call_handle c w = Some (h, mkWorld (renderer w) (mkGDI hs (bitmap_sizes (gdi w)) (gdi_calls (gdi w) ++ [c h]))).
Proof. unfold call_handle. by intros ->. Qed.

Lemma insert_snoc (ts : list Texture) t t' : <[length ts := t']> (ts ++ [t]) = ts ++ [t'].
Proof. by rewrite insert_app_r_alt, Nat.sub_diag by done. Qed.

Lemma construct_run window w dc mdc bmp old hs :
  handles (gdi w) = dc :: mdc :: bmp :: old :: hs →
  ∃ w', Renderer_construct window w = Some (tt, w') ∧ renderer w' = mkRenderer dc mdc bmp [] [] ∧
    handles (gdi w') = hs ∧ bitmap_sizes (gdi w') = bitmap_sizes (gdi w).
Proof. destruct w as [r [hs0 ss0 cs]]. cbn. intros ->. eexists. split.
  { unfold Renderer_construct, LoadTexture, Resize, call_handle, call. run. reflexivity. }
  done.
Qed.

Lemma LoadTexture_none m fileName w hs :
  handles (gdi w) = 0 :: hs →
  ∃ w', LoadTexture m fileName w = Some (-1, w') ∧ renderer w' = renderer w.
Proof. destruct w as [r [hs0 ss0 cs]]. cbn. intros ->. eexists. split.
  { unfold Renderer_construct, LoadTexture, Resize, call_handle, call. run. reflexivity. }
  done.
Qed.

Lemma LoadTexture_run m fileName w bmp dc old hs size ss :
  textures_ok (renderer w) → handles (gdi w) = bmp :: dc :: old :: hs → bitmap_sizes (gdi w) = size :: ss → bmp ≠ 0 →
  let id := Z.of_nat (length (mTextures (renderer w))) in
  ∃ w', LoadTexture m fileName w = Some (id, w') ∧ textures_ok (renderer w') ∧
    mMemDC (renderer w') = mMemDC (renderer w) ∧
    mTextures (renderer w') = mTextures (renderer w) ++ [mkTexture id dc bmp size] ∧
    gdi_calls (gdi w') = gdi_calls (gdi w) ++
      [LoadImageA fileName bmp; CreateCompatibleDC (mDC (renderer w)) dc; SelectObject dc bmp old;
       DeleteObject old; GetObjectA bmp].
Proof.
  destruct w as [[d md b c ts] [hs0 ss0 cs]]. unfold textures_ok. cbn. intros [-> Hts] -> -> Hb.
  set (n := length ts). assert (Z.of_nat (length (ts ++ [m])) - 1 = Z.of_nat n) as Hn by (rewrite length_app; cbn; lia).
  eexists. split.
  { unfold LoadTexture, call_handle. run. rewrite (proj2 (Z.eqb_neq _ _) Hb).
    run. unfold texture_at. cbn. rewrite Hn, (proj2 (Z.leb_le 0 _)), Nat2Z.id by lia.
    unfold n. rewrite lookup_app_r, Nat.sub_diag by done. cbn. reflexivity. }
  cbn [renderer set_textures set_renderer mTextureIDCache mTextures]. rewrite insert_snoc.
  split; [split; [done|]|].
  - intros i t Ht. apply lookup_app_Some in Ht as [Ht|[Hi Ht]]; [by apply Hts|].
    destruct (i - length ts)%nat as [|k] eqn:He; [|by destruct k]. cbn in Ht. simplify_eq. cbn. lia.
  - split; [done|]. split; [done|]. cbn. by rewrite <- !app_assoc.
Qed.

Lemma RenderTexture_run ndebug r id t pos g :
  textures_ok r → 0 ≤ id → mTextures r !! Z.to_nat id = Some t →
  RenderTexture ndebug id pos (mkWorld r g) = Some (tt, log
    [StretchBlt (mMemDC r) (fst pos) (snd pos) (fst (mSize t)) (snd (mSize t)) (Texture_mDC t)
       (fst (mSize t)) (snd (mSize t))] (mkWorld r g)).
Proof.
  intros [_ Hids] Hid Ht. assert (mID t = id) as Htid by (rewrite (Hids _ _ Ht); lia).
  unfold RenderTexture, assert_, texture_at, GetID.
  rewrite (proj2 (Z.eqb_neq _ (-1))), orb_true_r, (proj2 (Z.leb_le 0 _)) by lia.
  run. rewrite Ht. cbn. rewrite Htid, Z.eqb_refl, orb_true_r. done.
Qed.

(** ** Properties *)

Section Properties.
Context (ndebug : bool) (window : WindowView) (texture_memory : Texture).

(** On a renderer whose textures know their places, [LoadTexture] with a file
    that cannot be loaded answers -1 and makes nothing; otherwise it answers a new
    index, the number of textures so far, keeps all the earlier ones, and leaves
    the new one with its own device context, bitmap and size, so that
    [RenderTexture] of that index is defined, asserts nothing false, and draws it
    whole at the position.  The object the fresh context held is deleted, which is
    no object of the renderer. *)
Theorem LoadTexture_ids fileName bmp dc old hs size ss w :
  textures_ok (renderer w) → handles (gdi w) = bmp :: dc :: old :: hs → bitmap_sizes (gdi w) = size :: ss →
  ∃ id w', LoadTexture texture_memory fileName w = Some (id, w') ∧ textures_ok (renderer w') ∧
    (bmp = 0 → id = -1 ∧ renderer w' = renderer w) ∧
    (bmp ≠ 0 → id = Z.of_nat (length (mTextures (renderer w))) ∧
      mTextures (renderer w') = mTextures (renderer w) ++ [mkTexture id dc bmp size] ∧
      gdi_calls (gdi w') = gdi_calls (gdi w) ++
        [LoadImageA fileName bmp; CreateCompatibleDC (mDC (renderer w)) dc; SelectObject dc bmp old;
         DeleteObject old; GetObjectA bmp] ∧
      ∀ pos, RenderTexture ndebug id pos w' = Some (tt, log
        [StretchBlt (mMemDC (renderer w)) (fst pos) (snd pos) (fst size) (snd size) dc (fst size) (snd size)] w')).
Proof.
  intros Hok Hh Hs. destruct (decide (bmp = 0)) as [->|Hb].
  - destruct (LoadTexture_none texture_memory fileName w (dc :: old :: hs) Hh) as (w' & Hrun & Hr).
    exists (-1), w'. split; [done|]. split; [by rewrite Hr|]. by split.
  - destruct (LoadTexture_run texture_memory fileName w bmp dc old hs size ss Hok Hh Hs Hb)
      as (w' & Hrun & Hok' & Hm & Ht & Hc).
    eexists _, w'. split; [exact Hrun|]. split; [done|]. split; [done|]. intros _. do 3 (split; [done|]).
    intros pos. destruct w' as [r' g']. cbn [renderer] in *. rewrite (RenderTexture_run _ _ _
      (mkTexture (Z.of_nat (length (mTextures (renderer w)))) dc bmp size)); [by rewrite Hm|done|lia|].
    rewrite Ht, Nat2Z.id, lookup_app_r, Nat.sub_diag by done. done.
Qed.

(** The destructor gives back the window's context, the memory context and
    the back buffer, each once, and nothing else: the contexts and bitmaps of the
    textures are never deleted. *)
Theorem destroy_leaves_textures w :
  mBitmap (renderer w) ≠ 0 → mMemDC (renderer w) ≠ 0 →
  ∃ w', Renderer_destroy window w = Some (tt, w') ∧
    gdi_calls (gdi w') = gdi_calls (gdi w) ++
      [DeleteObject (mBitmap (renderer w)); DeleteDC (mMemDC (renderer w));
       ReleaseDC (GetWindowHandle window) (mDC (renderer w))] ∧
    mTextures (renderer w') = mTextures (renderer w).
Proof.
  intros Hb Hm. unfold Renderer_destroy. rewrite gets_bind, (proj2 (Z.eqb_neq _ _) Hb), (proj2 (Z.eqb_neq _ _) Hm).
  eexists. split; [done|]. cbn. by rewrite <- !app_assoc.
Qed.
End Properties.

Definition sample_world : World :=
  mkWorld (mkRenderer 1 2 3 [] [mkTexture 0 10 11 (4, 4)]) (mkGDI [20; 21; 22] [(64, 32)] []).

Lemma LoadTexture_ids_witness :
  ∃ w', LoadTexture (mkTexture 0 0 0 (0, 0)) "a.bmp" sample_world = Some (1, w') ∧ textures_ok (renderer w').
Proof.
  destruct (LoadTexture_ids false (mkTexture 0 0 0 (0, 0)) "a.bmp" 20 21 22 [] (64, 32) [] sample_world)
    as (id & w' & Hrun & Hok & _ & Hn).
  - split; [done|]. intros [|[|i]] t Ht; cbn in Ht; by simplify_eq.
  - done.
  - done.
  - destruct Hn as [-> _]; [done|]. by exists w'.
Defined.

Lemma destroy_leaves_textures_witness :
  ∃ w', Renderer_destroy (mkWindowView 9 (8, 8)) sample_world = Some (tt, w') ∧ length (mTextures (renderer w')) = 1%nat.
Proof.
  destruct (destroy_leaves_textures (mkWindowView 9 (8, 8)) sample_world) as (w' & Hrun & _ & Ht); [done|done|].
  exists w'. split; [done|]. by rewrite Ht.
Defined.
End Renderer.
