(* ===== verification/Window.v ===== *)
(** * The game's windows (exe-game, Base/Window.{hpp,cpp}, Game/GameWindow.{hpp,cpp}, main.cpp)

    [game::Window] with its one subclass [game::GameWindow]: the table of windows
    that the window procedure keeps, the dispatch of messages to the keyboard and
    the renderer, and the message loop.  A pointer to a window is a key of [heap]. *)

From S2P Require Import Prelude Input Renderer.

Module Window.
Import Input Renderer.

(** ** Messages *)

Definition WM_CREATE : Z := 0x0001.
Definition WM_DESTROY : Z := 0x0002.
Definition WM_QUIT : Z := 0x0012.
Definition WM_KEYDOWN : Z := 0x0100.
Definition WM_KEYUP : Z := 0x0101.
Definition WM_SYSKEYDOWN : Z := 0x0104.
Definition WM_SYSKEYUP : Z := 0x0105.

(** [MSG].  For [WM_CREATE], [lParam] stands for the [lpCreateParams] it leads to. *)
Record MSG := mkMSG { hwnd : Z; message : Z; wParam : Z; lParam : Z }.

Inductive WinCall :=
  | RegisterClassExA
  | CreateWindowA (made : Z)
  | MoveWindow (hwnd x y width height : Z)
  | ShowWindow (hwnd : Z)
  | UpdateWindow (hwnd : Z)
  | PrintError
  | DefWindowProcA (hwnd message : Z)
  | TranslateMessage (message : Z).

(** ** State *)

Record GameWindow := mkGameWindow {
  mHandle : Z;
  mSize : Z * Z;
  mInput : Input;
  mRenderer : option Renderer        (* [None] is a pointer without a value *)
}.

(** [quit_posted]: a [PostQuitMessage] not yet taken by [PeekMessageA].  [peeks]
    is what the queue holds at each [PeekMessageA]. *)
Record World := mkWorld {
  mIsRunning : bool;
  sWindowMap : gmap Z Z;
  heap : gmap Z GameWindow;
  testTextureID : Z;
  quit_posted : bool;
  peeks : list (option MSG);
  registers : list bool;
  creates : list Z;
  gdi : GDI;
  win_calls : list WinCall
}.

Definition set_running (b : bool) (w : World) : World :=
  mkWorld b (sWindowMap w) (heap w) (testTextureID w) (quit_posted w) (peeks w) (registers w) (creates w) (gdi w) (win_calls w).
Definition set_map (m : gmap Z Z) (w : World) : World :=
  mkWorld (mIsRunning w) m (heap w) (testTextureID w) (quit_posted w) (peeks w) (registers w) (creates w) (gdi w) (win_calls w).
Definition set_heap (h : gmap Z GameWindow) (w : World) : World :=
  mkWorld (mIsRunning w) (sWindowMap w) h (testTextureID w) (quit_posted w) (peeks w) (registers w) (creates w) (gdi w) (win_calls w).
Definition set_texture (id : Z) (w : World) : World :=
  mkWorld (mIsRunning w) (sWindowMap w) (heap w) id (quit_posted w) (peeks w) (registers w) (creates w) (gdi w) (win_calls w).
Definition set_quit (b : bool) (w : World) : World :=
  mkWorld (mIsRunning w) (sWindowMap w) (heap w) (testTextureID w) b (peeks w) (registers w) (creates w) (gdi w) (win_calls w).
Definition set_peeks (l : list (option MSG)) (w : World) : World :=
  mkWorld (mIsRunning w) (sWindowMap w) (heap w) (testTextureID w) (quit_posted w) l (registers w) (creates w) (gdi w) (win_calls w).
Definition set_registers (l : list bool) (w : World) : World :=
  mkWorld (mIsRunning w) (sWindowMap w) (heap w) (testTextureID w) (quit_posted w) (peeks w) l (creates w) (gdi w) (win_calls w).
Definition set_creates (l : list Z) (w : World) : World :=
  mkWorld (mIsRunning w) (sWindowMap w) (heap w) (testTextureID w) (quit_posted w) (peeks w) (registers w) l (gdi w) (win_calls w).
Definition set_gdi (g : GDI) (w : World) : World :=
  mkWorld (mIsRunning w) (sWindowMap w) (heap w) (testTextureID w) (quit_posted w) (peeks w) (registers w) (creates w) g (win_calls w).
Definition log_call (c : WinCall) (w : World) : World :=
  mkWorld (mIsRunning w) (sWindowMap w) (heap w) (testTextureID w) (quit_posted w) (peeks w) (registers w) (creates w) (gdi w) (win_calls w ++ [c]).

Definition sys (c : WinCall) : M World unit := modify (log_call c).

(** The next answer of a list. *)
Definition next {A} (get : World → list A) (set : list A → World → World) : M World A :=
  l ← gets get;
  match l with
  | [] => undefined
  | a :: l => modify (set l);; mret a
  end.

(** The object behind a pointer. *)
Definition deref (this : Z) : M World GameWindow := λ w, g ← heap w !! this; Some (g, w).
Definition assign (this : Z) (g : GameWindow) : M World unit := modify (λ w, set_heap (<[this := g]> (heap w)) w).

Section Methods.
Context (ndebug : bool) (texture_memory : Texture) (renderer_memory : Renderer).
(** [AdjustWindowRect] of (0, 0, cx, cy): the rectangle; the size of the screen. *)
Context (AdjustWindowRect : Z → Z → Z * Z * Z * Z) (screen : Z * Z).
Context (iteration : gmap Z Z → list (Z * Z)).

Definition assert_ (c : bool) : M World unit := if ndebug || c then mret tt else undefined.

Definition INVALID_HANDLE_VALUE : Z := 2 ^ 64 - 1.

(** The constructor, on an object whose other members are [raw]. *)
Definition GameWindow_construct (this : Z) (raw : GameWindow) : M World unit :=
  assign this (mkGameWindow INVALID_HANDLE_VALUE (mSize raw) (Input_construct (mInput raw)) None).

(** A method of [*mRenderer], which must have a value. *)
Definition with_renderer {A} (this : Z) (m : WindowView → M Renderer.World A) : M World A := λ w,
  g ← heap w !! this;
  r ← mRenderer g;
  '(a, rw) ← m (mkWindowView (mHandle g) (mSize g)) (Renderer.mkWorld r (gdi w));
  Some (a, set_gdi (Renderer.gdi rw)
    (set_heap (<[this := mkGameWindow (mHandle g) (mSize g) (mInput g) (Some (Renderer.renderer rw))]> (heap w)) w)).

(** [mRenderer = new gdi::Renderer(this)]. *)
Definition new_Renderer (this : Z) : M World unit :=
  g ← deref this;
  assign this (mkGameWindow (mHandle g) (mSize g) (mInput g) (Some renderer_memory));;
  with_renderer this Renderer_construct.

Definition OnCreate (this : Z) : M World unit :=
  new_Renderer this;;
  id ← with_renderer this (λ _, LoadTexture texture_memory "1720396797316.bmp");
  modify (set_texture id).

Definition OnKeyDown (this keyCode : Z) : M World unit :=
  g ← deref this;
  assign this (mkGameWindow (mHandle g) (mSize g) (KeyDown (u8 keyCode) (mInput g)) (mRenderer g)).

Definition OnKeyUp (this keyCode : Z) : M World unit :=
  g ← deref this;
  assign this (mkGameWindow (mHandle g) (mSize g) (KeyUp (u8 keyCode) (mInput g)) (mRenderer g)).

Definition Update (this : Z) : M World unit :=
  with_renderer this Clear;;
  id ← gets testTextureID;
  with_renderer this (λ _, RenderTexture ndebug id (10, 10));;
  with_renderer this Swap;;
  g ← deref this;
  assign this (mkGameWindow (mHandle g) (mSize g) (PostUpdate (mInput g)) (mRenderer g)).

(** [delete mRenderer]. *)
Definition GameWindow_destroy (this : Z) : M World unit :=
  with_renderer this Renderer_destroy;;
  modify (λ w, set_heap (delete this (heap w)) w).

Definition GetWindowHandle (this : Z) : M World Z := g ← deref this; mret (mHandle g).

Definition Resize (this : Z) (windowSize : Z * Z) : M World unit :=
  g ← deref this;
  assert_ (negb (mHandle g =? INVALID_HANDLE_VALUE));;
  assert_ ((0 <=? fst windowSize) && (0 <=? snd windowSize));;
  assign this (mkGameWindow (mHandle g) windowSize (mInput g) (mRenderer g));;
  let '(x0, y0, x1, y1) := AdjustWindowRect (fst windowSize) (snd windowSize) in
  let clientWidth := (x1 ⊖ x0)%cpp in
  let clientHeight := (y1 ⊖ y0)%cpp in
  let middlePositionX := (fst screen ⊖ clientWidth)%cpp `quot` 2 in
  let middlePositionY := (snd screen ⊖ clientHeight)%cpp `quot` 2 in
  sys (MoveWindow (mHandle g) middlePositionX middlePositionY clientWidth clientHeight).

Definition MessageHandler (this message wParam : Z) : M World unit :=
  (if (message =? WM_SYSKEYDOWN) || (message =? WM_KEYDOWN) then OnKeyDown this wParam
   else if (message =? WM_SYSKEYUP) || (message =? WM_KEYUP) then OnKeyDown this wParam
   else mret tt);;
  g ← deref this;
  sys (DefWindowProcA (mHandle g) message).

Definition WndProc (m : MSG) : M World unit :=
  if message m =? WM_CREATE then
    modify (λ w, set_map (match sWindowMap w !! hwnd m with
                          | Some _ => sWindowMap w
                          | None => <[hwnd m := lParam m]> (sWindowMap w)
                          end) w);;
    sys (DefWindowProcA (hwnd m) (message m))
  else if message m =? WM_DESTROY then
    modify (λ w, set_map (delete (hwnd m) (sWindowMap w)) w);;
    modify (set_quit true)
  else
    windows ← gets sWindowMap;
    match windows !! hwnd m with
    | None => sys (DefWindowProcA (hwnd m) (message m))
    | Some window => MessageHandler window (message m) (wParam m)
    end.

(** [CreateWindowA] sends [WM_CREATE] before it returns the handle. *)
Definition Create (this : Z) (windowSize : Z * Z) : M World bool :=
  sys RegisterClassExA;;
  registered ← next registers set_registers;
  if negb registered then mret false
  else
    handle ← next creates set_creates;
    sys (CreateWindowA handle);;
    when (negb (handle =? 0)) (WndProc (mkMSG handle WM_CREATE 0 this));;
    g ← deref this;
    assign this (mkGameWindow handle (mSize g) (mInput g) (mRenderer g));;
    if handle =? 0 then sys PrintError;; mret false
    else
      Resize this windowSize;;
      sys (ShowWindow handle);;
      sys (UpdateWindow handle);;
      OnCreate this;;
      mret true.

Fixpoint Update_all (l : list (Z * Z)) : M World unit :=
  match l with
  | [] => mret tt
  | (_, window) :: l => Update window;; Update_all l
  end.

Definition UpdateWindows : M World unit :=
  windows ← gets (λ w, iteration (sWindowMap w));
  Update_all windows.

Definition Stop : M World unit := modify (set_running false).

(** [PeekMessageA]: a posted quit comes as [WM_QUIT] when the queue is empty. *)
Definition PeekMessageA : M World (option MSG) :=
  a ← next peeks set_peeks;
  match a with
  | Some m => mret (Some m)
  | None =>
      quit ← gets quit_posted;
      if (quit : bool) then modify (set_quit false);; mret (Some (mkMSG 0 WM_QUIT 0 0))
      else mret None
  end.

(** [DispatchMessageA]: a message without a window goes nowhere. *)
Definition DispatchMessageA (m : MSG) : M World unit :=
  when (negb (hwnd m =? 0)) (WndProc m).

(** The inner loop of [Run]. *)
Definition Peek_turn : M World (option unit) :=
  msg ← PeekMessageA;
  match msg with
  | None => mret (Some tt)
  | Some msg =>
      (if message msg =? WM_QUIT then
         empty ← gets (λ w, bool_decide (sWindowMap w = ∅));
         when empty Stop
       else mret tt);;
      sys (TranslateMessage (message msg));;
      DispatchMessageA msg;;
      mret None
  end.

(** Each turn takes an answer of the queue. *)
Definition Peek_loop : M World unit :=
  turns ← gets (λ w, S (length (peeks w)));
  forever turns Peek_turn.

Definition Run_turn : M World (option bool) :=
  running ← gets mIsRunning;
  if (running : bool) then Peek_loop;; UpdateWindows;; mret None
  else mret (Some true).

Definition Run : M World bool :=
  turns ← gets (λ w, S (length (peeks w)));
  forever turns Run_turn.

(** [main]. *)
Definition main (window : Z) (raw : GameWindow) : M World unit :=
  GameWindow_construct window raw;;
  Create window (1280, 720);;
  Run;;
  GameWindow_destroy window.
End Methods.

(** ** What a frame should do *)

Definition is_key (message : Z) : bool :=
  (message =? WM_SYSKEYDOWN) || (message =? WM_KEYDOWN) || ((message =? WM_SYSKEYUP) || (message =? WM_KEYUP)).

Definition destroys (m : MSG) : bool := message m =? WM_DESTROY.

(** A message that the queue can hold for a window. *)
Definition queued (m : MSG) : Prop := hwnd m ≠ 0 ∧ message m ≠ WM_CREATE ∧ message m ≠ WM_QUIT.

(** What the messages do to the keyboard of the window [h]: every key message,
    press or release, is a press. *)
Definition key_ops (h : Z) (ms : list MSG) : list op :=
  omap (λ m, if bool_decide (hwnd m = h) && is_key (message m) then Some (OpDown (u8 (wParam m))) else None) ms.

(** The table after the messages. *)
Definition remaining (table : gmap Z Z) (ms : list MSG) : gmap Z Z :=
  foldl (λ t m, if destroys m then delete (hwnd m) t else t) table ms.

Definition with_input (x : Input) (g : GameWindow) : GameWindow := mkGameWindow (mHandle g) (mSize g) x (mRenderer g).

(** An object that [Update] can work on. *)
Definition ready (textureID : Z) (g : GameWindow) : Prop :=
  ∃ r, mRenderer g = Some r ∧ textures_ok r ∧ 0 ≤ textureID < Z.of_nat (length (mTextures r)).

(** The table leads to one ready object for each window. *)
Record table_ok (w : World) : Prop := {
  tb_ready : ∀ h p, sWindowMap w !! h = Some p → ∃ g, heap w !! p = Some g ∧ ready (testTextureID w) g;
  tb_inj : ∀ h h' p, sWindowMap w !! h = Some p → sWindowMap w !! h' = Some p → h = h'
}.

(** [w] is [w0] after the messages [ms]. *)
Record dispatched (w0 : World) (ms : list MSG) (w : World) : Prop := {
  ds_table : sWindowMap w = remaining (sWindowMap w0) ms;
  ds_heap : ∀ h p g, sWindowMap w !! h = Some p → heap w0 !! p = Some g →
    heap w !! p = Some (with_input (foldl exec (mInput g) (key_ops h ms)) g);
  ds_quit : quit_posted w = quit_posted w0 || existsb destroys ms;
  ds_texture : testTextureID w = testTextureID w0;
  ds_running : mIsRunning w = mIsRunning w0
}.

(** ** Facts *)

Lemma win_next_run {A} (get : World → list A) set w a l :
  get w = a :: l → next get set w = Some (a, set l w).
Proof. intros H. unfold next. by rewrite gets_bind, H. Qed.

Lemma win_sys_bind {A} c (f : unit → M World A) w : (sys c ≫= f) w = f tt (log_call c w).
Proof. done. Qed.

Lemma remaining_snoc t ms m : remaining t (ms ++ [m]) = if destroys m then delete (hwnd m) (remaining t ms) else remaining t ms.
Proof. unfold remaining. by rewrite foldl_app. Qed.

Lemma remaining_subseteq t ms : remaining t ms ⊆ t.
Proof.
  induction ms as [|m ms IH] using rev_ind; [done|]. rewrite remaining_snoc.
  destruct (destroys m); [|done]. etrans; [apply delete_subseteq|done].
Qed.

Lemma key_ops_snoc h ms m : key_ops h (ms ++ [m]) = key_ops h ms ++
  (if bool_decide (hwnd m = h) && is_key (message m) then [OpDown (u8 (wParam m))] else []).
Proof. unfold key_ops. rewrite omap_app. cbn. by destruct (_ && _). Qed.

Lemma dispatched_nil w : dispatched w [] w.
Proof. split; try done; [intros h p g _ Hg; etrans; [exact Hg|]; by destruct g|by rewrite orb_false_r]. Qed.

Lemma heap_after w0 ms w h p :
  table_ok w0 → dispatched w0 ms w → sWindowMap w !! h = Some p →
  ∃ g, heap w0 !! p = Some g ∧ ready (testTextureID w0) g ∧
    heap w !! p = Some (with_input (foldl exec (mInput g) (key_ops h ms)) g).
Proof.
  intros [Hready _] Hd Hh. assert (sWindowMap w0 !! h = Some p) as Hh0.
  { rewrite (ds_table _ _ _ Hd) in Hh. by eapply lookup_weaken, remaining_subseteq. }
  destruct (Hready h p Hh0) as (g & Hg & Hr). exists g. split; [done|]. split; [done|]. by apply (ds_heap _ _ _ Hd).
Qed.

Lemma MessageHandler_run p msg wp w g :
  heap w !! p = Some g →
  MessageHandler p msg wp w = Some (tt, log_call (DefWindowProcA (mHandle g) msg)
    (if is_key msg then set_heap (<[p := with_input (KeyDown (u8 wp) (mInput g)) g]> (heap w)) w else w)).
Proof.
  intros Hg. unfold MessageHandler, is_key.
  assert (OnKeyDown p wp w = Some (tt, set_heap (<[p := with_input (KeyDown (u8 wp) (mInput g)) g]> (heap w)) w)) as Hk
    by (unfold OnKeyDown, deref; run; by rewrite Hg).
  assert (∀ x w, heap w !! p = Some x → mHandle x = mHandle g →
    (g ← deref p; sys (DefWindowProcA (mHandle g) msg)) w = Some (tt, log_call (DefWindowProcA (mHandle g) msg) w)) as Hdef
    by (intros x w' Hx Hm; unfold deref; run; rewrite Hx; cbn; by rewrite Hm).
  destruct (_ || _); [|destruct (_ || _)]; cbn [orb].
  - rewrite (bind_eq _ _ _ _ _ Hk). eapply Hdef; [apply lookup_insert_eq|done].
  - rewrite (bind_eq _ _ _ _ _ Hk). eapply Hdef; [apply lookup_insert_eq|done].
  - by eapply Hdef.
Qed.

(** Dispatching one message more. *)
Lemma WndProc_dispatched w0 ms w m :
  table_ok w0 → dispatched w0 ms w → queued m →
  ∃ w', WndProc m w = Some (tt, w') ∧ dispatched w0 (ms ++ [m]) w' ∧ peeks w' = peeks w.
Proof.
  intros Ht Hd (Hh & Hc & _). pose proof Hd as [D1 D2 D3 D4 D5]. unfold WndProc.
  rewrite (proj2 (Z.eqb_neq _ _) Hc). destruct (Z.eqb_spec (message m) WM_DESTROY) as [Hm|Hm].
  - assert (destroys m = true) as Hds by (by apply Z.eqb_eq).
    assert (is_key (message m) = false) as Hk by (by rewrite Hm).
    eexists. split; [done|]. split; [|done]. split; try done.
    + rewrite remaining_snoc, Hds. cbn. by rewrite D1.
    + intros h p g Hp Hg. cbn in Hp. apply lookup_delete_Some in Hp as [_ Hp].
      rewrite key_ops_snoc, Hk, andb_false_r, app_nil_r. by apply D2.
    + rewrite existsb_app. cbn. by rewrite Hds, !orb_true_r.
  - assert (destroys m = false) as Hds by (by apply Z.eqb_neq).
    assert (existsb destroys (ms ++ [m]) = existsb destroys ms) as He
      by (rewrite existsb_app; cbn; by rewrite Hds, !orb_false_r).
    rewrite gets_bind. destruct (sWindowMap w !! hwnd m) as [p|] eqn:Hp.
    + destruct (heap_after w0 ms w (hwnd m) p Ht Hd Hp) as (g & Hg & _ & Hgw).
      eexists. split; [by apply MessageHandler_run|]. split; [|by destruct (is_key (message m))].
      split.
      * rewrite remaining_snoc, Hds, <- D1. by destruct (is_key (message m)).
      * intros h p' g' Hp' Hg'. rewrite key_ops_snoc.
        assert (sWindowMap w !! h = Some p') as Hp'' by (by destruct (is_key (message m))).
        destruct (decide (hwnd m = h)) as [<-|Hne].
        -- rewrite bool_decide_true by done. simplify_eq. destruct (is_key (message m)); cbn [andb].
           ++ cbn. rewrite lookup_insert_eq, foldl_app. done.
           ++ rewrite app_nil_r. by apply D2.
        -- rewrite bool_decide_false, app_nil_r by done. destruct (is_key (message m)); cbn [andb]; [|by apply D2].
           cbn. rewrite lookup_insert_ne; [by apply D2|]. intros ->. apply Hne.
           apply (tb_inj _ Ht _ _ p'); by eapply lookup_weaken, remaining_subseteq; rewrite D1 in *.
      * rewrite He, <- D3. by destruct (is_key (message m)).
      * rewrite <- D4. by destruct (is_key (message m)).
      * rewrite <- D5. by destruct (is_key (message m)).
    + eexists. split; [done|]. split; [|done]. split; try done.
      * by rewrite remaining_snoc, Hds.
      * intros h p g Hph Hg. rewrite key_ops_snoc, bool_decide_false, app_nil_r; [by apply D2|].
        intros <-. cbn in Hph. congruence.
      * by rewrite He.
Qed.

Lemma Peek_turn_message w0 ms w m l :
  table_ok w0 → dispatched w0 ms w → queued m → peeks w = Some m :: l →
  ∃ w', Peek_turn w = Some (None, w') ∧ dispatched w0 (ms ++ [m]) w' ∧ peeks w' = l.
Proof.
  intros Ht Hd Hm Hp. set (w1 := log_call (TranslateMessage (message m)) (set_peeks l w)).
  assert (dispatched w0 ms w1) as Hd1 by (by destruct Hd).
  destruct (WndProc_dispatched w0 ms w1 m Ht Hd1 Hm) as (w' & Hrun & Hd' & Hp'). exists w'. split; [|done].
  assert (PeekMessageA w = Some (Some m, set_peeks l w)) as Hpeek
    by (unfold PeekMessageA; by rewrite (bind_eq _ _ _ _ _ (win_next_run peeks set_peeks w _ _ Hp))).
  unfold Peek_turn. rewrite (bind_eq _ _ _ _ _ Hpeek). destruct Hm as (Hh & _ & Hq).
  rewrite (proj2 (Z.eqb_neq _ _) Hq). rewrite (bind_eq (mret tt) _ (set_peeks l w) tt (set_peeks l w) eq_refl).
  rewrite win_sys_bind. unfold DispatchMessageA. rewrite (proj2 (Z.eqb_neq _ _) Hh). cbn [negb when].
  by rewrite (bind_eq _ _ _ _ _ Hrun).
Qed.

Lemma Peek_messages w0 ms ms' w rest fuel :
  table_ok w0 → dispatched w0 ms w → Forall queued ms' → peeks w = (Some <$> ms') ++ rest →
  ∃ w', forever (length ms' + fuel) Peek_turn w = forever fuel Peek_turn w' ∧
    dispatched w0 (ms ++ ms') w' ∧ peeks w' = rest.
Proof.
  intros Ht Hd Hq. revert ms w Hd. induction Hq as [|m ms' Hm Hq IH]; intros ms w Hd Hp.
  - exists w. by rewrite app_nil_r.
  - destruct (Peek_turn_message w0 ms w m _ Ht Hd Hm Hp) as (w1 & Hrun & Hd1 & Hp1).
    destruct (IH (ms ++ [m]) w1 Hd1 Hp1) as (w' & Hruns & Hd' & Hp').
    exists w'. cbn [length Nat.add]. rewrite (forever_again _ _ _ _ Hrun). split; [done|].
    by rewrite <- app_assoc in Hd'.
Qed.

(** The end of the queue: a posted quit is looked at, once. *)
Lemma Peek_end w rest fuel :
  peeks w = None :: (if quit_posted w then None :: rest else rest) →
  ∃ w', forever (S (S fuel)) Peek_turn w = Some (tt, w') ∧ sWindowMap w' = sWindowMap w ∧ heap w' = heap w ∧
    testTextureID w' = testTextureID w ∧ quit_posted w' = false ∧ peeks w' = rest ∧
    mIsRunning w' = mIsRunning w && negb (quit_posted w && bool_decide (sWindowMap w = ∅)).
Proof.
  destruct w as [r t h x q l rs cs g wc]. cbn [peeks quit_posted]. intros ->. destruct q.
  - set (w0 := mkWorld _ _ _ _ _ _ _ _ _ _). set (e := bool_decide (t = ∅)).
    set (w1 := mkWorld (if e then false else r) t h x false (None :: rest) rs cs g (wc ++ [TranslateMessage WM_QUIT])).
    assert (Peek_turn w0 = Some (None, w1)) as Hrun.
    { unfold Peek_turn. rewrite (bind_eq _ _ w0 (Some (mkMSG 0 WM_QUIT 0 0)) (set_quit false (set_peeks (None :: rest) w0)))
        by done.
      cbn [message hwnd]. rewrite Z.eqb_refl. unfold w1, e. by destruct (bool_decide (t = ∅)) eqn:He; run; rewrite He. }
    rewrite (forever_again _ _ _ _ Hrun).
    exists (set_peeks rest w1). split; [done|]. do 5 (split; [done|]). cbn. fold e. by destruct e, r.
  - eexists. split; [done|]. by rewrite andb_true_r.
Qed.

(** A method of the renderer that only draws. *)
Lemma with_renderer_draws p (m : WindowView → M Renderer.World unit) w g r cs :
  heap w !! p = Some g → mRenderer g = Some r →
  (∀ view gd, m view (Renderer.mkWorld r gd) = Some (tt, Renderer.log (cs view) (Renderer.mkWorld r gd))) →
  ∃ gd, with_renderer p m w = Some (tt, set_gdi gd w).
Proof.
  intros Hg Hr Hm. unfold with_renderer. rewrite Hg. cbn. rewrite Hr. cbn. rewrite Hm. cbn.
  rewrite insert_id; [by destruct w; eexists|]. rewrite Hg. f_equal. destruct g. cbn in Hr. by subst.
Qed.

Section Frame.
Context (ndebug : bool) (iteration : gmap Z Z → list (Z * Z)).
Hypothesis Hiteration : ∀ m, iteration m ≡ₚ map_to_list m.

Lemma Update_run p w g :
  heap w !! p = Some g → ready (testTextureID w) g →
  ∃ gd, Update ndebug p w =
    Some (tt, set_heap (<[p := with_input (PostUpdate (mInput g)) g]> (heap w)) (set_gdi gd w)).
Proof.
  intros Hg (r & Hr & [Hcache Hids] & Hid). unfold Update.
  destruct (with_renderer_draws p Clear w g r
    (λ v, [Rectangle (mMemDC r) (Window_GetSize v)]) Hg Hr ltac:(done)) as [g1 H1].
  destruct (lookup_lt_is_Some_2 (mTextures r) (Z.to_nat (testTextureID w))) as [t Ht]; [lia|].
  destruct (with_renderer_draws p (λ _, RenderTexture ndebug (testTextureID w) (10, 10)) (set_gdi g1 w) g r
    (λ _, [StretchBlt (mMemDC r) 10 10 (fst (Renderer.mSize t)) (snd (Renderer.mSize t)) (Texture_mDC t)
      (fst (Renderer.mSize t)) (snd (Renderer.mSize t))])) as [g2 H2]; [done|done| |].
  { intros view gd. by apply RenderTexture_run; [split|lia|]. }
  destruct (with_renderer_draws p Swap (set_gdi g2 (set_gdi g1 w)) g r
    (λ v, [BitBlt (mDC r) (Window_GetSize v) (mMemDC r)])) as [g3 H3]; [done|done|done|].
  exists g3. rewrite (bind_eq _ _ _ _ _ H1), gets_bind, (bind_eq _ _ _ _ _ H2), (bind_eq _ _ _ _ _ H3).
  rewrite (bind_eq _ _ _ g (set_gdi g3 (set_gdi g2 (set_gdi g1 w)))); [done|].
  unfold deref. cbn. by rewrite Hg.
Qed.

Lemma Update_all_run l w :
  NoDup l.*2 → (∀ h p, (h, p) ∈ l → ∃ g, heap w !! p = Some g ∧ ready (testTextureID w) g) →
  ∃ hp gd, Update_all ndebug l w = Some (tt, set_heap hp (set_gdi gd w)) ∧
    (∀ p, p ∉ l.*2 → hp !! p = heap w !! p) ∧
    ∀ h p g, (h, p) ∈ l → heap w !! p = Some g → hp !! p = Some (with_input (PostUpdate (mInput g)) g).
Proof.
  revert w. induction l as [|[h p] l IH]; intros w Hnd Hl.
  - exists (heap w), (gdi w). split; [by destruct w|]. split; [done|]. intros h p g Hp. by apply elem_of_nil in Hp.
  - cbn in Hnd. apply NoDup_cons in Hnd as [Hnew Hnd].
    destruct (Hl h p) as (g & Hg & Hr); [left|]. destruct (Update_run p w g Hg Hr) as [g1 H1].
    set (w1 := set_heap _ _) in H1.
    destruct (IH w1 Hnd) as (hp & gd & Hrun & Ho & Hs).
    { intros h' p' Hp. assert (p' ≠ p) as Hne by (intros ->; apply Hnew, list_elem_of_fmap; by exists (h', p)).
      destruct (Hl h' p') as (g' & Hg' & Hr'); [by right|]. exists g'. split; [|done].
      cbn. by rewrite lookup_insert_ne. }
    exists hp, gd. cbn [Update_all]. rewrite (bind_eq _ _ _ _ _ H1). split; [exact Hrun|]. split.
    + intros p' Hp'. cbn in Hp'. apply not_elem_of_cons in Hp' as [Hne Hp']. rewrite Ho by done.
      cbn. by rewrite lookup_insert_ne.
    + intros h' p' g' Hp' Hg'. apply elem_of_cons in Hp' as [Hp'|Hp'].
      * injection Hp' as -> ->. rewrite Ho by done. cbn. rewrite lookup_insert_eq. by simplify_eq.
      * apply (Hs h' p' g' Hp'). cbn. rewrite lookup_insert_ne; [done|].
        intros ->. apply Hnew, list_elem_of_fmap. by exists (h', p').
Qed.

Lemma table_pointers w : table_ok w → NoDup (iteration (sWindowMap w)).*2.
Proof.
  intros Ht. apply NoDup_fmap_2_strong; [|rewrite Hiteration; apply NoDup_map_to_list].
  intros [h p] [h' p'] H1 H2 Heq. cbn in Heq. subst p'.
  rewrite Hiteration in H1, H2. apply elem_of_map_to_list in H1, H2.
  by rewrite (tb_inj _ Ht h h' p H1 H2).
Qed.

Lemma frame_run ms rest w :
  table_ok w → Forall queued ms → mIsRunning w = true →
  peeks w = (Some <$> ms) ++ None :: (if quit_posted w || existsb destroys ms then None :: rest else rest) →
  ∃ w', Run_turn ndebug iteration w = Some (None, w') ∧
    peeks w' = rest ∧ quit_posted w' = false ∧ table_ok w' ∧
    sWindowMap w' = remaining (sWindowMap w) ms ∧
    (∀ h p g, sWindowMap w' !! h = Some p → heap w !! p = Some g →
      heap w' !! p = Some (with_input (foldl exec (mInput g) (key_ops h ms ++ [OpFrame])) g)) ∧
    mIsRunning w' = negb ((quit_posted w || existsb destroys ms) && bool_decide (sWindowMap w' = ∅)).
Proof.
  intros Ht Hq Hrunning Hp. unfold Run_turn. rewrite gets_bind, Hrunning.
  set (tl := if _ : bool then _ else rest) in Hp.
  destruct (Peek_messages w [] ms w _ (S (S (length tl))) Ht (dispatched_nil w) Hq Hp)
    as (w1 & Hrun1 & Hd1 & Hp1). cbn [app] in Hd1. pose proof Hd1 as [D1 D2 D3 D4 D5].
  destruct (Peek_end w1 rest (length tl)) as (w2 & Hrun2 & T2 & H2 & I2 & Q2 & P2 & R2); [by rewrite Hp1, D3|].
  assert (Peek_loop w = Some (tt, w2)) as Hloop.
  { unfold Peek_loop. rewrite gets_bind, Hp, length_app, length_fmap. cbn [length].
    replace (S (length ms + S (length tl))) with (length ms + S (S (length tl)))%nat by lia.
    by rewrite Hrun1. }
  assert (table_ok w2) as Ht2.
  { split.
    - intros h p. rewrite T2, H2, I2, D4. intros Hh. destruct (heap_after w ms w1 h p Ht Hd1 Hh) as (g & _ & Hr & Hg).
      eexists. split; [exact Hg|]. exact Hr.
    - intros h h' p. rewrite T2, D1. intros Hh Hh'.
      apply (tb_inj _ Ht h h' p); by eapply lookup_weaken, remaining_subseteq. }
  destruct (Update_all_run (iteration (sWindowMap w2)) w2) as (hp & gd & Hup & _ & Hs).
  { by apply table_pointers. }
  { intros h p Hh. apply (tb_ready _ Ht2 h p). rewrite Hiteration in Hh. by apply elem_of_map_to_list in Hh. }
  assert (∀ h p g, sWindowMap w2 !! h = Some p → heap w !! p = Some g →
    hp !! p = Some (with_input (foldl exec (mInput g) (key_ops h ms ++ [OpFrame])) g)) as Hheap.
  { intros h p g Hh Hg. rewrite foldl_app. cbn [foldl exec].
    rewrite (Hs h p (with_input (foldl exec (mInput g) (key_ops h ms)) g)); [done| |].
    - rewrite Hiteration. by apply elem_of_map_to_list.
    - rewrite H2. apply D2; [by rewrite <- T2|done]. }
  exists (set_heap hp (set_gdi gd w2)). split.
  { rewrite (bind_eq _ _ _ _ _ Hloop).
    by rewrite (bind_eq (UpdateWindows ndebug iteration) _ w2 tt (set_heap hp (set_gdi gd w2)) Hup). }
  split; [done|]. split; [done|]. split; [|split; [exact (eq_trans T2 D1)|split; [exact Hheap|]]].
  - split; [|exact (tb_inj _ Ht2)]. intros h p Hh. cbn in Hh.
    assert (sWindowMap w1 !! h = Some p) as Hh1 by (by rewrite <- T2).
    destruct (heap_after w ms w1 h p Ht Hd1 Hh1) as (g & Hg & Hr & _). eexists. split; [by apply (Hheap h p g)|].
    cbn. rewrite I2, D4. exact Hr.
  - cbn. by rewrite R2, D5, Hrunning, D3, T2.
Qed.

(** C27: one turn of [Run], in which the queue holds the messages [ms], none of them
    a [WM_CREATE], over windows that are ready to draw.  It returns and goes round
    again; the destroyed windows, and no others, are out of the table; every key
    message of a window still there, release or press, went to its keyboard as a
    press, and its frame was then ended by one [PostUpdate]; a quit posted by a
    destruction is used up, and stops the loop exactly if no window is left. *)
Theorem frame_runs ms rest w :
  table_ok w → Forall queued ms → mIsRunning w = true →
  peeks w = (Some <$> ms) ++ None :: (if quit_posted w || existsb destroys ms then None :: rest else rest) →
  ∃ w', Run_turn ndebug iteration w = Some (None, w') ∧
    peeks w' = rest ∧ quit_posted w' = false ∧ table_ok w' ∧
    sWindowMap w' = remaining (sWindowMap w) ms ∧
    (∀ h p g, sWindowMap w' !! h = Some p → heap w !! p = Some g →
      heap w' !! p = Some (with_input (foldl exec (mInput g) (key_ops h ms ++ [OpFrame])) g)) ∧
    mIsRunning w' = negb ((quit_posted w || existsb destroys ms) && bool_decide (sWindowMap w' = ∅)).
Proof. apply frame_run. Qed.

(** The window that closes last ends the program: once the messages of a frame
    have destroyed every window, [Run] returns true at the end of that frame. *)
Theorem Run_ends_with_last_window ms w :
  table_ok w → Forall queued ms → mIsRunning w = true →
  existsb destroys ms = true → remaining (sWindowMap w) ms = ∅ →
  peeks w = (Some <$> ms) ++ [None; None] →
  ∃ w', Run ndebug iteration w = Some (true, w') ∧ sWindowMap w' = ∅ ∧ mIsRunning w' = false.
Proof.
  intros Ht Hq Hrun Hds Hrem Hp.
  destruct (frame_run ms [] w Ht Hq Hrun) as (w' & Hframe & _ & _ & _ & Hmap & _ & Hstop);
    [by rewrite Hds, orb_true_r|].
  rewrite Hrem in Hmap. rewrite Hds, orb_true_r, Hmap, bool_decide_true in Hstop by done.
  exists w'. split; [|done]. unfold Run. rewrite gets_bind, Hp, length_app, length_fmap. cbn [length].
  replace (S (length ms + 2)) with (S (S (S (length ms)))) by lia.
  rewrite (forever_again _ _ _ _ Hframe). apply forever_stop. unfold Run_turn. by rewrite gets_bind, Hstop.
Qed.

(** The frames of the loop, one after another. *)
Fixpoint frames (n : nat) : M World unit :=
  match n with
  | O => mret tt
  | S n => Run_turn ndebug iteration;; frames n
  end.

Lemma frames_run fs rest w :
  table_ok w → Forall (Forall (λ m, queued m ∧ destroys m = false)) fs → mIsRunning w = true →
  quit_posted w = false → peeks w = (fs ≫= λ ms, (Some <$> ms) ++ [None]) ++ rest →
  ∃ w', frames (length fs) w = Some (tt, w') ∧ sWindowMap w' = sWindowMap w ∧
    ∀ h p g, sWindowMap w !! h = Some p → heap w !! p = Some g →
      heap w' !! p = Some (with_input (foldl exec (mInput g) (fs ≫= λ ms, key_ops h ms ++ [OpFrame])) g).
Proof.
  intros Ht Hfs. revert w Ht. induction Hfs as [|ms fs Hms Hfs IH]; intros w Ht Hrun Hquit Hp.
  - exists w. split; [done|]. split; [done|]. intros h p g _ Hg. rewrite Hg. by destruct g.
  - assert (existsb destroys ms = false ∧ remaining (sWindowMap w) ms = sWindowMap w) as [Hds Hrem].
    { clear -Hms. induction Hms as [|m ms [_ Hm] _ IH]; [done|]. cbn. by rewrite Hm. }
    destruct (frame_run ms ((fs ≫= λ ms, (Some <$> ms) ++ [None]) ++ rest) w Ht) as (w1 & Hrun1 & P1 & Q1 & T1 & M1 & H1 & R1);
      [by eapply Forall_impl; [exact Hms|intros ? [? _]]|done|rewrite Hquit, Hds; cbn [orb]; rewrite Hp; cbn; by rewrite <- !app_assoc|].
    rewrite Hds, Hquit in R1. cbn in R1. rewrite Hrem in M1.
    destruct (IH w1 T1 R1 Q1 P1) as (w' & Hruns & M' & H').
    exists w'. cbn [length frames]. rewrite (bind_eq _ _ _ _ _ Hrun1). split; [done|]. split; [by rewrite M'|].
    intros h p g Hh Hg. assert (sWindowMap w1 !! h = Some p) as Hh1 by (by rewrite M1).
    rewrite (H' h p _ Hh1 (H1 h p g Hh1 Hg)).
    by rewrite bind_cons, (foldl_app _ (key_ops h ms ++ [OpFrame])).
Qed.

(** No key is ever released through a window.  Whatever the messages over any
    number of frames, of a window whose [Input] was new, no key is ever UP, and every
    key with a message, be it only [WM_KEYUP], is DOWN or PRESS from then on. *)
Theorem keys_never_released fs rest w h p g raw :
  table_ok w → Forall (Forall (λ m, queued m ∧ destroys m = false)) fs → mIsRunning w = true →
  quit_posted w = false → peeks w = (fs ≫= λ ms, (Some <$> ms) ++ [None]) ++ rest →
  sWindowMap w !! h = Some p → heap w !! p = Some g → Input.wf raw → mInput g = Input_construct raw →
  ∃ w' g', frames (length fs) w = Some (tt, w') ∧ heap w' !! p = Some g' ∧
    ∀ k, GetKeyState k (mInput g') ≠ UP ∧
      ((∃ ms m, ms ∈ fs ∧ m ∈ ms ∧ hwnd m = h ∧ is_key (message m) = true ∧ u8 (wParam m) = u8 k) →
       GetKeyState k (mInput g') = DOWN ∨ GetKeyState k (mInput g') = PRESS).
Proof.
  intros Ht Hfs Hrun Hquit Hp Hh Hg Hwf Hin.
  destruct (frames_run fs rest w Ht Hfs Hrun Hquit Hp) as (w' & Hruns & _ & Hheap).
  exists w'. eexists. split; [done|]. split; [by apply (Hheap h p g)|]. intros k. cbn [with_input mInput]. rewrite Hin.
  set (os := fs ≫= _).
  assert (∀ o, o ∈ os ↔ ∃ ms, o ∈ key_ops h ms ++ [OpFrame] ∧ ms ∈ fs) as Hos by (intros o; apply list_elem_of_bind).
  assert (Forall no_release os) as Hno.
  { apply Forall_forall. intros o Ho k'. apply Hos in Ho as (ms & Ho & _). apply elem_of_app in Ho as [Ho|Ho].
    - unfold key_ops in Ho. apply list_elem_of_omap in Ho as (m & _ & Hm). destruct (_ && _); by simplify_eq.
    - apply list_elem_of_singleton in Ho. by subst. }
  destruct (presses_state raw os k Hwf Hno) as [Hup Hheld]. split; [done|].
  intros (ms & m & Hms & Hm & Hmh & Hkey & Hk). apply Hheld. apply Exists_exists.
  exists (OpDown (u8 (wParam m))). split; [|eexists; split; [done|]; unfold u8, uwrap in *; by rewrite Z.mod_mod].
  apply Hos. exists ms. split; [|done]. apply elem_of_app. left. apply list_elem_of_omap. exists m. split; [done|].
  by rewrite bool_decide_true, Hkey.
Qed.
End Frame.

Section Creation.
Context (ndebug : bool) (texture_memory : Texture) (renderer_memory : Renderer).
Context (AdjustWindowRect : Z → Z → Z * Z * Z * Z) (screen : Z * Z).

Lemma deref_bind {A} p (f : GameWindow → M World A) w g : heap w !! p = Some g → (deref p ≫= f) w = f g w.
Proof. intros Hg. unfold deref, mbind, M_bind. by rewrite Hg. Qed.

Lemma assign_bind {A} p g (f : unit → M World A) w : (assign p g ≫= f) w = f tt (set_heap (<[p := g]> (heap w)) w).
Proof. done. Qed.

Lemma with_renderer_run {A} p (m : WindowView → M Renderer.World A) w g r a rw :
  heap w !! p = Some g → mRenderer g = Some r →
  m (mkWindowView (mHandle g) (mSize g)) (Renderer.mkWorld r (gdi w)) = Some (a, rw) →
  with_renderer p m w = Some (a, set_gdi (Renderer.gdi rw)
    (set_heap (<[p := mkGameWindow (mHandle g) (mSize g) (mInput g) (Some (Renderer.renderer rw))]> (heap w)) w)).
Proof. intros Hg Hr Hm. unfold with_renderer. rewrite Hg. cbn. rewrite Hr. cbn. by rewrite Hm. Qed.

(** What [OnCreate] leaves: the renderer and the texture number. *)
Lemma OnCreate_run p w g dc mdc bmp old img rest size ss :
  heap w !! p = Some g → handles (gdi w) = dc :: mdc :: bmp :: old :: img :: rest →
  (img ≠ 0 → ∃ dc2 old2 hs, rest = dc2 :: old2 :: hs) → bitmap_sizes (gdi w) = size :: ss →
  ∃ w' r, OnCreate texture_memory renderer_memory p w = Some (tt, w') ∧
    sWindowMap w' = sWindowMap w ∧ win_calls w' = win_calls w ∧ peeks w' = peeks w ∧
    heap w' = <[p := mkGameWindow (mHandle g) (mSize g) (mInput g) (Some r)]> (heap w) ∧
    textures_ok r ∧ (if decide (img = 0) then mTextures r = [] ∧ testTextureID w' = -1
                     else length (mTextures r) = 1%nat ∧ testTextureID w' = 0).
Proof.
  intros Hg Hh Hrest Hs. unfold OnCreate.
  set (w0 := set_heap (<[p := mkGameWindow (mHandle g) (mSize g) (mInput g) (Some renderer_memory)]> (heap w)) w).
  destruct (construct_run (mkWindowView (mHandle g) (mSize g)) (Renderer.mkWorld renderer_memory (gdi w))
    dc mdc bmp old (img :: rest) Hh) as (rw & Hrun & Hr & Hh1 & Hs1).
  pose proof (with_renderer_run p Renderer_construct w0 _ _ _ _ (lookup_insert_eq _ _ _) eq_refl Hrun) as Hrun1.
  set (w1 := set_gdi _ _) in Hrun1.
  assert (new_Renderer renderer_memory p w = Some (tt, w1)) as Hnew
    by (unfold new_Renderer; rewrite (deref_bind p _ w g Hg), assign_bind; exact Hrun1).
  rewrite (bind_eq _ _ _ _ _ Hnew).
  assert (textures_ok (Renderer.renderer rw)) as Hok by (rewrite Hr; split; [done|]; intros i t Ht; by destruct i).
  assert (∃ id rw2, LoadTexture texture_memory "1720396797316.bmp" (Renderer.mkWorld (Renderer.renderer rw) (gdi w1)) = Some (id, rw2) ∧
    textures_ok (Renderer.renderer rw2) ∧
    if decide (img = 0) then mTextures (Renderer.renderer rw2) = [] ∧ id = -1
    else length (mTextures (Renderer.renderer rw2)) = 1%nat ∧ id = 0) as (id & rw2 & Hload & Hok2 & Hid).
  { case_decide as Hi.
    - subst img. destruct (LoadTexture_none texture_memory "1720396797316.bmp"
        (Renderer.mkWorld (Renderer.renderer rw) (gdi w1)) rest Hh1) as (rw2 & Hload & Hr2).
      exists (-1), rw2. rewrite Hr2. cbn. by rewrite Hr in *.
    - destruct (Hrest Hi) as (dc2 & old2 & hs & ->).
      destruct (LoadTexture_run texture_memory "1720396797316.bmp" (Renderer.mkWorld (Renderer.renderer rw) (gdi w1))
        img dc2 old2 hs size ss Hok Hh1 (eq_trans Hs1 Hs) Hi) as (rw2 & Hload & Hok2 & _ & Ht & _).
      eexists _, rw2. split; [exact Hload|]. split; [done|]. rewrite Ht. cbn. by rewrite Hr. }
  pose proof (with_renderer_run p (λ _, LoadTexture texture_memory "1720396797316.bmp") w1 _ _ _ _
    (lookup_insert_eq _ _ _) eq_refl Hload) as Hrun2.
  rewrite (bind_eq _ _ _ _ _ Hrun2). eexists _, (Renderer.renderer rw2). split; [done|].
  do 3 (split; [done|]). split; [cbn; by rewrite !insert_insert_eq|]. split; [done|exact Hid].
Qed.

Definition centred (size : Z * Z) (h : Z) : WinCall :=
  let '(x0, y0, x1, y1) := AdjustWindowRect (fst size) (snd size) in
  MoveWindow h ((fst screen ⊖ (x1 ⊖ x0)) `quot` 2)%cpp ((snd screen ⊖ (y1 ⊖ y0)) `quot` 2)%cpp (x1 ⊖ x0)%cpp (y1 ⊖ y0)%cpp.

(** [Create] when the system registers the class and makes the window [h].  It
    returns true, with the window in the table, moved so that the adjusted rectangle
    is centred, and shown.  If the bitmap of [OnCreate] was loaded the object is
    ready for every later frame; if it was not, [Create] has returned true all the
    same, the texture number is -1, and the first [Update] indexes the textures with
    it, which is undefined (or fails the assertion). *)
Theorem Create_window p windowSize w g h rg cr dc mdc bmp old img rest size ss :
  heap w !! p = Some g → registers w = true :: rg → creates w = h :: cr → h ≠ 0 →
  h ≠ INVALID_HANDLE_VALUE → 0 ≤ fst windowSize → 0 ≤ snd windowSize → sWindowMap w !! h = None →
  handles (gdi w) = dc :: mdc :: bmp :: old :: img :: rest →
  (img ≠ 0 → ∃ dc2 old2 hs, rest = dc2 :: old2 :: hs) → bitmap_sizes (gdi w) = size :: ss →
  ∃ w' g', Create ndebug texture_memory renderer_memory AdjustWindowRect screen p windowSize w = Some (true, w') ∧
    sWindowMap w' = <[h := p]> (sWindowMap w) ∧ heap w' !! p = Some g' ∧
    mHandle g' = h ∧ mSize g' = windowSize ∧ mInput g' = mInput g ∧
    win_calls w' = win_calls w ++ [RegisterClassExA; CreateWindowA h; DefWindowProcA h WM_CREATE;
      centred windowSize h; ShowWindow h; UpdateWindow h] ∧
    (img ≠ 0 → ready (testTextureID w') g') ∧
    (img = 0 → testTextureID w' = -1 ∧ Update ndebug p w' = None).
Proof.
  intros Hg Hrg Hcr Hh0 Hhi Hx Hy Hmap Hh Hrest Hs. unfold Create. rewrite win_sys_bind.
  rewrite (bind_eq _ _ _ _ _ (win_next_run registers set_registers (log_call RegisterClassExA w) _ _ Hrg)). cbn [negb].
  rewrite (bind_eq _ _ _ _ _ (win_next_run creates set_creates (set_registers _ (log_call RegisterClassExA w)) _ _ Hcr)).
  rewrite win_sys_bind, (proj2 (Z.eqb_neq h 0)) by done. cbn [negb when].
  match goal with |- context [(WndProc ?m ≫= _) ?x] => set (w1 := x) end.
  set (w2 := log_call (DefWindowProcA h WM_CREATE) (set_map (<[h := p]> (sWindowMap w)) w1)).
  assert (WndProc (mkMSG h WM_CREATE 0 p) w1 = Some (tt, w2)) as Hwnd.
  { unfold WndProc. rewrite Z.eqb_refl. rewrite modify_bind. cbn [hwnd lParam message].
    change (sWindowMap w1) with (sWindowMap w). by rewrite Hmap. }
  rewrite (bind_eq _ _ _ _ _ Hwnd), (deref_bind p _ w2 g Hg), assign_bind.
  set (g1 := mkGameWindow h (mSize g) (mInput g) (mRenderer g)). set (w3 := set_heap _ w2).
  set (g2 := mkGameWindow h windowSize (mInput g) (mRenderer g)).
  set (w4 := log_call (centred windowSize h) (set_heap (<[p := g2]> (heap w3)) w3)).
  assert (Resize ndebug AdjustWindowRect screen p windowSize w3 = Some (tt, w4)) as Hres.
  { unfold Resize. rewrite (deref_bind p _ w3 g1 (lookup_insert_eq _ _ _)). unfold assert_. cbn [mHandle g1].
    rewrite (proj2 (Z.eqb_neq _ _) Hhi), (proj2 (Z.leb_le _ _) Hx), (proj2 (Z.leb_le _ _) Hy), !orb_true_r.
    unfold w4, centred. by destruct (AdjustWindowRect _ _) as [[[x0 y0] x1] y1]. }
  rewrite (bind_eq _ _ _ _ _ Hres), !win_sys_bind. set (w5 := log_call _ (log_call _ _)).
  destruct (OnCreate_run p w5 g2 dc mdc bmp old img rest size ss) as (w' & r & Hrun & Hm & Hc & _ & Hhp & Hok & Hid);
    [apply lookup_insert_eq|done|done|done|].
  rewrite (bind_eq _ _ _ _ _ Hrun). eexists w', _. split; [done|]. split; [by rewrite Hm|].
  split; [rewrite Hhp; apply lookup_insert_eq|]. do 3 (split; [done|]).
  split; [rewrite Hc; cbn; by rewrite <- !app_assoc|]. split; intros Hi.
  - rewrite decide_False in Hid by done. destruct Hid as [Hl ->]. exists r. split; [done|]. split; [done|]. lia.
  - rewrite decide_True in Hid by done. destruct Hid as [Hl Hid]. split; [done|].
    destruct (with_renderer_draws p Clear w' _ r (λ v, [Rectangle (mMemDC r) (Window_GetSize v)])
      ltac:(rewrite Hhp; apply lookup_insert_eq) eq_refl ltac:(done)) as [gd Hclear].
    unfold Update. rewrite (bind_eq _ _ _ _ _ Hclear), gets_bind. change (testTextureID (set_gdi gd w')) with (testTextureID w').
    rewrite Hid. unfold mbind, M_bind at 1, with_renderer at 1.
    change (heap (set_gdi gd w')) with (heap w'). rewrite Hhp, lookup_insert_eq. cbn.
    unfold RenderTexture, Renderer.assert_. cbn. rewrite orb_false_r. by destruct ndebug.
Qed.

(** When the class cannot be registered, [Create] returns false and has made
    nothing, the renderer pointer still has no value, and the destructor, which
    [main] runs in this case too, deletes it. *)
Theorem Create_refused p windowSize w raw rg :
  registers w = false :: rg →
  ∃ w1 w2, GameWindow_construct p raw w = Some (tt, w1) ∧
    Create ndebug texture_memory renderer_memory AdjustWindowRect screen p windowSize w1 = Some (false, w2) ∧
    sWindowMap w2 = sWindowMap w ∧ GameWindow_destroy p w2 = None.
Proof.
  intros Hr. eexists _, _. split; [done|]. split.
  { unfold Create. rewrite win_sys_bind.
    match goal with |- context [(next ?g ?s ≫= ?f) ?x] => rewrite (bind_eq _ f x _ _ (win_next_run g s x _ _ Hr)) end.
    reflexivity. }
  split; [done|]. unfold GameWindow_destroy, mbind, M_bind, with_renderer. cbn.
  by rewrite lookup_insert_eq.
Qed.
End Creation.

(** *** Witnesses *)

Definition sample_input : Input := Input_construct (mkInput (replicate 256 UP)).

Definition sample_window (h : Z) : GameWindow :=
  mkGameWindow h (1280, 720) sample_input (Some (mkRenderer 1 2 3 [] [mkTexture 0 10 11 (4, 4)])).

Definition sample_desktop (l : list (option MSG)) : World :=
  mkWorld true {[7 := 100]} {[100 := sample_window 7]} 0 false l [] [] (mkGDI [] [] []) [].

Lemma sample_table_ok l : table_ok (sample_desktop l).
Proof.
  split.
  - intros h p Hp. cbn [sWindowMap sample_desktop] in Hp. apply lookup_singleton_Some in Hp as [<- <-]. exists (sample_window 7).
    split; [apply lookup_singleton_eq|]. eexists. split; [done|]. split; [|by split].
    split; [done|]. intros [|[|i]] t Ht; cbn in Ht; by simplify_eq.
  - intros h h' p Hp Hp'. cbn [sWindowMap sample_desktop] in Hp, Hp'. apply lookup_singleton_Some in Hp as [<- _], Hp' as [<- _]. done.
Qed.

Lemma sample_queued ms : forallb (λ m, negb (hwnd m =? 0) && (negb (message m =? WM_CREATE) && negb (message m =? WM_QUIT))) ms = true →
  Forall queued ms.
Proof.
  intros H. apply Forall_forall. intros m Hm. apply list_elem_of_In in Hm.
  pose proof (proj1 (forallb_forall _ ms) H m Hm) as Hb. unfold queued.
  apply andb_true_iff in Hb as [H1 Hb]. apply andb_true_iff in Hb as [H2 H3].
  by rewrite negb_true_iff, Z.eqb_neq in H1, H2, H3.
Qed.

Definition sample_messages : list MSG := [mkMSG 7 WM_KEYDOWN 65 0; mkMSG 7 WM_KEYUP 66 0; mkMSG 9 WM_DESTROY 0 0].

Lemma frame_runs_witness :
  ∃ w', Run_turn false map_to_list (sample_desktop ((Some <$> sample_messages) ++ [None; None])) = Some (None, w') ∧
    mIsRunning w' = true ∧ sWindowMap w' = {[7 := 100]}.
Proof.
  destruct (frame_runs false map_to_list (λ m, reflexivity _) sample_messages []
    (sample_desktop ((Some <$> sample_messages) ++ [None; None]))) as (w' & Hrun & _ & _ & _ & Hm & _ & Hr).
  - apply sample_table_ok.
  - by apply sample_queued.
  - done.
  - done.
  - exists w'. split; [done|]. assert (sWindowMap w' = {[7 := 100]}) as Hm' by (rewrite Hm; by vm_compute).
    split; [by rewrite Hr, Hm'|done].
Defined.

Lemma Run_ends_with_last_window_witness :
  ∃ w', Run false map_to_list (sample_desktop [Some (mkMSG 7 WM_DESTROY 0 0); None; None]) = Some (true, w').
Proof.
  destruct (Run_ends_with_last_window false map_to_list (λ m, reflexivity _) [mkMSG 7 WM_DESTROY 0 0]
    (sample_desktop [Some (mkMSG 7 WM_DESTROY 0 0); None; None])) as (w' & Hrun & _).
  - apply sample_table_ok.
  - by apply sample_queued.
  - done.
  - done.
  - by vm_compute.
  - done.
  - by exists w'.
Defined.

Definition sample_frames : list (list MSG) := [[mkMSG 7 WM_KEYDOWN 65 0]; [mkMSG 7 WM_KEYUP 65 0]; []].

Lemma keys_never_released_witness :
  ∃ w' g', frames false map_to_list 3 (sample_desktop (sample_frames ≫= λ ms, (Some <$> ms) ++ [None])) = Some (tt, w') ∧
    heap w' !! 100 = Some g' ∧ (GetKeyState 65 (mInput g') = DOWN ∨ GetKeyState 65 (mInput g') = PRESS).
Proof.
  destruct (keys_never_released false map_to_list (λ m, reflexivity _) sample_frames []
    (sample_desktop (sample_frames ≫= λ ms, (Some <$> ms) ++ [None])) 7 100 (sample_window 7)
    (mkInput (replicate 256 UP))) as (w' & g' & Hrun & Hg & Hk).
  - apply sample_table_ok.
  - repeat constructor; done.
  - done.
  - done.
  - by rewrite app_nil_r.
  - apply lookup_singleton_eq.
  - apply lookup_singleton_eq.
  - by vm_compute.
  - done.
  - exists w', g'. split; [done|]. split; [done|]. apply Hk.
    exists [mkMSG 7 WM_KEYUP 65 0], (mkMSG 7 WM_KEYUP 65 0).
    split; [right; left|]. split; [left|]. by repeat split.
Defined.

Definition sample_creation : World :=
  mkWorld true ∅ {[100 := sample_window 0]} (-1) false [] [true] [7] (mkGDI [1; 2; 3; 4; 5; 6; 8] [(64, 64)] []) [].

Lemma Create_window_witness :
  ∃ w' g', Create true (mkTexture 0 0 0 (0, 0)) (mkRenderer 0 0 0 [] []) (λ cx cy, (-8, -30, cx + 8, cy + 8)) (1920, 1080)
      100 (1280, 720) sample_creation = Some (true, w') ∧
    heap w' !! 100 = Some g' ∧ ready (testTextureID w') g'.
Proof.
  destruct (Create_window true (mkTexture 0 0 0 (0, 0)) (mkRenderer 0 0 0 [] []) (λ cx cy, (-8, -30, cx + 8, cy + 8))
    (1920, 1080) 100 (1280, 720) sample_creation (sample_window 0) 7 [] [] 1 2 3 4 5 [6; 8] (64, 64) [])
    as (w' & g' & Hrun & _ & Hg & _ & _ & _ & _ & Hready & _); try done.
  - intros _. by exists 6, 8, [].
  - exists w', g'. split; [done|]. split; [done|]. by apply Hready.
Defined.

Lemma Create_refused_witness :
  ∃ w2, GameWindow_destroy 100 w2 = None.
Proof.
  destruct (Create_refused true (mkTexture 0 0 0 (0, 0)) (mkRenderer 0 0 0 [] []) (λ cx cy, (0, 0, cx, cy)) (1920, 1080)
    100 (1280, 720) (mkWorld true ∅ ∅ (-1) false [] [false] [] (mkGDI [] [] []) []) (sample_window 0) [] eq_refl)
    as (w1 & w2 & _ & _ & _ & Hd).
  by exists w2.
Defined.
End Window.
