(* ===== verification/TestClient.v ===== *)
(** * The test client (tests/performance/test_client.cpp)

    The loop of [main] after the connection: it sends a header and a text, reads
    a header, then as many bytes as the header says into a buffer of 1024, and
    prints the buffer as a C string.  The answers of [send] and [recv] are lists. *)

From S2P Require Import Prelude System.

Module TestClient.

Definition EchoMessage : Z := 1.
Definition recvBufferSize : Z := 1024.

(** [struct MessageHeader { eMessageID mId; int16_t mSize; }], and its members. *)
Definition MessageHeader (mId mSize : Z) : list Byte := to_bytes 2 mId ++ to_bytes 2 mSize.
Definition mId (header : list Byte) : Z := wrap 16 (of_bytes (take 2 header)).
Definition mSize (header : list Byte) : Z := wrap 16 (of_bytes (take 2 (drop 2 header))).
Definition sizeof_MessageHeader : Z := 4.

(** The characters of [testString]. *)
Definition testString : list Byte := [72; 101; 108; 108; 111; 44; 32; 87; 111; 114; 108; 100; 33].

Inductive ClientCall :=
  | OpenSocket
  | Perror
  | Connect
  | Send (bytes : list Byte)
  | Recv (offset len : Z)
  | Println (text : list Byte)
  | PrintError
  | Close.

(** [socket] and [connect] succeed or not; [sends] are the results of [send]. *)
Record Client := mkClient {
  opens : bool;
  connects : bool;
  recvBuffer : list Byte;
  sends : list Z;
  recvs : list RecvAnswer;
  client_calls : list ClientCall
}.

Definition set_buffer (b : list Byte) (c : Client) : Client :=
  mkClient (opens c) (connects c) b (sends c) (recvs c) (client_calls c).
Definition log (cs : list ClientCall) (c : Client) : Client :=
  mkClient (opens c) (connects c) (recvBuffer c) (sends c) (recvs c) (client_calls c ++ cs).

Definition call (x : ClientCall) : M Client unit := modify (log [x]).

Definition send (bytes : list Byte) : M Client Z := λ c,
  match sends c with
  | [] => None
  | n :: ns =>
      if n <=? Z.of_nat (length bytes)
      then Some (n, log [Send bytes] (mkClient (opens c) (connects c) (recvBuffer c) ns (recvs c) (client_calls c)))
      else None
  end.

(** [recv]: at most [len] bytes; the result is 0 or -1 without data. *)
Definition recv (offset len : Z) : M Client (Z * list Byte) := λ c,
  match recvs c with
  | [] => None
  | a :: rs =>
      let c' := log [Recv offset len] (mkClient (opens c) (connects c) (recvBuffer c) (sends c) rs (client_calls c)) in
      match a with
      | RecvData bytes =>
          if (0 <? Z.of_nat (length bytes)) && (Z.of_nat (length bytes) <=? len)
          then Some ((Z.of_nat (length bytes), bytes), c') else None
      | RecvClosed => Some ((0, []), c')
      | RecvError _ => Some ((-1, []), c')
      end
  end.

(** Bytes stored in an array of bytes: [None] outside it. *)
Definition store_at (b : list Byte) (offset : Z) (bytes : list Byte) : option (list Byte) :=
  if (0 <=? offset) && (offset + Z.of_nat (length bytes) <=? Z.of_nat (length b))
  then Some (take (Z.to_nat offset) b ++ bytes ++ drop (Z.to_nat offset + length bytes) b)
  else None.

(** The text up to the first zero byte: [None] if there is none in the array. *)
Fixpoint c_string (b : list Byte) : option (list Byte) :=
  match b with
  | [] => None
  | x :: b => if x =? 0 then Some [] else s ← c_string b; Some (x :: s)
  end.

(** One turn of the loop that receives the [size] bytes of a message: the bytes
    left to receive, or that the connection is over. *)
Definition receive_turn (size remainSize : Z) : M Client (option Z) :=
  '(bytesReceived, bytes) ← recv (size - remainSize) remainSize;
  if bytesReceived <=? 0 then call Close;; mret None
  else
    b ← gets recvBuffer;
    match store_at b (size - remainSize) bytes with
    | None => undefined
    | Some b => modify (set_buffer b);; mret (Some (remainSize - bytesReceived))
    end.

(** Each turn receives a byte at least: [size] turns are enough. *)
Fixpoint receive (fuel : nat) (size remainSize : Z) : M Client bool :=
  if 0 <? remainSize then
    match fuel with
    | O => undefined
    | S fuel =>
        r ← receive_turn size remainSize;
        match r with
        | None => mret false
        | Some remainSize => receive fuel size remainSize
        end
    end
  else mret true.

(** One turn of the loop of [main]: the exit code, or round again. *)
Definition main_turn : M Client (option Z) :=
  bytesSent ← send (MessageHeader EchoMessage (wrap 16 (Z.of_nat (length testString))));
  if bytesSent <=? 0 then call Close;; mret (Some 1)
  else
    bytesSent ← send testString;
    if bytesSent <=? 0 then call Close;; mret (Some 1)
    else
      '(bytesRead, bytes) ← recv 0 sizeof_MessageHeader;
      let header := bytes ++ drop (length bytes) (MessageHeader 0 0) in
      if bytesRead <=? 0 then call Close;; mret (Some 0)
      else if (0 <=? mSize header) && (mSize header <=? recvBufferSize) then
        ok ← receive (Z.to_nat (mSize header)) (mSize header) (mSize header);
        if (ok : bool) then
          (if mId header =? EchoMessage then
             b ← gets recvBuffer;
             match c_string b with
             | None => undefined
             | Some text => call (Println text)
             end
           else mret tt);;
          mret None
        else mret (Some 1)
      else call PrintError;; call Close;; mret (Some 0).

(** [main]: each turn of its loop takes an answer of [recv] or ends. *)
Definition main : M Client Z :=
  call OpenSocket;;
  opened ← gets opens;
  if negb opened then call Perror;; mret 1
  else
    call Connect;;
    connected ← gets connects;
    if negb connected then call Close;; mret 1
    else
      modify (set_buffer (replicate (Z.to_nat recvBufferSize) 0));;
      turns ← gets (λ c, S (length (recvs c)));
      forever turns main_turn.

(** ** Facts *)

Lemma length_store b offset bytes :
  0 ≤ offset → offset + Z.of_nat (length bytes) ≤ Z.of_nat (length b) →
  ∃ b', store_at b offset bytes = Some b' ∧ length b' = length b ∧
    take (Z.to_nat offset + length bytes) b' = take (Z.to_nat offset) b ++ bytes ∧
    drop (Z.to_nat offset + length bytes) b' = drop (Z.to_nat offset + length bytes) b.
Proof.
  intros H0 H1. unfold store_at. rewrite (proj2 (Z.leb_le _ _) H0), (proj2 (Z.leb_le _ _) H1).
  eexists. split; [done|]. split; [len_lia|]. rewrite !app_assoc.
  split; [by rewrite take_app_length' by len_lia|by rewrite drop_app_length' by len_lia].
Qed.

Lemma recv_data offset len bytes rs c :
  recvs c = RecvData bytes :: rs → 0 < Z.of_nat (length bytes) ≤ len →
  recv offset len c = Some ((Z.of_nat (length bytes), bytes),
    log [Recv offset len] (mkClient (opens c) (connects c) (recvBuffer c) (sends c) rs (client_calls c))).
Proof.
  intros Hr [H0 H1]. unfold recv. by rewrite Hr, (proj2 (Z.ltb_lt _ _) H0), (proj2 (Z.leb_le _ _) H1).
Qed.

(** The calls of [recv] for the chunks of a message. *)
Fixpoint recv_calls (size remainSize : Z) (chunks : list (list Byte)) : list ClientCall :=
  match chunks with
  | [] => []
  | x :: chunks => Recv (size - remainSize) remainSize :: recv_calls size (remainSize - Z.of_nat (length x)) chunks
  end.

Lemma receive_chunks chunks rs size remainSize fuel c :
  Forall (λ x, x ≠ []) chunks → Z.of_nat (length (mjoin chunks)) = remainSize → remainSize ≤ size →
  size ≤ Z.of_nat (length (recvBuffer c)) → (Z.to_nat remainSize ≤ fuel)%nat →
  recvs c = (RecvData <$> chunks) ++ rs →
  ∃ c', receive fuel size remainSize c = Some (true, c') ∧ recvs c' = rs ∧ sends c' = sends c ∧
    length (recvBuffer c') = length (recvBuffer c) ∧
    recvBuffer c' = take (Z.to_nat (size - remainSize)) (recvBuffer c) ++ mjoin chunks ++ drop (Z.to_nat size) (recvBuffer c) ∧
    client_calls c' = client_calls c ++ recv_calls size remainSize chunks.
Proof.
  intros Hne. revert remainSize fuel c. induction Hne as [|x chunks Hx Hne IH]; intros remainSize fuel c Hsum Hle Hb Hf Hr.
  - cbn in Hsum. subst remainSize. exists c. split; [by destruct fuel|]. split; [done|]. split; [done|]. split; [done|].
    split; [|by rewrite app_nil_r]. rewrite Z.sub_0_r. change (mjoin (@nil (list Byte))) with (@nil Byte). cbn [app]. by rewrite take_drop.
  - change (mjoin (x :: chunks)) with (x ++ mjoin chunks) in *.
    rewrite length_app in Hsum. assert (0 < length x)%nat by (by destruct x; [|cbn; lia]).
    destruct fuel as [|fuel]; [lia|]. cbn [receive]. rewrite (proj2 (Z.ltb_lt 0 remainSize)) by lia.
    set (c1 := log [Recv (size - remainSize) remainSize]
      (mkClient (opens c) (connects c) (recvBuffer c) (sends c) ((RecvData <$> chunks) ++ rs) (client_calls c))).
    destruct (length_store (recvBuffer c) (size - remainSize) x) as (b' & Hst & Hlen & Htake & Hdrop); [lia|lia|].
    assert (receive_turn size remainSize c = Some (Some (remainSize - Z.of_nat (length x)), set_buffer b' c1)) as Hturn.
    { unfold receive_turn. rewrite (bind_eq _ _ _ _ _ (recv_data (size - remainSize) remainSize x _ c Hr ltac:(lia))).
      rewrite (proj2 (Z.leb_gt _ _)) by lia. rewrite gets_bind. cbn [recvBuffer log]. by rewrite Hst. }
    rewrite (bind_eq _ _ _ _ _ Hturn).
    destruct (IH (remainSize - Z.of_nat (length x)) fuel (set_buffer b' c1)) as (c' & Hrun & Hrs & Hss & Hl & Hbuf & Hcalls);
      [lia|lia|cbn; lia|lia|done|].
    exists c'. split; [done|]. split; [done|]. split; [by rewrite Hss|]. split; [by rewrite Hl|]. split.
    + rewrite Hbuf. cbn [recvBuffer set_buffer].
      replace (Z.to_nat (size - (remainSize - Z.of_nat (length x)))) with (Z.to_nat (size - remainSize) + length x)%nat by lia.
      rewrite Htake, <- !app_assoc. do 3 f_equal.
      replace (Z.to_nat size) with (Z.to_nat (size - remainSize) + length x + (Z.to_nat size - (Z.to_nat (size - remainSize) + length x)))%nat by lia.
      by rewrite <- !(drop_drop _ _ (Z.to_nat (size - remainSize) + length x)), Hdrop.
    + rewrite Hcalls. cbn. by rewrite <- app_assoc.
Qed.

Lemma send_run bytes n ns c :
  sends c = n :: ns → n ≤ Z.of_nat (length bytes) →
  send bytes c = Some (n, log [Send bytes] (mkClient (opens c) (connects c) (recvBuffer c) ns (recvs c) (client_calls c))).
Proof. intros Hs Hn. unfold send. by rewrite Hs, (proj2 (Z.leb_le _ _) Hn). Qed.

(** What the client sends in a turn, and the calls of a turn up to the printing. *)
Definition request : list Byte := MessageHeader EchoMessage 13.

Definition turn_calls (size : Z) (chunks : list (list Byte)) : list ClientCall :=
  [Send request; Send testString; Recv 0 4] ++ recv_calls size size chunks.

Lemma turn_run n1 n2 ss header chunks rs c :
  let size := mSize header in
  sends c = n1 :: n2 :: ss → 0 < n1 ≤ 4 → 0 < n2 ≤ 13 → length header = 4%nat → 0 ≤ size ≤ recvBufferSize →
  Forall (λ x, x ≠ []) chunks → Z.of_nat (length (mjoin chunks)) = size →
  recvs c = RecvData header :: (RecvData <$> chunks) ++ rs → Z.of_nat (length (recvBuffer c)) = recvBufferSize →
  ∃ c', sends c' = ss ∧ recvs c' = rs ∧ Z.of_nat (length (recvBuffer c')) = recvBufferSize ∧
    recvBuffer c' = mjoin chunks ++ drop (Z.to_nat size) (recvBuffer c) ∧
    client_calls c' = client_calls c ++ turn_calls size chunks ∧
    main_turn c =
      if mId header =? EchoMessage
      then text ← c_string (recvBuffer c'); Some (None, log [Println text] c')
      else Some (None, c').
Proof.
  intros size Hs Hn1 Hn2 Hh Hsize Hne Hsum Hr Hb.
  set (c1 := log [Send request] (mkClient (opens c) (connects c) (recvBuffer c) (n2 :: ss) (recvs c) (client_calls c))).
  set (c2 := log [Send testString] (mkClient (opens c1) (connects c1) (recvBuffer c1) ss (recvs c1) (client_calls c1))).
  set (c3 := log [Recv 0 4] (mkClient (opens c2) (connects c2) (recvBuffer c2) ss ((RecvData <$> chunks) ++ rs) (client_calls c2))).
  destruct (receive_chunks chunks rs size size (Z.to_nat size) c3) as (c' & Hrun & Hrs & Hss & Hl & Hbuf & Hcalls);
    [done|done|lia|cbn; lia|lia|done|].
  exists c'. split; [by rewrite Hss|]. split; [done|]. split; [by rewrite Hl|]. split.
  { rewrite Hbuf, Z.sub_diag. done. }
  split; [rewrite Hcalls; cbn; by rewrite <- !app_assoc|].
  unfold main_turn.
  assert (send (MessageHeader EchoMessage (wrap 16 (Z.of_nat (length testString)))) c = Some (n1, c1)) as H1
    by (apply send_run; [done|cbn; lia]).
  assert (send testString c1 = Some (n2, c2)) as H2 by (apply send_run; [done|cbn; lia]).
  assert (recv 0 sizeof_MessageHeader c2 = Some ((Z.of_nat (length header), header), c3)) as H3
    by (apply recv_data; [exact Hr|unfold sizeof_MessageHeader; lia]).
  rewrite (bind_eq _ _ _ _ _ H1), (proj2 (Z.leb_gt n1 0)) by lia.
  rewrite (bind_eq _ _ _ _ _ H2), (proj2 (Z.leb_gt n2 0)) by lia.
  rewrite (bind_eq _ _ _ _ _ H3), (proj2 (Z.leb_gt _ 0)) by lia.
  rewrite (drop_ge (MessageHeader 0 0)), app_nil_r by (rewrite Hh; cbn; lia). fold size.
  rewrite (proj2 (Z.leb_le 0 _)), (proj2 (Z.leb_le _ recvBufferSize)) by lia. cbn [andb].
  rewrite (bind_eq _ _ _ _ _ Hrun). destruct (mId header =? EchoMessage); [|done].
  unfold mbind at 1, M_bind at 1, mbind at 1, M_bind at 1. cbn [gets]. unfold gets.
  by destruct (c_string (recvBuffer c')).
Qed.

(** ** Properties *)

(** C31: one message, received in any pieces.  If its size is from 0 to 1024 every
    [recv] writes inside the buffer, to its end what the header announced; the buffer
    then starts with the message and keeps what it held after it; and an echo message
    is printed up to the first zero byte, so with the tail of an earlier, longer
    message; without a zero byte in the buffer, as after 1024 bytes that have none,
    the read for printing leaves the buffer. *)
Theorem turn_receives n1 n2 ss header chunks rs c :
  let size := mSize header in
  let buffer := mjoin chunks ++ drop (Z.to_nat size) (recvBuffer c) in
  sends c = n1 :: n2 :: ss → 0 < n1 ≤ 4 → 0 < n2 ≤ 13 → length header = 4%nat → mId header = EchoMessage →
  0 ≤ size ≤ recvBufferSize → Forall (λ x, x ≠ []) chunks → Z.of_nat (length (mjoin chunks)) = size →
  recvs c = RecvData header :: (RecvData <$> chunks) ++ rs → Z.of_nat (length (recvBuffer c)) = recvBufferSize →
  Forall (λ x, match x with Recv o n => 0 ≤ o ∧ 0 < n ∧ o + n = size | _ => True end) (recv_calls size size chunks) ∧
  match c_string buffer with
  | Some text => ∃ c', main_turn c = Some (None, c') ∧ recvBuffer c' = buffer ∧ recvs c' = rs ∧
      client_calls c' = client_calls c ++ turn_calls size chunks ++ [Println text]
  | None => main_turn c = None
  end.
Proof.
  intros size buffer Hs Hn1 Hn2 Hh Hid Hsize Hne Hsum Hr Hb. split.
  - assert (∀ remain, Z.of_nat (length (mjoin chunks)) = remain → remain ≤ size →
      Forall (λ x, match x with Recv o n => 0 ≤ o ∧ 0 < n ∧ o + n = size | _ => True end) (recv_calls size remain chunks))
      as H; [|by apply H].
    clear - Hne. induction Hne as [|x chunks Hx _ IH]; intros remain Hrem Hle; [constructor|].
    change (mjoin (x :: chunks)) with (x ++ mjoin chunks) in Hrem. rewrite length_app in Hrem.
    assert (0 < length x)%nat by (by destruct x; [|cbn; lia]).
    constructor; [lia|]. apply IH; lia.
  - destruct (turn_run n1 n2 ss header chunks rs c Hs Hn1 Hn2 Hh Hsize Hne Hsum Hr Hb)
      as (c' & _ & Hrs & _ & Hbuf & Hcalls & Hturn).
    rewrite Hid, Z.eqb_refl, Hbuf in Hturn. fold size in Hturn. fold buffer in Hturn.
    destruct (c_string buffer) as [text|]; [|exact Hturn]. eexists. split; [exact Hturn|].
    split; [exact Hbuf|]. split; [done|]. cbn. rewrite Hcalls. by rewrite <- app_assoc.
Qed.

Definition printed (c : ClientCall) : option (list Byte) :=
  match c with
  | Println text => Some text
  | _ => None
  end.

Lemma printed_recv_calls size remain chunks : omap printed (recv_calls size remain chunks) = [].
Proof. revert remain. induction chunks as [|x chunks IH]; intros remain; [done|apply IH]. Qed.

(** The echo of a turn's message, received in the pieces [chunks]. *)
Definition echo (chunks : list (list Byte)) : list RecvAnswer := RecvData request :: (RecvData <$> chunks).

Definition in_pieces (chunks : list (list Byte)) : Prop := Forall (λ x, x ≠ []) chunks ∧ mjoin chunks = testString.

(** The buffer before and after such a message. *)
Definition text_buffer : list Byte := testString ++ replicate 1011 0.

Lemma echo_turn chunks ss rs c :
  in_pieces chunks → sends c = 4 :: 13 :: ss → recvs c = echo chunks ++ rs →
  recvBuffer c = replicate 1024 0 ∨ recvBuffer c = text_buffer →
  ∃ c', main_turn c = Some (None, c') ∧ sends c' = ss ∧ recvs c' = rs ∧ recvBuffer c' = text_buffer ∧
    omap printed (client_calls c') = omap printed (client_calls c) ++ [testString].
Proof.
  intros [Hne Hsum] Hs Hr Hb.
  assert (Z.of_nat (length (recvBuffer c)) = recvBufferSize ∧ drop 13 (recvBuffer c) = replicate 1011 0) as [Hlen Hdrop]
    by (destruct Hb as [-> | ->]; by vm_compute).
  destruct (turn_run 4 13 ss request chunks rs c Hs) as (c' & Hss & Hrs & _ & Hbuf & Hcalls & Hturn);
    [lia|lia|done|by vm_compute|done|by rewrite Hsum|exact Hr|done|].
  change (Z.to_nat (mSize request)) with 13%nat in Hbuf. rewrite Hsum, Hdrop in Hbuf. fold text_buffer in Hbuf.
  eexists. split; [rewrite Hturn, Hbuf; reflexivity|]. split; [done|]. split; [done|]. split; [done|].
  cbn [client_calls log]. rewrite Hcalls. unfold turn_calls. rewrite !omap_app, printed_recv_calls, <- !app_assoc. done.
Qed.

Lemma echo_turns css ss rs fuel c :
  Forall in_pieces css → sends c = (css ≫= λ _, [4; 13] : list Z) ++ ss → recvs c = (css ≫= echo) ++ rs →
  recvBuffer c = replicate 1024 0 ∨ recvBuffer c = text_buffer →
  ∃ c', forever (length css + fuel) main_turn c = forever fuel main_turn c' ∧ sends c' = ss ∧ recvs c' = rs ∧
    omap printed (client_calls c') = omap printed (client_calls c) ++ replicate (length css) testString ∧
    recvBuffer c' = match css with [] => recvBuffer c | _ => text_buffer end.
Proof.
  intros Hcss. revert c. induction Hcss as [|chunks css Hch Hcss IH]; intros c Hs Hr Hb.
  - exists c. by rewrite app_nil_r.
  - rewrite bind_cons, <- app_assoc in Hr.
    destruct (echo_turn chunks _ _ c Hch Hs Hr Hb)
      as (c1 & Hrun & Hs1 & Hr1 & Hb1 & Hp1).
    destruct (IH c1 Hs1 Hr1 (or_intror Hb1)) as (c' & Hruns & Hs' & Hr' & Hp' & Hb').
    exists c'. cbn [length Nat.add]. rewrite (forever_again _ _ _ _ Hrun). split; [done|]. split; [done|]. split; [done|].
    split; [by rewrite Hp', Hp1, <- app_assoc|]. rewrite Hb', Hb1. by destruct css.
Qed.

(** The connection ends after [k] bytes of the header of an echo. *)
Definition cut_off (k : nat) : list RecvAnswer :=
  (if decide (k = 0%nat) then [] else [RecvData (take k request)]) ++ [RecvClosed].

(** The line that [main] prints for it, after [n] whole echoes. *)
Definition cut_line (n k : nat) : list (list Byte) :=
  if decide (0 < k < 3)%nat then [if decide (n = 0%nat) then [] else testString] else [].

Lemma closed_turn o cn b ss cs :
  main_turn (mkClient o cn b (4 :: 13 :: ss) [RecvClosed] cs) =
    Some (Some 0, mkClient o cn b ss [] ((((cs ++ [Send request]) ++ [Send testString]) ++ [Recv 0 4]) ++ [Close])).
Proof. reflexivity. Qed.

(** One or two bytes of a header, completed by zeros: an echo message of size 0. *)
Lemma cut_turn k o cn b ss rs cs line :
  k = 1%nat ∨ k = 2%nat → c_string b = Some line →
  main_turn (mkClient o cn b (4 :: 13 :: ss) (RecvData (take k request) :: rs) cs) =
    Some (None, mkClient o cn b ss rs ((((cs ++ [Send request]) ++ [Send testString]) ++ [Recv 0 4]) ++ [Println line])).
Proof.
  intros Hk Hl.
  assert (main_turn (mkClient o cn b (4 :: 13 :: ss) (RecvData (take k request) :: rs) cs) =
    match (match c_string b with None => undefined | Some line => call (Println line) end)
        (mkClient o cn b ss rs (((cs ++ [Send request]) ++ [Send testString]) ++ [Recv 0 4])) with
    | Some (_, c) => Some (None, c)
    | None => None
    end) as ->; [|by rewrite Hl]. clear Hl. destruct Hk as [-> | ->]; reflexivity.
Qed.

(** Three bytes or four: the size of the echo, of which nothing comes. *)
Lemma cut_body_turn k o cn b ss cs :
  k = 3%nat ∨ k = 4%nat →
  main_turn (mkClient o cn b (4 :: 13 :: ss) (RecvData (take k request) :: [RecvClosed]) cs) =
    Some (Some 1, mkClient o cn b ss []
      (((((cs ++ [Send request]) ++ [Send testString]) ++ [Recv 0 4]) ++ [Recv 0 13]) ++ [Close])).
Proof. by intros [-> | ->]. Qed.

Lemma cut_off_ends k n fuel c :
  (k ≤ 4)%nat → sends c = [4; 13; 4; 13] → recvs c = cut_off k →
  recvBuffer c = (if decide (n = 0%nat) then replicate 1024 0 else text_buffer) →
  ∃ c', forever (S (S fuel)) main_turn c = Some (if decide (k < 3)%nat then 0 else 1, c') ∧
    omap printed (client_calls c') = omap printed (client_calls c) ++ cut_line n k.
Proof.
  intros Hk Hs Hr Hb.
  assert (c_string (recvBuffer c) = Some (if decide (n = 0%nat) then [] else testString)) as Hl
    by (rewrite Hb; destruct (decide (n = 0%nat)); by vm_compute).
  destruct c as [o cn b ss rs cs]. cbn in Hs, Hr, Hl. clear Hb. subst ss rs. unfold cut_off, cut_line.
  destruct (decide (k = 0%nat)) as [->|Hk0].
  - cbn [app]. rewrite (forever_stop _ _ _ _ _ (closed_turn o cn b [4; 13] cs)). eexists. split; [done|].
    cbn [client_calls]. by rewrite !omap_app, <- !app_assoc.
  - cbn [app]. destruct (decide (k < 3)%nat).
    + rewrite (decide_True (P := (0 < k < 3)%nat)) by lia.
      rewrite (forever_again _ _ _ _ (cut_turn k o cn b [4; 13] [RecvClosed] cs _ ltac:(lia) Hl)).
      rewrite (forever_stop _ _ _ _ _ (closed_turn o cn b [] _)). eexists. split; [done|].
      cbn [client_calls]. rewrite !omap_app, <- !app_assoc. done.
    + rewrite (decide_False (P := (0 < k < 3)%nat)) by lia.
      rewrite (forever_stop _ _ _ _ _ (cut_body_turn k o cn b [4; 13] cs ltac:(lia))). eexists. split; [done|].
      cbn [client_calls]. by rewrite !omap_app, <- !app_assoc.
Qed.


(** *** Witnesses *)

Definition sample_client (ss : list Z) (rs : list RecvAnswer) : Client :=
  mkClient true true (replicate 1024 0) ss rs [].

Lemma turn_receives_witness :
  main_turn (sample_client [4; 13] [RecvData (MessageHeader 1 1024); RecvData (replicate 1000 7); RecvData (replicate 24 8)]) = None.
Proof.
  apply (turn_receives 4 13 [] (MessageHeader 1 1024) [replicate 1000 7; replicate 24 8] []
    (sample_client [4; 13] [RecvData (MessageHeader 1 1024); RecvData (replicate 1000 7); RecvData (replicate 24 8)])).
  - done.
  - lia.
  - lia.
  - done.
  - done.
  - by vm_compute.
  - by repeat constructor.
  - done.
  - done.
  - done.
Defined.

End TestClient.
