(* ===== verification/Conversation.v ===== *)
(** * The test server and the test client together (tests/performance)

    What the client of TestClient.v sends is what the server of TestServer.v
    receives, cut into pieces by the network as it likes, and what the server writes
    is what the client receives, cut as it likes except that the four bytes of the
    header come together: the client takes what its first [recv] gives for a header
    (test_client.cpp:61; what a cut one does is in TestClient.v).  A client turn is one request; the server
    may see it in one run of its receive job or in several. *)

From S2P Require Import Prelude System RecvBuffer Session TestServer TestClient.

Module Conversation.
Import RecvBuffer TestServer TestClient.

Section Conversation.
Context (v : ServerView) `{!QuietDisconnect v}.

(** ** The server's side *)

(** The answers to one run of the receive job: the pieces of [m], and the write of
    its echo, which the system takes whole once it is not interrupted. *)
Definition hears (m : Message) (w : World) : World :=
  mkWorld (session w)
    (mkOS (arriving [m]) (accepted [m]) [None] (calls (os w))) (buffer_address w).

Definition written_packets (c : Call) : option (list iovec) :=
  match c with CallWritev _ ps => Some ps | _ => None end.

(** Runs of the receive job for [ms], and the bytes that they write: those of the
    packets of the last [writev] of each run, as they lie in memory then. *)
Inductive runs : World → list Message → list Byte → World → Prop :=
  | runs_none w : runs w [] [] w
  | runs_next w w1 w' m ms cs ps out :
      receive_job v (hears m w) = Some (tt, w1) →
      calls (os w1) = calls (os w) ++ cs → last (omap written_packets cs) = Some ps →
      runs w1 ms out w' → runs w (m :: ms) (mjoin (packet_bytes w1 <$> ps) ++ out) w'.

(** ** The client's side *)

(** The answers to one turn of the client: its two [send]s are taken whole, and the
    [recv]s get [downs]. *)
Definition reads (downs : list (list Byte)) (c : Client) : Client :=
  mkClient (opens c) (connects c) (recvBuffer c) [4; 13] (RecvData <$> downs) (client_calls c).

Definition sent (x : ClientCall) : option (list Byte) :=
  match x with TestClient.Send bytes => Some bytes | _ => None end.

(** A header that is not cut (the client takes what the first [recv] gives for one). *)
Definition whole_header (downs : list (list Byte)) : Prop :=
  ∃ header chunks, downs = header :: chunks ∧ length header = 4%nat ∧ Forall (λ x, x ≠ []) chunks.

(** ** Both *)

(** One turn of the client, and the server's runs meanwhile.  [ms] are the pieces of
    what the client sends, [downs] those of what the server writes. *)
Inductive exchange (ms : list Message) (downs : list (list Byte)) : World * Client → World * Client → Prop :=
  | exchanged w w' c c' ds :
      Forall message_ok ms → mjoin (text <$> ms) = mjoin (omap sent ds) →
      runs w ms (mjoin downs) w' →
      whole_header downs →
      main_turn (reads downs c) = Some (None, c') → client_calls c' = client_calls c ++ ds →
      exchange ms downs (w, c) (w', c').

Definition turn (st st' : World * Client) : Prop := ∃ ms downs, exchange ms downs st st'.

(** Between turns. *)
Record ready (st : World * Client) : Prop := {
  ready_session : resting (session st.1);
  ready_address : buffer_address st.1 ≠ 0;
  ready_buffer : recvBuffer st.2 = replicate 1024 0 ∨ recvBuffer st.2 = text_buffer
}.

(** ** The server *)

Lemma run_echoes w m :
  resting (session w) → buffer_address w ≠ 0 → message_ok m →
  ∃ w1 cs p, receive_job v (hears m w) = Some (tt, w1) ∧ calls (os w1) = calls (os w) ++ cs ∧
    last (omap written_packets cs) = Some [p] ∧ packet_bytes w1 p = text m ∧
    resting (session w1) ∧ buffer_address w1 = buffer_address w.
Proof.
  intros Hrest Had Hm. destruct w as [s o ad]. cbn [session buffer_address] in *.
  destruct (echo_one v m [] [] s (mkOS (arriving [m]) (accepted [m]) [None] (calls o)) ad)
    as (b & lens & Hrun & Hf & Hr & Hseg); try done.
  - cbn [recv_answers]. unfold arriving. by rewrite bind_cons, app_nil_r.
  - cbn [writev_answers]. unfold accepted. by rewrite bind_cons, app_nil_r.
  - eexists _, _, (mkIovec ad (size m)). split; [exact Hrun|]. split_and!; [done| | |by destruct Hrest; split|done].
    + unfold echo_calls. rewrite !omap_app.
      assert (omap written_packets (CallRecv (mSessionFD s) <$> lens) = []) as -> by (clear; by induction lens).
      assert (∀ fd ps k, omap written_packets (replicate k (CallWritev fd ps)) = replicate k ps) as ->
        by (intros fd ps k; induction k as [|k IH]; [done|cbn; by f_equal]).
      cbn [omap list_omap written_packets app]. rewrite app_nil_r, replicate_S_end. apply last_snoc.
    + unfold packet_bytes. cbn. by rewrite Z.sub_diag.
Qed.

Lemma runs_echo ms w :
  resting (session w) → buffer_address w ≠ 0 → Forall message_ok ms →
  ∃ w', runs w ms (mjoin (text <$> ms)) w' ∧ resting (session w') ∧ buffer_address w' = buffer_address w.
Proof.
  intros Hrest Had Hms. revert w Hrest Had. induction Hms as [|m ms Hm _ IH]; intros w Hrest Had.
  - exists w. split; [constructor|done].
  - destruct (run_echoes w m Hrest Had Hm) as (w1 & cs & p & Hrun & Hc & Hl & Hp & Hrest1 & Had1).
    destruct (IH w1 Hrest1) as (w' & Hruns & Hrest' & Had'); [by rewrite Had1|].
    exists w'. split; [|by rewrite Had', Had1]. rewrite fmap_cons. cbn [mjoin list_join]. rewrite <- Hp.
    rewrite <- (app_nil_r (packet_bytes w1 p)). by eapply (runs_next w w1 w' m ms cs [p]).
Qed.

(** The runs have one outcome. *)
Lemma runs_fun w ms out out' w1 w2 : runs w ms out w1 → runs w ms out' w2 → out' = out ∧ w2 = w1.
Proof.
  intros Hruns. revert out' w2. induction Hruns as [w|w w1 w' m ms cs ps out Hrun Hc Hl _ IH]; intros out' w2 H2.
  - by inversion H2.
  - inversion H2 as [|? w3 ? ? ? cs' ps' out2 Hrun' Hc' Hl' Hruns']; subst.
    rewrite Hrun in Hrun'. injection Hrun' as <-. rewrite Hc in Hc'. apply app_inv_head in Hc' as <-.
    rewrite Hl in Hl'. injection Hl' as <-. by destruct (IH _ _ Hruns') as [-> ->].
Qed.

(** ** The client *)

(** Computations that send nothing. *)
Definition silent {A} (m : M Client A) : Prop :=
  ∀ c a c', m c = Some (a, c') → ∃ ds, client_calls c' = client_calls c ++ ds ∧ omap sent ds = [].

Lemma silent_bind {A B} (m : M Client A) (f : A → M Client B) :
  silent m → (∀ a, silent (f a)) → silent (m ≫= f).
Proof.
  intros Hm Hf c b c' (a & c1 & H1 & H2)%bind_inv.
  apply Hm in H1 as (ds1 & Hc1 & Hs1). apply Hf in H2 as (ds2 & Hc2 & Hs2).
  exists (ds1 ++ ds2). rewrite Hc2, Hc1, app_assoc, omap_app. by rewrite Hs1, Hs2.
Qed.

Lemma silent_pure {A} (m : M Client A) : (∀ c a c', m c = Some (a, c') → client_calls c' = client_calls c) → silent m.
Proof. intros Hm c a c' H. exists []. by rewrite app_nil_r, (Hm _ _ _ H). Qed.

Lemma silent_call x : sent x = None → silent (call x).
Proof. intros Hx c a c' [= <- <-]. exists [x]. split; [done|]. cbn. by rewrite Hx. Qed.

Lemma silent_recv offset len : silent (recv offset len).
Proof.
  intros c a c'. unfold recv. destruct (recvs c) as [|[bytes| |e] rs]; [done| |..];
    [destruct (_ && _); [|done]|..]; intros [= <- <-]; by exists [Recv offset len].
Qed.

Ltac silently :=
  repeat first
    [ apply silent_recv | by apply silent_call | apply silent_bind; [|intros ?]
    | by apply silent_pure; intros ??? [= <- <-] | by apply silent_pure | case_match ].

Lemma silent_receive fuel size remain : silent (receive fuel size remain).
Proof.
  revert remain. induction fuel as [|fuel IH]; intros remain; cbn [receive]; [silently|].
  case_match; [|silently]. apply silent_bind; [unfold receive_turn; silently|intros [r|]]; [apply IH|silently].
Qed.

(** A turn sends its request, whatever it gets. *)
Lemma turn_sends downs c r c' :
  main_turn (reads downs c) = Some (r, c') →
  ∃ ds, client_calls c' = client_calls c ++ ds ∧ mjoin (omap sent ds) = request ++ testString.
Proof.
  intros Hrun. unfold main_turn in Hrun.
  set (c1 := log [Send request] (mkClient (opens c) (connects c) (recvBuffer c) [13] (RecvData <$> downs) (client_calls c))) in *.
  set (c2 := log [Send testString] (mkClient (opens c) (connects c) (recvBuffer c) [] (RecvData <$> downs) (client_calls c1))) in *.
  rewrite (bind_eq _ _ (reads downs c) 4 c1) in Hrun by reflexivity. change (4 <=? 0) with false in Hrun. cbv iota in Hrun.
  rewrite (bind_eq _ _ c1 13 c2) in Hrun by reflexivity. change (13 <=? 0) with false in Hrun. cbv iota in Hrun.
  match type of Hrun with ?k _ = _ => assert (silent k) as Hk end.
  { apply silent_bind; [apply silent_recv|]. intros [n bytes]. cbv zeta. repeat first [apply silent_receive | progress silently]. }
  apply Hk in Hrun as (ds & Hc & Hs). exists ([Send request; Send testString] ++ ds). split.
  - rewrite Hc. cbn. by rewrite <- !app_assoc.
  - rewrite omap_app, Hs, app_nil_r. reflexivity.
Qed.

(** The turn that gets the echo of its request. *)
Lemma turn_prints downs c :
  whole_header downs → mjoin downs = request ++ testString →
  recvBuffer c = replicate 1024 0 ∨ recvBuffer c = text_buffer →
  ∃ c', main_turn (reads downs c) = Some (None, c') ∧ recvBuffer c' = text_buffer ∧
    omap printed (client_calls c') = omap printed (client_calls c) ++ [testString].
Proof.
  intros (header & chunks & -> & Hh & Hne) Hsum Hb.
  change (mjoin (header :: chunks)) with (header ++ mjoin chunks) in Hsum.
  apply app_inj_1 in Hsum as [-> Hsum]; [|done].
  destruct (echo_turn chunks [] [] (reads (request :: chunks) c)) as (c' & Hrun & _ & _ & Hb' & Hp); try done.
  { cbn. by rewrite app_nil_r. }
  by exists c'.
Qed.

(** ** Both *)

Lemma exchange_spec ms downs st st' :
  ready st → exchange ms downs st st' →
  ready st' ∧ omap printed (client_calls st'.2) = omap printed (client_calls st.2) ++ [testString].
Proof.
  intros Hready Hx. destruct Hx as [w w' c c' ds Hms Hup Hruns Hwhole Hturn Hc].
  destruct Hready as [Hrest Had Hb]. cbn [fst snd] in *.
  pose proof (turn_sends _ _ _ _ Hturn) as (ds' & Hc' & Hs). rewrite Hc in Hc'. apply app_inv_head in Hc' as <-.
  destruct (runs_echo ms w Hrest Had Hms) as (w1 & Hruns1 & Hrest1 & Had1).
  destruct (runs_fun _ _ _ _ _ _ Hruns1 Hruns) as [Hdown <-]. rewrite Hup, Hs in Hdown.
  destruct (turn_prints downs c Hwhole Hdown Hb) as (c1 & Hturn1 & Hb1 & Hp). rewrite Hturn in Hturn1. injection Hturn1 as <-.
  split; [split; cbn; [done|by rewrite Had1|by right]|done].
Qed.

Lemma exchange_possible ms downs st :
  ready st → Forall message_ok ms → mjoin (text <$> ms) = request ++ testString →
  whole_header downs → mjoin downs = request ++ testString → ∃ st', exchange ms downs st st'.
Proof.
  destruct st as [w c]. intros [Hrest Had Hb] Hms Hup Hwhole Hdown. cbn [fst snd] in *.
  destruct (runs_echo ms w Hrest Had Hms) as (w1 & Hruns & _).
  destruct (turn_prints downs c Hwhole Hdown Hb) as (c1 & Hturn & _).
  pose proof (turn_sends _ _ _ _ Hturn) as (ds & Hc & Hs). exists (w1, c1).
  apply exchanged with ds; try done; [by rewrite Hs|by rewrite Hdown, <- Hup].
Qed.

(** C2: the test server and the test client, over a network that cuts the requests
    into any pieces, and the echoes into any pieces of which the first is the whole
    header (the client takes its [send]s, and the server its [writev]s, to be taken
    whole, and the network does): after any number of turns the client has printed
    "Hello, World!" once for each, and another turn is possible however its request
    and the text of its echo will be cut. *)
Theorem programs_converse n st st' :
  ready st → nsteps turn n st st' →
  omap printed (client_calls st'.2) = omap printed (client_calls st.2) ++ replicate n testString ∧ ready st' ∧
  ∀ ms downs, Forall message_ok ms → mjoin (text <$> ms) = request ++ testString →
    whole_header downs → mjoin downs = request ++ testString → ∃ st'', exchange ms downs st' st''.
Proof.
  intros Hready Hturns. induction Hturns as [st|n st st1 st' (ms & downs & Hx) _ IH].
  - rewrite app_nil_r. split_and!; [done|done|]. intros ms downs. by apply exchange_possible.
  - apply exchange_spec in Hx as [Hready1 Hp]; [|done]. destruct (IH Hready1) as (Hp' & Hready' & Hnext).
    split_and!; [|done|done]. by rewrite Hp', Hp, <- app_assoc.
Qed.

End Conversation.

(** *** Witness *)

(** The request comes in two runs of the receive job, the first of which is
    interrupted; the echo in three pieces. *)
Definition sample_runs : list Message :=
  [mkMessage [RecvData request; RecvError EINTR; RecvData (take 3 testString)] 1; mkMessage [RecvData (drop 3 testString)] 0].
Definition sample_downs : list (list Byte) := [request; take 7 testString; drop 7 testString].
Definition sample_pair : World * Client :=
  (mkWorld fresh_session (mkOS [] [] [] []) 4096, sample_client [] []).

Lemma sample_ready : ready sample_pair.
Proof. split; [by split|done|by left]. Qed.

Lemma sample_whole : whole_header sample_downs.
Proof. eexists _, _. split; [done|]. split; [done|]. by repeat constructor. Qed.

Lemma programs_converse_witness :
  ∃ st, nsteps (turn test_server) 1 sample_pair st ∧ omap printed (client_calls st.2) = [testString] ∧
    ∃ st', exchange test_server sample_runs sample_downs st st'.
Proof.
  assert (Forall message_ok sample_runs) as Hms by (repeat (constructor; [split; [by repeat constructor|done]|]); constructor).
  destruct (exchange_possible test_server sample_runs sample_downs sample_pair sample_ready Hms eq_refl sample_whole eq_refl)
    as [st Hx].
  assert (nsteps (turn test_server) 1 sample_pair st) as Hturns by (by eapply nsteps_once; eexists _, _).
  destruct (programs_converse test_server 1 sample_pair st sample_ready Hturns) as (Hp & _ & Hnext).
  exists st. split; [done|]. split; [exact Hp|]. by apply Hnext; [|reflexivity|apply sample_whole|reflexivity].
Defined.
End Conversation.
